(* ===== verification/_CoqProject ===== *)
-Q . S2P
Prelude.v
GoStrings.v
Apperr.v
GoMonad.v
Triples.v
NetIP.v
GoTime.v
OsExec.v
ObjectStore.v
PgConfig.v
Instances.v
PgBackRest.v
PgCat.v
Runtime.v
DockerFake.v
Stores.v
MetaDB.v
Tables.v
Provision.v
ProvisionOps.v
ProvisionFacts.v
Samples.v
ProvisionSafety.v
Polling.v
ProvisionOrder.v
RestoreSafety.v
Redact.v
Failover.v
FailoverSafety.v
FailoverRun.v
Backup.v
BackupSafety.v
Auth.v
AuthFacts.v
Router.v
Alerts.v
AlertsFacts.v
Timescale.v
Health.v
Hub.v
Secrets.v
Scheduler.v
MetaBackup.v
RemoteBackup.v
RemoteSafety.v
AuditLog.v
Users.v
UsersApi.v
UsersSafety.v
ClusterCtl.v
ClusterCreate.v
ClusterSafety.v
Reconcile.v
AsyncTracker.v
ApiFleet.v
Wiring.v
ApiSafety.v
EventsLog.v
Metrics.v
Periodic.v
PeriodicSafety.v
ApiData.v
ApiDataSafety.v
GoParse.v
Config.v
PoolStats.v
Compose.v
Moby.v
Loadgen.v
LoadgenSafety.v
RestoreCli.v
KeyedLocks.v
MetricsApi.v
EventsStream.v
ImageBuild.v
Store.v
Startup.v
Care.v
CareServices.v
Stewardship.v
