(* ===== verification/Prelude.v ===== *)
(** * PgFleet control plane: a verified model

    PgFleet provisions, backs up, watches and fails over PostgreSQL instances
    that run in containers.  Its control plane is the Go code under
    [src/internal], started by [src/cmd/pgfleet-api]; beside it are a disaster
    recovery tool ([src/cmd/pgfleet]) and a load generator ([src/cmd/loadgen]).
    This library is a model of that code, package by package, and the theorems that
    make it correct.

    ** How the program is put together

    The process reads its configuration ([config]), opens its database, the
    container runtime and the object store, starts its jobs ([scheduler]) and serves
    the API until it is told to stop.  The API ([api]) authenticates a request,
    checks the role it needs and hands it to a service; work that outlives a request
    goes through a tracker ([api/async.go]).  The services change two outside
    worlds: a container runtime (Docker, behind [docker.ContainerRuntime]) and the
    meta database (behind the repositories).  [provision] brings one instance up,
    clones, restores, replicates and removes it; [clusterctl] composes provisioned
    instances into a primary, its replicas and a PgCat router; [failover] replaces a
    dead primary; [reconcile] brings rows back in agreement with containers;
    [backup] runs pgBackRest in the containers and mirrors its catalog;
    [metabackup] and [remotebackup] dump databases to the object store; [health],
    [metrics], [alerts] and [timescale] read and tune running instances.  [ws] fans
    progress out to browsers, [events] and [audit] keep what happened, [user] and
    [auth] say who may do what, [secrets] seals passwords at rest.

    ** Which file models which part

    Foundations.
    - [GoStrings], [GoTime], [NetIP], [GoParse]: the functions of Go's [strings],
      [strconv], [fmt], [time], [net], [net/url] and [encoding/base64] that are
      used; [OsExec]: running programs.
    - [Apperr]: [internal/apperr] and the plain errors of Go.
    - [GoMonad]: effects as state transformers [M S A], their notations and the
      rules of the weakest precondition [wp]; [traced] logs calls.
    - [Triples]: triples whose postcondition also speaks of the appended log.

    Pure components.
    - [Config]: [config]; [PgConfig]: [pgconfig]; [PgBackRest]: [pgbackrest];
      [PgCat]: [pgcat/config.go]; [Compose]: [composegen] and [api/compose.go].
    - [Instances]: [instance/instance.go] and [cluster/cluster.go].
    - [Redact]: [redactSecrets] of [provision/provision.go].

    The outside worlds, as interfaces with laws and as implementations.
    - [Runtime]: [docker/runtime.go], the class [ContainerRuntime] and its contract
      [DockerLaws].  [DockerFake]: [docker/fake.go], the runtime of the tests, with
      the proof that it keeps the contract, and [docker/cappedbuffer.go].  [Moby]:
      [docker/moby.go] over the client of the Docker Engine; [ImageBuild]:
      [docker/build.go].
    - [ObjectStore]: [objectstore] over the client of the S3 SDK.
    - [Stores]: the repositories as the callers see them ([InstanceStore],
      [ClusterStore], [StoreLaws]); [MetaDB]: [instance/repo.go] and
      [cluster/repo.go] over the two tables and their constraints, with the proof
      that they keep the contract; [Tables]: the smaller tables.
    - [Samples]: a concrete world on which the witnesses are evaluated.

    The provisioner.
    - [Provision], [ProvisionOps]: the package [provision], operation by operation.
    - [ProvisionFacts]: frames and cleanup lemmas; [ProvisionSafety],
      [RestoreSafety]: what failing and succeeding operations leave behind;
      [ProvisionOrder]: the order of the effects; [Polling]: the polling loops.
    - [KeyedLocks]: the locks per instance of [provision] and [backup].

    Services over it.
    - [ClusterCtl], [ClusterCreate], [ClusterSafety]: [clusterctl].
    - [Failover], [FailoverSafety], [FailoverRun]: [failover], [events/events.go].
    - [Reconcile]: [reconcile].  [Scheduler]: [scheduler].
    - [Backup], [BackupSafety]: [backup].  [MetaBackup]: [metabackup].
      [RemoteBackup], [RemoteSafety]: [remotebackup].
    - [Health]: [health] and its periodic pass.  [Metrics]: [metrics].
      [Alerts], [AlertsFacts]: [alerts].  [Periodic], [PeriodicSafety]: the other
      periodic passes of [cmd/pgfleet-api].
    - [PoolStats]: [pgcat/stats.go] and [api/pool.go].  [Timescale]: [timescale].
    - [Auth], [AuthFacts], [Router]: [auth] and the route table of [api].
      [Users], [UsersApi], [UsersSafety]: [user], [bootstrap] and the handlers of
      accounts and sessions.  [AuditLog]: [audit].  [Secrets]: [secrets].
    - [Hub], [EventsStream]: [ws].  [EventsLog]: [events/repo.go].

    The API and the processes.
    - [AsyncTracker]: [api/async.go].  [ApiFleet], [ApiSafety]: the handlers of
      instances, clusters, backups and remote restores.  [ApiData],
      [ApiDataSafety]: SQL, commands, dumps, logs, TimescaleDB and alert rules.
      [MetricsApi]: [api/metrics.go], [api/prometheus.go], [metrics/insights.go].
    - [Wiring]: the services composed as [run] of [cmd/pgfleet-api] does;
      [Startup]: that function itself, and [api/server.go]; [Store]: [store],
      [logging] and [version].
    - [Care], [CareServices], [Stewardship]: which containers, volumes and rows the
      wired program touches, whatever runs in whatever order.
    - [RestoreCli]: [cmd/pgfleet].  [Loadgen], [LoadgenSafety]: [cmd/loadgen].

    ** How state and operations correspond

    A Go method that reads or changes the outside world is a function into
    [M S (result A)], where [S] is the world of its collaborators; its guards and
    early returns appear in the order of the source.  An ignored error is a [_];
    a deferred cleanup is the handler of every step after the [defer].  A Go
    interface is a class ([ContainerRuntime], [InstanceStore], [Provisioner], ...);
    a client's theorems are proved against its laws and the implementations
    discharge them.  A world that fails is the normal case: every call to the
    runtime and every SQL statement may return an error.  Code that runs
    concurrently is a relation whose steps are the critical sections, the
    statements of a transaction, the ends of tasks and the ticks
    ([Hub], [EventsStream], [Scheduler], [AsyncTracker], [KeyedLocks], [Loadgen]);
    its properties are invariants of every interleaving.  Code of third parties
    (the Docker Engine, PostgreSQL, pgBackRest, argon2, AES-GCM, the JWT library,
    the S3 SDK, [encoding/json]) is an argument, with the documented behaviour that
    is relied on as the laws of a class, and an implementation that satisfies them.
    Integers that may wrap are kept at their width; a [float64] is a [spec_float] of
    the standard library.

    ** What the theorems show

    - Failover: every run is one of an inductive specification of event sequences
      ([failover_refines]); a replica is promoted only after a quorum agreed, the
      old primary was fenced and it was the most advanced candidate
      ([promotion_safe]); failing over takes enough consecutive failed probes
      ([failover_needs_strikes]).
    - Provisioning: a failed provision, clone or replica leaves nothing behind
      ([provision_no_leak], [clone_no_leak], [replica_no_leak]); a successful one
      passed its milestones in order ([provision_order]); a failed restore leaves
      the live data as it was ([restore_undone_or_swapped]); a drill touches
      nothing ([drill_untouched]); the polling loops end
      ([polling_rounds_enough]); operations under a lock never overlap
      ([ops_serialised]); secret values do not reach error messages
      ([redact_noninterference]).
    - The program as a whole: no sequence of requests, tasks and periodic passes
      touches a container or a volume that is not PgFleet's ([foreign_untouched]),
      and the operations on some instances leave the others alone
      ([instances_isolated]).
    - The runtime: the fake runtime and the client of the Engine keep one contract
      ([fake_laws], [moby_simulates]); the archive of a build context is complete or
      ends in an error ([tar_complete]).
    - Clusters: creation is all or nothing ([create_all_or_nothing]); bringing up
      and tearing down follow their specifications ([bring_up_order],
      [teardown_order]).
    - The database: the constraints are invariants of every operation
      ([MetaDB_invariant]); reconciliation only touches what it may
      ([reconcile_rows]); stored passwords are read back ([stored_password],
      [secret_roundtrip]).
    - Backups: a refresh mirrors the report ([sync_mirrors]); replicas are refused
      ([replicas_refused]); pruning keeps the newest dumps ([prune_keeps_newest]);
      a captured dump is what is fetched, and no password leaks
      ([capture_fetches], [capture_redacts]).
    - Access: every route but the public ones is behind authentication and its role
      ([routes_guarded]); tokens go only to who proved an identity
      ([login_sound], [sso_sound]); an administrator remains ([admin_remains]);
      malformed password hashes never reach the key derivation
      ([decodeHash_sound]).
    - The API: accepted requests become exactly one task ([accepted_work]), tasks
      that fail mark their target ([failed_tasks_marked]) and are waited for at the
      end ([async_drained]); a member of a cluster is not removed on its own
      ([destroy_spares_members]); replies are bounded ([replies_bounded]) and access
      to data is audited first ([data_plane_audited]); windows of metrics and of
      the timeline are what was asked for ([metrics_window], [timeline_spec]).
    - Alerts and health: [Sync] moves the alert table to the findings of a snapshot
      ([alerts_transitions]), and a pass does so for the whole fleet
      ([evaluate_pass]); a report is healthy exactly when its parts are
      ([health_verdict]).
    - Generated text: configuration files, SQL statements, compose files and shell
      scripts cannot be steered by the values put into them ([Generate_tables],
      [Generate_values], [statements_fixed], [compose_roundtrip],
      [restore_script_reads]); server connections are attributed to the member
      whose address fits best ([routing_reference]).
    - Concurrency: the hub never sends on a closed channel ([hub_never_panics]) and
      a stream ends with its subscription ([ws_streams]); calls of the scheduler
      that do not overlap orphan no job ([scheduler_serial]) and a stop ends
      ([stop_terminates]).
    - The processes: a configuration loads exactly when its settings are well formed
      ([Load_spec]); the server closes what it opened in reverse order
      ([startup_shutdown]); the restore command leaves no container behind
      ([restore_cli_clean]); the load generator conserves its pot under every
      interleaving, never deadlocks and so never reports a false alarm
      ([verify_passes], [churn_drains]).

    ** Bounds and fuel

    The loops that are not structural take fuel that is shown to be enough.  The
    three polling loops of the provisioner take a number of rounds computed from
    their deadline and the length of their sleep ([Process]);
    [polling_rounds_enough] shows that more rounds never change the outcome.  The
    restore command polls 1802 rounds of a second against a deadline of 1800
    seconds ([oneShot_loop_more]).  [ParseDuration] takes the length of its text
    ([parse_components_fuel]), the batches of the load generator the number of
    events ([seed_events_ends]).  The reader of scripts in the specification of the
    restore command ([read_script]) takes one unit per step of the script.

    ** What is not modelled, and why

    - The migrations themselves: the constraints they create are part of the tables.
    - Log lines and what the commands print: text for operators.
    - Flag parsing of the commands, the [%g] format of a float, Unicode's case
      folding and the inside of a bracketed IPv6 host are arguments.
    - Matching a URL against a route pattern, decoding JSON and the WebSocket
      protocol are their libraries'.
    - The test helpers and the TypeScript front end. *)

From stdpp Require Export base gmap strings sorting pretty numbers option list.

(** ** Scopes and notations *)

Declare Scope go_scope.
Delimit Scope go_scope with go.

(** ** Automation shared by every file *)

Create HintDb go.
Create HintDb wp.
Create Rewrite HintDb gostr.

(** [case_matches] splits on every [match] that blocks the goal or a
    hypothesis, simplifying as it goes. *)
Ltac case_matches := repeat (case_match; simplify_eq/=).

(** [split_ands] breaks conjunctions of the goal. *)
Ltac split_ands := repeat match goal with |- _ ∧ _ => split end.

(** [bdestruct b] destructs a boolean and reflects a [bool_decide]. *)
Ltac bd := repeat (case_bool_decide; simplify_eq/=).

(** [if_goal H] takes the first test of a chain [if b then ... else ...] whose
    result is the goal's premise, naming its outcome. *)
Ltac if_goal H :=
  lazymatch goal with |- (if ?b then _ else _) = _ → _ => destruct b eqn:H end.

(** [forall_split] breaks a [Forall] over a list given by its parts, with the
    conditionals in it. *)
Ltac forall_split :=
  repeat
    lazymatch goal with
    | |- Forall _ (_ ++ _) => apply Forall_app_2
    | |- Forall _ (_ :: _) => apply Forall_cons_2
    | |- Forall _ [] => apply Forall_nil_2
    | |- Forall _ (if ?b then _ else _) => destruct b eqn:?
    end.

(** ** Generic list facts *)

Section list_facts.
Context {A : Type}.
Implicit Types (l : list A).

Lemma NoDup_snoc l x : NoDup l → x ∉ l → NoDup (l ++ [x]).
Proof.
  intros Hl Hx. apply list.NoDup_app. split_and!; [done| |apply NoDup_singleton].
  intros y Hy ->%list_elem_of_singleton. done.
Qed.

Lemma filter_length_split (P : A → Prop) `{∀ x, Decision (P x)} l :
  length (filter P l) + length (filter (λ x, ¬ P x) l) = length l.
Proof.
  induction l as [|x l IH]; [done|].
  rewrite !filter_cons. repeat case_decide; simpl; naive_solver lia.
Qed.

Lemma filter_nil_iff (P : A → Prop) `{∀ x, Decision (P x)} l :
  filter P l = [] ↔ ∀ x, x ∈ l → ¬ P x.
Proof.
  split.
  - intros Hf x Hx HP. by eapply filter_nil_not_elem_of.
  - induction l as [|x l IH]; intros Hl; [done|]. rewrite filter_cons_False; [|set_solver].
    apply IH. set_solver.
Qed.
End list_facts.

#[export] Hint Resolve NoDup_snoc lookup_app_l_Some : go.

