(* ===== verification/GoStrings.v ===== *)
(** * Go strings

    The functions of Go's [strings], [strconv] and [fmt] packages the
    repository uses, on strings of bytes (a Go string is a byte sequence, and
    [len] counts bytes).  White space and letter case are Unicode notions in
    Go: [TrimSpace] knows the UTF-8 encoding of every space of
    [unicode.IsSpace]; [ToLower] maps the ASCII letters and the two non-ASCII
    runes whose lower case is ASCII (U+212A and U+0130), and leaves the other
    non-ASCII bytes alone. *)

From Stdlib Require Import Ascii.
From S2P Require Import Prelude.

Implicit Types (s t sep old new : string) (c : ascii).

(** ** Bytes *)

Definition chr (n : nat) : string := String (ascii_of_nat n) EmptyString.
(** The quote, the newline and the other control characters, which string
    literals cannot spell. *)
Definition dq_char : ascii := ascii_of_nat 34.
Definition dq : string := String dq_char EmptyString.
Definition nl_char : ascii := ascii_of_nat 10.
Definition nl : string := String nl_char EmptyString.
Definition cr : string := chr 13.
Definition tab : string := chr 9.
Definition nul : string := chr 0.

Definition byte_val (c : ascii) : nat := nat_of_ascii c.
Definition byte_in (lo hi : nat) (c : ascii) : bool :=
  (lo <=? byte_val c) && (byte_val c <=? hi).
Definition is_lower : ascii → bool := byte_in 97 122.
Definition is_upper : ascii → bool := byte_in 65 90.
Definition is_digit : ascii → bool := byte_in 48 57.
Definition is_letter (c : ascii) : bool := is_lower c || is_upper c.

Definition ascii_eqb (a b : ascii) : bool := bool_decide (a = b).

Fixpoint str_forallb (p : ascii → bool) (s : string) : bool :=
  match s with
  | EmptyString => true
  | String c s' => p c && str_forallb p s'
  end.

Fixpoint str_existsb (p : ascii → bool) (s : string) : bool :=
  match s with
  | EmptyString => false
  | String c s' => p c || str_existsb p s'
  end.

(** [len(s)], [s[:n]] and [s[n:]]. *)
Definition len (s : string) : Z := Z.of_nat (String.length s).

Fixpoint str_take (n : nat) (s : string) : string :=
  match n, s with
  | O, _ => EmptyString
  | S n', String c s' => String c (str_take n' s')
  | S _, EmptyString => EmptyString
  end.

Fixpoint str_drop (n : nat) (s : string) : string :=
  match n, s with
  | O, _ => s
  | S n', String _ s' => str_drop n' s'
  | S _, EmptyString => EmptyString
  end.

Fixpoint str_rev_app (s acc : string) : string :=
  match s with
  | EmptyString => acc
  | String c s' => str_rev_app s' (String c acc)
  end.

Definition str_rev (s : string) : string := str_rev_app s EmptyString.

(** ** Searching *)

Fixpoint str_prefix (p s : string) : bool :=
  match p, s with
  | EmptyString, _ => true
  | String a p', String c s' => ascii_eqb a c && str_prefix p' s'
  | String _ _, EmptyString => false
  end.

Definition HasPrefix (s p : string) : bool := str_prefix p s.
Definition HasSuffix (s p : string) : bool := str_prefix (str_rev p) (str_rev s).

(** [strings.Index]: the least position of [sub], [None] for -1. *)
Fixpoint Index (s sub : string) : option nat :=
  if str_prefix sub s then Some 0
  else match s with
       | EmptyString => None
       | String _ s' => S <$> Index s' sub
       end.

Definition Contains (s sub : string) : bool := bool_decide (is_Some (Index s sub)).

Definition str_elem (c : ascii) (s : string) : bool := str_existsb (ascii_eqb c) s.

(** [strings.ContainsAny] with an ASCII set. *)
Definition ContainsAny (s chars : string) : bool := str_existsb (λ c, str_elem c chars) s.

(** [strings.Cut] around the first [sep]. *)
Definition Cut (s sep : string) : option (string * string) :=
  match Index s sep with
  | Some i => Some (str_take i s, str_drop (i + String.length sep) s)
  | None => None
  end.

(** ** Splitting and joining *)

(** [strings.Split] by a one-byte separator. *)
Fixpoint SplitChar (c : ascii) (s : string) : list string :=
  match s with
  | EmptyString => [EmptyString]
  | String a s' =>
      if ascii_eqb a c then EmptyString :: SplitChar c s'
      else match SplitChar c s' with
           | [] => [String a EmptyString]
           | w :: ws => String a w :: ws
           end
  end.

Fixpoint Join (l : list string) (sep : string) : string :=
  match l with
  | [] => EmptyString
  | [w] => w
  | w :: ws => w +:+ sep +:+ Join ws sep
  end.

Fixpoint str_concat (l : list string) : string :=
  match l with
  | [] => EmptyString
  | w :: ws => w +:+ str_concat ws
  end.

(** ** Replacing *)

(** [strings.ReplaceAll] for a non-empty [old], left to right; [skip] counts
    the bytes of the current match still to drop. *)
Fixpoint replace_go (skip : nat) (s old new : string) : string :=
  match s with
  | EmptyString => EmptyString
  | String c s' =>
      match skip with
      | S k => replace_go k s' old new
      | O => if str_prefix old s
             then new +:+ replace_go (pred (String.length old)) s' old new
             else String c (replace_go 0 s' old new)
      end
  end.

Definition ReplaceAll (s old new : string) : string := replace_go 0 s old new.

(** A one-byte-at-a-time replacement, what [strings.NewReplacer] does when
    every pattern is one byte. *)
Fixpoint replace_bytes (f : ascii → string) (s : string) : string :=
  match s with
  | EmptyString => EmptyString
  | String c s' => f c +:+ replace_bytes f s'
  end.

Fixpoint map_bytes (f : ascii → ascii) (s : string) : string :=
  match s with
  | EmptyString => EmptyString
  | String c s' => String (f c) (map_bytes f s')
  end.

(** ** White space and case *)

(** The UTF-8 encodings of the runes of [unicode.IsSpace]. *)
Definition utf8 (l : list nat) : string :=
  foldr (λ n acc, String (ascii_of_nat n) acc) EmptyString l.

Definition space_runes : list string :=
  (chr <$> [9; 10; 11; 12; 13; 32]) ++
  (utf8 <$> [[194; 133]; [194; 160]; [225; 154; 128]]) ++
  ((λ n, utf8 [226; 128; n]) <$> [128; 129; 130; 131; 132; 133; 134; 135; 136; 137; 138;
                                 168; 169; 175]) ++
  (utf8 <$> [[226; 129; 159]; [227; 128; 128]]).

Fixpoint first_prefix (ps : list string) (s : string) : option nat :=
  match ps with
  | [] => None
  | p :: ps' => if str_prefix p s then Some (String.length p) else first_prefix ps' s
  end.

(** Drop leading runes of [ps]; one byte of fuel per step is enough because
    each step drops at least one. *)
Fixpoint trim_left (fuel : nat) (ps : list string) (s : string) : string :=
  match fuel with
  | O => s
  | S f => match first_prefix ps s with
           | Some n => trim_left f ps (str_drop n s)
           | None => s
           end
  end.

Definition TrimLeftSpace (s : string) : string := trim_left (String.length s) space_runes s.
Definition TrimRightSpace (s : string) : string :=
  str_rev (trim_left (String.length s) (str_rev <$> space_runes) (str_rev s)).
Definition TrimSpace (s : string) : string := TrimRightSpace (TrimLeftSpace s).

Definition lower_byte (c : ascii) : ascii :=
  if is_upper c then ascii_of_nat (byte_val c + 32) else c.

Definition kelvin_sign : string := utf8 [226; 132; 170].
Definition dotted_I : string := utf8 [196; 176].

Fixpoint lower_go (skip : nat) (s : string) : string :=
  match s with
  | EmptyString => EmptyString
  | String c s' =>
      match skip with
      | S k => lower_go k s'
      | O => if str_prefix kelvin_sign s then String (ascii_of_nat 107) (lower_go 2 s')
             else if str_prefix dotted_I s then String (ascii_of_nat 105) (lower_go 1 s')
             else String (lower_byte c) (lower_go 0 s')
      end
  end.

Definition ToLower (s : string) : string := lower_go 0 s.

(** [strings.EqualFold] against an ASCII word without [k] or [s] (the only
    ASCII letters with a non-ASCII fold). *)
Definition EqualFold (s t : string) : bool :=
  bool_decide (map_bytes lower_byte s = map_bytes lower_byte t).

(** ** Numbers *)

(** [strconv.Itoa] and the [%d] verb. *)
Definition itoa (n : Z) : string := pretty n.

Inductive num_result := NumOk (n : Z) | NumSyntax | NumRange.

Fixpoint digits_val (acc : Z) (s : string) : option Z :=
  match s with
  | EmptyString => Some acc
  | String c s' =>
      if is_digit c then digits_val (10 * acc + Z.of_nat (byte_val c - 48)) s' else None
  end.

Definition max_int64 : Z := 9223372036854775807.
Definition min_int64 : Z := -9223372036854775808.

(** [strconv.ParseInt(s, 10, 64)] and, on a 64-bit platform, [strconv.Atoi]. *)
Definition ParseInt64 (s : string) : num_result :=
  let '(neg, body) :=
    match s with
    | String "-" s' => (true, s')
    | String "+" s' => (false, s')
    | _ => (false, s)
    end in
  match body with
  | EmptyString => NumSyntax
  | _ => match digits_val 0 body with
         | None => NumSyntax
         | Some n =>
             let v := if neg : bool then (- n)%Z else n in
             if bool_decide (min_int64 ≤ v ≤ max_int64)%Z then NumOk v else NumRange
         end
  end.

Fixpoint take_digits (s : string) : string :=
  match s with
  | String c s' => if is_digit c then String c (take_digits s') else EmptyString
  | EmptyString => EmptyString
  end.

Fixpoint skip_blanks (s : string) : string :=
  match s with
  | String c s' =>
      if bool_decide (byte_val c ∈ [9; 11; 12; 13; 32]) then skip_blanks s' else s
  | EmptyString => EmptyString
  end.

(** [fmt.Sscanf(s, "%d", &n)]: blanks, a sign, then the longest run of digits;
    what follows is ignored. *)
Definition Sscanf_d (s : string) : option Z :=
  let s1 := skip_blanks s in
  let '(sign, body) :=
    match s1 with
    | String "-" s' => ("-", s')
    | String "+" s' => ("+", s')
    | _ => (EmptyString, s1)
    end in
  match ParseInt64 (sign +:+ take_digits body) with
  | NumOk n => Some n
  | _ => None
  end.

(** [strings.Fields] on the ASCII spaces. *)
Definition Fields (s : string) : list string := String.words s.

(** ** Quoting *)

Definition hex_digit (n : nat) : ascii :=
  if n <? 10 then ascii_of_nat (48 + n) else ascii_of_nat (87 + n).

(** [strconv.Quote] (the [%q] verb): exact on ASCII; bytes above 127 are kept,
    as Go keeps a printable rune. *)
Definition quote_byte (c : ascii) : string :=
  let n := byte_val c in
  if n =? 34 then "\" +:+ dq
  else if n =? 92 then "\\"
  else if n =? 7 then "\a" else if n =? 8 then "\b" else if n =? 12 then "\f"
  else if n =? 10 then "\n" else if n =? 13 then "\r" else if n =? 9 then "\t"
  else if n =? 11 then "\v"
  else if (n <? 32) || (n =? 127)
  then "\x" +:+ String (hex_digit (n / 16)) (String (hex_digit (n mod 16)) EmptyString)
  else String c EmptyString.

Definition Quote (s : string) : string := dq +:+ replace_bytes quote_byte s +:+ dq.

(** [%t]. *)
Definition fmt_bool (b : bool) : string := if b then "true" else "false".

(** ** Regular expressions *)

(** [^F[R]{lo,hi}$] for byte classes [F] and [R]: the form of every regular
    expression the repository validates names with. *)
Definition match_class (first rest : ascii → bool) (lo hi : nat) (s : string) : bool :=
  match s with
  | EmptyString => false
  | String c s' =>
      first c && str_forallb rest s' &&
      (lo <=? String.length s') && (String.length s' <=? hi)
  end.

(** ** Sorting *)

(** [sort.Strings]: byte-wise lexicographic order. *)
Definition sort_strings (l : list string) : list string := merge_sort String.le l.

(** ** Lemmas *)

Lemma app_cons_str c s t : String c s +:+ t = String c (s +:+ t).
Proof. reflexivity. Qed.

Lemma app_nil_l_str s : "" +:+ s = s.
Proof. reflexivity. Qed.

Lemma app_nil_r_str s : s +:+ "" = s.
Proof. induction s as [|c s IH]; [done|]. by rewrite app_cons_str, IH. Qed.

Lemma app_assoc_str s t u : (s +:+ t) +:+ u = s +:+ (t +:+ u).
Proof. induction s as [|c s IH]; [done|]. by rewrite !app_cons_str, IH. Qed.

Lemma length_app_str s t : String.length (s +:+ t) = String.length s + String.length t.
Proof. induction s as [|c s IH]; [done|]. rewrite app_cons_str. cbn. by rewrite IH. Qed.

Lemma ascii_eqb_refl c : ascii_eqb c c = true.
Proof. by apply bool_decide_eq_true. Qed.

Lemma ascii_eqb_eq a c : ascii_eqb a c = true ↔ a = c.
Proof. apply bool_decide_eq_true. Qed.

Lemma prefix_nil s : str_prefix "" s = true.
Proof. reflexivity. Qed.

Lemma prefix_app s t : str_prefix s (s +:+ t) = true.
Proof. induction s as [|c s IH]; [done|]. rewrite app_cons_str. cbn. by rewrite ascii_eqb_refl. Qed.

Lemma prefix_spec p s : str_prefix p s = true ↔ ∃ t, s = p +:+ t.
Proof.
  split; [|intros [t ->]; apply prefix_app].
  revert s. induction p as [|c p IH]; intros s H; [by exists s|].
  destruct s as [|a s]; [done|]. cbn in H. apply andb_true_iff in H as [->%ascii_eqb_eq H].
  destruct (IH _ H) as [t ->]. by exists t.
Qed.

Lemma str_take_app s t : str_take (String.length s) (s +:+ t) = s.
Proof.
  induction s as [|c s IH]; [by destruct t|]. rewrite app_cons_str. cbn. by rewrite IH.
Qed.

Lemma str_drop_app s t : str_drop (String.length s) (s +:+ t) = t.
Proof.
  induction s as [|c s IH]; [by destruct t|]. rewrite app_cons_str. cbn. by rewrite IH.
Qed.

Lemma str_take_drop n s : str_take n s +:+ str_drop n s = s.
Proof.
  revert s. induction n as [|n IH]; intros [|c s]; try done.
  cbn. by rewrite app_cons_str, IH.
Qed.

Lemma str_drop_length n s : String.length (str_drop n s) = String.length s - n.
Proof. revert s. induction n as [|n IH]; intros [|c s]; cbn; try done. Qed.

Lemma str_take_length n s : String.length (str_take n s) = n `min` String.length s.
Proof. revert s. induction n as [|n IH]; intros [|c s]; cbn; try done. by rewrite IH. Qed.

Lemma str_take_0 s : str_take 0 s = "".
Proof. by destruct s. Qed.

Lemma str_take_ge n s : String.length s ≤ n → str_take n s = s.
Proof.
  revert n. induction s as [|c s IH]; intros [|n] Hn; cbn in *; try done; [lia|].
  rewrite IH; [done|lia].
Qed.

(** Taking past a prefix keeps it whole. *)
Lemma str_take_app_le n s t :
  String.length s ≤ n → str_take n (s +:+ t) = s +:+ str_take (n - String.length s) t.
Proof.
  revert n. induction s as [|c s IH]; intros [|n] Hn; cbn [String.length] in *; try lia;
    rewrite ?app_nil_l_str; try done.
  rewrite !app_cons_str. cbn. rewrite IH; [done|lia].
Qed.

Lemma str_take_take_app n s t : str_take n (str_take n s +:+ t) = str_take n (s +:+ t).
Proof.
  revert n. induction s as [|c s IH]; intros [|n]; rewrite ?str_take_0; try done.
  rewrite !app_cons_str. cbn [str_take]. rewrite app_cons_str. cbn [str_take]. by rewrite IH.
Qed.

Lemma str_forallb_app p s t : str_forallb p (s +:+ t) = str_forallb p s && str_forallb p t.
Proof.
  induction s as [|c s IH]; [done|]. rewrite app_cons_str. cbn. by rewrite IH, andb_assoc.
Qed.

Lemma str_forallb_impl (p q : ascii → bool) s :
  (∀ c, p c = true → q c = true) → str_forallb p s = true → str_forallb q s = true.
Proof.
  intros Hpq. induction s as [|c s IH]; [done|]. cbn.
  rewrite !andb_true_iff. intros [H1 H2]. auto.
Qed.

Lemma str_existsb_forallb p s : str_existsb p s = negb (str_forallb (λ c, negb (p c)) s).
Proof. induction s as [|c s IH]; [done|]. cbn. rewrite IH. by destruct (p c). Qed.

Lemma Index_Some s sub n :
  Index s sub = Some n → s = str_take n s +:+ sub +:+ str_drop (n + String.length sub) s.
Proof.
  revert n. induction s as [|c s IH]; intros n; cbn [Index].
  - destruct (str_prefix sub "") eqn:Hp; [|done]. intros [= <-]. by destruct sub.
  - destruct (str_prefix sub (String c s)) eqn:Hp.
    + intros [= <-]. apply prefix_spec in Hp as [t Ht]. rewrite Ht.
      rewrite Nat.add_0_l, str_drop_app. by destruct sub.
    + destruct (Index s sub) as [k|] eqn:Hk; [|done]. intros [= <-]. cbn.
      rewrite app_cons_str. f_equal. by apply IH.
Qed.

Lemma Index_app_r pre sub t : is_Some (Index (pre +:+ sub +:+ t) sub).
Proof.
  induction pre as [|c pre IH].
  - rewrite app_nil_l_str. pose proof (prefix_app sub t) as Hp.
    destruct (sub +:+ t) as [|a u]; cbn [Index]; by rewrite Hp.
  - rewrite app_cons_str. cbn [Index].
    destruct (str_prefix sub (String c (pre +:+ sub +:+ t))); [done|].
    destruct IH as [n Hn]. rewrite Hn. done.
Qed.

Lemma Index_None s sub : Index s sub = None → ∀ pre t, s ≠ pre +:+ sub +:+ t.
Proof. intros H pre t ->. destruct (Index_app_r pre sub t); congruence. Qed.

Lemma Contains_spec s sub : Contains s sub = true ↔ ∃ pre t, s = pre +:+ sub +:+ t.
Proof.
  unfold Contains. rewrite bool_decide_eq_true. split.
  - intros [n Hn%Index_Some]. eauto.
  - intros (pre & t & ->). apply Index_app_r.
Qed.

Lemma replace_bytes_app f s t :
  replace_bytes f (s +:+ t) = replace_bytes f s +:+ replace_bytes f t.
Proof.
  induction s as [|c s IH]; [done|]. rewrite app_cons_str. cbn. by rewrite IH, app_assoc_str.
Qed.

Lemma str_forallb_replace_bytes p f s :
  (∀ c, str_forallb p (f c) = true) → str_forallb p (replace_bytes f s) = true.
Proof. intros Hf. induction s as [|c s IH]; [done|]. cbn. by rewrite str_forallb_app, Hf. Qed.

Lemma str_concat_cons w l : str_concat (w :: l) = w +:+ str_concat l.
Proof. reflexivity. Qed.

Lemma str_concat_app l l' : str_concat (l ++ l') = str_concat l +:+ str_concat l'.
Proof.
  induction l as [|w l IH]; [done|]. cbn [app]. by rewrite !str_concat_cons, IH, app_assoc_str.
Qed.

Lemma SplitChar_cons a c s :
  SplitChar c (String a s) =
    if ascii_eqb a c then EmptyString :: SplitChar c s
    else match SplitChar c s with
         | [] => [String a EmptyString]
         | w :: ws => String a w :: ws
         end.
Proof. reflexivity. Qed.

Lemma SplitChar_nonempty c s : SplitChar c s ≠ [].
Proof. destruct s as [|a s]; cbn; [done|]. case_match; [done|]. by case_match. Qed.

Lemma Join_cons w l sep : l ≠ [] → Join (w :: l) sep = w +:+ sep +:+ Join l sep.
Proof. by destruct l. Qed.

Lemma Join_head_cons a w ws sep : Join (String a w :: ws) sep = String a (Join (w :: ws) sep).
Proof. destruct ws; [done|]. cbn [Join]. by rewrite app_cons_str. Qed.

(** Splitting on a byte and joining with it is the identity. *)
Lemma Join_SplitChar c s : Join (SplitChar c s) (String c "") = s.
Proof.
  induction s as [|a s IH]; [done|]. cbn [SplitChar]. unfold ascii_eqb.
  case_bool_decide as Hac.
  - subst. rewrite Join_cons by apply SplitChar_nonempty. by rewrite IH.
  - destruct (SplitChar c s) as [|w ws] eqn:E.
    { by apply SplitChar_nonempty in E. }
    by rewrite Join_head_cons, IH.
Qed.

(** No piece of a split holds the separator. *)
Lemma SplitChar_no_sep c s :
  Forall (λ w, str_forallb (λ a, negb (ascii_eqb a c)) w = true) (SplitChar c s).
Proof.
  induction s as [|a s IH]; cbn [SplitChar]; [by repeat constructor|].
  unfold ascii_eqb in *. case_bool_decide as Hac; [by constructor|].
  destruct (SplitChar c s) as [|w ws]; [constructor; [|done]|].
  - cbn. rewrite bool_decide_false by done. done.
  - inv IH. constructor; [|done]. cbn. rewrite bool_decide_false by done. done.
Qed.

Lemma sort_strings_perm l : sort_strings l ≡ₚ l.
Proof. apply merge_sort_Permutation. Qed.

Lemma sort_strings_sorted l : StronglySorted String.le (sort_strings l).
Proof. apply (StronglySorted_merge_sort _). Qed.

Lemma itoa_inj n m : itoa n = itoa m → n = m.
Proof. apply pretty_Z_inj. Qed.

#[export] Hint Rewrite app_nil_r_str app_assoc_str length_app_str str_take_app str_drop_app : gostr.
#[export] Hint Resolve prefix_app prefix_nil SplitChar_nonempty : go.

#[global] Arguments ToLower : simpl never.
#[global] Arguments TrimSpace : simpl never.
#[global] Arguments ContainsAny : simpl never.
#[global] Arguments Contains : simpl never.
#[global] Arguments Index : simpl nomatch.
#[global] Arguments SplitChar : simpl nomatch.
#[global] Arguments ReplaceAll : simpl never.
#[global] Arguments itoa : simpl never.
#[global] Arguments Quote : simpl never.
#[global] Arguments nl : simpl never.
#[global] Arguments nl_char : simpl never.
#[global] Arguments dq_char : simpl never.
#[global] Arguments cr : simpl never.
#[global] Arguments tab : simpl never.
#[global] Arguments nul : simpl never.
#[global] Arguments dq : simpl never.
#[global] Arguments ParseInt64 : simpl never.
#[global] Arguments Sscanf_d : simpl never.
#[global] Arguments EqualFold : simpl never.

(** ** Runes *)

Definition byte_at (n : nat) (s : string) : nat :=
  match String.get n s with Some c => byte_val c | None => 0 end.

(** The width of the rune a [range] loop decodes at the head of a non-empty
    string: one for an invalid byte. *)
Definition rune_width (s : string) : nat :=
  let b0 := byte_at 0 s in
  let within lo hi n := (lo <=? byte_at n s) && (byte_at n s <=? hi) in
  let cont := within 128 191 in
  if (194 <=? b0) && (b0 <=? 223) && cont 1 then 2
  else if (b0 =? 224) && within 160 191 1 && cont 2 then 3
  else if ((225 <=? b0) && (b0 <=? 236) || (238 <=? b0) && (b0 <=? 239)) && cont 1 && cont 2 then 3
  else if (b0 =? 237) && within 128 159 1 && cont 2 then 3
  else if (b0 =? 240) && within 144 191 1 && cont 2 && cont 3 then 4
  else if (241 <=? b0) && (b0 <=? 243) && cont 1 && cont 2 && cont 3 then 4
  else if (b0 =? 244) && within 128 143 1 && cont 2 && cont 3 then 4
  else 1.

(** [range] over the runes: a rune that is not ASCII goes to [None]; [skip]
    counts the bytes of the rune still to pass. *)
Fixpoint map_runes (f : option ascii → string) (skip : nat) (s : string) : string :=
  match s with
  | EmptyString => EmptyString
  | String c s' =>
      match skip with
      | S k => map_runes f k s'
      | O =>
          if byte_val c <? 128 then f (Some c) +:+ map_runes f 0 s'
          else f None +:+ map_runes f (rune_width s - 1) s'
      end
  end.

Lemma str_forallb_map_runes p f k s :
  (∀ o, str_forallb p (f o) = true) → str_forallb p (map_runes f k s) = true.
Proof.
  intros Hf. revert k. induction s as [|c s IH]; intros [|k]; cbn [map_runes]; try done.
  destruct (byte_val c <? 128); by rewrite str_forallb_app, Hf, IH.
Qed.

(** [strings.Map] for a mapping that only changes ASCII characters into ASCII
    characters: an invalid byte comes out as the replacement character. *)
Fixpoint map_ascii (f : ascii → ascii) (keep : nat) (s : string) : string :=
  match s with
  | EmptyString => EmptyString
  | String c s' =>
      match keep with
      | S k => String c (map_ascii f k s')
      | O =>
          if byte_val c <? 128 then String (f c) (map_ascii f 0 s')
          else if rune_width s =? 1 then utf8 [239; 191; 189] +:+ map_ascii f 0 s'
          else String c (map_ascii f (rune_width s - 1) s')
      end
  end.

(** *** Trimming only drops bytes *)

Lemma str_forallb_drop p n s : str_forallb p s = true → str_forallb p (str_drop n s) = true.
Proof.
  revert s. induction n as [|n IH]; intros [|c s]; cbn; try done.
  intros [_ Hs]%andb_true_iff. by apply IH.
Qed.

Lemma str_forallb_take p n s : str_forallb p s = true → str_forallb p (str_take n s) = true.
Proof.
  revert s. induction n as [|n IH]; intros [|c s]; cbn; try done.
  intros [Hc Hs]%andb_true_iff. by rewrite Hc, IH.
Qed.

Lemma str_rev_app_eq s acc : str_rev_app s acc = str_rev s +:+ acc.
Proof.
  unfold str_rev. revert acc. induction s as [|c s IH]; intros acc; [done|]. cbn [str_rev_app].
  by rewrite IH, (IH (String c "")), app_assoc_str.
Qed.

Lemma str_forallb_rev p s : str_forallb p (str_rev s) = str_forallb p s.
Proof.
  unfold str_rev. induction s as [|c s IH]; [done|]. cbn [str_rev_app].
  rewrite str_rev_app_eq, str_forallb_app. fold (str_rev s) in IH. unfold str_rev in IH |- *. rewrite IH. cbn.
  by rewrite andb_true_r, andb_comm.
Qed.

Lemma length_str_rev s : String.length (str_rev s) = String.length s.
Proof.
  unfold str_rev. induction s as [|c s IH]; [done|]. cbn [str_rev_app].
  rewrite str_rev_app_eq, length_app_str. unfold str_rev. rewrite IH. cbn. lia.
Qed.

Lemma trim_left_drop fuel ps s : ∃ n, trim_left fuel ps s = str_drop n s.
Proof.
  revert s. induction fuel as [|fuel IH]; intros s; [by exists 0|]. cbn [trim_left].
  destruct (first_prefix ps s) as [n|]; [|by exists 0]. destruct (IH (str_drop n s)) as [m ->].
  exists (n + m). clear IH. revert s. induction n as [|n IH]; intros [|c s]; cbn; [by destruct m|done| |apply IH].
  by destruct m.
Qed.

Lemma TrimSpace_forallb p s : str_forallb p s = true → str_forallb p (TrimSpace s) = true.
Proof.
  intros Hs. unfold TrimSpace, TrimRightSpace, TrimLeftSpace.
  destruct (trim_left_drop (String.length s) space_runes s) as [n ->].
  destruct (trim_left_drop (String.length (str_drop n s)) (str_rev <$> space_runes) (str_rev (str_drop n s)))
    as [m ->].
  rewrite str_forallb_rev. apply str_forallb_drop. rewrite str_forallb_rev. by apply str_forallb_drop.
Qed.

Lemma TrimSpace_length s : String.length (TrimSpace s) ≤ String.length s.
Proof.
  unfold TrimSpace, TrimRightSpace, TrimLeftSpace.
  destruct (trim_left_drop (String.length s) space_runes s) as [n ->].
  destruct (trim_left_drop (String.length (str_drop n s)) (str_rev <$> space_runes) (str_rev (str_drop n s)))
    as [m ->].
  rewrite length_str_rev, str_drop_length, length_str_rev, str_drop_length. lia.
Qed.

(** *** Mapping ASCII characters *)

(** The bytes of a rune after its first are not ASCII. *)
Lemma rune_width_cont s i : i < rune_width s - 1 → 128 ≤ byte_at (S i) s.
Proof.
  unfold rune_width. intros Hi.
  repeat match type of Hi with
  | _ < (if ?b then _ else _) - _ => destruct b eqn:?
  end; try lia;
  repeat match goal with
  | H : _ && _ = true |- _ => apply andb_true_iff in H as [? ?]
  | H : (_ <=? _) = true |- _ => apply Nat.leb_le in H
  end;
  (destruct i as [|[|[|i]]]; lia).
Qed.

Lemma str_forallb_map_ascii p f s :
  (∀ c, byte_val c < 128 → p (f c) = true) → (∀ c, 128 ≤ byte_val c → p c = true) →
  ∀ keep, (∀ i, i < keep → 128 ≤ byte_at i s) → str_forallb p (map_ascii f keep s) = true.
Proof.
  intros Hf Hp. induction s as [|c s IH]; intros keep Hk; [done|]. cbn [map_ascii].
  destruct keep as [|keep].
  - destruct (byte_val c <? 128) eqn:Hc; [apply Nat.ltb_lt in Hc|apply Nat.ltb_ge in Hc].
    { cbn. rewrite Hf by done. apply IH. lia. }
    destruct (rune_width (String c s) =? 1) eqn:Hw.
    { rewrite str_forallb_app, IH by lia. cbn [utf8 foldr str_forallb].
      rewrite !Hp by (cbv; lia). done. }
    cbn [str_forallb]. rewrite Hp by done. apply IH. intros i Hi. by apply rune_width_cont in Hi.
  - cbn [str_forallb]. rewrite Hp by (apply (Hk 0); lia). apply IH. intros i Hi. apply (Hk (S i)). lia.
Qed.

(** *** Decimal numbers read back *)

Lemma pretty_digit x : (x < 10)%N →
  is_digit (pretty_N_char x) = true ∧ Z.of_nat (byte_val (pretty_N_char x) - 48) = Z.of_N x.
Proof.
  intros Hx. destruct x as [|p]; [done|].
  do 4 (destruct p as [p|p|]; try done; try (exfalso; lia)).
Qed.

Lemma digits_val_go x s : digits_val 0 (pretty_N_go x s) = digits_val (Z.of_N x) s.
Proof.
  revert s. induction (N.lt_wf_0 x) as [x _ IH]; intros s.
  destruct (decide (x = 0%N)) as [->|Hx]; [by rewrite pretty_N_go_0|].
  rewrite pretty_N_go_step, IH by (try apply N.div_lt; lia). cbn [digits_val].
  destruct (pretty_digit (x `mod` 10)) as [-> ->]; [by apply N.mod_lt|]. f_equal.
  pose proof (N.div_mod x 10). lia.
Qed.

Lemma digits_val_itoa n : (0 ≤ n)%Z → digits_val 0 (itoa n) = Some n.
Proof.
  intros Hn. destruct n as [|p|p]; [done| |lia].
  change (itoa (Z.pos p)) with (pretty_N_go (N.pos p) ""). by rewrite digits_val_go.
Qed.

Lemma digits_val_digits acc s n : digits_val acc s = Some n → str_forallb is_digit s = true.
Proof.
  revert acc. induction s as [|c s IH]; intros acc; cbn; [done|].
  destruct (is_digit c); [|done]. apply IH.
Qed.

Lemma itoa_digits n : (0 ≤ n)%Z → str_forallb is_digit (itoa n) = true.
Proof. intros Hn. by eapply digits_val_digits, digits_val_itoa. Qed.

Lemma take_digits_app d s :
  str_forallb is_digit d = true → take_digits s = "" → take_digits (d +:+ s) = d.
Proof.
  intros Hd Hs. induction d as [|c d IH]; [done|]. cbn in Hd. apply andb_true_iff in Hd as [Hc Hd].
  rewrite app_cons_str. cbn. by rewrite Hc, IH.
Qed.

Lemma itoa_nonempty n : itoa n ≠ "".
Proof.
  destruct n as [|p|p]; [done| |done]. intros H.
  assert (Hv : digits_val 0 (itoa (Z.pos p)) = Some (Z.pos p)) by by apply digits_val_itoa.
  by rewrite H in Hv.
Qed.

(** ** Hexadecimal *)

(** [%x] of a non-negative integer below [16^fuel]. *)
Fixpoint hex_go (fuel : nat) (n : Z) (acc : string) : string :=
  match fuel with
  | O => acc
  | S fuel =>
      let acc := String (hex_digit (Z.to_nat (n mod 16))) acc in
      if bool_decide (n / 16 = 0)%Z then acc else hex_go fuel (n / 16) acc
  end.
Definition fmt_x (n : Z) : string := hex_go 16 n "".

(** ** URL userinfo and host: [net/url] *)

Definition upper_hex_digit (n : nat) : ascii :=
  if n <? 10 then ascii_of_nat (48 + n) else ascii_of_nat (55 + n).
Definition percent (c : ascii) : string :=
  String "%"%char (String (upper_hex_digit (byte_val c / 16))
    (String (upper_hex_digit (byte_val c mod 16)) "")).
Definition url_unreserved (c : ascii) : bool := is_letter c || is_digit c || str_elem c "-_.~".

(** [url.UserPassword(u, p).String()] escapes each part byte by byte. *)
Definition userinfo_byte (c : ascii) : string :=
  if url_unreserved c || str_elem c "$&+,;=" then String c "" else percent c.
Definition escape_userinfo (s : string) : string := replace_bytes userinfo_byte s.
Definition host_byte (c : ascii) : string :=
  if url_unreserved c || str_elem c "!$&'()*+,;=:[]<>" || ascii_eqb c dq_char
  then String c "" else percent c.
Definition escape_host (s : string) : string := replace_bytes host_byte s.

(** [url.PathUnescape] of a userinfo part. *)
Definition unhex (c : ascii) : option nat :=
  if is_digit c then Some (byte_val c - 48)
  else if byte_in 65 70 c then Some (byte_val c - 55)
  else if byte_in 97 102 c then Some (byte_val c - 87) else None.
Fixpoint unescape (s : string) : option string :=
  match s with
  | EmptyString => Some ""
  | String c s' =>
      if ascii_eqb c "%"%char then
        match s' with
        | String a (String b s'') =>
            match unhex a, unhex b with
            | Some x, Some y => String (ascii_of_nat (16 * x + y)) <$> unescape s''
            | _, _ => None
            end
        | _ => None
        end
      else String c <$> unescape s'
  end.

(** The string form of a [url.URL] with a user, a password, a host and an absolute path. *)
Definition url_String (scheme user password host path query : string) : string :=
  scheme +:+ "://" +:+ escape_userinfo user +:+ ":" +:+ escape_userinfo password +:+ "@" +:+
  escape_host host +:+ path +:+ "?" +:+ query.

Lemma unescape_percent c s : unescape (percent c +:+ s) = String c <$> unescape s.
Proof.
  assert (H : forallb (λ n, match unhex (upper_hex_digit (byte_val (ascii_of_nat n) / 16)),
      unhex (upper_hex_digit (byte_val (ascii_of_nat n) mod 16)) with
    | Some x, Some y => 16 * x + y =? n | _, _ => false end) (seq 0 256) = true)
    by (vm_compute; reflexivity).
  rewrite forallb_forall in H. specialize (H (byte_val c)).
  rewrite (ascii_nat_embedding c : ascii_of_nat (byte_val c) = c) in H.
  assert (Hin : In (byte_val c) (seq 0 256))
    by (apply in_seq; pose proof (nat_ascii_bounded c); unfold byte_val; lia).
  specialize (H Hin).
  unfold percent. rewrite !app_cons_str, app_nil_l_str. cbn [unescape].
  rewrite ascii_eqb_refl.
  destruct (unhex _) as [x|], (unhex (upper_hex_digit (byte_val c mod 16))) as [y|]; try done.
  apply Nat.eqb_eq in H. by rewrite H, (ascii_nat_embedding c : ascii_of_nat (byte_val c) = c).
Qed.

Lemma unescape_userinfo s : unescape (escape_userinfo s) = Some s.
Proof.
  unfold escape_userinfo. induction s as [|c s IH]; [done|]. cbn [replace_bytes].
  unfold userinfo_byte at 1. destruct (_ || _) eqn:H; [|by rewrite unescape_percent, IH].
  rewrite app_cons_str, app_nil_l_str. cbn [unescape].
  destruct (ascii_eqb c "%"%char) eqn:Hc; [by apply ascii_eqb_eq in Hc as ->|]. by rewrite IH.
Qed.

(** No byte of an escaped part can end it. *)
Lemma escape_userinfo_chars s :
  str_forallb (λ c, url_unreserved c || str_elem c "$&+,;=%") (escape_userinfo s) = true.
Proof.
  apply str_forallb_replace_bytes. intros c. unfold userinfo_byte.
  destruct (url_unreserved c || str_elem c "$&+,;=") eqn:H.
  - cbn [str_forallb]. rewrite andb_true_r. apply orb_true_iff in H as [->|H]; [done|].
    apply orb_true_iff. right. unfold str_elem in *. cbn [str_existsb] in *.
    rewrite !orb_false_r in *. rewrite !orb_true_iff in *. tauto.
  - unfold percent. cbn [str_forallb].
    assert (Hd : ∀ n, n < 16 → url_unreserved (upper_hex_digit n) = true).
    { intros n Hn. do 16 (destruct n as [|n]; [reflexivity|]). lia. }
    rewrite !Hd; [done|apply Nat.mod_upper_bound; lia|].
    apply Nat.Div0.div_lt_upper_bound. pose proof (nat_ascii_bounded c). unfold byte_val. lia.
Qed.

(** ** Splitting texts without the separator *)

Lemma SplitChar_app_sep c w s :
  str_forallb (λ a, negb (ascii_eqb a c)) w = true →
  SplitChar c (w +:+ String c s) = w :: SplitChar c s.
Proof.
  induction w as [|a w IH].
  - intros _. by rewrite app_nil_l_str, SplitChar_cons, ascii_eqb_refl.
  - cbn [str_forallb]. rewrite andb_true_iff. intros [Ha Hw].
    rewrite app_cons_str, SplitChar_cons. destruct (ascii_eqb a c); [done|]. by rewrite IH.
Qed.

Lemma SplitChar_none c w :
  str_forallb (λ a, negb (ascii_eqb a c)) w = true → SplitChar c w = [w].
Proof.
  induction w as [|a w IH]; [done|]. cbn [str_forallb]. rewrite andb_true_iff. intros [Ha Hw].
  apply negb_true_iff in Ha. by rewrite SplitChar_cons, Ha, IH.
Qed.

Lemma Join_app l1 l2 sep : l1 ≠ [] → l2 ≠ [] → Join (l1 ++ l2) sep = Join l1 sep +:+ sep +:+ Join l2 sep.
Proof.
  induction l1 as [|w [|w' l1] IH]; intros H1 H2; [done|cbn [app]; by rewrite Join_cons|].
  cbn [app] in *. rewrite !(Join_cons w) by done. rewrite IH by done. by rewrite !app_assoc_str.
Qed.

Lemma SplitChar_Join c l :
  l ≠ [] → Forall (λ w, str_forallb (λ a, negb (ascii_eqb a c)) w = true) l → SplitChar c (Join l (String c "")) = l.
Proof.
  induction l as [|w [|w' l] IH]; intros Hne Hl; [done| |]; inversion_clear Hl as [|? ? Hw Hl']; [by apply SplitChar_none|].
  rewrite Join_cons by done. change (String c "" +:+ ?x) with (String c x).
  rewrite SplitChar_app_sep by done. by rewrite IH.
Qed.

Lemma str_elem_forallb c s : str_elem c s = negb (str_forallb (λ a, negb (ascii_eqb c a)) s).
Proof. apply str_existsb_forallb. Qed.
