(* ===== verification/Apperr.v ===== *)
(** * Errors: [internal/apperr]

    Go's [error] values as the repository builds them: the typed domain errors
    of [apperr], and plain errors from [errors.New] and [fmt.Errorf], whose
    [%w] verb keeps a wrapped cause. *)

From S2P Require Import Prelude GoStrings.

(** ** Data *)

(** [apperr.Code]. *)
Inductive Code :=
  | KindInternal
  | KindInvalid
  | KindUnauthorized
  | KindForbidden
  | KindNotFound
  | KindConflict.

#[export] Instance Code_eq_dec : EqDecision Code.
Proof. solve_decision. Defined.

(** A non-nil [error]: an [*apperr.Error], or an error of another type, with
    its text and what it unwraps to. *)
Inductive error :=
  | AppError (code : Code) (msg : string) (err : option error)
  | PlainError (msg : string) (err : option error).

(** ** Operations *)

(** [apperr.New] and [apperr.Wrap]. *)
Definition New (code : Code) (msg : string) : error := AppError code msg None.
Definition Wrap (code : Code) (msg : string) (cause : error) : error :=
  AppError code msg (Some cause).

(** [fmt.Errorf] without and with [%w]; the caller passes the rendered text. *)
Definition Errorf (msg : string) : error := PlainError msg None.
Definition Errorf_w (msg : string) (cause : error) : error := PlainError msg (Some cause).

(** [err.Error()]. *)
Fixpoint Error (e : error) : string :=
  match e with
  | AppError _ msg (Some err) => msg +:+ ": " +:+ Error err
  | AppError _ msg None => msg
  | PlainError msg _ => msg
  end.

(** [Kind]: [errors.As] walks the chain to the first [*apperr.Error]. *)
Fixpoint Kind (e : error) : Code :=
  match e with
  | AppError code _ _ => code
  | PlainError _ (Some err) => Kind err
  | PlainError _ None => KindInternal
  end.

(** [HTTPStatus]. *)
Definition HTTPStatus (e : error) : Z :=
  match Kind e with
  | KindInvalid => 400
  | KindUnauthorized => 401
  | KindForbidden => 403
  | KindNotFound => 404
  | KindConflict => 409
  | KindInternal => 500
  end.

(** The layers of plain errors [fmt.Errorf("...: %w", ...)] put around a
    cause. *)
Fixpoint wrap_plain (msgs : list string) (e : error) : error :=
  match msgs with
  | [] => e
  | m :: ms => Errorf_w m (wrap_plain ms e)
  end.

(** ** Lemmas *)

Lemma Kind_New c m : Kind (New c m) = c.
Proof. done. Qed.

Lemma Kind_Wrap c m e : Kind (Wrap c m e) = c.
Proof. done. Qed.

Lemma Kind_wrap_plain msgs e : Kind (wrap_plain msgs e) = Kind e.
Proof. by induction msgs. Qed.

#[export] Hint Rewrite Kind_New Kind_Wrap Kind_wrap_plain : gostr.
