(* ===== verification/GoMonad.v ===== *)
(** * Effects

    A Go function that reads and changes the outside world is a state
    transformer [M S A]; a Go result [(T, error)] is a [result T].  The
    notations read like the code: [x <- m ;; k] runs [m] and goes on whatever
    it returns (an ignored error is a [_]); [x <-? m ;; k] returns early on an
    error; [x <-? m 'orelse' h ;; k] runs [h] on the error instead, which is how
    an [if err != nil] block with more than a [return], or a deferred cleanup,
    is written.

    [wp m Q s] says that running [m] from [s] ends in a value and a state that
    satisfy [Q]; programs are proved with its rules.  [traced] records the
    calls made through an interface, for the properties of the order of
    effects. *)

From S2P Require Import Prelude GoStrings Apperr.

(** ** Results *)

Inductive result (A : Type) :=
  | Ok (a : A)
  | Err (e : error).
Arguments Ok {A} a.
Arguments Err {A} e.

Definition is_ok {A} (r : result A) : bool :=
  match r with Ok _ => true | Err _ => false end.

(** The error part of [(T, error)], and the value part, which is the zero value
    on an error. *)
Definition err_of {A} (r : result A) : option error :=
  match r with Ok _ => None | Err e => Some e end.
Definition value_or {A} (zero : A) (r : result A) : A :=
  match r with Ok a => a | Err _ => zero end.

Definition rmap {A B} (f : A → B) (r : result A) : result B :=
  match r with Ok a => Ok (f a) | Err e => Err e end.

Definition rbind {A B} (r : result A) (k : A → result B) : result B :=
  match r with Ok a => k a | Err e => Err e end.

(** [ctx context.Context]: the caller's context, or the [context.Background()]
    that cleanup code uses so that it runs after a cancellation. *)
Inductive Context := CallerCtx | Background.

#[export] Instance Context_eq_dec : EqDecision Context.
Proof. solve_decision. Defined.

(** ** The state monad *)

Definition M (S A : Type) : Type := S → A * S.

Definition ret {S A} (a : A) : M S A := λ s, (a, s).

Definition bind {S A B} (m : M S A) (k : A → M S B) : M S B :=
  λ s, let '(a, s') := m s in k a s'.

Definition try_or {S A B} (m : M S (result A)) (h : error → M S (result B))
    (k : A → M S (result B)) : M S (result B) :=
  bind m (λ r, match r with Ok a => k a | Err e => h e end).

Definition try {S A B} (m : M S (result A)) (k : A → M S (result B)) : M S (result B) :=
  try_or m (λ e, ret (Err e)) k.

(** [return v, nil] and [return err]. *)
Definition ok {S A} (a : A) : M S (result A) := ret (Ok a).
Definition fail {S A} (e : error) : M S (result A) := ret (Err e).
Definition done_ok {S} : M S (result unit) := ok tt.

Definition lift_r {S A} (r : result A) : M S (result A) := ret r.

Definition when {S} (b : bool) (m : M S unit) : M S unit := if b then m else ret tt.

(** [_ = m]. *)
Definition discard {S A} (m : M S A) : M S unit := bind m (λ _, ret tt).

Notation "x <- m ;; k" := (bind m (λ x, k))
  (at level 60, m at next level, right associativity) : go_scope.
Notation "x <-? m ;; k" := (try m (λ x, k))
  (at level 60, m at next level, right associativity) : go_scope.
Notation "x <-? m 'orelse' h ;; k" := (try_or m h (λ x, k))
  (at level 60, m at next level, h at next level, right associativity) : go_scope.
Open Scope go_scope.

(** [for _, x := range xs] with a state, without and with early return on an
    error. *)
Fixpoint for_each {S A B} (xs : list A) (acc : B) (f : B → A → M S B) : M S B :=
  match xs with
  | [] => ret acc
  | x :: xs' => acc' <- f acc x ;; for_each xs' acc' f
  end.

Fixpoint for_each_e {S A B} (xs : list A) (acc : B) (f : B → A → M S (result B)) :
    M S (result B) :=
  match xs with
  | [] => ok acc
  | x :: xs' => acc' <-? f acc x ;; for_each_e xs' acc' f
  end.

(** Run a computation on one component of a pair of states. *)
Definition on_fst {S T A} (m : M S A) : M (S * T) A :=
  λ st, let '(a, s') := m st.1 in (a, (s', st.2)).
Definition on_snd {S T A} (m : M T A) : M (S * T) A :=
  λ st, let '(a, t') := m st.2 in (a, (st.1, t')).

(** Record a call and its outcome in a log kept beside the state. *)
Definition traced {S E A} (ev : A → E) (m : M S A) : M (S * list E) A :=
  λ st, let '(a, s') := m st.1 in (a, (s', st.2 ++ [ev a])).

(** ** Weakest preconditions *)

Definition wp {S A} (m : M S A) (Q : A → S → Prop) (s : S) : Prop :=
  Q (m s).1 (m s).2.

(** ** Rules *)

Section rules.
Context {S : Type}.
Implicit Types (s : S).

Lemma wp_ret {A} (a : A) (Q : A → S → Prop) s : Q a s → wp (ret a) Q s.
Proof. done. Qed.

Lemma wp_bind {A B} (m : M S A) (k : A → M S B) Q s :
  wp m (λ a, wp (k a) Q) s → wp (bind m k) Q s.
Proof. unfold wp, bind. destruct (m s). done. Qed.

Lemma wp_bind_inv {A B} (m : M S A) (k : A → M S B) Q s :
  wp (bind m k) Q s → wp m (λ a, wp (k a) Q) s.
Proof. unfold wp, bind. destruct (m s). done. Qed.

Lemma wp_mono {A} (m : M S A) (P Q : A → S → Prop) s :
  wp m P s → (∀ a s', P a s' → Q a s') → wp m Q s.
Proof. unfold wp. auto. Qed.

Lemma wp_conj {A} (m : M S A) (P Q : A → S → Prop) s :
  wp m P s → wp m Q s → wp m (λ a s', P a s' ∧ Q a s') s.
Proof. done. Qed.

Lemma wp_try_or {A B} (m : M S (result A)) (h : error → M S (result B))
    (k : A → M S (result B)) Q s :
  wp m (λ r s', match r with Ok a => wp (k a) Q s' | Err e => wp (h e) Q s' end) s →
  wp (try_or m h k) Q s.
Proof. intros H. apply wp_bind. eapply wp_mono; [exact H|]. by intros [?|?] ?. Qed.

Lemma wp_try {A B} (m : M S (result A)) (k : A → M S (result B)) Q s :
  wp m (λ r s', match r with Ok a => wp (k a) Q s' | Err e => Q (Err e) s' end) s →
  wp (try m k) Q s.
Proof. apply (wp_try_or m (λ e, fail e)). Qed.

Lemma wp_when b (m : M S unit) Q s :
  (b = true → wp m Q s) → (b = false → Q tt s) → wp (when b m) Q s.
Proof. intros Ht Hf. destruct b; [by apply Ht|by apply wp_ret, Hf]. Qed.

Lemma wp_any {A} (m : M S A) (Q : A → S → Prop) s : (∀ a s', Q a s') → wp m Q s.
Proof. unfold wp. auto. Qed.

Lemma wp_discard {A} (m : M S A) Q s :
  wp m (λ _, Q tt) s → wp (discard m) Q s.
Proof. intros H. apply wp_bind. exact H. Qed.

(** A loop keeps an invariant of the remaining elements, the accumulator and
    the state. *)
Lemma wp_for_each {A B} (I : list A → B → S → Prop) (f : B → A → M S B) xs acc Q s :
  I xs acc s →
  (∀ x xs' acc s, I (x :: xs') acc s → wp (f acc x) (I xs') s) →
  (∀ acc s, I [] acc s → Q acc s) →
  wp (for_each xs acc f) Q s.
Proof.
  intros HI Hstep HQ. revert acc s HI.
  induction xs as [|x xs IH]; intros acc s HI; [by apply wp_ret, HQ|].
  apply wp_bind. eapply wp_mono; [by apply Hstep|]. intros acc' s' HI'. by apply IH.
Qed.

Lemma wp_for_each_e {A B} (I : list A → B → S → Prop) (f : B → A → M S (result B))
    xs acc Q s :
  I xs acc s →
  (∀ x xs' acc s, I (x :: xs') acc s →
     wp (f acc x) (λ r s', match r with Ok acc' => I xs' acc' s' | Err e => Q (Err e) s' end) s) →
  (∀ acc s, I [] acc s → Q (Ok acc) s) →
  wp (for_each_e xs acc f) Q s.
Proof.
  intros HI Hstep HQ. revert acc s HI.
  induction xs as [|x xs IH]; intros acc s HI; [by apply wp_ret, HQ|].
  apply wp_try. eapply wp_mono; [by apply Hstep|].
  intros [acc'|e] s' HI'; [by apply IH|done].
Qed.
End rules.

Section component_rules.
Context {S T : Type}.

Lemma wp_on_fst {A} (m : M S A) (Q : A → S * T → Prop) st :
  wp m (λ a s', Q a (s', st.2)) st.1 → wp (on_fst m) Q st.
Proof. unfold wp, on_fst. destruct (m st.1). done. Qed.

Lemma wp_on_snd {A} (m : M T A) (Q : A → S * T → Prop) st :
  wp m (λ a t', Q a (st.1, t')) st.2 → wp (on_snd m) Q st.
Proof. unfold wp, on_snd. destruct (m st.2). done. Qed.

Lemma wp_traced {E A} (ev : A → E) (m : M S A) (Q : A → S * list E → Prop) st :
  (∀ a s', Q a (s', st.2 ++ [ev a])) → wp (traced ev m) Q st.
Proof. unfold wp, traced. destruct (m st.1). intros H. apply H. Qed.
End component_rules.

(** [bind] is associative and [ret] its unit, pointwise on states. *)
Lemma bind_assoc {S A B C} (m : M S A) (k : A → M S B) (k' : B → M S C) s :
  bind (bind m k) k' s = bind m (λ a, bind (k a) k') s.
Proof. unfold bind. by destruct (m s). Qed.

Lemma bind_ret_l {S A B} (a : A) (k : A → M S B) : bind (ret a) k = k a.
Proof. done. Qed.

(** ** Proof automation *)

(** One step of a [wp] goal along the structure of the program. *)
Ltac wp_step :=
  lazymatch goal with
  | |- wp (bind _ _) _ _ => apply wp_bind
  | |- wp (try _ _) _ _ => apply wp_try
  | |- wp (try_or _ _ _) _ _ => apply wp_try_or
  | |- wp (ret _) _ _ => apply wp_ret
  | |- wp (ok _) _ _ => apply wp_ret
  | |- wp done_ok _ _ => apply wp_ret
  | |- wp (fail _) _ _ => apply wp_ret
  | |- wp (lift_r _) _ _ => apply wp_ret
  | |- wp (discard _) _ _ => apply wp_discard
  | |- wp (when _ _) _ _ => apply wp_when; intros ?
  | |- wp (on_fst _) _ _ => apply wp_on_fst
  | |- wp (on_snd _) _ _ => apply wp_on_snd
  end.

Ltac wp_steps := repeat (wp_step; cbn beta iota).

#[export] Hint Resolve wp_ret : wp.
