(* ===== verification/Triples.v ===== *)
(** * Triples that speak of a log

    A program logic for the order of effects.  The state [S] holds a log of
    events ([log]) and a part the assertions speak of ([view]).  [gives I m P]
    says that from a state whose view satisfies [I], running [m] appends events
    to the log, and that if it succeeds, its result, the events it appended and
    the new view satisfy [P]. *)

From S2P Require Import Prelude GoStrings Apperr GoMonad.

Section triples.
Context {S E V : Type} (log : S → list E) (view : S → V).
Implicit Types (s : S) (l : list E) (I J : V → Prop).

(** From a state whose view satisfies [I], [m] appends events to the log; its
    result, these events and the new view satisfy [P]. *)
Definition traces {A} I (m : M S A) (P : A → list E → V → Prop) : Prop :=
  ∀ s, I (view s) → ∃ l, log (m s).2 = log s ++ l ∧ P (m s).1 l (view (m s).2).

(** From a state whose rows satisfy [I], [m] appends calls to the log, and when
    it succeeds its result, these calls and the rows satisfy [P]. *)
Definition gives {A} I (m : M S (result A)) (P : A → list E → V → Prop) : Prop :=
  ∀ s, I (view s) → ∃ l, log (m s).2 = log s ++ l ∧
    match (m s).1 with Ok a => P a l (view (m s).2) | Err _ => True end.

(** [m] appends calls, and its rows satisfy [J]. *)
Definition quiet {A} I (m : M S A) J : Prop :=
  ∀ s, I (view s) → ∃ l, log (m s).2 = log s ++ l ∧ J (view (m s).2).

(** [m] calls nothing. *)
Definition silent {A} I (m : M S A) J : Prop :=
  ∀ s, I (view s) → log (m s).2 = log s ∧ J (view (m s).2).

Lemma traces_mono {A} I (m : M S A) (P Q : A → list E → V → Prop) :
  traces I m P → (∀ a l v, P a l v → Q a l v) → traces I m Q.
Proof.
  intros Hm HPQ s Hs. destruct (Hm s Hs) as (l & Hl & HP). exists l. split; [done|]. by apply HPQ.
Qed.

Lemma traces_pre {A} I J (m : M S A) P : (∀ v, J v → I v) → traces I m P → traces J m P.
Proof. intros HJ Hm s Hs. by apply Hm, HJ. Qed.

Lemma traces_pure {A} I (φ : Prop) (m : M S A) P :
  (φ → traces I m P) → traces (λ v, φ ∧ I v) m P.
Proof. intros Hm s [Hφ Hs]. by apply Hm. Qed.

Lemma traces_ret {A} I (a : A) (P : A → list E → V → Prop) :
  (∀ v, I v → P a [] v) → traces I (ret a) P.
Proof. intros HP s Hs. exists []. rewrite app_nil_r. split; [done|]. by apply HP. Qed.

Lemma traces_bind {A B} I (m : M S A) (k : A → M S B) P1 P :
  traces I m P1 → (∀ a l1, traces (P1 a l1) (k a) (λ b l, P b (l1 ++ l))) → traces I (bind m k) P.
Proof.
  intros Hm Hk s Hs. destruct (Hm s Hs) as (l1 & H1 & HP1). unfold bind. destruct (m s) as [a s1].
  destruct (Hk a l1 s1 HP1) as (l & H2 & HP). cbn [fst snd] in *. exists (l1 ++ l).
  by rewrite H2, H1, app_assoc.
Qed.

Lemma traces_try_or {A B} I (m : M S (result A)) h (k : A → M S (result B)) P1 P :
  traces I m P1 → (∀ e l1, traces (P1 (Err e) l1) (h e) (λ b l, P b (l1 ++ l))) →
  (∀ a l1, traces (P1 (Ok a) l1) (k a) (λ b l, P b (l1 ++ l))) → traces I (try_or m h k) P.
Proof. intros Hm Hh Hk. eapply traces_bind; [done|]. by intros [a|e]. Qed.

Lemma traces_discard {A} I (m : M S A) (P : unit → list E → V → Prop) :
  traces I m (λ _, P tt) → traces I (discard m) P.
Proof.
  intros Hm. eapply traces_bind; [done|]. intros a l1. apply traces_ret. intros v. by rewrite app_nil_r.
Qed.

Lemma gives_mono {A} I (m : M S (result A)) (P Q : A → list E → V → Prop) :
  gives I m P → (∀ a l d, P a l d → Q a l d) → gives I m Q.
Proof.
  intros Hm HPQ s Hs. destruct (Hm s Hs) as (l & Hl & HP). exists l. split; [done|].
  destruct (m s).1; [by apply HPQ|done].
Qed.

Lemma gives_pure {A} I (φ : Prop) (m : M S (result A)) P :
  (φ → gives I m P) → gives (λ d, φ ∧ I d) m P.
Proof. intros Hm s [Hφ Hs]. by apply Hm. Qed.

Lemma gives_ok {A} I (a : A) (P : A → list E → V → Prop) :
  (∀ d, I d → P a [] d) → gives I (ok a) P.
Proof. intros HP s Hs. exists []. rewrite app_nil_r. split; [done|]. by apply HP. Qed.

Lemma gives_fail {A} I e (P : A → list E → V → Prop) : gives I (fail e) P.
Proof. intros s Hs. exists []. by rewrite app_nil_r. Qed.

Lemma gives_lift {A} I (r : result A) : gives I (lift_r r) (λ a l d, l = [] ∧ r = Ok a ∧ I d).
Proof. intros s Hs. exists []. rewrite app_nil_r. split; [done|]. by destruct r. Qed.

Lemma gives_bind {A B} I J (m : M S A) (k : A → M S (result B)) P :
  quiet I m J → (∀ a l1, gives J (k a) (λ b l, P b (l1 ++ l))) → gives I (bind m k) P.
Proof.
  intros Hm Hk s Hs. destruct (Hm s Hs) as (l1 & H1 & HJ). unfold bind. destruct (m s) as [a s1].
  destruct (Hk a l1 s1 HJ) as (l & H2 & HP). cbn [fst snd] in *. exists (l1 ++ l).
  by rewrite H2, H1, app_assoc.
Qed.

Lemma gives_try_or {A B} I (m : M S (result A)) h (k : A → M S (result B)) P1 P :
  gives I m P1 → (∀ e l1, gives (λ _, True) (h e) (λ b l, P b (l1 ++ l))) →
  (∀ a l1, gives (P1 a l1) (k a) (λ b l, P b (l1 ++ l))) → gives I (try_or m h k) P.
Proof.
  intros Hm Hh Hk s Hs. destruct (Hm s Hs) as (l1 & H1 & HP1). unfold try_or, bind.
  destruct (m s) as [[a|e] s1].
  - destruct (Hk a l1 s1 HP1) as (l & H2 & HP). cbn [fst snd] in *. exists (l1 ++ l).
    by rewrite H2, H1, app_assoc.
  - destruct (Hh e l1 s1 Logic.I) as (l & H2 & HP). cbn [fst snd] in *. exists (l1 ++ l).
    by rewrite H2, H1, app_assoc.
Qed.

Lemma gives_try {A B} I (m : M S (result A)) (k : A → M S (result B)) P1 P :
  gives I m P1 → (∀ a l1, gives (P1 a l1) (k a) (λ b l, P b (l1 ++ l))) → gives I (try m k) P.
Proof. intros Hm Hk. eapply gives_try_or; [done| |done]. intros e l. apply gives_fail. Qed.

Lemma gives_silent {A B} I J (m : M S A) (k : A → M S (result B)) P :
  silent I m J → (∀ a, gives J (k a) P) → gives I (bind m k) P.
Proof.
  intros Hm Hk s Hs. destruct (Hm s Hs) as [H1 HJ]. unfold bind. destruct (m s) as [a s1].
  destruct (Hk a s1 HJ) as (l & H2 & HP). cbn [fst snd] in *. exists l. by rewrite H2, H1.
Qed.

(** A call whose outcome the program inspects itself. *)
Lemma gives_case {A B} I J (m : M S (result A)) (k : result A → M S (result B)) P1 P :
  gives I m P1 → quiet I m J →
  (∀ a l1, gives (P1 a l1) (k (Ok a)) (λ b l, P b (l1 ++ l))) →
  (∀ e l1, gives J (k (Err e)) (λ b l, P b (l1 ++ l))) → gives I (bind m k) P.
Proof.
  intros Hm Hq Hk Hh s Hs. destruct (Hm s Hs) as (l1 & H1 & HP1). destruct (Hq s Hs) as (l1' & _ & HJ).
  unfold bind. destruct (m s) as [[a|e] s1].
  - destruct (Hk a l1 s1 HP1) as (l & H2 & HP). cbn [fst snd] in *. exists (l1 ++ l).
    by rewrite H2, H1, app_assoc.
  - destruct (Hh e l1 s1 HJ) as (l & H2 & HP). cbn [fst snd] in *. exists (l1 ++ l).
    by rewrite H2, H1, app_assoc.
Qed.

Lemma silent_quiet {A} I J (m : M S A) : silent I m J → quiet I m J.
Proof. intros Hm s Hs. exists []. rewrite app_nil_r. by apply Hm. Qed.

Lemma quiet_ret {A} I (a : A) : quiet I (ret a) I.
Proof. intros s Hs. exists []. by rewrite app_nil_r. Qed.

Lemma silent_discard {A} I J (m : M S A) : silent I m J → silent I (discard m) J.
Proof. intros Hm s Hs. specialize (Hm s Hs). unfold discard, bind. by destruct (m s). Qed.

Lemma quiet_bind {A B} I J K (m : M S A) (k : A → M S B) :
  quiet I m J → (∀ a, quiet J (k a) K) → quiet I (bind m k) K.
Proof.
  intros Hm Hk s Hs. destruct (Hm s Hs) as (l1 & H1 & HJ). unfold bind. destruct (m s) as [a s1].
  destruct (Hk a s1 HJ) as (l & H2 & HK). cbn [fst snd] in *. exists (l1 ++ l). by rewrite H2, H1, app_assoc.
Qed.

Lemma quiet_discard {A} I J (m : M S A) : quiet I m J → quiet I (discard m) J.
Proof. intros Hm. eapply quiet_bind; [done|]. intros a. apply quiet_ret. Qed.

Lemma quiet_try {A B} I (m : M S (result A)) (k : A → M S (result B)) :
  quiet I m I → (∀ a, quiet I (k a) I) → quiet I (try m k) I.
Proof. intros Hm Hk. apply (quiet_bind I I); [done|]. intros [a|e]; [done|apply quiet_ret]. Qed.

End triples.

(** ** Worlds with a log beside them *)

Section logs.
Context {S E : Type}.

(** [m] appends events, which satisfy [φ] with its result. *)
Definition logs {A} (m : M (S * list E) A) (φ : A → list E → Prop) : Prop :=
  traces (λ s : S * list E, s.2) (λ _, tt) (λ _, True) m (λ a l _, φ a l).

Lemma logs_run {A} (m : M (S * list E) A) φ s : logs m φ → ∃ l, (m s).2.2 = s.2 ++ l ∧ φ (m s).1 l.
Proof. intros Hm. exact (Hm s I). Qed.

Lemma logs_mono {A} (m : M (S * list E) A) (φ ψ : A → list E → Prop) :
  logs m φ → (∀ a l, φ a l → ψ a l) → logs m ψ.
Proof. intros Hm H. eapply traces_mono; [exact Hm|]. auto. Qed.

Lemma logs_bind {A B} (m : M (S * list E) A) (k : A → M (S * list E) B) φ ψ :
  logs m φ → (∀ a l1, φ a l1 → logs (k a) (λ b l, ψ b (l1 ++ l))) → logs (bind m k) ψ.
Proof.
  intros Hm Hk. eapply traces_bind; [exact Hm|]. intros a l1 s Hs. exact (Hk a l1 Hs s I).
Qed.

Lemma logs_try_or {A B} (m : M (S * list E) (result A)) h (k : A → M (S * list E) (result B)) φ ψ :
  logs m φ → (∀ e l1, φ (Err e) l1 → logs (h e) (λ b l, ψ b (l1 ++ l))) →
  (∀ a l1, φ (Ok a) l1 → logs (k a) (λ b l, ψ b (l1 ++ l))) → logs (try_or m h k) ψ.
Proof. intros Hm Hh Hk. eapply logs_bind; [exact Hm|]. intros [a|e]; auto. Qed.

Lemma logs_ret {A} (a : A) (φ : A → list E → Prop) : φ a [] → logs (ret a) φ.
Proof. intros H. by apply traces_ret. Qed.

Lemma logs_traced {A} (ev : A → E) (m : M S A) : logs (traced ev m) (λ a l, l = [ev a]).
Proof. intros [s lg] _. unfold traced. cbn. destruct (m s). by eexists. Qed.

Lemma logs_silent {A} (m : M S A) : logs (on_fst m) (λ _ l, l = []).
Proof. intros [s lg] _. unfold on_fst. cbn. destruct (m s). exists []. by rewrite app_nil_r. Qed.

Lemma logs_discard {A} (m : M (S * list E) A) (φ : unit → list E → Prop) :
  logs m (λ _, φ tt) → logs (discard m) φ.
Proof. intros Hm. by apply traces_discard. Qed.

Lemma logs_when b (m : M (S * list E) unit) (φ : unit → list E → Prop) :
  logs m φ → φ tt [] → logs (when b m) φ.
Proof. intros Hm H0. destruct b; [exact Hm|by apply logs_ret]. Qed.

(** A step that logs nothing. *)
Lemma logs_step {A B} (m : M (S * list E) A) (k : A → M (S * list E) B) ψ :
  logs m (λ _ l, l = []) → (∀ a, logs (k a) ψ) → logs (bind m k) ψ.
Proof. intros Hm Hk. eapply logs_bind; [exact Hm|]. intros a l1 ->. exact (Hk a). Qed.
End logs.
