(* ===== verification/NetIP.v ===== *)
(** * Textual IP addresses

    The part of Go's [net] the repository's guards rest on: [net.ParseIP] (the
    grammar of [net/netip], on the 16-byte form), the link-local predicates of
    [net.IP], [net.SplitHostPort], and the address filter the callers share. *)

From Stdlib Require Import Ascii.
From stdpp Require Import list strings.
From S2P Require Import Prelude GoStrings Apperr GoMonad.

(** ** [net.ParseIP] *)

(** A [net.IP] of 16 bytes. *)
Notation IP := (list Z).

(** One decimal field: digits, no leading zero, at most 255. *)
Definition v4_field (s : string) : option Z :=
  match s with
  | "" => None
  | String c rest =>
      if ascii_eqb c "0" && bool_decide (rest ≠ "") then None
      else n ← digits_val 0 s; if bool_decide (n ≤ 255)%Z then Some n else None
  end.
Definition parse_v4 (s : string) : option (list Z) :=
  match SplitChar "." s with
  | [a; b; c; d] => a ← v4_field a; b ← v4_field b; c ← v4_field c; d ← v4_field d; Some [a; b; c; d]
  | _ => None
  end.

(** The hexadecimal digits at the front, and their value. *)
Definition hex_val (c : ascii) : option Z :=
  if byte_in 48 57 c then Some (Z.of_nat (byte_val c) - 48)%Z
  else if byte_in 97 102 c then Some (Z.of_nat (byte_val c) - 87)%Z
  else if byte_in 65 70 c then Some (Z.of_nat (byte_val c) - 55)%Z
  else None.
Fixpoint take_hex (s : string) (n : nat) (acc : Z) : nat * Z * string :=
  match s with
  | String c s' =>
      match hex_val c with
      | Some d => take_hex s' (S n) (acc * 16 + d)%Z
      | None => (n, acc, s)
      end
  | "" => (n, acc, "")
  end.

(** The loop over the groups: the bytes so far and where the ellipsis is. *)
Fixpoint v6_groups (fuel : nat) (s : string) (ip : list Z) (ellipsis : option nat) :
    option (string * list Z * option nat) :=
  match fuel with
  | O => Some (s, ip, ellipsis)
  | S fuel =>
      let '(off, acc, rest) := take_hex s 0 0 in
      if bool_decide (off = 0) || bool_decide (4 < off) then None else
      let ip' := ip ++ [acc / 256; acc mod 256]%Z in
      match rest with
      | "" => Some ("", ip', ellipsis)
      | String c s1 =>
          if ascii_eqb c "." then
            if (bool_decide (ellipsis = None) && bool_decide (length ip ≠ 12)) || bool_decide (16 < length ip + 4)
            then None
            else q ← parse_v4 s; Some ("", ip ++ q, ellipsis)
          else if negb (ascii_eqb c ":") then None
          else match s1 with
               | "" => None
               | String c' s2 =>
                   if ascii_eqb c' ":" then
                     match ellipsis with
                     | Some _ => None
                     | None =>
                         if bool_decide (s2 = "") then Some ("", ip', Some (length ip'))
                         else v6_groups fuel s2 ip' (Some (length ip'))
                     end
                   else v6_groups fuel s1 ip' ellipsis
               end
      end
  end.
Definition parse_v6 (s : string) : option IP :=
  let start := if HasPrefix s "::" then Some (str_drop 2 s) else None in
  match start with
  | Some "" => Some (replicate 16 0%Z)
  | _ =>
      '(rest, ip, ellipsis) ← v6_groups 8 (default s start) []
                                (match start with Some _ => Some 0 | None => None end);
      if bool_decide (rest ≠ "") then None
      else if bool_decide (length ip < 16) then
        e ← ellipsis; Some (take e ip ++ replicate (16 - length ip) 0%Z ++ drop e ip)
      else match ellipsis with Some _ => None | None => Some ip end
  end.

(** The 16-byte form of an IPv4 address. *)
Definition v4_in_v6 (q : list Z) : IP := replicate 10 0%Z ++ [255; 255]%Z ++ q.

(** Which kind of address the text is, by its first separator; a zone makes
    [net.ParseIP] fail. *)
Fixpoint first_sep (s : string) : option ascii :=
  match s with
  | "" => None
  | String c s' => if ascii_eqb c "." || ascii_eqb c ":" then Some c else first_sep s'
  end.
Definition ParseIP (s : string) : option IP :=
  if str_elem "%" s then None
  else match first_sep s with
       | Some "."%char => v4_in_v6 <$> parse_v4 s
       | Some _ => parse_v6 s
       | None => None
       end.

(** ** Predicates of [net.IP] *)

(** [To4]. *)
Definition To4 (ip : IP) : option (list Z) :=
  if bool_decide (take 12 ip = replicate 10 0%Z ++ [255; 255]%Z) then Some (drop 12 ip) else None.

Definition IsLinkLocalUnicast (ip : IP) : bool :=
  match To4 ip with
  | Some q => bool_decide (take 2 q = [169; 254]%Z)
  | None => match ip with a :: b :: _ => bool_decide (a = 254)%Z && bool_decide (Z.land b 192 = 128)%Z | _ => false end
  end.
Definition IsLinkLocalMulticast (ip : IP) : bool :=
  match To4 ip with
  | Some q => bool_decide (take 3 q = [224; 0; 0]%Z)
  | None => match ip with a :: b :: _ => bool_decide (a = 255)%Z && bool_decide (Z.land b 15 = 2)%Z | _ => false end
  end.

(** The addresses of the metadata services, in their 16-byte form. *)
Definition metadata_v4 : IP := v4_in_v6 [169; 254; 169; 254]%Z.
Definition metadata_v6 : IP := [253; 0; 14; 194; 0; 0; 0; 0; 0; 0; 0; 0; 0; 0; 2; 84]%Z.
Example metadata_parsed :
  ParseIP "169.254.169.254" = Some metadata_v4 ∧ ParseIP "fd00:ec2::254" = Some metadata_v6.
Proof. by split. Qed.

(** Link-local or metadata: what [alerts] refuses to dial and [remotebackup] to
    dump. *)
Definition isMetadataIP (ip : IP) : bool := bool_decide (ip = metadata_v4) || bool_decide (ip = metadata_v6).
Definition blocked_ip (ip : IP) : bool :=
  IsLinkLocalUnicast ip || IsLinkLocalMulticast ip || isMetadataIP ip.

(** ** [String] *)

(** The 16-bit groups of an address. *)
Fixpoint ip_groups (ip : list Z) : list Z :=
  match ip with a :: b :: rest => (a * 256 + b)%Z :: ip_groups rest | _ => [] end.
Fixpoint zero_run (gs : list Z) : nat :=
  match gs with 0%Z :: rest => S (zero_run rest) | _ => 0 end.
(** The first longest run of at least two zero groups: its start and its end. *)
Definition longest_zeros (gs : list Z) : nat * nat :=
  foldl (λ acc i, let l := zero_run (drop i gs) in
                  if bool_decide (2 ≤ l) && bool_decide (acc.2 - acc.1 < l) then (i, i + l) else acc)
    (0, 0) (seq 0 8).
Definition IP_String (ip : IP) : string :=
  match To4 ip with
  | Some q => Join (itoa <$> q) "."
  | None =>
      let gs := ip_groups ip in
      let '(s, e) := longest_zeros gs in
      if bool_decide (s = e) then Join (fmt_x <$> gs) ":"
      else Join (fmt_x <$> take s gs) ":" +:+ "::" +:+ Join (fmt_x <$> drop e gs) ":"
  end.
Example print_examples :
  (IP_String <$> ParseIP "fe80:0:0:1::1", IP_String <$> ParseIP "::ffff:169.254.0.1", IP_String <$> ParseIP "fd00:ec2::254",
   IP_String <$> ParseIP "::", IP_String <$> ParseIP "1:0:3:4:5:6:7:8") =
  (Some "fe80:0:0:1::1", Some "169.254.0.1", Some "fd00:ec2::254", Some "::", Some "1:0:3:4:5:6:7:8").
Proof. reflexivity. Qed.

(** ** [net.SplitHostPort] *)

Fixpoint LastIndexByte (s : string) (c : ascii) : option nat :=
  match s with
  | "" => None
  | String d s' =>
      match LastIndexByte s' c with
      | Some n => Some (S n)
      | None => if ascii_eqb c d then Some 0 else None
      end
  end.
Definition addrErr (hostport why : string) : error := Errorf ("address " +:+ hostport +:+ ": " +:+ why).
Definition SplitHostPort (hostport : string) : result (string * string) :=
  match LastIndexByte hostport ":" with
  | None => Err (addrErr hostport "missing port in address")
  | Some i =>
      let finish (host : string) (j k : nat) :=
        if str_elem "[" (str_drop j hostport) then Err (addrErr hostport "unexpected '[' in address")
        else if str_elem "]" (str_drop k hostport) then Err (addrErr hostport "unexpected ']' in address")
        else Ok (host, str_drop (S i) hostport) in
      if HasPrefix hostport "[" then
        match Index hostport "]" with
        | None => Err (addrErr hostport "missing ']' in address")
        | Some e =>
            if bool_decide (S e = String.length hostport) then Err (addrErr hostport "missing port in address")
            else if bool_decide (S e = i) then finish (str_drop 1 (str_take e hostport)) 1 (S e)
            else if HasPrefix (str_drop (S e) hostport) ":" then Err (addrErr hostport "too many colons in address")
            else Err (addrErr hostport "missing port in address")
        end
      else if str_elem ":" (str_take i hostport) then Err (addrErr hostport "too many colons in address")
      else finish (str_take i hostport) 0 0
  end.

(** ** Facts *)

Example parse_examples :
  (ParseIP "::1", ParseIP "fe80::1", ParseIP "1.2.3.4", ParseIP "::ffff:10.0.0.1", ParseIP "01.2.3.4",
   ParseIP "1:2:3:4:5:6:7:8", ParseIP "1::2::3", ParseIP "fe80::1%eth0", ParseIP "localhost", ParseIP "1:2:3:4:5:6:7::") =
  (Some (replicate 15 0 ++ [1])%Z, Some ([254; 128] ++ replicate 13 0 ++ [1])%Z, Some (v4_in_v6 [1; 2; 3; 4])%Z,
   Some (v4_in_v6 [10; 0; 0; 1])%Z, None, Some [0; 1; 0; 2; 0; 3; 0; 4; 0; 5; 0; 6; 0; 7; 0; 8]%Z, None, None, None,
   Some [0; 1; 0; 2; 0; 3; 0; 4; 0; 5; 0; 6; 0; 7; 0; 0]%Z).
Proof. reflexivity. Qed.
Example split_examples :
  (SplitHostPort "[fe80::1]:443", SplitHostPort "10.0.0.1:80", is_ok (SplitHostPort "::1:80"), is_ok (SplitHostPort "host")) =
  (Ok ("fe80::1", "443"), Ok ("10.0.0.1", "80"), false, false).
Proof. reflexivity. Qed.

(** The dotted text of an IPv4 address. *)
Definition v4_text (a b c d : Z) : string := itoa a +:+ "." +:+ itoa b +:+ "." +:+ itoa c +:+ "." +:+ itoa d.

Lemma v4_field_itoa n : (0 ≤ n ≤ 255)%Z → v4_field (itoa n) = Some n.
Proof.
  intros Hn. assert (n ∈ seqZ 0 256) as Hin by (apply elem_of_seqZ; lia).
  assert (Forall (λ n, v4_field (itoa n) = Some n) (seqZ 0 256)) as Hall
    by (apply (bool_decide_unpack _); vm_compute; reflexivity).
  by apply (proj1 (Forall_forall _ _) Hall).
Qed.

Lemma digits_no (c : ascii) s :
  is_digit c = false → str_forallb is_digit s = true → str_forallb (λ a, negb (ascii_eqb a c)) s = true.
Proof.
  intros Hc. apply str_forallb_impl. intros a Ha. apply negb_true_iff, bool_decide_eq_false. congruence.
Qed.

Lemma parse_v4_text a b c d :
  (0 ≤ a ≤ 255)%Z → (0 ≤ b ≤ 255)%Z → (0 ≤ c ≤ 255)%Z → (0 ≤ d ≤ 255)%Z →
  parse_v4 (v4_text a b c d) = Some [a; b; c; d].
Proof.
  intros Ha Hb Hc Hd. unfold parse_v4, v4_text.
  assert (∀ n s, (0 ≤ n ≤ 255)%Z → SplitChar "." (itoa n +:+ "." +:+ s) = itoa n :: SplitChar "." s) as Hs.
  { intros n s Hn. apply (SplitChar_app_sep "."), digits_no; [done|apply itoa_digits; lia]. }
  rewrite !Hs by lia. rewrite SplitChar_none by (apply digits_no; [done|apply itoa_digits; lia]).
  by rewrite !v4_field_itoa.
Qed.

Lemma first_sep_digits s t :
  str_forallb is_digit s = true → first_sep (s +:+ "." +:+ t) = Some "."%char.
Proof.
  induction s as [|c s IH]; [done|]. cbn [str_forallb]. rewrite andb_true_iff. intros [Hc Hs].
  rewrite app_cons_str. cbn [first_sep]. unfold ascii_eqb.
  rewrite !bool_decide_false by (intros ->; discriminate). by apply IH.
Qed.

(** An IPv4 text parses to its 16-byte form. *)
Lemma ParseIP_v4 a b c d :
  (0 ≤ a ≤ 255)%Z → (0 ≤ b ≤ 255)%Z → (0 ≤ c ≤ 255)%Z → (0 ≤ d ≤ 255)%Z →
  ParseIP (v4_text a b c d) = Some (v4_in_v6 [a; b; c; d]).
Proof.
  intros Ha Hb Hc Hd. unfold ParseIP.
  assert (str_elem "%" (v4_text a b c d) = false) as ->.
  { rewrite str_elem_forallb. apply negb_false_iff. unfold v4_text. rewrite !str_forallb_app.
    assert (∀ n, (0 ≤ n ≤ 255)%Z → str_forallb (λ x, negb (ascii_eqb "%" x)) (itoa n) = true) as H.
    { intros n Hn. eapply str_forallb_impl; [|apply itoa_digits; lia].
      intros x Hx. apply negb_true_iff, bool_decide_eq_false. intros <-. done. }
    by rewrite !H. }
  unfold v4_text at 1. rewrite first_sep_digits by (apply itoa_digits; lia). by rewrite parse_v4_text.
Qed.

(** Every address of 169.254.0.0/16 is blocked, in dotted form. *)
Lemma blocked_v4 c d ip :
  (0 ≤ c ≤ 255)%Z → (0 ≤ d ≤ 255)%Z → ParseIP (v4_text 169 254 c d) = Some ip → blocked_ip ip = true.
Proof. intros Hc Hd. rewrite ParseIP_v4 by lia. intros [= <-]. done. Qed.
