(* ===== verification/GoTime.v ===== *)
(** * Calendar time

    The part of Go's [time] that object keys and time parameters rest on: a time is its Unix
    nanoseconds, [civil] its date in UTC (the proleptic Gregorian calendar), and
    [format_stamp] its text in the layout [20060102T150405Z].  For years of four
    digits the order of the texts is the order of the seconds
    ([format_stamp_lt]).  [Parse_RFC3339] is [time.Parse] of the layout RFC3339;
    what [format_RFC3339] writes it reads back ([Parse_format_RFC3339]). *)

From Stdlib Require Import Ascii Strings.String.
From stdpp Require Import list strings.
From S2P Require Import Prelude GoStrings.

(** ** The calendar *)

(** Days are counted from 1970-01-01; years here begin in March, so that the leap
    day is their last, and 400 of them are an era of 146097 days. *)
Definition era_year (doe : Z) : Z := ((doe - doe / 1460 + doe / 36524 - doe / 146096) / 365)%Z.
Definition year_start (y : Z) : Z := (365 * y + y / 4 - y / 100)%Z.

(** Of a day of such a year: how many years later its calendar year is, its month
    and its day. *)
Definition month_day (doy : Z) : Z * Z * Z :=
  let mp := ((5 * doy + 2) / 153)%Z in
  let d := (doy - (153 * mp + 2) / 5 + 1)%Z in
  if bool_decide (mp < 10)%Z then (0, mp + 3, d)%Z else (1, mp - 9, d)%Z.

(** The year, the month and the day of the month of a day. *)
Definition civil (days : Z) : Z * Z * Z :=
  let z := (days + 719468)%Z in
  let doe := (z mod 146097)%Z in
  let yoe := era_year doe in
  let '(carry, m, d) := month_day (doe - year_start yoe) in
  (400 * (z / 146097) + yoe + carry, m, d)%Z.

(** ** Formatting *)

(** A number in [w] decimal digits. *)
Definition digit (n : Z) : ascii := ascii_of_nat (48 + Z.to_nat n).
Fixpoint fixed (w : nat) (n : Z) : string :=
  match w with
  | O => ""
  | S w => fixed w (n / 10) +:+ String (digit (n mod 10)) ""
  end.

(** A year has at least four digits. *)
Definition format_year (y : Z) : string :=
  if bool_decide (0 ≤ y ≤ 9999)%Z then fixed 4 y
  else if bool_decide (y < 0)%Z then
    "-" +:+ (if bool_decide (-9999 ≤ y)%Z then fixed 4 (- y) else itoa (- y))
  else itoa y.

Definition seconds_of (t : Z) : Z := (t / 1000000000)%Z.

(** [t.UTC().Format("20060102T150405Z")]. *)
Definition format_stamp (t : Z) : string :=
  let secs := seconds_of t in
  let '(y, m, d) := civil (secs / 86400) in
  let sod := (secs mod 86400)%Z in
  format_year y +:+ fixed 2 m +:+ fixed 2 d +:+ "T" +:+
  fixed 2 (sod / 3600) +:+ fixed 2 (sod mod 3600 / 60) +:+ fixed 2 (sod mod 60) +:+ "Z".

(** [t.UTC().Format(time.RFC3339)]. *)
Definition format_RFC3339 (t : Z) : string :=
  let secs := seconds_of t in
  let '(y, m, d) := civil (secs / 86400) in
  let sod := (secs mod 86400)%Z in
  format_year y +:+ "-" +:+ fixed 2 m +:+ "-" +:+ fixed 2 d +:+ "T" +:+
  fixed 2 (sod / 3600) +:+ ":" +:+ fixed 2 (sod mod 3600 / 60) +:+ ":" +:+ fixed 2 (sod mod 60) +:+ "Z".

(** The year of a time has four digits. *)
Definition four_digit_year (t : Z) : Prop := (0 ≤ (civil (seconds_of t / 86400)).1.1 ≤ 9999)%Z.

Example stamps :
  (format_stamp 0, format_stamp 1709210096123456789, format_stamp 951782399000000000, format_stamp 4102444800000000000) =
  ("19700101T000000Z", "20240229T123456Z", "20000228T235959Z", "21000101T000000Z").
Proof. reflexivity. Qed.

(** ** The order of dates *)

Notation date_key d := (d.1.1 * 10000 + d.1.2 * 100 + d.2)%Z.

(** A check of [n] numbers from [z] on. *)
Fixpoint check_from (n : nat) (z : Z) (f : Z → bool) : bool :=
  match n with O => true | S n => f z && check_from n (z + 1) f end.
Lemma check_from_spec n z f i :
  check_from n z f = true → (z ≤ i < z + Z.of_nat n)%Z → f i = true.
Proof.
  revert z. induction n as [|n IH]; intros z; cbn [check_from]; [lia|]. rewrite andb_true_iff. intros [Hz Hn] Hi.
  destruct (decide (i = z)) as [->|]; [done|]. apply (IH (z + 1)%Z); [done|lia].
Qed.

(** The days of a year are in order. *)
Definition day_check (doy : Z) : bool :=
  let d := month_day doy in
  (1 <=? d.1.2)%Z && (d.1.2 <=? 12)%Z && (1 <=? d.2)%Z && (d.2 <=? 31)%Z &&
  (301 <=? date_key d)%Z && (date_key d <=? 10229)%Z &&
  ((doy =? 365)%Z || (date_key d <? date_key (month_day (doy + 1)))%Z).
Lemma day_checked (doy : Z) : (0 ≤ doy ≤ 365)%Z → day_check doy = true.
Proof. intros H. apply (check_from_spec 366 0); [vm_compute; reflexivity|lia]. Qed.

Lemma month_day_range (doy : Z) : (0 ≤ doy ≤ 365)%Z →
  (1 ≤ (month_day doy).1.2 ≤ 12 ∧ 1 ≤ (month_day doy).2 ≤ 31 ∧ 301 ≤ date_key (month_day doy) ≤ 10229)%Z.
Proof.
  intros H%day_checked. unfold day_check in H. rewrite !andb_true_iff, !Z.leb_le in H. lia.
Qed.

Lemma month_day_lt (a b : Z) : (0 ≤ a)%Z → (a < b ≤ 365)%Z → (date_key (month_day a) < date_key (month_day b))%Z.
Proof.
  intros Ha Hb. replace b with (a + Z.of_nat (S (Z.to_nat (b - a - 1))))%Z in * by lia.
  revert Hb. generalize (Z.to_nat (b - a - 1)) as n. induction n as [|n IH]; intros Hn.
  - pose proof (day_checked a ltac:(lia)) as H. unfold day_check in H.
    rewrite !andb_true_iff, orb_true_iff, Z.eqb_eq, Z.ltb_lt in H. change (Z.of_nat 1) with 1%Z in *. lia.
  - specialize (IH ltac:(lia)). pose proof (day_checked (a + Z.of_nat (S n)) ltac:(lia)) as H. unfold day_check in H.
    rewrite !andb_true_iff, orb_true_iff, Z.eqb_eq, Z.ltb_lt in H.
    replace (a + Z.of_nat (S (S n)))%Z with (a + Z.of_nat (S n) + 1)%Z by lia. lia.
Qed.

(** The year of a day of an era contains it. *)
Lemma era_year_spec (doe : Z) : (0 ≤ doe < 146097)%Z →
  (0 ≤ era_year doe ≤ 399 ∧ year_start (era_year doe) ≤ doe ≤ year_start (era_year doe) + 365 ∧
   (doe < year_start (era_year doe + 1) ∨ era_year doe = 399))%Z.
Proof.
  intros H. unfold era_year, year_start. Z.to_euclidean_division_equations. lia.
Qed.

Lemma year_start_le (a b : Z) : (0 ≤ a ≤ b)%Z → (year_start a ≤ year_start b)%Z.
Proof. intros H. unfold year_start. Z.to_euclidean_division_equations. lia. Qed.

(** The date of a day by its era, its year and its day of the year. *)
Lemma civil_parts (days : Z) : ∃ era yoe doy,
  civil days = (400 * era + yoe + (month_day doy).1.1, (month_day doy).1.2, (month_day doy).2)%Z ∧
  (days + 719468 = era * 146097 + year_start yoe + doy)%Z ∧
  (0 ≤ yoe ≤ 399)%Z ∧ (0 ≤ doy ≤ 365)%Z ∧ (year_start yoe + doy < 146097)%Z ∧
  (year_start yoe + doy < year_start (yoe + 1) ∨ yoe = 399)%Z.
Proof.
  unfold civil. set (z := (days + 719468)%Z).
  pose proof (Z.mod_pos_bound z 146097 ltac:(lia)) as Hm. pose proof (Z.div_mod z 146097 ltac:(lia)) as Hd.
  pose proof (era_year_spec (z mod 146097) Hm) as (Hy & Hs & Hn).
  exists (z / 146097)%Z, (era_year (z mod 146097)), (z mod 146097 - year_start (era_year (z mod 146097)))%Z.
  destruct (month_day _) as [[c m] d]. split; [done|]. cbn [fst snd]. lia.
Qed.

Lemma civil_range (a : Z) : (1 ≤ (civil a).1.2 ≤ 12 ∧ 1 ≤ (civil a).2 ≤ 31)%Z.
Proof.
  destruct (civil_parts a) as (era & yoe & doy & -> & _ & _ & Hd & _). cbn [fst snd].
  pose proof (month_day_range doy Hd). lia.
Qed.

Lemma civil_lt (a b : Z) : (a < b)%Z → (date_key (civil a) < date_key (civil b))%Z.
Proof.
  intros Hab. destruct (civil_parts a) as (e1 & y1 & d1 & -> & E1 & Hy1 & Hd1 & Hl1 & Hn1).
  destruct (civil_parts b) as (e2 & y2 & d2 & -> & E2 & Hy2 & Hd2 & Hl2 & Hn2). cbn [fst snd].
  pose proof (month_day_range d1 Hd1) as (_ & _ & H1). pose proof (month_day_range d2 Hd2) as (_ & _ & H2).
  pose proof (year_start_le 0 y1 ltac:(lia)). pose proof (year_start_le 0 y2 ltac:(lia)).
  change (year_start 0) with 0%Z in *.
  destruct (decide (e1 = e2)) as [->|]; [|assert (e1 < e2)%Z by lia; lia].
  destruct (decide (y1 = y2)) as [->|Hne].
  - pose proof (month_day_lt d1 d2 ltac:(lia) ltac:(lia)). lia.
  - assert (y1 < y2)%Z; [|lia]. destruct (decide (y2 < y1)%Z) as [Hlt|]; [|lia].
    pose proof (year_start_le (y2 + 1) y1 ltac:(lia)). lia.
Qed.

(** ** The order of texts *)

Lemma compare_app_l p a b : String.compare (p +:+ a) (p +:+ b) = String.compare a b.
Proof.
  induction p as [|c p IH]; [done|]. rewrite !app_cons_str. cbn. unfold Ascii.compare. by rewrite N.compare_refl.
Qed.

Lemma compare_app_r a b x y :
  String.length a = String.length b → String.compare a b = Lt → String.compare (a +:+ x) (b +:+ y) = Lt.
Proof.
  revert b. induction a as [|c a IH]; intros [|d b]; try done. cbn [String.length]. intros [= Hl].
  rewrite !app_cons_str. cbn. destruct (Ascii.compare c d); [by apply IH|done..].
Qed.

Lemma fixed_length w n : String.length (fixed w n) = w.
Proof. revert n. induction w as [|w IH]; intros n; [done|]. cbn. rewrite length_app_str, IH. cbn. lia. Qed.

Lemma digit_lt a b : (0 ≤ a < b)%Z → (b ≤ 9)%Z → Ascii.compare (digit a) (digit b) = Lt.
Proof.
  intros Ha Hb. unfold Ascii.compare, digit. apply N.compare_lt_iff.
  unfold ascii_of_nat. rewrite !N_ascii_embedding by lia. lia.
Qed.

Lemma fixed_lt w a b : (0 ≤ a < b)%Z → (b < 10 ^ Z.of_nat w)%Z → String.compare (fixed w a) (fixed w b) = Lt.
Proof.
  revert a b. induction w as [|w IH]; intros a b Ha Hb; [cbn in Hb; lia|].
  rewrite Nat2Z.inj_succ, Z.pow_succ_r in Hb by lia. cbn [fixed].
  destruct (decide (a / 10 = b / 10)%Z) as [He|Hne].
  - rewrite He, compare_app_l. cbn. clear IH Hb. rewrite digit_lt; [done| |]; Z.to_euclidean_division_equations; lia.
  - apply compare_app_r; [by rewrite !fixed_length|]. apply IH.
    + clear IH Hb. Z.to_euclidean_division_equations; lia.
    + apply Z.div_lt_upper_bound; lia.
Qed.

(** Two more digits. *)
Lemma fixed_app w a b : (0 ≤ b < 100)%Z → fixed w a +:+ fixed 2 b = fixed (2 + w) (a * 100 + b).
Proof.
  intros Hb. cbn [fixed Nat.add]. rewrite app_nil_l_str, <- app_assoc_str.
  replace ((a * 100 + b) / 10 / 10)%Z with a by (Z.to_euclidean_division_equations; lia).
  replace ((a * 100 + b) / 10 mod 10)%Z with (b / 10 mod 10)%Z by (Z.to_euclidean_division_equations; lia).
  by replace ((a * 100 + b) mod 10)%Z with (b mod 10)%Z by (Z.to_euclidean_division_equations; lia).
Qed.

(** Later seconds have later texts, for years of four digits. *)
Lemma format_stamp_lt a b :
  four_digit_year a → four_digit_year b → (seconds_of a < seconds_of b)%Z →
  String.compare (format_stamp a) (format_stamp b) = Lt.
Proof.
  unfold four_digit_year. intros Ha Hb Hlt.
  assert (∀ t, (0 ≤ (civil (seconds_of t / 86400)).1.1 ≤ 9999)%Z →
    format_stamp t = fixed 8 (date_key (civil (seconds_of t / 86400))) +:+ ("T" +:+
      (fixed 6 (let sod := seconds_of t mod 86400 in (sod / 3600 * 100 + sod mod 3600 / 60) * 100 + sod mod 60) +:+ "Z")))%Z
    as Hf.
  { intros t Ht. pose proof (civil_range (seconds_of t / 86400)) as Hr. unfold format_stamp. cbn zeta.
    pose proof (Z.mod_pos_bound (seconds_of t) 86400 ltac:(lia)). set (sod := (seconds_of t mod 86400)%Z) in *.
    destruct (civil (seconds_of t / 86400)) as [[y m] d]. cbn [fst snd] in *. unfold format_year. rewrite bool_decide_true by lia.
    rewrite <- (fixed_app 4) by (clear Hr Ht; Z.to_euclidean_division_equations; lia).
    rewrite <- (fixed_app 2) by (clear Hr Ht; Z.to_euclidean_division_equations; lia).
    replace (y * 10000 + m * 100 + d)%Z with ((y * 100 + m) * 100 + d)%Z by lia.
    rewrite <- (fixed_app 6), <- (fixed_app 4) by lia. by rewrite !app_assoc_str. }
  rewrite !Hf by done. destruct (decide (seconds_of a / 86400 = seconds_of b / 86400)%Z) as [E|Hne].
  - rewrite E, !compare_app_l. apply compare_app_r; [by rewrite !fixed_length|].
    clear - Hlt E. apply fixed_lt; cbn zeta; Z.to_euclidean_division_equations; lia.
  - assert (seconds_of a / 86400 < seconds_of b / 86400)%Z as Hd
      by (clear - Hlt Hne; Z.to_euclidean_division_equations; lia).
    apply compare_app_r; [by rewrite !fixed_length|].
    pose proof (civil_lt _ _ Hd). pose proof (civil_range (seconds_of a / 86400)).
    pose proof (civil_range (seconds_of b / 86400)). apply fixed_lt; [lia|]. change (10 ^ Z.of_nat 8)%Z with 100000000%Z. lia.
Qed.

Lemma fixed_year_length t : four_digit_year t → String.length (format_stamp t) = 16.
Proof.
  unfold four_digit_year, format_stamp. cbn zeta. destruct (civil (seconds_of t / 86400)) as [[y m] d]. cbn [fst snd].
  intros H. unfold format_year. rewrite bool_decide_true by done. rewrite !length_app_str, !fixed_length. done.
Qed.

(** ** Parsing RFC 3339: [time.Parse(time.RFC3339, s)]

    Only whether parsing fails is modelled, not its message. *)

Definition digit_value (c : ascii) : Z := Z.of_nat (byte_val c) - 48.
(** [getnum]: two digits, or one where the layout allows it. *)
Definition getnum (fixed : bool) (s : string) : option (Z * string) :=
  match s with
  | String a s' =>
      if is_digit a then
        match s' with
        | String b s'' =>
            if is_digit b then Some (10 * digit_value a + digit_value b, s'')%Z
            else if fixed then None else Some (digit_value a, s')
        | EmptyString => if fixed then None else Some (digit_value a, s')
        end
      else None
  | EmptyString => None
  end.
Definition getnum_in (fixed : bool) (lo hi : Z) (s : string) : option (Z * string) :=
  '(n, s) ← getnum fixed s; if bool_decide (lo ≤ n ≤ hi)%Z then Some (n, s) else None.
Definition skip_byte (c : ascii) (s : string) : option string :=
  match s with String a s' => if ascii_eqb a c then Some s' else None | EmptyString => None end.

Fixpoint digits_prefix (s : string) : string * string :=
  match s with
  | String c s' => if is_digit c then let '(a, b) := digits_prefix s' in (String c a, b) else ("", s)
  | EmptyString => ("", "")
  end.
(** A fraction of a second, in nanoseconds: nine digits count. *)
Definition fraction (s : string) : Z * string :=
  match s with
  | String p (String d _ as s') =>
      if (ascii_eqb p "."%char || ascii_eqb p ","%char) && is_digit d then
        let '(ds, rest) := digits_prefix s' in
        let ds := str_take 9 ds in
        (default 0 (digits_val 0 ds) * 10 ^ (9 - Z.of_nat (String.length ds)), rest)%Z
      else (0%Z, s)
  | _ => (0%Z, s)
  end.
(** The offset of the zone in seconds. *)
Definition zone (s : string) : option (Z * string) :=
  match s with
  | String c s' =>
      if ascii_eqb c "Z"%char then Some (0%Z, s') else
      '(hr, s1) ← getnum_in true 0 24 s';
      s2 ← skip_byte ":"%char s1;
      '(mm, s3) ← getnum_in true 0 60 s2;
      let offset := ((hr * 60 + mm) * 60)%Z in
      if ascii_eqb c "+"%char then Some (offset, s3)
      else if ascii_eqb c "-"%char then Some (- offset, s3)%Z else None
  | EmptyString => None
  end.

Definition is_leap (y : Z) : bool := (y mod 4 =? 0)%Z && (negb (y mod 100 =? 0)%Z || (y mod 400 =? 0)%Z).
Definition days_in (m y : Z) : Z :=
  if bool_decide (m = 2)%Z then (if is_leap y then 29 else 28)%Z
  else if bool_decide (m ∈ [4; 6; 9; 11])%Z then 30%Z else 31%Z.
(** The day of a date, the inverse of [civil]. *)
Definition day_of_year (m d : Z) : Z := ((153 * ((m + 9) mod 12) + 2) / 5 + d - 1)%Z.
Definition days_of_civil (y m d : Z) : Z :=
  let y := (if bool_decide (m ≤ 2) then y - 1 else y)%Z in
  (y / 400 * 146097 + year_start (y mod 400) + day_of_year m d - 719468)%Z.

Definition Parse_RFC3339 (s : string) : option Z :=
  '(y1, s) ← getnum true s; '(y2, s) ← getnum true s; s ← skip_byte "-"%char s;
  '(m, s) ← getnum_in true 1 12 s; s ← skip_byte "-"%char s;
  '(d, s) ← getnum true s; s ← skip_byte "T"%char s;
  '(hour, s) ← getnum_in false 0 23 s; s ← skip_byte ":"%char s;
  '(min, s) ← getnum_in true 0 59 s; s ← skip_byte ":"%char s;
  '(sec, s) ← getnum_in true 0 59 s;
  let '(nsec, s) := fraction s in
  '(offset, s) ← zone s;
  let y := (100 * y1 + y2)%Z in
  if bool_decide (s = "") && bool_decide (1 ≤ d ≤ days_in m y)%Z
  then Some ((((days_of_civil y m d * 24 + hour) * 60 + min) * 60 + sec - offset) * 1000000000 + nsec)%Z
  else None.

Example times :
  Parse_RFC3339 <$> ["2024-02-29T12:34:56Z"; "1970-01-01T00:00:00.5+01:00"; "2023-02-29T00:00:00Z"; "2024-02-29T12:34:56"; "2024-01-01T3:04:05,25-00:30"] =
  [Some 1709210096000000000; Some (-3599500000000); None; None; Some 1704080045250000000]%Z.
Proof. vm_compute. reflexivity. Qed.

(** ** Parsing what was formatted *)

Lemma digit_byte n : (0 ≤ n ≤ 9)%Z → is_digit (digit n) = true ∧ digit_value (digit n) = n.
Proof.
  intros H. assert (check_from 10 0 (λ n, is_digit (digit n) && (digit_value (digit n) =? n)%Z) = true) as Hc by reflexivity.
  apply (check_from_spec 10 0 _ n) in Hc; [|lia]. apply andb_true_iff in Hc as [H1 H2%Z.eqb_eq]. done.
Qed.

Lemma fixed2 n s : (0 ≤ n < 100)%Z → fixed 2 n +:+ s = String (digit (n / 10)) (String (digit (n mod 10)) s).
Proof.
  intros H. cbn [fixed]. rewrite !app_nil_l_str. replace (n / 10 mod 10)%Z with (n / 10)%Z; [done|].
  Z.to_euclidean_division_equations; lia.
Qed.

Lemma getnum_fixed2 b n s : (0 ≤ n < 100)%Z → getnum b (fixed 2 n +:+ s) = Some (n, s).
Proof.
  intros H. rewrite fixed2 by done.
  destruct (digit_byte (n / 10)) as [H1 H2]; [Z.to_euclidean_division_equations; lia|].
  destruct (digit_byte (n mod 10)) as [H3 H4]; [Z.to_euclidean_division_equations; lia|].
  cbn [getnum]. rewrite H1, H3, H2, H4. do 2 f_equal. Z.to_euclidean_division_equations; lia.
Qed.

Lemma getnum_in_fixed2 b lo hi n s : (0 ≤ lo ≤ n ∧ n ≤ hi ∧ n < 100)%Z → getnum_in b lo hi (fixed 2 n +:+ s) = Some (n, s).
Proof. intros H. unfold getnum_in. rewrite getnum_fixed2 by lia. cbn [mbind option_bind]. by rewrite bool_decide_true by lia. Qed.

(** The date of a day gives the day back, and is one of the calendar's. *)
Lemma month_day_inverse doy : (0 ≤ doy ≤ 365)%Z →
  day_of_year (month_day doy).1.2 (month_day doy).2 = doy ∧
  (month_day doy).1.1 = (if bool_decide ((month_day doy).1.2 ≤ 2) then 1 else 0)%Z ∧
  (doy ≤ 364 → (month_day doy).2 ≤ days_in (month_day doy).1.2 1)%Z ∧
  ((month_day doy).2 ≤ days_in (month_day doy).1.2 4)%Z.
Proof.
  intros H.
  assert (check_from 366 0 (λ doy, let d := month_day doy in
    (day_of_year d.1.2 d.2 =? doy)%Z && (d.1.1 =? (if bool_decide (d.1.2 ≤ 2) then 1 else 0))%Z &&
    (negb (doy <=? 364)%Z || (d.2 <=? days_in d.1.2 1)%Z) && (d.2 <=? days_in d.1.2 4)%Z) = true) as Hc by (vm_compute; reflexivity).
  apply (check_from_spec 366 0 _ doy) in Hc; [|lia]. cbn zeta in Hc.
  rewrite !andb_true_iff, orb_true_iff, negb_true_iff, !Z.eqb_eq, !Z.leb_le, Z.leb_gt in Hc. lia.
Qed.

Lemma civil_inverse days : let c := civil days in days_of_civil c.1.1 c.1.2 c.2 = days.
Proof.
  cbn zeta. destruct (civil_parts days) as (era & yoe & doy & -> & E & Hy & Hd & Hl & Hn). cbn [fst snd].
  destruct (month_day_inverse doy Hd) as (H1 & H2 & _ & _). rewrite H2. unfold days_of_civil. rewrite H1.
  replace (if bool_decide ((month_day doy).1.2 ≤ 2)%Z
           then 400 * era + yoe + (if bool_decide ((month_day doy).1.2 ≤ 2)%Z then 1 else 0) - 1
           else 400 * era + yoe + (if bool_decide ((month_day doy).1.2 ≤ 2)%Z then 1 else 0))%Z with (400 * era + yoe)%Z
    by (case_bool_decide; lia).
  replace ((400 * era + yoe) / 400)%Z with era by (clear Hl Hn E; Z.to_euclidean_division_equations; lia).
  replace ((400 * era + yoe) mod 400)%Z with yoe by (clear Hl Hn E; Z.to_euclidean_division_equations; lia). lia.
Qed.

Lemma days_in_leap m y : (days_in m 1 ≤ days_in m y)%Z ∧ (is_leap y = true → days_in m y = days_in m 4).
Proof.
  unfold days_in. change (is_leap 1) with false. change (is_leap 4) with true. split.
  - case_bool_decide; [destruct (is_leap y); lia|]. case_bool_decide; lia.
  - intros ->. done.
Qed.

Lemma civil_day days : let c := civil days in (1 ≤ c.2 ≤ days_in c.1.2 c.1.1)%Z.
Proof.
  cbn zeta. pose proof (civil_range days) as [_ Hr]. split; [lia|].
  destruct (civil_parts days) as (era & yoe & doy & -> & E & Hy & Hd & Hl & Hn). cbn [fst snd].
  destruct (month_day_inverse doy Hd) as (_ & Hc & H1 & H2).
  set (y := (400 * era + yoe + (month_day doy).1.1)%Z) in *.
  destruct (days_in_leap (month_day doy).1.2 y) as [Hle Hleap].
  destruct (decide (doy = 365)%Z) as [->|]; [|specialize (H1 ltac:(lia)); lia].
  rewrite Hleap; [done|]. unfold y, is_leap. change ((month_day 365).1.1) with 1%Z.
  rewrite andb_true_iff, orb_true_iff, negb_true_iff, !Z.eqb_eq, Z.eqb_neq. clear -Hn Hy Hl. unfold year_start in *.
  Z.to_euclidean_division_equations. lia.
Qed.

Lemma skip_byte_app c s : skip_byte c (String c "" +:+ s) = Some s.
Proof. rewrite app_cons_str, app_nil_l_str. unfold skip_byte. by rewrite ascii_eqb_refl. Qed.

(** Parsing a formatted time gives its seconds back, for years of four digits. *)
Lemma Parse_format_RFC3339 t : four_digit_year t → Parse_RFC3339 (format_RFC3339 t) = Some (seconds_of t * 1000000000)%Z.
Proof.
  unfold four_digit_year, format_RFC3339. cbn zeta. intros Hy.
  pose proof (civil_range (seconds_of t / 86400)) as [Hm Hd]. pose proof (civil_day (seconds_of t / 86400)) as Hday.
  pose proof (civil_inverse (seconds_of t / 86400)) as Hinv. cbn zeta in Hday, Hinv.
  pose proof (Z.mod_pos_bound (seconds_of t) 86400 ltac:(lia)) as Hs. set (sod := (seconds_of t mod 86400)%Z) in *.
  destruct (civil (seconds_of t / 86400)) as [[y m] d]. cbn [fst snd] in *.
  assert (0 ≤ sod / 3600 ≤ 23 ∧ 0 ≤ sod mod 3600 / 60 ≤ 59 ∧ 0 ≤ sod mod 60 ≤ 59)%Z as (Hh & Hmi & Hse)
    by (clear -Hs; Z.to_euclidean_division_equations; lia).
  unfold format_year. rewrite bool_decide_true by lia.
  replace (fixed 4 y) with (fixed 2 (y / 100) +:+ fixed 2 (y mod 100))
    by (rewrite fixed_app by (clear -Hy; Z.to_euclidean_division_equations; lia); cbn [Nat.add]; f_equal;
        clear -Hy; Z.to_euclidean_division_equations; lia).
  rewrite !app_assoc_str. unfold Parse_RFC3339.
  rewrite !getnum_fixed2 by (clear -Hy; Z.to_euclidean_division_equations; lia). cbn [mbind option_bind].
  rewrite getnum_fixed2 by (clear -Hy; Z.to_euclidean_division_equations; lia). cbn [mbind option_bind].
  rewrite skip_byte_app. cbn [mbind option_bind]. rewrite getnum_in_fixed2 by lia. cbn [mbind option_bind].
  rewrite skip_byte_app. cbn [mbind option_bind]. rewrite getnum_fixed2 by lia. cbn [mbind option_bind].
  rewrite skip_byte_app. cbn [mbind option_bind]. rewrite getnum_in_fixed2 by lia. cbn [mbind option_bind].
  rewrite skip_byte_app. cbn [mbind option_bind]. rewrite getnum_in_fixed2 by lia. cbn [mbind option_bind].
  rewrite skip_byte_app. cbn [mbind option_bind]. rewrite getnum_in_fixed2 by lia. cbn [mbind option_bind].
  change (fraction "Z") with (0%Z, "Z"). cbv match. change (zone "Z") with (Some (0%Z, "")). cbn [mbind option_bind].
  replace (100 * (y / 100) + y mod 100)%Z with y by (clear -Hy; Z.to_euclidean_division_equations; lia).
  rewrite (bool_decide_true ("" = "")), (bool_decide_true (1 ≤ d ≤ _)%Z), Hinv by done. cbn [andb]. f_equal.
  pose proof (Z.div_mod (seconds_of t) 86400 ltac:(lia)). fold sod in H. clear -H Hs. Z.to_euclidean_division_equations; lia.
Qed.
