(* ===== verification/OsExec.v ===== *)
(** * Running programs

    What the repository uses of [os/exec]: a program run with its arguments, its
    environment and its standard input, to its end.  What the program does to the
    world is the interface's.  [uniqueSuffix] is the helper both dump services
    have. *)

From stdpp Require Import list strings.
From S2P Require Import Prelude GoStrings Apperr GoMonad.

(** A command, and what [Run] leaves: its outputs and its error. *)
Record Cmd := mkCmd {
  cmd_Name : string;
  cmd_Args : list string;
  cmd_Env : list string;
  cmd_Stdin : string;
}.
Record CmdResult := mkCmdResult {
  cr_Stdout : string;
  cr_Stderr : string;
  cr_Err : option error;
}.

(** [Run], and [os.Environ]. *)
Class OsExec (S : Type) := {
  exec_Run : Cmd → M S CmdResult;
  os_Environ : list string;
}.

(** [hex.EncodeToString], and the random suffix of an object key: six bytes in hexadecimal.  Without
    entropy it is what formatting a time with the layout [000000000] gives, and
    that layout has no verb. *)
Definition hex_bytes (s : string) : string :=
  replace_bytes (λ c, String (hex_digit (byte_val c / 16)) (String (hex_digit (byte_val c mod 16)) "")) s.
Definition uniqueSuffix (rand : result string) : string :=
  match rand with
  | Ok b => hex_bytes b
  | Err _ => ToLower "000000000"
  end.
