(* ===== verification/ObjectStore.v ===== *)
(** * The object store: [internal/objectstore]

    The bucket the control plane writes dumps to, over the S3 client of the AWS
    SDK, which is an interface ([S3Client]): what the package adds is the
    validation of its settings, the client's options and the classification of
    errors.  [S3Laws] is what the callers rely on, over the view [objects]. *)

From Stdlib Require Import Ascii.
From stdpp Require Import gmap strings.
From S2P Require Import Prelude GoStrings Apperr GoMonad.

(** ** Settings *)

(** [Config]. *)
Record S3Config := mkS3Config {
  s3c_Endpoint : string;
  s3c_Region : string;
  s3c_AccessKey : string;
  s3c_SecretKey : string;
  s3c_Bucket : string;
  s3c_UseTLS : bool;
  s3c_SkipTLSVerify : bool;
}.

(** [Validate]. *)
Definition S3Config_Validate (c : S3Config) : result unit :=
  if bool_decide (s3c_Endpoint c = "") then Err (New KindInvalid "objectstore: endpoint required")
  else if bool_decide (s3c_Bucket c = "") then Err (New KindInvalid "objectstore: bucket required")
  else if bool_decide (s3c_AccessKey c = "") || bool_decide (s3c_SecretKey c = "") then
    Err (New KindInvalid "objectstore: credentials required")
  else Ok tt.

(** [endpointURL]. *)
Definition endpointURL (c : S3Config) : string :=
  if Contains (s3c_Endpoint c) "://" then s3c_Endpoint c
  else if s3c_UseTLS c || s3c_SkipTLSVerify c then "https://" +:+ s3c_Endpoint c
  else "http://" +:+ s3c_Endpoint c.

(** ** The SDK *)

(** An error of the SDK: the modelled type it carries, the error code of an
    [APIError], and its text. *)
Record AwsError := mkAws { aws_type : string; aws_code : option string; aws_text : string }.
Definition aws_error (e : AwsError) : error := Errorf (aws_text e).

(** What [newClient] passes to the SDK. *)
Record S3Options := mkS3Options {
  s3o_BaseEndpoint : string;
  s3o_UsePathStyle : bool;
  s3o_Region : string;
  s3o_AccessKey : string;
  s3o_SecretKey : string;
  s3o_InsecureSkipVerify : bool;
}.

(** The SDK: loading its configuration, and the calls on a bucket; listing gives
    the keys of the pages read and the error that ended it, if any. *)
Class S3Client (S : Type) := {
  s3_Load : string → M S (result unit);
  s3_Head : S3Options → string → M S (AwsError + unit);
  s3_Create : S3Options → string → M S (AwsError + unit);
  s3_Put : S3Options → string → string → string → M S (AwsError + unit);
  s3_Get : S3Options → string → string → M S (AwsError + result string);
  s3_List : S3Options → string → string → M S (list (list string) * option AwsError);
  s3_Delete : S3Options → string → string → M S (AwsError + unit);
}.

(** ** Operations *)

Section operations.
Context {S : Type} {C : S3Client S}.

(** [newClient]. *)
Definition newClient (c : S3Config) : M S (result S3Options) :=
  _ <-? s3_Load (s3c_Region c)
    orelse (λ e, fail (Wrap KindInternal "objectstore: load aws config" e)) ;;
  ok (mkS3Options (endpointURL c) true (s3c_Region c) (s3c_AccessKey c) (s3c_SecretKey c) (s3c_SkipTLSVerify c)).

(** The opening of every operation. *)
Definition with_client {A} (c : S3Config) (k : S3Options → M S (result A)) : M S (result A) :=
  _ <-? lift_r (S3Config_Validate c) ;;
  client <-? newClient c ;;
  k client.

(** [BucketExists]. *)
Definition BucketExists (c : S3Config) : M S (result bool) :=
  with_client c (λ client,
    r <- s3_Head client (s3c_Bucket c) ;;
    match r with
    | inr _ => ok true
    | inl e =>
        if bool_decide (aws_type e = "NotFound") then ok false
        else if bool_decide (aws_code e = Some "NotFound") || bool_decide (aws_code e = Some "NoSuchBucket") then ok false
        else fail (Wrap KindInternal "objectstore: head bucket" (aws_error e))
    end).

(** [EnsureBucket]. *)
Definition EnsureBucket (c : S3Config) : M S (result unit) :=
  with_client c (λ client,
    r <- s3_Head client (s3c_Bucket c) ;;
    match r with
    | inr _ => done_ok
    | inl _ =>
        r <- s3_Create client (s3c_Bucket c) ;;
        match r with
        | inr _ => done_ok
        | inl e =>
            if bool_decide (aws_type e = "BucketAlreadyOwnedByYou") || bool_decide (aws_type e = "BucketAlreadyExists")
            then done_ok
            else if bool_decide (aws_code e = Some "BucketAlreadyOwnedByYou") then done_ok
            else fail (Wrap KindInternal "objectstore: create bucket" (aws_error e))
        end
    end).

(** [PutObject]. *)
Definition PutObject (c : S3Config) (key data : string) : M S (result unit) :=
  with_client c (λ client,
    r <- s3_Put client (s3c_Bucket c) key data ;;
    match r with
    | inr _ => done_ok
    | inl e => fail (Wrap KindInternal "objectstore: put object" (aws_error e))
    end).

(** [mapGetError]. *)
Definition mapGetError (e : AwsError) : error :=
  if bool_decide (aws_type e = "NoSuchKey") || bool_decide (aws_type e = "NotFound") then
    Wrap KindNotFound "objectstore: object not found" (aws_error e)
  else match aws_code e with
       | Some code =>
           if bool_decide (code ∈ ["NoSuchKey"; "NotFound"; "404"])
           then Wrap KindNotFound "objectstore: object not found" (aws_error e)
           else Wrap KindInternal "objectstore: get object" (aws_error e)
       | None => Wrap KindInternal "objectstore: get object" (aws_error e)
       end.

(** [GetObject]: the body is read after the call, and that may fail too. *)
Definition GetObject (c : S3Config) (key : string) : M S (result string) :=
  with_client c (λ client,
    r <- s3_Get client (s3c_Bucket c) key ;;
    match r with
    | inl e => fail (mapGetError e)
    | inr (Err e) => fail (Wrap KindInternal "objectstore: read object body" e)
    | inr (Ok data) => ok data
    end).

(** [ListObjects]. *)
Definition ListObjects (c : S3Config) (prefix : string) : M S (result (list string)) :=
  with_client c (λ client,
    r <- s3_List client (s3c_Bucket c) prefix ;;
    let '(pages, err) := r in
    match err with
    | Some e => fail (Wrap KindInternal "objectstore: list objects" (aws_error e))
    | None => ok (mjoin pages)
    end).

(** [DeleteObject]. *)
Definition DeleteObject (c : S3Config) (key : string) : M S (result unit) :=
  with_client c (λ client,
    r <- s3_Delete client (s3c_Bucket c) key ;;
    match r with
    | inr _ => done_ok
    | inl e => fail (Wrap KindInternal "objectstore: delete object" (aws_error e))
    end).
End operations.

(** ** What S3 promises *)

(** Calls on one bucket, over its objects.  A call that fails may have had its
    effect all the same: the answer was lost. *)
Class S3Laws (S : Type) `{C : S3Client S} := {
  objects : S → gmap string string;
  s3_Load_law region s : wp (s3_Load region) (λ _ s', objects s' = objects s) s;
  s3_Head_law o b s : wp (s3_Head o b) (λ _ s', objects s' = objects s) s;
  s3_Create_law o b s : wp (s3_Create o b) (λ _ s', objects s' = objects s) s;
  s3_Put_law o b key data s : wp (s3_Put o b key data) (λ r s',
    match r with
    | inr _ => objects s' = <[key := data]> (objects s)
    | inl _ => objects s' = objects s ∨ objects s' = <[key := data]> (objects s)
    end) s;
  s3_Get_law o b key s : wp (s3_Get o b key) (λ r s', objects s' = objects s ∧
    match r with inr (Ok data) => objects s !! key = Some data | _ => True end) s;
  s3_List_law o b prefix s : wp (s3_List o b prefix) (λ r s', objects s' = objects s ∧
    match r with
    | (pages, None) => NoDup (mjoin pages) ∧
        ∀ k, k ∈ mjoin pages ↔ is_Some (objects s !! k) ∧ HasPrefix k prefix = true
    | _ => True
    end) s;
  s3_Delete_law o b key s : wp (s3_Delete o b key) (λ r s',
    match r with
    | inr _ => objects s' = delete key (objects s)
    | inl _ => objects s' = objects s ∨ objects s' = delete key (objects s)
    end) s;
}.

Section rules.
Context {S : Type} {C : S3Client S} {L : S3Laws S}.

Lemma wp_with_client {A} c (k : S3Options → M S (result A)) (Q : result A → S → Prop) s :
  (∀ e s', objects s' = objects s → Q (Err e) s') →
  (∀ client s', objects s' = objects s → wp (k client) Q s') →
  wp (with_client c k) Q s.
Proof.
  intros He Hk. unfold with_client. apply wp_try, wp_ret. destruct (S3Config_Validate c); [|by apply He].
  apply wp_try. unfold newClient. apply wp_try_or. eapply wp_mono; [apply s3_Load_law|].
  intros [[]|e] s1 H1; apply wp_ret; [by apply Hk|by apply He].
Qed.

Lemma wp_PutObject c key data (Q : result unit → S → Prop) s :
  (∀ e s', objects s' = objects s ∨ objects s' = <[key := data]> (objects s) → Q (Err e) s') →
  (∀ s', objects s' = <[key := data]> (objects s) → Q (Ok tt) s') →
  wp (PutObject c key data) Q s.
Proof.
  intros He Ho. apply wp_with_client; [intros e s' H; apply He; by left|]. intros client s1 H1.
  apply wp_bind. eapply wp_mono; [apply s3_Put_law|]. rewrite H1.
  intros [e|[]] s2 H2; apply wp_ret; [by apply He|by apply Ho].
Qed.

Lemma wp_GetObject c key (Q : result string → S → Prop) s :
  (∀ e s', objects s' = objects s → Q (Err e) s') →
  (∀ data s', objects s' = objects s → objects s !! key = Some data → Q (Ok data) s') →
  wp (GetObject c key) Q s.
Proof.
  intros He Ho. apply wp_with_client; [done|]. intros client s1 H1.
  apply wp_bind. eapply wp_mono; [apply s3_Get_law|]. rewrite H1.
  intros [e|[data|e]] s2 [H2 Hd]; apply wp_ret; [by apply He|by apply Ho|by apply He].
Qed.

Lemma wp_ListObjects c prefix (Q : result (list string) → S → Prop) s :
  (∀ e s', objects s' = objects s → Q (Err e) s') →
  (∀ keys s', objects s' = objects s → NoDup keys →
     (∀ k, k ∈ keys ↔ is_Some (objects s !! k) ∧ HasPrefix k prefix = true) → Q (Ok keys) s') →
  wp (ListObjects c prefix) Q s.
Proof.
  intros He Ho. apply wp_with_client; [done|]. intros client s1 H1.
  apply wp_bind. eapply wp_mono; [apply s3_List_law|]. rewrite H1.
  intros [pages [e|]] s2 [H2 Hk]; apply wp_ret; [by apply He|]. destruct Hk. by apply Ho.
Qed.

Lemma wp_DeleteObject c key (Q : result unit → S → Prop) s :
  (∀ e s', objects s' = objects s ∨ objects s' = delete key (objects s) → Q (Err e) s') →
  (∀ s', objects s' = delete key (objects s) → Q (Ok tt) s') →
  wp (DeleteObject c key) Q s.
Proof.
  intros He Ho. apply wp_with_client; [intros e s' H; apply He; by left|]. intros client s1 H1.
  apply wp_bind. eapply wp_mono; [apply s3_Delete_law|]. rewrite H1.
  intros [e|[]] s2 H2; apply wp_ret; [by apply He|by apply Ho].
Qed.
End rules.

(** ** A bucket in memory *)

#[export] Instance memory_bucket : S3Client (gmap string string) := {
  s3_Load _ := ret (Ok tt);
  s3_Head _ _ := ret (inr tt);
  s3_Create _ _ := ret (inr tt);
  s3_Put _ _ key data := λ s, (inr tt, <[key := data]> s);
  s3_Get _ _ key := λ s, (match s !! key with
                          | Some d => inr (Ok d)
                          | None => inl (mkAws "NoSuchKey" (Some "NoSuchKey") "no such key")
                          end, s);
  s3_List _ _ prefix := λ s, (([filter (λ k, HasPrefix k prefix = true) (map_to_list s).*1], None), s);
  s3_Delete _ _ key := λ s, (inr tt, delete key s);
}.
#[export] Instance memory_bucket_laws : S3Laws (gmap string string).
Proof.
  refine {| objects := λ s, s |}; intros; unfold wp; cbn; try done.
  - split; [done|]. by destruct (s !! key) eqn:E.
  - split; [done|]. rewrite app_nil_r. split; [apply NoDup_filter, NoDup_fst_map_to_list|].
    intros k. rewrite list_elem_of_filter, list_elem_of_fmap. split.
    + intros [Hp ([k' v] & -> & Hin)]. apply elem_of_map_to_list in Hin. by split; [eexists|].
    + intros [[v Hv] Hp]. split; [done|]. exists (k, v). by rewrite elem_of_map_to_list.
Defined.
