(* ===== verification/PgConfig.v ===== *)
(** * User configuration: [internal/pgconfig]

    The validation boundary of user-supplied GUCs and extensions. *)

From Stdlib Require Import Ascii.
From S2P Require Import Prelude GoStrings Apperr GoMonad.

Implicit Types (k v : string).

(** ** Data *)

(** [platformOwned]. *)
Definition platformOwned : list string :=
  ["archive_mode"; "archive_command"; "wal_level"; "max_wal_senders";
   "max_replication_slots"; "max_slot_wal_keep_size"; "hot_standby";
   "shared_preload_libraries"].

(** [statStatements]. *)
Definition statStatements : string := "pg_stat_statements".

(** [extension]. *)
Record extension := Extension { ext_name : string; ext_preloadLibrary : string }.

(** [allowedExtensions]. *)
Definition allowedExtensions : list extension :=
  [Extension "pg_trgm" ""; Extension "pgcrypto" ""; Extension "uuid-ossp" "";
   Extension "hstore" ""; Extension "citext" ""; Extension "timescaledb" "timescaledb"].

(** ** Operations *)

(** [gucKeyRe]: [^[a-z][a-z0-9_]*$]. *)
Definition guc_rest (c : Ascii.ascii) : bool :=
  is_lower c || is_digit c || ascii_eqb c "_"%char.
Definition gucKeyRe (key : string) : bool :=
  match key with
  | EmptyString => false
  | String c s => is_lower c && str_forallb guc_rest s
  end.

(** [AllowedExtensionNames]. *)
Definition AllowedExtensionNames : list string := ext_name <$> allowedExtensions.

(** [lookupExtension]. *)
Fixpoint lookup_in (exts : list extension) (name : string) : option extension :=
  match exts with
  | [] => None
  | e :: es => if bool_decide (ext_name e = name) then Some e else lookup_in es name
  end.
Definition lookupExtension (name : string) : option extension :=
  lookup_in allowedExtensions name.

(** One iteration of the loop of [ValidateParameters]. *)
Definition validate_parameter (k v : string) : result unit :=
  let key := ToLower (TrimSpace k) in
  if negb (gucKeyRe key) then
    Err (New KindInvalid ("config: invalid parameter name: " +:+ k))
  else if bool_decide (key ∈ platformOwned) then
    Err (New KindInvalid
      ("config: parameter is managed by the platform and cannot be set: " +:+ key))
  else if bool_decide (v = "") || ContainsAny v (nl +:+ cr +:+ nul) then
    Err (New KindInvalid ("config: invalid value for parameter " +:+ key))
  else Ok tt.

(** The loop visits the map in an unspecified order, which [kvs] is. *)
Fixpoint ValidateParameters_in (kvs : list (string * string)) : result unit :=
  match kvs with
  | [] => Ok tt
  | (k, v) :: kvs' => rbind (validate_parameter k v) (λ _, ValidateParameters_in kvs')
  end.

(** [ValidateParameters]. *)
Definition ValidateParameters (params : gmap string string) : result unit :=
  ValidateParameters_in (map_to_list params).

(** [ValidateExtensions]. *)
Fixpoint ValidateExtensions (exts : list string) : result unit :=
  match exts with
  | [] => Ok tt
  | e :: es =>
      match lookupExtension e with
      | None => Err (New KindInvalid ("config: extension not allowed: " +:+ e))
      | Some _ => ValidateExtensions es
      end
  end.

(** [PreloadLibraries]; the map [seen] is the list of its keys. *)
Fixpoint preload_go (exts : list string) (libs seen : list string) : list string :=
  match exts with
  | [] => libs
  | name :: es =>
      match lookupExtension name with
      | None => preload_go es libs seen
      | Some e =>
          let lib := ext_preloadLibrary e in
          if bool_decide (lib = "") || bool_decide (lib ∈ seen) then preload_go es libs seen
          else preload_go es (libs ++ [lib]) (lib :: seen)
      end
  end.
Definition PreloadLibraries (exts : list string) : list string :=
  preload_go exts [statStatements] [statStatements].

#[global] Arguments lookupExtension : simpl never.
#[global] Arguments gucKeyRe : simpl never.
#[global] Arguments platformOwned : simpl never.

(** ** Lemmas *)

(** What a parameter that passes satisfies. *)
Definition parameter_ok (k v : string) : Prop :=
  gucKeyRe (ToLower (TrimSpace k)) = true ∧
  ToLower (TrimSpace k) ∉ platformOwned ∧
  v ≠ "" ∧ ContainsAny v (nl +:+ cr +:+ nul) = false.

Lemma validate_parameter_ok k v : validate_parameter k v = Ok tt ↔ parameter_ok k v.
Proof.
  unfold validate_parameter, parameter_ok.
  destruct (gucKeyRe _); cbn [negb]; [|by split; [|intros [? _]]].
  case_bool_decide; [by split; [|intros (_ & ? & _)]|].
  case_bool_decide; cbn [orb]; [by split; [|intros (_ & _ & ? & _)]|].
  destruct (ContainsAny _ _); [by split; [|intros (_ & _ & _ & ?)]|by split].
Qed.

Lemma validate_parameter_kind k v e : validate_parameter k v = Err e → Kind e = KindInvalid.
Proof. unfold validate_parameter. intros. by case_matches. Qed.

Lemma ValidateParameters_in_ok kvs :
  ValidateParameters_in kvs = Ok tt ↔ Forall (λ kv, parameter_ok kv.1 kv.2) kvs.
Proof.
  induction kvs as [|[k v] kvs IH]; simpl; [by split|].
  rewrite Forall_cons, <- IH, <- validate_parameter_ok. simpl.
  destruct (validate_parameter k v) as [[]|]; simpl; [|by split; [|intros [? _]]].
  by split; [|intros [_ ?]].
Qed.

Lemma ValidateParameters_in_kind kvs e :
  ValidateParameters_in kvs = Err e → Kind e = KindInvalid.
Proof.
  induction kvs as [|[k v] kvs IH]; simpl; [done|].
  destruct (validate_parameter k v) as [[]|e'] eqn:E; simpl; [done|].
  intros [= <-]. by eapply validate_parameter_kind.
Qed.

Lemma ValidateExtensions_ok exts :
  ValidateExtensions exts = Ok tt ↔ Forall (λ e, is_Some (lookupExtension e)) exts.
Proof.
  induction exts as [|e es IH]; simpl; [by split|]. rewrite Forall_cons, <- IH.
  destruct (lookupExtension e); [by split; [|intros [_ ?]]|].
  by split; [|intros [[? ?] _]].
Qed.

Lemma preload_go_spec exts libs seen :
  NoDup libs → (∀ l, l ∈ seen ↔ l ∈ libs) →
  NoDup (preload_go exts libs seen) ∧
  (∀ l, l ∈ preload_go exts libs seen ↔
     l ∈ libs ∨ (l ≠ "" ∧ ∃ e x, e ∈ exts ∧ lookupExtension e = Some x ∧ ext_preloadLibrary x = l)) ∧
  libs `prefix_of` preload_go exts libs seen.
Proof.
  revert libs seen. induction exts as [|e es IH]; intros libs seen Hnd Hseen; simpl.
  { split; [done|]. split; [|done]. set_solver. }
  destruct (lookupExtension e) as [x|] eqn:Hx.
  2:{ destruct (IH libs seen) as (H1 & H2 & H3); [done..|]. split; [done|]. split; [|done].
      set_solver. }
  case_bool_decide as Hemp; simpl.
  { destruct (IH libs seen) as (H1 & H2 & H3); [done..|]. split; [done|]. split; [|done].
    set_solver. }
  case_bool_decide as Hin; simpl.
  { destruct (IH libs seen) as (H1 & H2 & H3); [done..|]. split; [done|]. split; [|done].
    set_solver. }
  destruct (IH (libs ++ [ext_preloadLibrary x]) (ext_preloadLibrary x :: seen)) as (H1 & H2 & H3).
  { apply NoDup_snoc; [done|]. by rewrite <- Hseen. }
  { set_solver. }
  split; [done|]. split; [set_solver|]. etrans; [|exact H3]. by eexists.
Qed.

(** ** Properties *)

(** Whether a set of parameters is accepted does not
    depend on the order in which Go's map iteration visits it, and acceptance
    is exactly: every (lower-cased, trimmed) name is a well-formed GUC name that
    the platform does not own, with a non-empty value free of line breaks and
    NUL; a rejection is always a [KindInvalid] error. *)
Theorem ValidateParameters_order (params : gmap string string) (kvs : list (string * string)) :
  kvs ≡ₚ map_to_list params →
  (ValidateParameters_in kvs = Ok tt ↔ map_Forall (λ k v, parameter_ok k v) params) ∧
  (∀ e, ValidateParameters_in kvs = Err e →
        Kind e = KindInvalid ∧ ∃ e', ValidateParameters params = Err e').
Proof.
  intros Hperm.
  assert (Hok : ∀ l, l ≡ₚ map_to_list params →
      ValidateParameters_in l = Ok tt ↔ map_Forall (λ k v, parameter_ok k v) params).
  { intros l Hl. rewrite ValidateParameters_in_ok, Hl, map_Forall_to_list.
    apply Forall_proper; [|done]. intros [??]. done. }
  split; [by apply Hok|]. intros e He. split; [by eapply ValidateParameters_in_kind|].
  unfold ValidateParameters.
  destruct (ValidateParameters_in (map_to_list params)) as [[]|e'] eqn:E; [|by eauto].
  apply (Hok _ (reflexivity _)), (Hok _ Hperm) in E. congruence.
Qed.

Lemma ValidateParameters_order_witness :
  map_Forall (λ k v, parameter_ok k v)
    (list_to_map [("work_mem", "64MB"); ("port", "5433")] : gmap string string) ∧
  (∀ e, ValidateParameters_in [("Wal_Level ", "minimal"); ("work_mem", "1MB")] = Err e →
        Kind e = KindInvalid).
Proof.
  split.
  - apply (ValidateParameters_order _ [("port", "5433"); ("work_mem", "64MB")]);
      vm_compute; reflexivity || apply Permutation_swap.
  - apply (ValidateParameters_order (list_to_map [("Wal_Level ", "minimal"); ("work_mem", "1MB")])).
    vm_compute; reflexivity || apply Permutation_swap.
Defined.

(** The preload list starts with pg_stat_statements, names
    no library twice, and holds exactly that library and the libraries the
    requested, allowlisted extensions need. *)
Theorem PreloadLibraries_spec (exts : list string) :
  NoDup (PreloadLibraries exts) ∧
  [statStatements] `prefix_of` PreloadLibraries exts ∧
  (∀ l, l ∈ PreloadLibraries exts ↔
     l = statStatements ∨
     (l ≠ "" ∧ ∃ e x, e ∈ exts ∧ lookupExtension e = Some x ∧ ext_preloadLibrary x = l)).
Proof.
  destruct (preload_go_spec exts [statStatements] [statStatements]) as (H1 & H2 & H3);
    [apply NoDup_singleton|done|].
  split_and!; [done..|]. intros l. unfold PreloadLibraries. rewrite H2.
  by rewrite list_elem_of_singleton.
Qed.
