(* ===== verification/Instances.v ===== *)
(** * Managed instances: [internal/instance/instance.go]

    The data model of an instance and the validation of a create request. *)

From Stdlib Require Import Ascii.
From S2P Require Import Prelude GoStrings Apperr GoMonad PgConfig.

(** ** Data *)

(** [Status], [Role] and [RepoType] are string types with named constants. *)
Definition StatusProvisioning : string := "provisioning".
Definition StatusRunning : string := "running".
Definition StatusStopped : string := "stopped".
Definition StatusError : string := "error".
Definition StatusDestroying : string := "destroying".
Definition StatusRestoring : string := "restoring".

Definition RoleStandalone : string := "standalone".
Definition RolePrimary : string := "primary".
Definition RoleReplica : string := "replica".

Definition RepoS3 : string := "s3".
Definition RepoLocal : string := "local".

Definition SupportedVersions : list string := ["17"; "16"; "15"; "14"; "13"].
Definition DefaultVersion : string := "16".
Definition minInstancePasswordLen : Z := 8.

(** [Instance].  Times are Unix nanoseconds. *)
Record Inst := mkInst {
  inst_ID : string;
  inst_Name : string;
  inst_Status : string;
  inst_Image : string;
  inst_PGVersion : string;
  inst_ContainerID : string;
  inst_HostPort : Z;
  inst_DataVolume : string;
  inst_RepoType : string;
  inst_Stanza : string;
  inst_Superuser : string;
  inst_LastError : string;
  inst_ClusterID : string;
  inst_Role : string;
  inst_Parameters : gmap string string;
  inst_Extensions : list string;
  inst_Public : bool;
  inst_Encrypted : bool;
  inst_CreatedAt : Z;
  inst_UpdatedAt : Z;
}.

(** The zero [Instance{}]. *)
Definition zeroInst : Inst :=
  mkInst "" "" "" "" "" "" 0 "" "" "" "" "" "" "" ∅ [] false false 0 0.

(** [NewInstance]. *)
Record NewInstance := mkNewInstance {
  ni_Name : string;
  ni_Image : string;
  ni_PGVersion : string;
  ni_ClusterID : string;
  ni_Role : string;
  ni_RepoType : string;
  ni_Superuser : string;
  ni_Password : string;
  ni_Parameters : gmap string string;
  ni_Extensions : list string;
}.

(** Field updates of an instance value. *)
Definition inst_set_Status (st err : string) (i : Inst) : Inst :=
  mkInst (inst_ID i) (inst_Name i) st (inst_Image i) (inst_PGVersion i) (inst_ContainerID i)
    (inst_HostPort i) (inst_DataVolume i) (inst_RepoType i) (inst_Stanza i) (inst_Superuser i)
    err (inst_ClusterID i) (inst_Role i) (inst_Parameters i) (inst_Extensions i)
    (inst_Public i) (inst_Encrypted i) (inst_CreatedAt i) (inst_UpdatedAt i).
Definition inst_set_Runtime (cid : string) (port : Z) (i : Inst) : Inst :=
  mkInst (inst_ID i) (inst_Name i) (inst_Status i) (inst_Image i) (inst_PGVersion i) cid
    port (inst_DataVolume i) (inst_RepoType i) (inst_Stanza i) (inst_Superuser i)
    (inst_LastError i) (inst_ClusterID i) (inst_Role i) (inst_Parameters i) (inst_Extensions i)
    (inst_Public i) (inst_Encrypted i) (inst_CreatedAt i) (inst_UpdatedAt i).
Definition inst_set_DataVolume (vol : string) (i : Inst) : Inst :=
  mkInst (inst_ID i) (inst_Name i) (inst_Status i) (inst_Image i) (inst_PGVersion i)
    (inst_ContainerID i) (inst_HostPort i) vol (inst_RepoType i) (inst_Stanza i)
    (inst_Superuser i) (inst_LastError i) (inst_ClusterID i) (inst_Role i) (inst_Parameters i)
    (inst_Extensions i) (inst_Public i) (inst_Encrypted i) (inst_CreatedAt i) (inst_UpdatedAt i).
Definition inst_set_Role (role : string) (i : Inst) : Inst :=
  mkInst (inst_ID i) (inst_Name i) (inst_Status i) (inst_Image i) (inst_PGVersion i)
    (inst_ContainerID i) (inst_HostPort i) (inst_DataVolume i) (inst_RepoType i) (inst_Stanza i)
    (inst_Superuser i) (inst_LastError i) (inst_ClusterID i) role (inst_Parameters i)
    (inst_Extensions i) (inst_Public i) (inst_Encrypted i) (inst_CreatedAt i) (inst_UpdatedAt i).
Definition inst_set_Public (b : bool) (i : Inst) : Inst :=
  mkInst (inst_ID i) (inst_Name i) (inst_Status i) (inst_Image i) (inst_PGVersion i)
    (inst_ContainerID i) (inst_HostPort i) (inst_DataVolume i) (inst_RepoType i) (inst_Stanza i)
    (inst_Superuser i) (inst_LastError i) (inst_ClusterID i) (inst_Role i) (inst_Parameters i)
    (inst_Extensions i) b (inst_Encrypted i) (inst_CreatedAt i) (inst_UpdatedAt i).
Definition inst_set_Encrypted (b : bool) (i : Inst) : Inst :=
  mkInst (inst_ID i) (inst_Name i) (inst_Status i) (inst_Image i) (inst_PGVersion i)
    (inst_ContainerID i) (inst_HostPort i) (inst_DataVolume i) (inst_RepoType i) (inst_Stanza i)
    (inst_Superuser i) (inst_LastError i) (inst_ClusterID i) (inst_Role i) (inst_Parameters i)
    (inst_Extensions i) (inst_Public i) b (inst_CreatedAt i) (inst_UpdatedAt i).
Definition inst_set_UpdatedAt (t : Z) (i : Inst) : Inst :=
  mkInst (inst_ID i) (inst_Name i) (inst_Status i) (inst_Image i) (inst_PGVersion i)
    (inst_ContainerID i) (inst_HostPort i) (inst_DataVolume i) (inst_RepoType i) (inst_Stanza i)
    (inst_Superuser i) (inst_LastError i) (inst_ClusterID i) (inst_Role i) (inst_Parameters i)
    (inst_Extensions i) (inst_Public i) (inst_Encrypted i) (inst_CreatedAt i) t.

(** ** Operations *)

(** [RepoType.Valid]. *)
Definition RepoType_Valid (r : string) : bool :=
  bool_decide (r = RepoS3) || bool_decide (r = RepoLocal).

(** [VersionSupported]. *)
Definition VersionSupported (v : string) : bool :=
  existsb (λ s, bool_decide (s = v)) SupportedVersions.

(** [ImageForVersion]. *)
Definition ImageForVersion (v : string) : string := "pgfleet/postgres-pgbackrest:" +:+ v.

(** [nameRe]: [^[a-z][a-z0-9-]{1,38}$]. *)
Definition name_rest (c : ascii) : bool := is_lower c || is_digit c || ascii_eqb c "-"%char.
Definition nameRe (name : string) : bool := match_class is_lower name_rest 1 38 name.

(** [NewInstance.Validate]. *)
Definition NewInstance_Validate (n : NewInstance) : result unit :=
  if negb (nameRe (ni_Name n)) then
    Err (New KindInvalid "instance: name must match [a-z][a-z0-9-]{1,38}")
  else if negb (RepoType_Valid (ni_RepoType n)) then
    Err (New KindInvalid "instance: invalid repo type")
  else if bool_decide (len (ni_Password n) < minInstancePasswordLen)%Z then
    Err (New KindInvalid "instance: superuser password too short")
  else if bool_decide (ni_PGVersion n ≠ "") && negb (VersionSupported (ni_PGVersion n)) then
    Err (New KindInvalid "instance: unsupported Postgres version")
  else
    rbind (ValidateParameters (ni_Parameters n)) (λ _,
    ValidateExtensions (ni_Extensions n)).

(** [StanzaFor]. *)
Definition StanzaFor (name : string) : string := name.

(** [applyDefaults]; nil and empty maps and slices are one value here. *)
Definition applyDefaults (n : NewInstance) : NewInstance :=
  let v := if bool_decide (ni_PGVersion n = "") then DefaultVersion else ni_PGVersion n in
  mkNewInstance (ni_Name n)
    (if bool_decide (ni_Image n = "") then ImageForVersion v else ni_Image n)
    v (ni_ClusterID n)
    (if bool_decide (ni_Role n = "") then RoleStandalone else ni_Role n)
    (ni_RepoType n)
    (if bool_decide (ni_Superuser n = "") then "postgres" else ni_Superuser n)
    (ni_Password n) (ni_Parameters n) (ni_Extensions n).

(** ** Lemmas *)

Lemma NewInstance_Validate_ok n :
  NewInstance_Validate n = Ok tt ↔
  nameRe (ni_Name n) = true ∧ RepoType_Valid (ni_RepoType n) = true ∧
  (minInstancePasswordLen ≤ len (ni_Password n))%Z ∧
  (ni_PGVersion n = "" ∨ VersionSupported (ni_PGVersion n) = true) ∧
  ValidateParameters (ni_Parameters n) = Ok tt ∧
  ValidateExtensions (ni_Extensions n) = Ok tt.
Proof.
  unfold NewInstance_Validate.
  destruct (nameRe _); cbn [negb]; [|by split; [|intros [? _]]].
  destruct (RepoType_Valid _); cbn [negb]; [|by split; [|intros (_ & ? & _)]].
  case_bool_decide; [split; [done|intros (_ & _ & ? & _); lia]|].
  case_bool_decide as Hv; cbn [andb].
  - destruct (VersionSupported _); cbn [negb]; [|split; [done|intros (_ & _ & _ & [?|?] & _); done]].
    destruct (ValidateParameters _) as [[]|]; cbn [rbind]; split; try done.
    + intros ?. split_and!; try done; [lia|by right].
    + by intros (_ & _ & _ & _ & _ & ?).
    + by intros (_ & _ & _ & _ & ? & _).
  - destruct (ValidateParameters _) as [[]|]; cbn [rbind]; split; try done.
    + intros ?. split_and!; try done; [lia|left]. by destruct (decide (ni_PGVersion n = "")).
    + by intros (_ & _ & _ & _ & _ & ?).
    + by intros (_ & _ & _ & _ & ? & _).
Qed.

(** A valid name is a DNS-label-like word: safe in a container name, a volume
    name, a replication slot name and a pgBackRest stanza. *)
Lemma nameRe_chars name :
  nameRe name = true → name ≠ "" ∧ str_forallb name_rest name = true ∧ String.length name ≤ 39.
Proof.
  unfold nameRe, match_class. destruct name as [|c s]; [done|].
  rewrite !andb_true_iff. intros (((H1 & H2) & H3) & H4).
  split; [done|]. cbn. rewrite H2, andb_true_r. split; [|apply Nat.leb_le in H4; lia].
  unfold name_rest. by rewrite H1.
Qed.
