(* ===== verification/PgBackRest.v ===== *)
(** * pgBackRest commands and configuration: [internal/pgbackrest]

    Pure builders of command lines and of [pgbackrest.conf], and the parser of
    [pgbackrest info].  JSON decoding itself is a parameter of the parser. *)

From S2P Require Import Prelude GoStrings Apperr GoMonad.

Implicit Types (stanza confPath : string).

(** ** Commands: [cmd.go] *)

(** [base]. *)
Definition base stanza confPath : list string :=
  ["pgbackrest"; "--config=" +:+ confPath; "--stanza=" +:+ stanza].

(** [StanzaCreate], [Check], [Info], [Verify], [Expire]. *)
Definition StanzaCreate stanza confPath : list string :=
  base stanza confPath ++ ["stanza-create"].
Definition CheckCmd stanza confPath : list string := base stanza confPath ++ ["check"].
Definition InfoCmd stanza confPath : list string :=
  base stanza confPath ++ ["--output=json"; "info"].
Definition VerifyCmd stanza confPath : list string := base stanza confPath ++ ["verify"].
Definition ExpireCmd stanza confPath : list string := base stanza confPath ++ ["expire"].

(** [backupTypes]. *)
Definition backupTypes : list string := ["full"; "incr"; "diff"].

(** [BackupOpts]. *)
Record BackupOpts := mkBackupOpts {
  bo_Annotations : gmap string string;
  bo_BackupStandby : bool;
}.

(** The annotation arguments, for the keys in the order the map iteration
    yields them. *)
Definition annotation_args (keys : list string) (ann : gmap string string) : list string :=
  (λ k, "--annotation=" +:+ k +:+ "=" +:+ default "" (ann !! k)) <$>
    sort_strings (filter (λ k, k ≠ "") keys).

(** [Backup]. *)
Definition Backup_in (keys : list string) stanza confPath (backupType : string)
    (o : BackupOpts) : result (list string) :=
  if negb (bool_decide (backupType ∈ backupTypes)) then
    Err (Errorf ("pgbackrest: invalid backup type " +:+ Quote backupType))
  else
    Ok (base stanza confPath ++ ["--type=" +:+ backupType] ++
        (if bo_BackupStandby o then ["--backup-standby"] else []) ++
        annotation_args keys (bo_Annotations o) ++ ["backup"]).
Definition Backup stanza confPath (backupType : string) (o : BackupOpts) :
    result (list string) :=
  Backup_in (map_to_list (bo_Annotations o)).*1 stanza confPath backupType o.

(** [ExpireSet]. *)
Definition ExpireSet stanza confPath (set : string) : result (list string) :=
  if bool_decide (set = "") then
    Err (Errorf "pgbackrest: expire --set requires a backup label")
  else Ok (base stanza confPath ++ ["--set=" +:+ set; "expire"]).

(** [RestoreOpts]. *)
Record RestoreOpts := mkRestoreOpts {
  ro_Type : string;
  ro_Target : string;
  ro_TargetAction : string;
  ro_Set : string;
  ro_Delta : bool;
  ro_Repo : Z;
}.
Definition zeroRestoreOpts : RestoreOpts := mkRestoreOpts "" "" "" "" false 0.

(** [Restore]. *)
Definition RestoreCmd stanza confPath (o : RestoreOpts) : result (list string) :=
  if bool_decide (ro_Type o ≠ "") && bool_decide (ro_Target o = "") then
    Err (Errorf ("pgbackrest: restore --type=" +:+ ro_Type o +:+ " requires a target"))
  else
    let args := base stanza confPath in
    let args := if bool_decide (0 < ro_Repo o)%Z
                then args ++ ["--repo=" +:+ itoa (ro_Repo o)] else args in
    let args :=
      if bool_decide (ro_Type o ≠ "") then
        args ++ ["--type=" +:+ ro_Type o; "--target=" +:+ ro_Target o] ++
        (if bool_decide (ro_TargetAction o ≠ "")
         then ["--target-action=" +:+ ro_TargetAction o] else [])
      else if bool_decide (ro_Set o ≠ "") then
        args ++ ["--type=immediate"; "--target-action=promote"]
      else args in
    let args := if bool_decide (ro_Set o ≠ "") then args ++ ["--set=" +:+ ro_Set o] else args in
    let args := if ro_Delta o then args ++ ["--delta"] else args in
    Ok (args ++ ["restore"]).

(** ** Configuration: [config.go] *)

(** [RepoS3], [RepoLocal], [InstanceConf]. *)
Record RepoS3Conf := mkRepoS3 {
  s3_Endpoint : string;
  s3_Bucket : string;
  s3_Region : string;
  s3_Key : string;
  s3_Secret : string;
  s3_PathPrefix : string;
  s3_URIStyle : string;
  s3_VerifyTLS : bool;
}.
Definition zeroRepoS3 : RepoS3Conf := mkRepoS3 "" "" "" "" "" "" "" false.

Record InstanceConf := mkInstanceConf {
  ic_Stanza : string;
  ic_PGDataPath : string;
  ic_PGPort : Z;
  ic_RetentionFull : Z;
  ic_RepoType : string;
  ic_S3 : RepoS3Conf;
  ic_LocalPath : string;
  ic_CipherPass : string;
  ic_BlockIncr : bool;
  ic_Repo2Path : string;
}.

(** The lines of the [repo1-...] block, by repository type. *)
Definition repo1_lines (c : InstanceConf) : result (list string) :=
  if bool_decide (ic_RepoType c = "s3") then
    let s3 := ic_S3 c in
    let uriStyle := if bool_decide (s3_URIStyle s3 = "") then "path" else s3_URIStyle s3 in
    let verify := if s3_VerifyTLS s3 then "y" else "n" in
    Ok ["repo1-type=s3";
        "repo1-path=" +:+ s3_PathPrefix s3;
        "repo1-s3-endpoint=" +:+ s3_Endpoint s3;
        "repo1-s3-bucket=" +:+ s3_Bucket s3;
        "repo1-s3-region=" +:+ s3_Region s3;
        "repo1-s3-uri-style=" +:+ uriStyle;
        "repo1-s3-key=" +:+ s3_Key s3;
        "repo1-s3-key-secret=" +:+ s3_Secret s3;
        "repo1-storage-verify-tls=" +:+ verify]
  else if bool_decide (ic_RepoType c = "local") then
    Ok ["repo1-type=posix"; "repo1-path=" +:+ ic_LocalPath c]
  else Err (Errorf ("pgbackrest: unknown repo type " +:+ Quote (ic_RepoType c))).

Definition cipher_lines (repo : string) (pass : string) : list string :=
  if bool_decide (pass ≠ "") then
    [repo +:+ "-cipher-type=aes-256-cbc"; repo +:+ "-cipher-pass=" +:+ pass]
  else [].

(** The lines [BackrestConf] writes, in order; each is followed by a newline. *)
Definition conf_lines (c : InstanceConf) : result (list string) :=
  let retention := if bool_decide (ic_RetentionFull c ≤ 0)%Z then 2%Z else ic_RetentionFull c in
  rbind (repo1_lines c) (λ repo1,
  Ok (["[global]"] ++ repo1 ++
      cipher_lines "repo1" (ic_CipherPass c) ++
      ["repo1-retention-full=" +:+ itoa retention] ++
      (if ic_BlockIncr c then ["repo1-block=y"] else []) ++
      (if bool_decide (ic_Repo2Path c ≠ "") then
         ["repo2-type=posix"; "repo2-path=" +:+ ic_Repo2Path c] ++
         cipher_lines "repo2" (ic_CipherPass c) ++
         ["repo2-retention-full=" +:+ itoa retention]
       else []) ++
      ["start-fast=y"; "log-level-console=info"; ""] ++
      ["[" +:+ ic_Stanza c +:+ "]";
       "pg1-path=" +:+ ic_PGDataPath c;
       "pg1-port=" +:+ itoa (ic_PGPort c)])).

(** [BackrestConf]. *)
Definition BackrestConf (c : InstanceConf) : result string :=
  rmap (λ ls, str_concat ((λ l, l +:+ nl) <$> ls)) (conf_lines c).

(** [PostgresConf]. *)
Definition PostgresConf stanza : string :=
  "archive_mode = on" +:+ nl +:+
  "archive_command = 'pgbackrest --stanza=" +:+ stanza +:+ " archive-push %p'" +:+ nl +:+
  "archive_timeout = 60" +:+ nl +:+
  "wal_level = replica" +:+ nl +:+
  "max_wal_senders = 3" +:+ nl.

(** ** Catalog output: [info.go] *)

(** [time.Time] in Unix nanoseconds; the zero time is 1 January of year 1. *)
Definition zeroTime : Z := -62135596800 * 1000000000.
Definition time_IsZero (t : Z) : bool := bool_decide (t = zeroTime).

(** [BackupInfo] and [Stanza]. *)
Record BackupInfo := mkBackupInfo {
  bi_Label : string;
  bi_Type : string;
  bi_StartTime : Z;
  bi_StopTime : Z;
  bi_Size : Z;
  bi_Delta : Z;
  bi_RepoSize : Z;
  bi_RepoDelta : Z;
  bi_WALStart : string;
  bi_WALStop : string;
  bi_References : list string;
  bi_Error : bool;
  bi_Annotations : gmap string string;
}.

Record StanzaInfo := mkStanza {
  st_Name : string;
  st_StatusCode : Z;
  st_StatusMessage : string;
  st_Backups : list BackupInfo;
}.

(** [Stanza.Healthy]. *)
Definition Healthy (s : StanzaInfo) : bool := bool_decide (st_StatusCode s = 0)%Z.

(** [rawBackup] and [rawStanza], the decoded JSON. *)
Record rawBackup := mkRawBackup {
  rb_Label : string;
  rb_Type : string;
  rb_Start : Z;
  rb_Stop : Z;
  rb_Size : Z;
  rb_Delta : Z;
  rb_RepoSize : Z;
  rb_RepoDelta : Z;
  rb_ArchiveStart : string;
  rb_ArchiveStop : string;
  rb_Reference : list string;
  rb_Error : bool;
  rb_Annotation : gmap string string;
}.

Record rawStanza := mkRawStanza {
  rs_Name : string;
  rs_Code : Z;
  rs_Message : string;
  rs_Backup : list rawBackup;
}.

(** [epochToTime]. *)
Definition epochToTime (sec : Z) : Z :=
  if bool_decide (sec ≤ 0)%Z then zeroTime else (sec * 1000000000)%Z.

Definition backup_of_raw (rb : rawBackup) : BackupInfo :=
  mkBackupInfo (rb_Label rb) (rb_Type rb) (epochToTime (rb_Start rb)) (epochToTime (rb_Stop rb))
    (rb_Size rb) (rb_Delta rb) (rb_RepoSize rb) (rb_RepoDelta rb)
    (rb_ArchiveStart rb) (rb_ArchiveStop rb) (rb_Reference rb) (rb_Error rb) (rb_Annotation rb).

Definition stanza_of_raw (rs : rawStanza) : StanzaInfo :=
  mkStanza (rs_Name rs) (rs_Code rs) (rs_Message rs) (backup_of_raw <$> rs_Backup rs).

(** [ParseInfo], over the JSON decoder [json_Unmarshal]. *)
Definition ParseInfo (json_Unmarshal : string → result (list rawStanza)) (data : string) :
    result (list StanzaInfo) :=
  match json_Unmarshal data with
  | Err e => Err (Errorf_w ("pgbackrest: parse info json: " +:+ Error e) e)
  | Ok raw => Ok (stanza_of_raw <$> raw)
  end.

(** ** Specification vocabulary *)

(** A string with no line break. *)
Definition no_nl (s : string) : bool := str_forallb (λ a, negb (ascii_eqb a nl_char)) s.

#[global] Arguments no_nl : simpl never.

(** No setting of a configuration holds a line break. *)
Definition conf_clean (c : InstanceConf) : bool :=
  forallb no_nl
    [ic_Stanza c; ic_PGDataPath c; ic_LocalPath c; ic_CipherPass c; ic_Repo2Path c;
     s3_Endpoint (ic_S3 c); s3_Bucket (ic_S3 c); s3_Region (ic_S3 c); s3_Key (ic_S3 c);
     s3_Secret (ic_S3 c); s3_PathPrefix (ic_S3 c); s3_URIStyle (ic_S3 c)].

(** The values a command line gives to an option, in order. *)
Definition flag_value (name arg : string) : option string :=
  if HasPrefix arg ("--" +:+ name +:+ "=")
  then Some (str_drop (3 + String.length name) arg) else None.
Definition flag_values (name : string) (args : list string) : list string :=
  omap (flag_value name) args.

(** ** Lemmas *)

(** Splitting the rendered configuration at newlines gives its lines back, when
    no setting holds a newline. *)
Lemma SplitChar_lines (ls : list string) :
  Forall (λ l, no_nl l = true) ls →
  SplitChar nl_char (str_concat ((λ l, l +:+ nl) <$> ls)) = ls ++ [""].
Proof.
  induction 1 as [|l ls Hl _ IH]; [done|].
  rewrite fmap_cons, str_concat_cons, app_assoc_str. unfold nl at 1.
  rewrite app_cons_str, app_nil_l_str, SplitChar_app_sep by done. by rewrite IH.
Qed.

Lemma annotation_args_perm keys keys' ann :
  keys ≡ₚ keys' → annotation_args keys ann = annotation_args keys' ann.
Proof.
  intros Hp. unfold annotation_args. f_equal.
  apply (StronglySorted_unique String.le); [apply sort_strings_sorted..|].
  by rewrite !sort_strings_perm, Hp.
Qed.

Lemma not_elem_of_flags (x : string) (l : list string) : Forall (λ a, a ≠ x) l → x ∉ l.
Proof. rewrite Forall_forall. intros H Hin. by eapply H. Qed.

Lemma flag_values_app name l l' : flag_values name (l ++ l') = flag_values name l ++ flag_values name l'.
Proof. apply omap_app. Qed.

Lemma no_nl_app s t : no_nl (s +:+ t) = no_nl s && no_nl t.
Proof. apply str_forallb_app. Qed.

Lemma no_nl_cons a s : no_nl (String a s) = negb (ascii_eqb a nl_char) && no_nl s.
Proof. reflexivity. Qed.

Lemma no_nl_itoa n : no_nl (itoa n) = true.
Proof.
  assert (Hp : ∀ x acc, no_nl acc = true → no_nl (pretty_N_go x acc) = true).
  { intros x. induction (N.lt_wf_0 x) as [x _ IH]. intros acc Hacc.
    destruct (decide (0 < x)%N) as [Hx|Hx].
    - rewrite pretty_N_go_step by done. apply IH; [by apply N.div_lt|].
      rewrite no_nl_cons, Hacc, andb_true_r. unfold pretty_N_char. by repeat case_match.
    - assert (x = 0%N) as -> by lia. by rewrite pretty_N_go_0. }
  assert (HN : ∀ x : N, no_nl (pretty x) = true).
  { intros x. unfold pretty, pretty_N. case_decide; [done|]. by apply Hp. }
  unfold itoa, pretty, pretty_Z. destruct n as [|p|p]; [done|apply HN|].
  change (no_nl ("-" +:+ pretty (Npos p)) = true). by rewrite no_nl_app, HN.
Qed.

Lemma conf_lines_ok c : is_ok (conf_lines c) = true ↔ ic_RepoType c ∈ ["s3"; "local"].
Proof.
  unfold conf_lines, repo1_lines. repeat case_bool_decide; cbn [rbind is_ok]; try by set_solver.
Qed.

Lemma repo1_lines_no_nl c :
  conf_clean c = true → Forall (λ l, no_nl l = true) (value_or [] (repo1_lines c)).
Proof.
  unfold conf_clean, forallb. rewrite !andb_true_iff.
  intros (_ & _ & H3 & _ & _ & H6 & H7 & H8 & H9 & H10 & H11 & H12 & _).
  unfold repo1_lines. repeat case_bool_decide; try destruct (s3_VerifyTLS (ic_S3 c));
    cbn [value_or]; repeat (apply Forall_cons; split); rewrite ?no_nl_app;
    rewrite ?H3, ?H6, ?H7, ?H8, ?H9, ?H10, ?H11, ?H12; done.
Qed.

Lemma cipher_lines_no_nl repo pass :
  no_nl repo = true → no_nl pass = true → Forall (λ l, no_nl l = true) (cipher_lines repo pass).
Proof.
  intros H1 H2. unfold cipher_lines. case_bool_decide; [|done].
  repeat (apply Forall_cons; split); rewrite ?no_nl_app, ?H1, ?H2; done.
Qed.

Lemma conf_lines_no_nl c ls :
  conf_clean c = true → conf_lines c = Ok ls → Forall (λ l, no_nl l = true) ls.
Proof.
  intros Hc. pose proof (repo1_lines_no_nl c Hc) as Hr.
  unfold conf_clean, forallb in Hc. rewrite !andb_true_iff in Hc.
  destruct Hc as (H1 & H2 & _ & H4 & H5 & _).
  unfold conf_lines. destruct (repo1_lines c) as [repo1|]; [|done].
  cbn [rbind value_or] in *. intros [= <-].
  pose proof (cipher_lines_no_nl "repo1" (ic_CipherPass c) eq_refl H4).
  pose proof (cipher_lines_no_nl "repo2" (ic_CipherPass c) eq_refl H4).
  forall_split; try assumption;
    rewrite ?no_nl_app, ?no_nl_itoa, ?H1, ?H2, ?H5; done.
Qed.

(** ** Properties *)

(** A restore command line is refused exactly when a target type
    comes without a target; otherwise every option appears at most once with the
    value the options call for: a point-in-time target keeps its type, target and
    action, a backup label alone stops at that backup ([immediate] and
    [promote]), and with neither the latest state is restored. *)
Theorem RestoreCmd_flags stanza confPath (o : RestoreOpts) :
  (is_ok (RestoreCmd stanza confPath o) = false ↔ ro_Type o ≠ "" ∧ ro_Target o = "") ∧
  (∀ args, RestoreCmd stanza confPath o = Ok args →
     flag_values "stanza" args = [stanza] ∧
     flag_values "config" args = [confPath] ∧
     flag_values "type" args =
       (if bool_decide (ro_Type o ≠ "") then [ro_Type o]
        else if bool_decide (ro_Set o ≠ "") then ["immediate"] else []) ∧
     flag_values "target" args = (if bool_decide (ro_Type o ≠ "") then [ro_Target o] else []) ∧
     flag_values "target-action" args =
       (if bool_decide (ro_Type o ≠ "")
        then (if bool_decide (ro_TargetAction o ≠ "") then [ro_TargetAction o] else [])
        else if bool_decide (ro_Set o ≠ "") then ["promote"] else []) ∧
     flag_values "set" args = (if bool_decide (ro_Set o ≠ "") then [ro_Set o] else []) ∧
     flag_values "repo" args = (if bool_decide (0 < ro_Repo o)%Z then [itoa (ro_Repo o)] else []) ∧
     ("--delta" ∈ args ↔ ro_Delta o = true) ∧
     last args = Some "restore").
Proof.
  unfold RestoreCmd. split.
  { repeat case_bool_decide; cbn; split; try done; naive_solver. }
  intros args. destruct (bool_decide (ro_Type o ≠ "") && bool_decide (ro_Target o = "")); [done|].
  intros [= <-].
  split_and!; [repeat case_bool_decide; destruct (ro_Delta o); reflexivity..| |].
  - destruct (ro_Delta o); split; try done; [set_solver|].
    intros Hin. exfalso. revert Hin. apply not_elem_of_flags. unfold base.
    repeat case_bool_decide; forall_split; discriminate.
  - by rewrite last_snoc.
Qed.

(** A configuration renders exactly for the repository
    types s3 and local; with a cipher passphrase every configured repository, the
    second one included, carries the cipher and that passphrase, and without one
    no cipher setting is written at all. *)
Theorem BackrestConf_encryption (c : InstanceConf) :
  (is_ok (BackrestConf c) = true ↔ ic_RepoType c ∈ ["s3"; "local"]) ∧
  (∀ txt, conf_clean c = true → BackrestConf c = Ok txt →
     let ls := SplitChar nl_char txt in
     (ic_CipherPass c ≠ "" →
        "repo1-cipher-type=aes-256-cbc" ∈ ls ∧ "repo1-cipher-pass=" +:+ ic_CipherPass c ∈ ls ∧
        (ic_Repo2Path c ≠ "" →
           "repo2-path=" +:+ ic_Repo2Path c ∈ ls ∧
           "repo2-cipher-type=aes-256-cbc" ∈ ls ∧
           "repo2-cipher-pass=" +:+ ic_CipherPass c ∈ ls)) ∧
     (ic_CipherPass c = "" →
        Forall (λ l, HasPrefix l "repo1-cipher" = false ∧ HasPrefix l "repo2-cipher" = false) ls)).
Proof.
  unfold BackrestConf. split.
  { rewrite <- conf_lines_ok. by destruct (conf_lines c). }
  intros txt Hclean Htxt. destruct (conf_lines c) as [ls|] eqn:Hls; [|done]. injection Htxt as <-.
  rewrite SplitChar_lines by by eapply conf_lines_no_nl.
  unfold conf_lines in Hls. destruct (repo1_lines c) as [repo1|] eqn:Hr; [|done].
  cbn [rbind] in Hls. injection Hls as <-. unfold cipher_lines. split.
  - intros Hp. rewrite !(bool_decide_true (ic_CipherPass c ≠ "")) by done.
    split_and!; [set_solver..|]. intros H2. rewrite (bool_decide_true (ic_Repo2Path c ≠ "")) by done.
    set_solver.
  - intros ->. rewrite !(bool_decide_false ("" ≠ "")) by by intros []. cbn [app].
    assert (Hrep : Forall (λ l, HasPrefix l "repo1-cipher" = false ∧
                                HasPrefix l "repo2-cipher" = false) repo1).
    { unfold repo1_lines in Hr. repeat case_bool_decide; simplify_eq;
        repeat constructor. }
    repeat (rewrite ?Forall_app, ?Forall_cons; split_and?); try done;
      repeat (case_bool_decide || case_match); repeat constructor.
Qed.

(** The backup command line does not depend on the order in
    which the annotation map is visited; the annotations come sorted by key, the
    empty key is dropped, and an unknown backup type is refused for any options. *)
Theorem Backup_deterministic keys stanza confPath bt (o : BackupOpts) :
  keys ≡ₚ (map_to_list (bo_Annotations o)).*1 →
  Backup_in keys stanza confPath bt o = Backup stanza confPath bt o ∧
  (is_ok (Backup_in keys stanza confPath bt o) = true ↔ bt ∈ backupTypes) ∧
  (∀ args, Backup_in keys stanza confPath bt o = Ok args →
     ∃ ks, StronglySorted String.le ks ∧
       (∀ k, k ∈ ks ↔ k ≠ "" ∧ is_Some (bo_Annotations o !! k)) ∧
       args = base stanza confPath ++ ["--type=" +:+ bt] ++
         (if bo_BackupStandby o then ["--backup-standby"] else []) ++
         ((λ k, "--annotation=" +:+ k +:+ "=" +:+ default "" (bo_Annotations o !! k)) <$> ks) ++
         ["backup"]).
Proof.
  intros Hperm. split_and!.
  - unfold Backup, Backup_in. by rewrite (annotation_args_perm _ _ _ Hperm).
  - unfold Backup_in. case_bool_decide; by split.
  - unfold Backup_in. intros args. case_bool_decide; [|done]. intros [= <-].
    exists (sort_strings (filter (λ k, k ≠ "") keys)).
    split_and!; [apply sort_strings_sorted| |done].
    intros k. rewrite sort_strings_perm, list_elem_of_filter, Hperm, list_elem_of_fmap.
    f_equiv. split.
    + intros [[k' v] [-> Hkv%elem_of_map_to_list]]. by exists v.
    + intros [v Hv]. exists (k, v). by rewrite elem_of_map_to_list.
Qed.

Lemma Backup_deterministic_witness :
  let o := mkBackupOpts (list_to_map [("name", "nightly"); ("", "x"); ("env", "prod")]) true in
  Backup_in ["name"; "env"; ""] "db" "/c" "full" o = Backup "db" "/c" "full" o ∧
  Backup "db" "/c" "full" o =
    Ok ["pgbackrest"; "--config=/c"; "--stanza=db"; "--type=full"; "--backup-standby";
        "--annotation=env=prod"; "--annotation=name=nightly"; "backup"].
Proof.
  intros o. split; [|vm_compute; reflexivity].
  apply (Backup_deterministic ["name"; "env"; ""] "db" "/c" "full" o).
  vm_compute. solve_Permutation.
Defined.
