(* ===== verification/PgCat.v ===== *)
(** * The router configuration: [internal/pgcat/config.go]

    [Generate] renders the [pgcat.toml] of a cluster's query router.  Its values
    come from names and passwords, so what matters is that no value can add a
    line, a table or a key, and that a TOML reader gets the value back. *)

From Stdlib Require Import Ascii.
From S2P Require Import Prelude GoStrings Apperr GoMonad PgBackRest.

(** ** Data *)

Record Server := mkServer {
  sv_Host : string;
  sv_Port : Z;
  sv_Role : string;
}.

Record MirrorTarget := mkMirror {
  mr_Host : string;
  mr_Port : Z;
}.

Definition PoolModeTransaction : string := "transaction".
Definition PoolModeSession : string := "session".
Definition defaultHealthcheckTimeout : Z := 1000.
Definition defaultHealthcheckDelay : Z := 30000.
Definition defaultBanTime : Z := 60.
Definition defaultShutdownTimeout : Z := 60000.

Record Config := mkConfig {
  cf_ListenPort : Z;
  cf_AdminUser : string;
  cf_AdminPassword : string;
  cf_Database : string;
  cf_User : string;
  cf_Password : string;
  cf_PoolSize : Z;
  cf_PoolMode : string;
  cf_Servers : list Server;
  cf_Mirrors : list MirrorTarget;
}.

(** ** Operations *)

(** [ValidatePoolMode]. *)
Definition ValidatePoolMode (m : string) : result unit :=
  if bool_decide (m = "") || bool_decide (m = PoolModeTransaction) ||
     bool_decide (m = PoolModeSession) then Ok tt
  else Err (Errorf ("pgcat: invalid pool_mode " +:+ Quote m +:+ " (want " +:+
                    Quote PoolModeTransaction +:+ " or " +:+ Quote PoolModeSession +:+ ")")).

(** [tomlEscape]: the replacer works byte by byte. *)
Definition toml_escape_byte (c : ascii) : string :=
  if ascii_eqb c "\"%char then "\\"
  else if ascii_eqb c dq_char then "\" +:+ dq
  else if ascii_eqb c nl_char then "\n"
  else if ascii_eqb c (ascii_of_nat 13) then "\r"
  else if ascii_eqb c (ascii_of_nat 9) then "\t"
  else String c "".
Definition tomlEscape (s : string) : string := replace_bytes toml_escape_byte s.

(** [tomlBareKey]. *)
Definition bare_rune (o : option ascii) : string :=
  match o with
  | Some c =>
      if is_lower c || is_upper c || is_digit c || ascii_eqb c "_"%char || ascii_eqb c "-"%char
      then String c "" else "_"
  | None => "_"
  end.
Definition tomlBareKey (s : string) : string :=
  let b := map_runes bare_rune 0 s in
  if bool_decide (b = "") then "_" else b.

(** [key = <quoted value>]. *)
Definition toml_string (key value : string) : string :=
  key +:+ " = " +:+ dq +:+ tomlEscape value +:+ dq.
Definition toml_int (key : string) (n : Z) : string := key +:+ " = " +:+ itoa n.

Definition server_port (p : Z) : Z := if bool_decide (p = 0)%Z then 5432%Z else p.

Definition server_line (s : Server) : string :=
  "    [" +:+ dq +:+ tomlEscape (sv_Host s) +:+ dq +:+ ", " +:+ itoa (server_port (sv_Port s)) +:+
  ", " +:+ dq +:+ tomlEscape (sv_Role s) +:+ dq +:+ "],".

Definition mirror_lines (poolKey : string) (i : nat) (m : MirrorTarget) : list string :=
  [""; "[pools." +:+ poolKey +:+ ".shards.0.mirrors." +:+ itoa (Z.of_nat i) +:+ "]";
   toml_string "host" (mr_Host m); toml_int "port" (server_port (mr_Port m))].

(** The lines of [Generate], each of which is followed by a newline. *)
Definition Generate_lines (c : Config) : list string :=
  let poolSize := if bool_decide (cf_PoolSize c ≤ 0)%Z then 20%Z else cf_PoolSize c in
  let poolMode := if bool_decide (cf_PoolMode c = "") then PoolModeTransaction else cf_PoolMode c in
  let poolKey := tomlBareKey (cf_Database c) in
  let replicaCount := length (filter (λ s, sv_Role s = "replica") (cf_Servers c)) in
  let primaryReads := bool_decide (replicaCount = 0) in
  ["[general]";
   "host = " +:+ dq +:+ "0.0.0.0" +:+ dq;
   toml_int "port" (cf_ListenPort c);
   toml_string "admin_username" (cf_AdminUser c);
   toml_string "admin_password" (cf_AdminPassword c);
   toml_int "healthcheck_timeout" defaultHealthcheckTimeout;
   toml_int "healthcheck_delay" defaultHealthcheckDelay;
   toml_int "ban_time" defaultBanTime;
   toml_int "shutdown_timeout" defaultShutdownTimeout;
   "";
   "[pools." +:+ poolKey +:+ "]";
   toml_string "pool_mode" poolMode;
   "query_parser_enabled = true";
   "query_parser_read_write_splitting = true";
   "primary_reads_enabled = " +:+ fmt_bool primaryReads;
   "load_balancing_mode = " +:+ dq +:+ "random" +:+ dq;
   "default_role = " +:+ dq +:+ "any" +:+ dq;
   "";
   "[pools." +:+ poolKey +:+ ".users.0]";
   toml_string "username" (cf_User c);
   toml_string "password" (cf_Password c);
   toml_int "pool_size" poolSize;
   "";
   "[pools." +:+ poolKey +:+ ".shards.0]";
   "servers = ["] ++
  (server_line <$> cf_Servers c) ++
  ["]"; toml_string "database" (cf_Database c)] ++
  concat (imap (mirror_lines poolKey) (cf_Mirrors c)).

(** [Generate]. *)
Definition Generate (c : Config) : string :=
  str_concat ((λ l, l +:+ nl) <$> Generate_lines c).

#[global] Arguments tomlEscape : simpl never.
#[global] Arguments tomlBareKey : simpl never.

(** ** Specification vocabulary *)

(** Reading a TOML basic string up to its closing quote: the value and the
    text after it.  A raw line break or an unknown escape is an error. *)
Fixpoint toml_read (s : string) : option (string * string) :=
  match s with
  | EmptyString => None
  | String c s' =>
      if ascii_eqb c dq_char then Some ("", s')
      else if ascii_eqb c nl_char then None
      else if ascii_eqb c "\"%char then
        match s' with
        | EmptyString => None
        | String e s'' =>
            let value :=
              if ascii_eqb e "\"%char then Some "\"%char
              else if ascii_eqb e dq_char then Some dq_char
              else if ascii_eqb e "n"%char then Some nl_char
              else if ascii_eqb e "r"%char then Some (ascii_of_nat 13)
              else if ascii_eqb e "t"%char then Some (ascii_of_nat 9)
              else None in
            match value, toml_read s'' with
            | Some a, Some (v, rest) => Some (String a v, rest)
            | _, _ => None
            end
        end
      else match toml_read s' with
           | Some (v, rest) => Some (String c v, rest)
           | None => None
           end
  end.

(** Table headers: lines whose first byte is an opening bracket. *)
Definition is_header (l : string) : bool := HasPrefix l "[".

(** The tables of a router configuration. *)
Definition router_tables (poolKey : string) (mirrors : nat) : list string :=
  ["[general]"; "[pools." +:+ poolKey +:+ "]"; "[pools." +:+ poolKey +:+ ".users.0]";
   "[pools." +:+ poolKey +:+ ".shards.0]"] ++
  ((λ i, "[pools." +:+ poolKey +:+ ".shards.0.mirrors." +:+ itoa (Z.of_nat i) +:+ "]")
     <$> seq 0 mirrors).

Definition bare_key_char (c : ascii) : bool :=
  is_lower c || is_upper c || is_digit c || ascii_eqb c "_"%char || ascii_eqb c "-"%char.

(** ** Lemmas *)

Lemma toml_read_escape s rest : toml_read (tomlEscape s +:+ dq +:+ rest) = Some (s, rest).
Proof.
  unfold tomlEscape. induction s as [|c s IH].
  - cbn [replace_bytes]. rewrite app_nil_l_str. unfold dq. by rewrite app_cons_str, app_nil_l_str.
  - cbn [replace_bytes]. rewrite app_assoc_str. revert IH.
    generalize (replace_bytes toml_escape_byte s +:+ dq +:+ rest). intros t IH.
    unfold toml_escape_byte.
    destruct (ascii_eqb c "\"%char) eqn:H1.
    { apply ascii_eqb_eq in H1 as ->. rewrite !app_cons_str, app_nil_l_str. cbn. by rewrite IH. }
    destruct (ascii_eqb c dq_char) eqn:H2.
    { apply ascii_eqb_eq in H2 as ->.
      change ("\" +:+ dq) with (String "\"%char (String dq_char "")).
      rewrite !app_cons_str, app_nil_l_str. cbn. by rewrite IH. }
    destruct (ascii_eqb c nl_char) eqn:H3.
    { apply ascii_eqb_eq in H3 as ->. rewrite !app_cons_str, app_nil_l_str. cbn. by rewrite IH. }
    destruct (ascii_eqb c (ascii_of_nat 13)) eqn:H4.
    { apply ascii_eqb_eq in H4 as ->. rewrite !app_cons_str, app_nil_l_str. cbn. by rewrite IH. }
    destruct (ascii_eqb c (ascii_of_nat 9)) eqn:H5.
    { apply ascii_eqb_eq in H5 as ->. rewrite !app_cons_str, app_nil_l_str. cbn. by rewrite IH. }
    rewrite app_cons_str, app_nil_l_str. cbn [toml_read]. by rewrite H2, H3, H1, IH.
Qed.

Lemma tomlEscape_no_nl s : no_nl (tomlEscape s) = true.
Proof.
  unfold no_nl, tomlEscape. apply str_forallb_replace_bytes. intros c.
  unfold toml_escape_byte.
  destruct (ascii_eqb c nl_char) eqn:H; repeat case_match; try done.
  change (negb (ascii_eqb c nl_char) && true = true). by rewrite H.
Qed.

Lemma tomlBareKey_chars s : str_forallb bare_key_char (tomlBareKey s) = true ∧ tomlBareKey s ≠ "".
Proof.
  unfold tomlBareKey. case_bool_decide as Hb; [done|]. split; [|done].
  apply str_forallb_map_runes. intros [c|]; [|done]. unfold bare_rune, bare_key_char.
  destruct (_ || _) eqn:H; [|done]. cbn [str_forallb]. by rewrite H.
Qed.

Lemma tomlBareKey_no_nl s : no_nl (tomlBareKey s) = true.
Proof.
  unfold no_nl. eapply str_forallb_impl; [|apply tomlBareKey_chars].
  intros c. unfold bare_key_char. destruct (ascii_eqb c nl_char) eqn:H; [|done].
  by apply ascii_eqb_eq in H as ->.
Qed.

Lemma toml_string_no_nl key v : no_nl key = true → no_nl (toml_string key v) = true.
Proof. intros H. unfold toml_string. by rewrite !no_nl_app, H, tomlEscape_no_nl. Qed.

Lemma toml_int_no_nl key n : no_nl key = true → no_nl (toml_int key n) = true.
Proof. intros H. unfold toml_int. by rewrite !no_nl_app, H, no_nl_itoa. Qed.

#[local] Hint Resolve toml_string_no_nl toml_int_no_nl : go.

Lemma header_no_nl pre k post :
  no_nl pre = true → no_nl post = true → no_nl (pre +:+ tomlBareKey k +:+ post) = true.
Proof. intros H1 H2. by rewrite !no_nl_app, H1, H2, tomlBareKey_no_nl. Qed.

Lemma mirror_lines_no_nl k ms n :
  Forall (λ l, no_nl l = true) (concat (imap (λ i, mirror_lines (tomlBareKey k) (n + i)) ms)).
Proof.
  revert n. induction ms as [|m ms IH]; intros n; [done|].
  rewrite imap_cons. cbn [concat]. apply Forall_app_2.
  - unfold mirror_lines. forall_split; eauto with go.
    by rewrite !no_nl_app, tomlBareKey_no_nl, no_nl_itoa.
  - erewrite imap_ext; [apply (IH (S n))|]. intros i x _. cbn. by rewrite Nat.add_succ_r.
Qed.

Lemma Generate_lines_no_nl c : Forall (λ l, no_nl l = true) (Generate_lines c).
Proof.
  unfold Generate_lines. forall_split; try done; eauto with go;
    try (by rewrite ?no_nl_app, ?tomlBareKey_no_nl).
  - rewrite no_nl_app. by destruct (bool_decide _).
  - apply Forall_fmap, Forall_true. intros s. unfold server_line. cbn.
    by rewrite !no_nl_app, !tomlEscape_no_nl, no_nl_itoa.
  - apply (mirror_lines_no_nl _ _ 0).
Qed.

Lemma is_header_toml_string key v : is_header key = false → key ≠ "" → is_header (toml_string key v) = false.
Proof. destruct key as [|a key]; [done|]. intros H _. unfold toml_string. by rewrite app_cons_str. Qed.

Lemma is_header_toml_int key n : is_header key = false → key ≠ "" → is_header (toml_int key n) = false.
Proof. destruct key as [|a key]; [done|]. intros H _. unfold toml_int. by rewrite app_cons_str. Qed.

Lemma header_cons l ls :
  filter (λ l, is_header l = true) (l :: ls) =
  (if is_header l then [l] else []) ++ filter (λ l, is_header l = true) ls.
Proof. rewrite filter_cons. destruct (is_header l); by repeat case_decide. Qed.

Lemma servers_no_header ss :
  filter (λ l, is_header l = true) (server_line <$> ss) = [].
Proof. induction ss as [|s ss IH]; [done|]. by rewrite fmap_cons, header_cons, IH. Qed.

Lemma mirror_headers k ms n :
  filter (λ l, is_header l = true) (concat (imap (λ i, mirror_lines k (n + i)) ms)) =
  (λ i, "[pools." +:+ k +:+ ".shards.0.mirrors." +:+ itoa (Z.of_nat i) +:+ "]")
    <$> seq n (length ms).
Proof.
  revert n. induction ms as [|m ms IH]; intros n; [done|].
  rewrite imap_cons. cbn [concat length seq fmap list_fmap]. rewrite filter_app, Nat.add_0_r.
  erewrite (imap_ext _ (λ i, mirror_lines k (S n + i)));
    [|intros i x _; cbn; by rewrite Nat.add_succ_r].
  rewrite IH. unfold mirror_lines. rewrite !header_cons.
  by rewrite (is_header_toml_string "host"), (is_header_toml_int "port").
Qed.

Lemma Generate_headers c :
  filter (λ l, is_header l = true) (Generate_lines c) =
  router_tables (tomlBareKey (cf_Database c)) (length (cf_Mirrors c)).
Proof.
  unfold Generate_lines, router_tables. rewrite !filter_app, servers_no_header.
  rewrite (mirror_headers (tomlBareKey (cf_Database c)) (cf_Mirrors c) 0 : filter _
    (concat (imap (mirror_lines _) _)) = _), app_nil_l, app_assoc. done.
Qed.

(** ** Properties *)

(** No name, user, password, role or host can change the shape of
    the generated file: split at its line breaks it is exactly the generated
    lines, its only table headers are the fixed ones of this pool (with a
    non-empty bare key) plus one per mirror, and it has a fixed number of lines
    besides one per server and four per mirror. *)
Theorem Generate_tables (c : Config) :
  let ls := SplitChar nl_char (Generate c) in
  let key := tomlBareKey (cf_Database c) in
  ls = Generate_lines c ++ [""] ∧
  filter (λ l, is_header l = true) ls = router_tables key (length (cf_Mirrors c)) ∧
  (str_forallb bare_key_char key = true ∧ key ≠ "") ∧
  length ls = 28 + length (cf_Servers c) + 4 * length (cf_Mirrors c).
Proof.
  intros ls key. assert (Hls : ls = Generate_lines c ++ [""])
    by apply SplitChar_lines, Generate_lines_no_nl.
  split; [done|]. rewrite Hls, filter_app, Generate_headers. split; [by rewrite app_nil_r|].
  split; [apply tomlBareKey_chars|].
  unfold Generate_lines. rewrite !length_app, length_fmap. cbn [length].
  assert (H : ∀ k ms n, length (concat (imap (λ i, mirror_lines k (n + i)) ms)) = 4 * length ms).
  { intros k ms. induction ms as [|m ms IH]; intros n; [done|].
    rewrite imap_cons. cbn [concat]. rewrite length_app.
    erewrite (imap_ext _ (λ i, mirror_lines k (S n + i)));
      [|intros i x _; cbn; by rewrite Nat.add_succ_r].
    rewrite IH. cbn [length mirror_lines]. lia. }
  rewrite (H (tomlBareKey (cf_Database c)) (cf_Mirrors c) 0 : length (concat (imap (mirror_lines _) _)) = _).
  lia.
Qed.

(** What a TOML reader gets out of the file is what went in: the
    value of every quoted setting reads back exactly, whatever bytes it holds,
    and nothing of it is left on the line; and reads may go to the primary
    exactly when the pool has no replica. *)
Theorem Generate_values (c : Config) :
  (∀ key v, toml_read (str_drop (String.length key + 4) (toml_string key v)) = Some (v, "")) ∧
  toml_string "admin_password" (cf_AdminPassword c) ∈ Generate_lines c ∧
  toml_string "username" (cf_User c) ∈ Generate_lines c ∧
  toml_string "password" (cf_Password c) ∈ Generate_lines c ∧
  toml_string "database" (cf_Database c) ∈ Generate_lines c ∧
  (∀ s, s ∈ cf_Servers c → server_line s ∈ Generate_lines c) ∧
  ∃ primaryReads : bool,
    Generate_lines c !! 14 = Some ("primary_reads_enabled = " +:+ fmt_bool primaryReads) ∧
    (primaryReads = true ↔ ∀ s, s ∈ cf_Servers c → sv_Role s ≠ "replica").
Proof.
  split.
  { intros key v. unfold toml_string.
    assert (String.length key + 4 = String.length (key +:+ " = " +:+ dq)) as ->
      by by rewrite length_app_str.
    assert (key +:+ " = " +:+ dq +:+ tomlEscape v +:+ dq =
            (key +:+ " = " +:+ dq) +:+ tomlEscape v +:+ dq) as -> by by rewrite !app_assoc_str.
    rewrite str_drop_app. rewrite <- (app_nil_r_str (tomlEscape v +:+ dq)), app_assoc_str.
    apply toml_read_escape. }
  split_and!; [by apply (list_elem_of_lookup_2 _ 4)|by apply (list_elem_of_lookup_2 _ 19)|
               by apply (list_elem_of_lookup_2 _ 20)|..]; unfold Generate_lines.
  { apply elem_of_app; right; apply elem_of_app; right; apply elem_of_app; left.
    by apply (list_elem_of_lookup_2 _ 1). }
  { intros s Hs. apply elem_of_app; right; apply elem_of_app; left. by apply list_elem_of_fmap_2. }
  eexists. split; [reflexivity|]. rewrite bool_decide_eq_true, length_zero_iff_nil.
  apply filter_nil_iff.
Qed.
