(* ===== verification/Runtime.v ===== *)
(** * The container runtime interface: [internal/docker/runtime.go]

    The data of the runtime, the interface [ContainerRuntime] as a class of
    operations on a state [R], the process facilities the callers use beside it
    (clock, sleep, the atomic stamp counter, the progress callback), and the contract [DockerLaws]:
    what every caller may rely on, over two views of the runtime's state, its
    containers and its volumes.  [traced_runtime] interposes a log of the calls
    between a caller and a runtime, for the properties of the order of
    effects. *)

From stdpp Require Import gmap sets.
From S2P Require Import Prelude GoStrings Apperr GoMonad.

(** ** Data *)

Definition LabelManaged : string := "pgfleet.managed".
Definition LabelInstance : string := "pgfleet.instance".
Definition LabelRole : string := "pgfleet.role".
Definition LabelName : string := "pgfleet.name".
Definition LabelStanza : string := "pgfleet.stanza".
Definition LabelRepoType : string := "pgfleet.repo".
Definition LabelPGVersion : string := "pgfleet.pgversion".
Definition LabelCluster : string := "pgfleet.cluster".

Record PortMapping := mkPort {
  pm_ContainerPort : Z;
  pm_HostPort : Z;
  pm_Protocol : string;
  pm_HostIP : string;
}.

Record Mount := mkMount {
  mt_Volume : string;
  mt_Path : string;
  mt_ReadOnly : bool;
}.

Record ContainerSpec := mkSpec {
  cs_Name : string;
  cs_Image : string;
  cs_Cmd : list string;
  cs_Env : gmap string string;
  cs_Labels : gmap string string;
  cs_Ports : list PortMapping;
  cs_Mounts : list Mount;
  cs_Networks : list string;
  cs_User : string;
  cs_RestartPolicy : string;
}.

Record ExecResult := mkExecResult {
  er_ExitCode : Z;
  er_Stdout : string;
  er_Stderr : string;
}.

Record ContainerState := mkContainerState {
  cst_ID : string;
  cst_Name : string;
  cst_Status : string;
  cst_Running : bool;
  cst_ExitCode : Z;
  cst_Health : string;
  cst_Ports : gmap string string;
  cst_RestartPolicy : string;
}.

Record ContainerInfo := mkContainerInfo {
  ci_ID : string;
  ci_Name : string;
  ci_State : string;
  ci_Labels : gmap string string;
}.

(** [have[k]] of a Go map: the zero value for a missing key. *)
Definition label (labels : gmap string string) (k : string) : string := default "" (labels !! k).

(** [labelsMatch]. *)
Definition labelsMatch (have want : gmap string string) : bool :=
  forallb (λ kv, bool_decide (label have kv.1 = kv.2)) (map_to_list want).

(** ** Interfaces *)

(** [ContainerRuntime], less the resource statistics.  [Logs] returns what
    reading the log stream to its end gives. *)
Class ContainerRuntime (R : Type) := {
  EnsureImage : Context → string → M R (result unit);
  CreateContainer : Context → ContainerSpec → M R (result string);
  StartContainer : Context → string → M R (result unit);
  StopContainer : Context → string → option Z → M R (result unit);
  RemoveContainer : Context → string → bool → M R (result unit);
  Inspect : Context → string → M R (result ContainerState);
  Exec : Context → string → list string → M R (result ExecResult);
  Logs : Context → string → bool → M R (result string);
  ListByLabel : Context → gmap string string → M R (result (list ContainerInfo));
  CreateVolume : Context → string → gmap string string → M R (result unit);
  RemoveVolume : Context → string → bool → M R (result unit);
  ListVolumesByLabel : Context → gmap string string → M R (result (list string));
  CreateNetwork : Context → string → gmap string string → M R (result string);
  RemoveNetwork : Context → string → M R (result unit);
}.

(** The standard library's clock, the package-level [stampCounter] and the
    callback behind a non-nil [ProgressFunc].  [sleep] is the [select] between
    [ctx.Done()] and [time.After(d)]: its error is [ctx.Err()]. *)
Class Process (R : Type) := {
  now : M R Z;
  sleep : Context → Z → M R (result unit);
  stampCounter_Add : M R Z;
  progress_call : string → string → M R unit;
}.

(** [time.Since], deadlines: what a loop that polls until a deadline relies on.
    Time does not go back, and a completed sleep lasts as long as it was asked
    to. *)
Class ClockLaws (R : Type) `{ContainerRuntime R, Process R} := {
  clock : R → Z;
  now_clock s : (now s).1 = clock s ∧ clock (now s).2 = clock s;
  sleep_clock ctx d s :
    (0 ≤ d)%Z →
    (clock s ≤ clock (sleep ctx d s).2)%Z ∧
    (is_ok (sleep ctx d s).1 = true → (clock s + d ≤ clock (sleep ctx d s).2)%Z);
  Exec_clock ctx id cmd s : (clock s ≤ clock (Exec ctx id cmd s).2)%Z;
  Inspect_clock ctx id s : (clock s ≤ clock (Inspect ctx id s).2)%Z;
}.

Definition Second : Z := 1000000000.
Definition Minute : Z := 60 * Second.

(** ** The contract *)

Definition volumes_of (sp : ContainerSpec) : list string := mt_Volume <$> cs_Mounts sp.

(** A volume some container mounts: Docker refuses to remove it. *)
Definition in_use (cs : gmap string ContainerSpec) (v : string) : Prop :=
  ∃ id sp, cs !! id = Some sp ∧ v ∈ volumes_of sp.

Section contract.
Context {R : Type}.
Context (ctrs : R → gmap string ContainerSpec) (vols : R → gset string).

(** [m] leaves the containers and the volumes as they are. *)
Definition keeps {A} (m : M R A) : Prop :=
  ∀ s, ctrs (m s).2 = ctrs s ∧ vols (m s).2 = vols s.
End contract.

(** What a runtime promises: only the create and remove operations change the
    set of containers and of volumes, each the object it names and only when it
    can have succeeded; a failed creation leaves nothing behind; and a forced
    removal outside the caller's context succeeds, of a container that exists
    and of a volume no container mounts.  Everything else may fail at any
    moment. *)
Class DockerLaws (R : Type) `{ContainerRuntime R, Process R} := {
  ctrs : R → gmap string ContainerSpec;
  vols : R → gset string;
  EnsureImage_keeps ctx i : keeps ctrs vols (EnsureImage ctx i);
  StartContainer_keeps ctx i : keeps ctrs vols (StartContainer ctx i);
  StopContainer_keeps ctx i t : keeps ctrs vols (StopContainer ctx i t);
  Inspect_keeps ctx i : keeps ctrs vols (Inspect ctx i);
  Exec_keeps ctx i cmd : keeps ctrs vols (Exec ctx i cmd);
  Logs_keeps ctx i f : keeps ctrs vols (Logs ctx i f);
  ListByLabel_keeps ctx l : keeps ctrs vols (ListByLabel ctx l);
  now_keeps : keeps ctrs vols now;
  sleep_keeps ctx d : keeps ctrs vols (sleep ctx d);
  stampCounter_keeps : keeps ctrs vols stampCounter_Add;
  progress_keeps step detail : keeps ctrs vols (progress_call step detail);
  CreateContainer_law ctx sp s :
    wp (CreateContainer ctx sp) (λ r s',
      vols s' = vols s ∧
      match r with
      | Ok cid => cid ≠ "" ∧ ctrs s !! cid = None ∧ ctrs s' = <[cid := sp]> (ctrs s)
      | Err _ => ctrs s' = ctrs s
      end) s;
  RemoveContainer_law ctx cid force s :
    wp (RemoveContainer ctx cid force) (λ r s',
      vols s' = vols s ∧
      match r with
      | Ok _ => ctrs s' = delete cid (ctrs s)
      | Err _ => ctrs s' = ctrs s ∨ ctrs s' = delete cid (ctrs s)
      end) s;
  CreateVolume_law ctx v l s :
    wp (CreateVolume ctx v l) (λ r s',
      ctrs s' = ctrs s ∧
      match r with
      | Ok _ => vols s' = {[v]} ∪ vols s
      | Err _ => vols s' = vols s
      end) s;
  RemoveVolume_law ctx v force s :
    wp (RemoveVolume ctx v force) (λ r s',
      ctrs s' = ctrs s ∧
      match r with
      | Ok _ => vols s' = vols s ∖ {[v]}
      | Err _ => vols s' = vols s ∨ vols s' = vols s ∖ {[v]}
      end) s;
  RemoveContainer_cleanup cid s :
    is_Some (ctrs s !! cid) →
    wp (RemoveContainer Background cid true) (λ r _, is_ok r = true) s;
  RemoveVolume_cleanup v s :
    ¬ in_use (ctrs s) v →
    wp (RemoveVolume Background v true) (λ r _, is_ok r = true) s;
}.

(** ** A log of calls *)

Inductive Call :=
  | CallCreate (sp : ContainerSpec) (r : result string)
  | CallStart (cid : string) (r : result unit)
  | CallStop (cid : string) (r : result unit)
  | CallRemove (cid : string) (r : result unit)
  | CallExec (cid : string) (cmd : list string) (r : result ExecResult)
  | CallCreateVolume (v : string) (r : result unit)
  | CallRemoveVolume (v : string) (r : result unit)
  | CallOther.

(** The same runtime, with every call and its outcome appended to a log. *)
Definition traced_runtime {R} `{ContainerRuntime R} : ContainerRuntime (R * list Call) := {|
  EnsureImage ctx i := traced (λ _, CallOther) (EnsureImage ctx i);
  CreateContainer ctx sp := traced (CallCreate sp) (CreateContainer ctx sp);
  StartContainer ctx i := traced (CallStart i) (StartContainer ctx i);
  StopContainer ctx i t := traced (CallStop i) (StopContainer ctx i t);
  RemoveContainer ctx i f := traced (CallRemove i) (RemoveContainer ctx i f);
  Inspect ctx i := traced (λ _, CallOther) (Inspect ctx i);
  Exec ctx i cmd := traced (CallExec i cmd) (Exec ctx i cmd);
  Logs ctx i f := traced (λ _, CallOther) (Logs ctx i f);
  ListByLabel ctx l := traced (λ _, CallOther) (ListByLabel ctx l);
  CreateVolume ctx v l := traced (CallCreateVolume v) (CreateVolume ctx v l);
  RemoveVolume ctx v f := traced (CallRemoveVolume v) (RemoveVolume ctx v f);
  ListVolumesByLabel ctx l := traced (λ _, CallOther) (ListVolumesByLabel ctx l);
  CreateNetwork ctx n l := traced (λ _, CallOther) (CreateNetwork ctx n l);
  RemoveNetwork ctx i := traced (λ _, CallOther) (RemoveNetwork ctx i);
|}.

Definition process_fst {R T} `{Process R} : Process (R * T) := {|
  now := on_fst now;
  sleep ctx d := on_fst (sleep ctx d);
  stampCounter_Add := on_fst stampCounter_Add;
  progress_call step detail := on_fst (progress_call step detail);
|}.

(** ** Lemmas *)

Lemma labelsMatch_spec have want :
  labelsMatch have want = true ↔ ∀ k v, want !! k = Some v → label have k = v.
Proof.
  unfold labelsMatch. rewrite forallb_forall. split.
  - intros Hf k v Hkv. specialize (Hf (k, v)). cbn in Hf.
    apply bool_decide_eq_true in Hf; [done|].
    by apply list_elem_of_In, elem_of_map_to_list.
  - intros Hl [k v] Hin%list_elem_of_In%elem_of_map_to_list. cbn.
    by apply bool_decide_eq_true, Hl.
Qed.

Section rules.
Context {R : Type} {RT : ContainerRuntime R} {PR : Process R} {DL : DockerLaws R}.

Lemma wp_keeps {A} (m : M R A) (Q : A → R → Prop) s :
  keeps ctrs vols m →
  (∀ a s', ctrs s' = ctrs s → vols s' = vols s → Q a s') → wp m Q s.
Proof. intros Hk HQ. destruct (Hk s) as [H1 H2]. by apply HQ. Qed.

Lemma wp_CreateContainer ctx sp (Q : result string → R → Prop) s :
  (∀ cid s', cid ≠ "" → ctrs s !! cid = None → ctrs s' = <[cid := sp]> (ctrs s) →
     vols s' = vols s → Q (Ok cid) s') →
  (∀ e s', ctrs s' = ctrs s → vols s' = vols s → Q (Err e) s') →
  wp (CreateContainer ctx sp) Q s.
Proof.
  intros H1 H2. eapply wp_mono; [apply CreateContainer_law|].
  intros [cid|e] s' [Hv Hc]; [destruct Hc as (? & ? & ?); by apply H1|by apply H2].
Qed.

Lemma wp_CreateVolume ctx v l (Q : result unit → R → Prop) s :
  (∀ s', ctrs s' = ctrs s → vols s' = {[v]} ∪ vols s → Q (Ok tt) s') →
  (∀ e s', ctrs s' = ctrs s → vols s' = vols s → Q (Err e) s') →
  wp (CreateVolume ctx v l) Q s.
Proof.
  intros H1 H2. eapply wp_mono; [apply CreateVolume_law|].
  intros [[]|e] s' [Hc Hv]; [by apply H1|by apply H2].
Qed.

(** Cleanup of a container that exists. *)
Lemma wp_cleanup_container cid (Q : unit → R → Prop) s :
  is_Some (ctrs s !! cid) →
  (∀ s', ctrs s' = delete cid (ctrs s) → vols s' = vols s → Q tt s') →
  wp (discard (RemoveContainer Background cid true)) Q s.
Proof.
  intros Hs HQ. apply wp_discard.
  eapply wp_mono;
    [apply wp_conj; [apply RemoveContainer_law|by apply RemoveContainer_cleanup]|].
  intros [[]|e] s' [[Hv Hc] Hok]; [by apply HQ|done].
Qed.

(** Cleanup of a volume nobody mounts. *)
Lemma wp_cleanup_volume v (Q : unit → R → Prop) s :
  ¬ in_use (ctrs s) v →
  (∀ s', ctrs s' = ctrs s → vols s' = vols s ∖ {[v]} → Q tt s') →
  wp (discard (RemoveVolume Background v true)) Q s.
Proof.
  intros Hs HQ. apply wp_discard.
  eapply wp_mono; [apply wp_conj; [apply RemoveVolume_law|by apply RemoveVolume_cleanup]|].
  intros [[]|e] s' [[Hc Hv] Hok]; [by apply HQ|done].
Qed.
End rules.

#[export] Hint Resolve EnsureImage_keeps StartContainer_keeps StopContainer_keeps Inspect_keeps
  Exec_keeps Logs_keeps ListByLabel_keeps now_keeps sleep_keeps stampCounter_keeps
  progress_keeps : wp.
