(* ===== verification/DockerFake.v ===== *)
(** * The in-memory runtime and the exec capture: [internal/docker]

    [fake.go] as a state and its operations, with the proof that it keeps the
    contract [DockerLaws]; the bounded buffer [cappedbuffer.go] that captures the
    output of an exec; and the pure helpers of [moby.go] that translate a
    specification for the Docker Engine. *)

From stdpp Require Import gmap sets.
From S2P Require Import Prelude GoStrings Apperr GoMonad Runtime.

(** ** The fake: [fake.go] *)

Record fakeContainer := mkFakeContainer {
  fc_spec : ContainerSpec;
  fc_status : string;
  fc_running : bool;
  fc_exitCode : Z;
  fc_ports : gmap string string;
}.

Record Fake := mkFake {
  fk_seq : Z;
  fk_containers : gmap string fakeContainer;
  fk_volumes : gmap string (gmap string string);
  fk_networks : gmap string (gmap string string);
}.

Definition fk_specs (f : Fake) : gmap string ContainerSpec := fc_spec <$> fk_containers f.

Definition fk_set_containers (g : gmap string fakeContainer → gmap string fakeContainer)
    (f : Fake) : Fake :=
  mkFake (fk_seq f) (g (fk_containers f)) (fk_volumes f) (fk_networks f).
Definition fk_set_volumes (g : gmap string (gmap string string) → gmap string (gmap string string))
    (f : Fake) : Fake :=
  mkFake (fk_seq f) (fk_containers f) (g (fk_volumes f)) (fk_networks f).
Definition fk_set_networks (g : gmap string (gmap string string) → gmap string (gmap string string))
    (f : Fake) : Fake :=
  mkFake (fk_seq f) (fk_containers f) (fk_volumes f) (g (fk_networks f)).

(** The effect of a test hook on the fake: it may change the states of
    containers, as [MarkExited] does. *)
Definition hook_ok (g : Fake → Fake) : Prop :=
  ∀ f, fk_seq (g f) = fk_seq f ∧ fk_specs (g f) = fk_specs f ∧ fk_volumes (g f) = fk_volumes f.

(** The scripted hooks [ExecFunc], [EnsureImageErr] and [OnStart]. *)
Record Hooks := mkHooks {
  ExecFunc : option (string → list string → M Fake (result ExecResult));
  EnsureImageErr : option error;
  OnStart : option (Fake → string → Fake);
  ExecFunc_ok : ∀ g, ExecFunc = Some g → ∀ id cmd, hook_ok (λ f, (g id cmd f).2);
  OnStart_ok : ∀ g, OnStart = Some g → ∀ id, hook_ok (λ f, g f id);
}.

Definition fk_exit (code : option Z) (c : fakeContainer) : fakeContainer :=
  mkFakeContainer (fc_spec c) "exited" false (default (fc_exitCode c) code) (fc_ports c).
Definition fk_run (c : fakeContainer) : fakeContainer :=
  mkFakeContainer (fc_spec c) "running" true (fc_exitCode c) (fc_ports c).

(** [MarkExited]. *)
Definition MarkExited (f : Fake) (id : string) (code : Z) : Fake :=
  fk_set_containers (alter (fk_exit (Some code)) id) f.

(** [NewFake]. *)
Definition NewFake : Fake := mkFake 0 ∅ ∅ ∅.

Definition fk_not_found (id : string) : error := New KindNotFound ("container not found: " +:+ id).

(** [get]: run [k] on the container, or fail with NotFound. *)
Definition fk_get {A} (id : string) (k : fakeContainer → M Fake (result A)) : M Fake (result A) :=
  λ f, match fk_containers f !! id with
       | None => (Err (fk_not_found id), f)
       | Some c => k c f
       end.

Definition fk_modify (g : Fake → Fake) : M Fake (result unit) := λ f, (Ok tt, g f).

(** The port bindings of a new container. *)
Definition fk_ports_of (seq : Z) (sp : ContainerSpec) : gmap string string :=
  foldl (λ ports p,
    let proto := if bool_decide (pm_Protocol p = "") then "tcp" else pm_Protocol p in
    let host := if bool_decide (pm_HostPort p = 0)%Z then (30000 + seq)%Z else pm_HostPort p in
    <[itoa (pm_ContainerPort p) +:+ "/" +:+ proto := itoa host]> ports) ∅ (cs_Ports sp).

Definition fk_id (seq : Z) : string := "fake-" +:+ itoa seq.

Section fake.
Context (h : Hooks).

Definition Fake_EnsureImage : M Fake (result unit) := λ f,
  (match EnsureImageErr h with Some e => Err e | None => Ok tt end, f).

Definition Fake_CreateContainer (sp : ContainerSpec) : M Fake (result string) := λ f,
  let seq := (fk_seq f + 1)%Z in
  (Ok (fk_id seq),
   mkFake seq
     (<[fk_id seq := mkFakeContainer sp "created" false 0 (fk_ports_of seq sp)]> (fk_containers f))
     (fk_volumes f) (fk_networks f)).

Definition Fake_StartContainer (id : string) : M Fake (result unit) :=
  fk_get id (λ _ f,
    let f := fk_set_containers (alter fk_run id) f in
    (Ok tt, match OnStart h with Some g => g f id | None => f end)).

Definition Fake_StopContainer (id : string) : M Fake (result unit) :=
  fk_get id (λ _, fk_modify (fk_set_containers (alter (fk_exit None) id))).

Definition Fake_RemoveContainer (id : string) (force : bool) : M Fake (result unit) :=
  fk_get id (λ c,
    if fc_running c && negb force
    then fail (New KindConflict "container is running; use force")
    else fk_modify (fk_set_containers (delete id))).

Definition Fake_Inspect (id : string) : M Fake (result ContainerState) :=
  fk_get id (λ c, ok
    (mkContainerState id (cs_Name (fc_spec c)) (fc_status c) (fc_running c) (fc_exitCode c) ""
       (fc_ports c) (cs_RestartPolicy (fc_spec c)))).

Definition Fake_Exec (id : string) (cmd : list string) : M Fake (result ExecResult) :=
  fk_get id (λ c,
    if negb (fc_running c) then fail (New KindConflict "container is not running")
    else match ExecFunc h with Some g => g id cmd | None => ok (mkExecResult 0 "" "") end).

Definition Fake_Logs (id : string) : M Fake (result string) := fk_get id (λ _, ok "").

Definition Fake_ListByLabel (labels : gmap string string) : M Fake (result (list ContainerInfo)) :=
  λ f, (Ok (omap (λ ic : string * fakeContainer,
    let '(id, c) := ic in
    if labelsMatch (cs_Labels (fc_spec c)) labels
    then Some (mkContainerInfo id (cs_Name (fc_spec c)) (fc_status c) (cs_Labels (fc_spec c)))
    else None) (map_to_list (fk_containers f))), f).

Definition Fake_CreateVolume (name : string) (labels : gmap string string) : M Fake (result unit) :=
  fk_modify (fk_set_volumes <[name := labels]>).
Definition Fake_RemoveVolume (name : string) : M Fake (result unit) :=
  fk_modify (fk_set_volumes (delete name)).
Definition Fake_ListVolumesByLabel (labels : gmap string string) : M Fake (result (list string)) :=
  λ f, (Ok (omap (λ nl : string * gmap string string,
    let '(name, have) := nl in if labelsMatch have labels then Some name else None)
    (map_to_list (fk_volumes f))), f).

Definition Fake_CreateNetwork (name : string) (labels : gmap string string) : M Fake (result string) :=
  λ f, (Ok name, fk_set_networks <[name := labels]> f).
Definition Fake_RemoveNetwork (id : string) : M Fake (result unit) :=
  fk_modify (fk_set_networks (delete id)).
End fake.

(** ** The fake keeps the contract *)

(** The ids in use are those handed out so far. *)
Definition fake_wf (f : Fake) : Prop :=
  map_Forall (λ id _, ∃ n, (n ≤ fk_seq f)%Z ∧ id = fk_id n) (fk_specs f).

(** Operations keep [fake_wf]: a state bundled with it. *)
Definition FakeState : Type := {f : Fake | fake_wf f}.

Definition keeps_wf {A} (m : M Fake A) : Prop := ∀ f, fake_wf f → fake_wf (m f).2.

Definition lift_wf {A} (m : M Fake A) (Hm : keeps_wf m) : M FakeState A := λ fs,
  ((m (`fs)).1, exist _ (m (`fs)).2 (Hm (`fs) (proj2_sig fs))).

Lemma hook_wf g : hook_ok g → ∀ f, fake_wf f → fake_wf (g f).
Proof.
  intros Hg f Hf. destruct (Hg f) as (H1 & H2 & _). unfold fake_wf in *. by rewrite H1, H2.
Qed.

Lemma specs_alter (k : fakeContainer → fakeContainer) id f :
  (∀ c, fc_spec (k c) = fc_spec c) → fk_specs (fk_set_containers (alter k id) f) = fk_specs f.
Proof.
  intros Hk. unfold fk_specs, fk_set_containers. cbn. apply map_eq. intros j.
  rewrite !lookup_fmap. destruct (decide (id = j)) as [<-|Hj].
  - rewrite lookup_alter_eq. destruct (fk_containers f !! id); cbn; [by rewrite Hk|done].
  - by rewrite lookup_alter_ne.
Qed.

Lemma get_ok {A} id (k : fakeContainer → M Fake (result A)) :
  (∀ c, hook_ok (λ f, (k c f).2)) → hook_ok (λ f, (fk_get id k f).2).
Proof. intros Hk f. unfold fk_get. destruct (_ !! id); [apply Hk|done]. Qed.

Section contract.
Context (h : Hooks).

Lemma Start_ok id : hook_ok (λ f, (Fake_StartContainer h id f).2).
Proof.
  apply get_ok. intros c f. cbn.
  assert (Hs : fk_specs (fk_set_containers (alter fk_run id) f) = fk_specs f)
    by by apply specs_alter.
  destruct (OnStart h) as [g|] eqn:Hg; [|done].
  destruct (OnStart_ok h g Hg id (fk_set_containers (alter fk_run id) f)) as (H1 & H2 & H3).
  cbn in *. by rewrite H1, H2, H3, Hs.
Qed.

Lemma Stop_ok id : hook_ok (λ f, (Fake_StopContainer id f).2).
Proof. apply get_ok. intros c f. split_and!; [done|by apply specs_alter|done]. Qed.

Lemma Inspect_ok id : hook_ok (λ f, (Fake_Inspect id f).2).
Proof. apply get_ok. by intros c f. Qed.

Lemma Logs_ok id : hook_ok (λ f, (Fake_Logs id f).2).
Proof. apply get_ok. by intros c f. Qed.

Lemma Exec_ok id cmd : hook_ok (λ f, (Fake_Exec h id cmd f).2).
Proof.
  apply get_ok. intros c f. destruct (fc_running c); [|done].
  cbn. destruct (ExecFunc h) as [g|] eqn:Hg; [by apply (ExecFunc_ok h g Hg)|done].
Qed.

Lemma same_ok : hook_ok (λ f, f).
Proof. done. Qed.

Lemma CreateVolume_wf v l : keeps_wf (Fake_CreateVolume v l).
Proof. by intros f Hf. Qed.
Lemma RemoveVolume_wf v : keeps_wf (Fake_RemoveVolume v).
Proof. by intros f Hf. Qed.
Lemma CreateNetwork_wf n l : keeps_wf (Fake_CreateNetwork n l).
Proof. by intros f Hf. Qed.
Lemma RemoveNetwork_wf n : keeps_wf (Fake_RemoveNetwork n).
Proof. by intros f Hf. Qed.

Lemma fk_specs_create sp f :
  fk_specs (Fake_CreateContainer sp f).2 = <[fk_id (fk_seq f + 1) := sp]> (fk_specs f).
Proof. unfold fk_specs. cbn. by rewrite fmap_insert. Qed.

Lemma fake_fresh f : fake_wf f → fk_specs f !! fk_id (fk_seq f + 1) = None.
Proof.
  intros Hf. apply eq_None_not_Some. intros [sp Hsp].
  destruct (Hf _ _ Hsp) as (n & Hn & Heq). unfold fk_id in Heq.
  apply (inj (String.append "fake-")), itoa_inj in Heq. lia.
Qed.

Lemma CreateContainer_wf sp : keeps_wf (Fake_CreateContainer sp).
Proof.
  intros f Hf. unfold fake_wf. rewrite fk_specs_create. apply map_Forall_insert_2.
  - exists (fk_seq f + 1)%Z. done.
  - intros id sp' Hid. destruct (Hf id sp' Hid) as (n & Hn & ->). exists n. cbn. split; [lia|done].
Qed.

Lemma RemoveContainer_cases id force f :
  ((Fake_RemoveContainer id force f).2 = f ∧ is_ok (Fake_RemoveContainer id force f).1 = false) ∨
  ((Fake_RemoveContainer id force f).2 = fk_set_containers (delete id) f ∧
   is_Some (fk_containers f !! id)).
Proof.
  unfold Fake_RemoveContainer, fk_get. destruct (fk_containers f !! id) as [c|] eqn:Hc; [|by left].
  destruct (fc_running c && negb force); [by left|right]. split; [done|by exists c].
Qed.

Lemma RemoveContainer_wf id force : keeps_wf (Fake_RemoveContainer id force).
Proof.
  intros f Hf. destruct (RemoveContainer_cases id force f) as [[-> _]|[-> _]]; [done|].
  unfold fake_wf, fk_specs, fk_set_containers. cbn. rewrite fmap_delete.
  by apply map_Forall_delete.
Qed.

Definition hook_keeps_wf {A} (m : M Fake A) (H : hook_ok (λ f, (m f).2)) : keeps_wf m :=
  hook_wf _ H.
End contract.

(** A world for the callers: the fake, the clock in nanoseconds, which only
    [sleep] advances, and the stamp counter. *)
Definition FakeWorld : Type := FakeState * (Z * Z).

Definition fake_runtime (h : Hooks) : ContainerRuntime FakeWorld := {|
  EnsureImage _ _ := on_fst (lift_wf (Fake_EnsureImage h) (hook_keeps_wf (Fake_EnsureImage h) same_ok));
  CreateContainer _ sp := on_fst (lift_wf (Fake_CreateContainer sp) (CreateContainer_wf sp));
  StartContainer _ i := on_fst (lift_wf (Fake_StartContainer h i) (hook_keeps_wf _ (Start_ok h i)));
  StopContainer _ i _ := on_fst (lift_wf (Fake_StopContainer i) (hook_keeps_wf _ (Stop_ok i)));
  RemoveContainer _ i f := on_fst (lift_wf (Fake_RemoveContainer i f) (RemoveContainer_wf i f));
  Inspect _ i := on_fst (lift_wf (Fake_Inspect i) (hook_keeps_wf _ (Inspect_ok i)));
  Exec _ i cmd := on_fst (lift_wf (Fake_Exec h i cmd) (hook_keeps_wf _ (Exec_ok h i cmd)));
  Logs _ i _ := on_fst (lift_wf (Fake_Logs i) (hook_keeps_wf _ (Logs_ok i)));
  ListByLabel _ l := on_fst (lift_wf (Fake_ListByLabel l) (hook_keeps_wf (Fake_ListByLabel l) same_ok));
  CreateVolume _ v l := on_fst (lift_wf (Fake_CreateVolume v l) (CreateVolume_wf v l));
  RemoveVolume _ v _ := on_fst (lift_wf (Fake_RemoveVolume v) (RemoveVolume_wf v));
  ListVolumesByLabel _ l := on_fst (lift_wf (Fake_ListVolumesByLabel l) (hook_keeps_wf (Fake_ListVolumesByLabel l) same_ok));
  CreateNetwork _ n l := on_fst (lift_wf (Fake_CreateNetwork n l) (CreateNetwork_wf n l));
  RemoveNetwork _ n := on_fst (lift_wf (Fake_RemoveNetwork n) (RemoveNetwork_wf n));
|}.

Definition fake_process : Process FakeWorld := {|
  now := λ w, (w.2.1, w);
  sleep _ d := λ w, (Ok tt, (w.1, (w.2.1 + d, w.2.2)%Z));
  stampCounter_Add := λ w, ((w.2.2 + 1)%Z, (w.1, (w.2.1, w.2.2 + 1)%Z));
  progress_call _ _ := ret tt;
|}.
#[export] Existing Instance fake_process.

Definition fake_ctrs (w : FakeWorld) : gmap string ContainerSpec := fk_specs (`w.1).
Definition fake_vols (w : FakeWorld) : gset string := dom (fk_volumes (`w.1)).

Lemma hook_keeps {A} (m : M Fake A) (H : hook_ok (λ f, (m f).2)) :
  keeps fake_ctrs fake_vols (on_fst (T := Z * Z) (lift_wf m (hook_keeps_wf m H))).
Proof.
  intros [[f Hf] t]. unfold fake_ctrs, fake_vols. cbn.
  destruct (H f) as (_ & -> & ->). done.
Qed.

(** The fake is a runtime: whatever its hooks script, it keeps the contract
    every caller relies on. *)
#[export] Instance fake_laws (h : Hooks) :
  @DockerLaws FakeWorld (fake_runtime h) fake_process.
Proof.
  refine (@Build_DockerLaws FakeWorld (fake_runtime h) fake_process fake_ctrs fake_vols
    _ _ _ _ _ _ _ _ _ _ _ _ _ _ _ _ _); intros; try (by apply hook_keeps); try (by intros [? ?]).
  - destruct s as [[f Hf] t]. unfold wp, fake_ctrs, fake_vols. cbn -[fk_specs Fake_CreateContainer].
    rewrite fk_specs_create. split; [done|]. cbn [fst Fake_CreateContainer].
    split_and!; [by unfold fk_id; rewrite app_cons_str|by apply fake_fresh|done].
  - destruct s as [[f Hf] t]. unfold wp, fake_ctrs, fake_vols. cbn -[fk_specs Fake_RemoveContainer].
    destruct (RemoveContainer_cases cid force f) as [[-> He]|[-> Hc]].
    + split; [done|]. destruct (Fake_RemoveContainer _ _ _).1; [done|by left].
    + split; [done|]. unfold fk_specs. cbn. rewrite fmap_delete.
      destruct (Fake_RemoveContainer _ _ _).1; [done|by right].
  - destruct s as [[f Hf] t]. unfold wp, fake_ctrs, fake_vols. cbn -[fk_specs].
    split; [done|]. by rewrite dom_insert_L.
  - destruct s as [[f Hf] t]. unfold wp, fake_ctrs, fake_vols. cbn -[fk_specs].
    split; [done|]. by rewrite dom_delete_L.
  - destruct s as [[f Hf] t]. destruct H as [sp Hsp]. unfold wp, fake_ctrs in *.
    cbn -[Fake_RemoveContainer] in *. unfold Fake_RemoveContainer, fk_get, fk_specs in *.
    rewrite lookup_fmap in Hsp. destruct (fk_containers f !! cid) as [c|]; [|done].
    by rewrite andb_false_r.
  - done.
Defined.

(** ** Captured exec output: [cappedbuffer.go] *)

Definition maxExecCaptureBytes : Z := Z.shiftl 1 20.

Record cappedBuffer := mkCapped {
  cb_buf : string;
  cb_limit : Z;
  cb_truncated : bool;
}.

(** [Write]: the number of bytes reported written, and the buffer after it. *)
Definition Write (p : string) (c : cappedBuffer) : Z * cappedBuffer :=
  let remaining := (cb_limit c - len (cb_buf c))%Z in
  if bool_decide (remaining ≤ 0)%Z then
    (len p, mkCapped (cb_buf c) (cb_limit c)
              (if bool_decide (0 < len p)%Z then true else cb_truncated c))
  else if bool_decide (remaining < len p)%Z then
    (len p, mkCapped (cb_buf c +:+ str_take (Z.to_nat remaining) p) (cb_limit c) true)
  else (len p, mkCapped (cb_buf c +:+ p) (cb_limit c) (cb_truncated c)).

(** A copy loop over the chunks of a stream: the counts it is told, and the
    buffer at the end. *)
Fixpoint write_all (ps : list string) (c : cappedBuffer) : list Z * cappedBuffer :=
  match ps with
  | [] => ([], c)
  | p :: ps' =>
      let '(n, c') := Write p c in
      let '(ns, c'') := write_all ps' c' in (n :: ns, c'')
  end.

(** ** Translation for the Docker Engine: helpers of [moby.go] *)

(** [envSlice], for the entries in the order the map yields them. *)
Definition envSlice (kvs : list (string * string)) : list string :=
  (λ kv, kv.1 +:+ "=" +:+ kv.2) <$> kvs.

(** [portConfig]: the exposed ports with their bindings (host address, host
    port); an exposed port is one with a binding. *)
Definition portConfig (ports : list PortMapping) : gmap string (list (string * string)) :=
  foldl (λ binds p,
    let proto := if bool_decide (pm_Protocol p = "") then "tcp" else pm_Protocol p in
    let port := itoa (pm_ContainerPort p) +:+ "/" +:+ proto in
    let hostPort := if bool_decide (pm_HostPort p ≠ 0)%Z then itoa (pm_HostPort p) else "" in
    let hostIP := if bool_decide (pm_HostIP p = "") then "0.0.0.0" else pm_HostIP p in
    <[port := [(hostIP, hostPort)]]> binds) ∅ ports.

(** [mapErr], over [errdefs.IsNotFound]. *)
Definition mapErr {A} (IsNotFound : error → bool) (op : string) (r : result A) : result A :=
  match r with
  | Ok a => Ok a
  | Err e =>
      if IsNotFound e then Err (Wrap KindNotFound ("docker: " +:+ op) e)
      else Err (Wrap KindInternal ("docker: " +:+ op) e)
  end.

(** [sumBlkioReadWrite]: 64-bit counters that wrap around. *)
Definition wrap_u64 (n : Z) : Z := Z.land n (Z.ones 64).
Definition sumBlkioReadWrite (entries : list (string * Z)) : Z * Z :=
  foldl (λ rw e,
    if EqualFold e.1 "read" then (wrap_u64 (rw.1 + e.2), rw.2)%Z
    else if EqualFold e.1 "write" then (rw.1, wrap_u64 (rw.2 + e.2))%Z
    else rw) (0, 0)%Z entries.

Lemma Write_spec p c :
  (len (cb_buf c) ≤ cb_limit c)%Z →
  (Write p c).1 = len p ∧
  cb_limit (Write p c).2 = cb_limit c ∧
  cb_buf (Write p c).2 = str_take (Z.to_nat (cb_limit c)) (cb_buf c +:+ p) ∧
  cb_truncated (Write p c).2 =
    cb_truncated c || bool_decide (cb_limit c < len (cb_buf c) + len p)%Z.
Proof.
  intros Hl. unfold Write, len in *.
  rewrite str_take_app_le by lia.
  repeat case_bool_decide; cbn; rewrite ?orb_true_r, ?orb_false_r; split_and!; try done; try lia.
  - rewrite (proj2 (Nat.sub_0_le _ _)) by lia. by rewrite str_take_0, app_nil_r_str.
  - rewrite (proj2 (Nat.sub_0_le _ _)) by lia. by rewrite str_take_0, app_nil_r_str.
  - f_equal. f_equal. lia.
  - f_equal. rewrite str_take_ge; [done|lia].
Qed.

Lemma write_all_spec ps c :
  (len (cb_buf c) ≤ cb_limit c)%Z →
  (write_all ps c).1 = len <$> ps ∧
  cb_buf (write_all ps c).2 = str_take (Z.to_nat (cb_limit c)) (cb_buf c +:+ str_concat ps) ∧
  cb_truncated (write_all ps c).2 =
    cb_truncated c || bool_decide (cb_limit c < len (cb_buf c) + len (str_concat ps))%Z.
Proof.
  revert c. induction ps as [|p ps IH]; intros c Hc.
  - cbn. rewrite app_nil_r_str, str_take_ge by (unfold len in *; lia).
    split_and!; try done. rewrite bool_decide_false, orb_false_r; [done|]. unfold len in *. cbn. lia.
  - destruct (Write_spec p c Hc) as (H1 & H2 & H3 & H4).
    cbn [write_all]. destruct (Write p c) as [n c'] eqn:Hw. cbn [fst snd] in *.
    assert (Hc' : (len (cb_buf c') ≤ cb_limit c')%Z).
    { rewrite H2, H3. unfold len in *. rewrite str_take_length. lia. }
    destruct (IH c' Hc') as (I1 & I2 & I3). destruct (write_all ps c') as [ns c''].
    cbn [fst snd] in *. rewrite fmap_cons, str_concat_cons, H1, I1.
    rewrite I2, I3, H2, H3, H4. split_and!; [done| |].
    + by rewrite str_take_take_app, app_assoc_str.
    + rewrite <- orb_assoc. f_equal. unfold len in *.
      rewrite str_take_length, !length_app_str. repeat case_bool_decide; cbn; try done; lia.
Qed.

(** A copy loop into the capture buffer is told that every
    chunk was written in full, whatever its size, so it never stops on a short
    write; what is kept is exactly the first [limit] bytes of the whole output,
    and the buffer says truncated exactly when a byte was dropped. *)
Theorem capped_exec_output (limit : nat) (chunks : list string) :
  let '(ns, c) := write_all chunks (mkCapped "" (Z.of_nat limit) false) in
  ns = len <$> chunks ∧
  cb_buf c = str_take limit (str_concat chunks) ∧
  (len (cb_buf c) ≤ Z.of_nat limit)%Z ∧
  (cb_truncated c = true ↔ (Z.of_nat limit < len (str_concat chunks))%Z).
Proof.
  pose proof (write_all_spec chunks (mkCapped "" (Z.of_nat limit) false)) as H.
  destruct (write_all _ _) as [ns c]. cbn [cb_buf cb_limit cb_truncated fst snd orb] in H.
  destruct H as (H1 & H2 & H3); [change (len "") with 0%Z; lia|]. rewrite app_nil_l_str, Nat2Z.id in H2.
  rewrite H2, H3. split_and!; [done|done|unfold len; rewrite str_take_length; lia|].
  rewrite bool_decide_eq_true. change (len "") with 0%Z. by rewrite Z.add_0_l.
Qed.
