(* ===== verification/Stores.v ===== *)
(** * The repositories as interfaces

    [InstanceStore] and [ClusterStore] are the operations of
    [instance.Repository] and [cluster.Repository] that the orchestration code
    calls through its small Go interfaces ([provision.store], [reconcile.Store],
    [failover.Clusters], [failover.Instances], the stores of [clusterctl]); each of
    those is a part of one of the two.  [StoreLaws] is what the callers may rely
    on, over the view [rows] of the instance table. *)

From stdpp Require Import gmap.
From S2P Require Import Prelude GoStrings Apperr GoMonad PgConfig Instances.

(** ** Clusters: [internal/cluster/cluster.go] *)

Definition ClusterProvisioning : string := "provisioning".
Definition ClusterRunning : string := "running".
Definition ClusterDegraded : string := "degraded".
Definition ClusterError : string := "error".
Definition ClusterDestroying : string := "destroying".

Record Cluster := mkCluster {
  cl_ID : string;
  cl_Name : string;
  cl_Status : string;
  cl_PrimaryInstanceID : string;
  cl_RouterContainerID : string;
  cl_RouterPort : Z;
  cl_LastError : string;
  cl_PoolMode : string;
  cl_CreatedAt : Z;
  cl_UpdatedAt : Z;
}.

Record NewCluster := mkNewCluster {
  nc_Name : string;
  nc_PoolMode : string;
}.

(** [NewCluster.Validate]; its name pattern is the one of instances. *)
Definition NewCluster_Validate (n : NewCluster) : result unit :=
  if negb (nameRe (nc_Name n)) then
    Err (New KindInvalid "cluster: name must match [a-z][a-z0-9-]{1,38}")
  else if bool_decide (nc_PoolMode n ≠ "") && bool_decide (nc_PoolMode n ≠ "transaction") &&
          bool_decide (nc_PoolMode n ≠ "session") then
    Err (New KindInvalid "cluster: pool_mode must be transaction or session")
  else Ok tt.

Definition cl_set_Status (st err : string) (c : Cluster) : Cluster :=
  mkCluster (cl_ID c) (cl_Name c) st (cl_PrimaryInstanceID c) (cl_RouterContainerID c)
    (cl_RouterPort c) err (cl_PoolMode c) (cl_CreatedAt c) (cl_UpdatedAt c).
Definition cl_set_Primary (p : string) (c : Cluster) : Cluster :=
  mkCluster (cl_ID c) (cl_Name c) (cl_Status c) p (cl_RouterContainerID c)
    (cl_RouterPort c) (cl_LastError c) (cl_PoolMode c) (cl_CreatedAt c) (cl_UpdatedAt c).
Definition cl_set_Router (cid : string) (port : Z) (c : Cluster) : Cluster :=
  mkCluster (cl_ID c) (cl_Name c) (cl_Status c) (cl_PrimaryInstanceID c) cid port
    (cl_LastError c) (cl_PoolMode c) (cl_CreatedAt c) (cl_UpdatedAt c).
Definition cl_set_UpdatedAt (t : Z) (c : Cluster) : Cluster :=
  mkCluster (cl_ID c) (cl_Name c) (cl_Status c) (cl_PrimaryInstanceID c)
    (cl_RouterContainerID c) (cl_RouterPort c) (cl_LastError c) (cl_PoolMode c)
    (cl_CreatedAt c) t.

(** ** Interfaces *)

Class InstanceStore (D : Type) := {
  repo_Create : Context → NewInstance → M D (result Inst);
  repo_Get : Context → string → M D (result Inst);
  repo_GetByName : Context → string → M D (result Inst);
  repo_List : Context → M D (result (list Inst));
  repo_ListByCluster : Context → string → M D (result (list Inst));
  repo_Password : Context → string → M D (result string);
  repo_SetRuntime : Context → string → string → Z → M D (result unit);
  repo_SetDataVolume : Context → string → string → M D (result unit);
  repo_SetStatus : Context → string → string → string → M D (result unit);
  repo_SetPublic : Context → string → bool → M D (result unit);
  repo_SetEncrypted : Context → string → bool → M D (result unit);
  repo_SetRole : Context → string → string → M D (result unit);
  repo_Delete : Context → string → M D (result unit);
}.

Class ClusterStore (D : Type) := {
  clusters_Create : Context → NewCluster → M D (result Cluster);
  clusters_Get : Context → string → M D (result Cluster);
  clusters_List : Context → M D (result (list Cluster));
  clusters_SetPrimary : Context → string → string → M D (result unit);
  clusters_SetRouter : Context → string → string → Z → M D (result unit);
  clusters_SetStatus : Context → string → string → string → M D (result unit);
  clusters_Delete : Context → string → M D (result unit);
}.

(** ** The contract *)

(** [m] writes the row [id] with [f] and stamps it, or fails and writes nothing;
    it succeeds only on a row that exists. *)
Definition updates {D} (rows : D → gmap string Inst) (id : string) (f : Inst → Inst)
    (m : M D (result unit)) : Prop :=
  ∀ s, wp m (λ r s',
    match r with
    | Ok _ => is_Some (rows s !! id) ∧
              ∃ t, rows s' = alter (λ i, inst_set_UpdatedAt t (f i)) id (rows s)
    | Err _ => rows s' = rows s
    end) s.

Class StoreLaws (D : Type) `{InstanceStore D} := {
  rows : D → gmap string Inst;
  repo_Get_law ctx id s :
    wp (repo_Get ctx id) (λ r s', rows s' = rows s ∧
      match r with Ok i => rows s !! id = Some i ∧ inst_ID i = id | Err _ => True end) s;
  repo_Password_law ctx id s : wp (repo_Password ctx id) (λ _ s', rows s' = rows s) s;
  repo_List_law ctx s :
    wp (repo_List ctx) (λ r s', rows s' = rows s ∧
      match r with
      | Ok l => NoDup (inst_ID <$> l) ∧ ∀ i, i ∈ l ↔ rows s !! inst_ID i = Some i
      | Err _ => True
      end) s;
  repo_SetRuntime_law ctx id cid port :
    updates rows id (inst_set_Runtime cid port) (repo_SetRuntime ctx id cid port);
  repo_SetDataVolume_law ctx id v :
    updates rows id (inst_set_DataVolume v) (repo_SetDataVolume ctx id v);
  repo_SetStatus_law ctx id st err :
    updates rows id (inst_set_Status st err) (repo_SetStatus ctx id st err);
  repo_SetPublic_law ctx id b : updates rows id (inst_set_Public b) (repo_SetPublic ctx id b);
  repo_SetEncrypted_law ctx id b :
    updates rows id (inst_set_Encrypted b) (repo_SetEncrypted ctx id b);
  repo_SetRole_law ctx id role : updates rows id (inst_set_Role role) (repo_SetRole ctx id role);
  repo_Delete_law ctx id s :
    wp (repo_Delete ctx id) (λ r s',
      match r with
      | Ok _ => is_Some (rows s !! id) ∧ rows s' = delete id (rows s)
      | Err _ => rows s' = rows s
      end) s;
}.

(** ** Rules *)

Section rules.
Context {D : Type} {ST : InstanceStore D} {SL : StoreLaws D}.

(** An ignored update: the row is written, or nothing is. *)
Lemma wp_update id f (m : M D (result unit)) (Q : result unit → D → Prop) s :
  updates rows id f m →
  (∀ t s', is_Some (rows s !! id) →
     rows s' = alter (λ i, inst_set_UpdatedAt t (f i)) id (rows s) → Q (Ok tt) s') →
  (∀ e s', rows s' = rows s → Q (Err e) s') →
  wp m Q s.
Proof.
  intros Hu H1 H2. eapply wp_mono; [apply Hu|].
  intros [[]|e] s' Hr; [destruct Hr as [Hs [t Ht]]; by eapply H1|by apply H2].
Qed.

Lemma wp_repo_Get ctx id (Q : result Inst → D → Prop) s :
  (∀ i s', rows s !! id = Some i → inst_ID i = id → rows s' = rows s → Q (Ok i) s') →
  (∀ e s', rows s' = rows s → Q (Err e) s') →
  wp (repo_Get ctx id) Q s.
Proof.
  intros H1 H2. eapply wp_mono; [apply repo_Get_law|].
  intros [i|e] s' [Hr Hi]; [destruct Hi; by apply H1|by apply H2].
Qed.
End rules.

#[export] Hint Resolve repo_SetRuntime_law repo_SetDataVolume_law repo_SetStatus_law
  repo_SetPublic_law repo_SetEncrypted_law repo_SetRole_law : wp.

Lemma lookup_alter_touch (rows : gmap string Inst) (f : Inst → Inst) id :
  is_Some (rows !! id) → is_Some (alter f id rows !! id).
Proof. intros [i Hi]. rewrite lookup_alter_eq, Hi. by eexists. Qed.
