(* ===== verification/MetaDB.v ===== *)
(** * The meta database: [internal/instance/repo.go], [internal/cluster/repo.go]

    The tables [instances] and [clusters] of the migrations as finite maps, with
    their constraints (unique names, status and role checks, the partial unique
    index [one_primary_per_cluster], the foreign keys with their delete actions),
    and the operations of the two repositories as single statements.  Any
    statement may fail: the environment decides, statement by statement, and
    also gives the times of [now()] and the ids of [gen_random_uuid()].  The codec
    of the password column, which seals with a random key, is an argument. *)

From stdpp Require Import gmap sorting.
From S2P Require Import Prelude GoStrings Apperr GoMonad PgConfig Instances Stores.

(** ** State *)

(** What is outside the database, by statement number. *)
Record Env := mkEnv {
  env_fault : Z → option error;
  env_uuid : Z → string;
  env_now : Z → Z;
}.

(** A row of [instances] with its [superuser_secret]. *)
Notation Row := (Inst * string)%type.

Record DB := mkDB {
  db_env : Env;
  db_qn : Z;
  db_instances : gmap string Row;
  db_clusters : gmap string Cluster;
}.

Definition db_next (db : DB) : DB :=
  mkDB (db_env db) (db_qn db + 1) (db_instances db) (db_clusters db).
Definition db_set_instances (tbl : gmap string Row) (db : DB) : DB :=
  mkDB (db_env db) (db_qn db) tbl (db_clusters db).
Definition db_set_clusters (cs : gmap string Cluster) (db : DB) : DB :=
  mkDB (db_env db) (db_qn db) (db_instances db) cs.
Definition db_now (db : DB) : Z := env_now (db_env db) (db_qn db).
Definition db_uuid (db : DB) : string := env_uuid (db_env db) (db_qn db).

(** A [*pgconn.PgError], by its SQLSTATE. *)
Definition pgError (code : string) : error := PlainError ("SQLSTATE " +:+ code) None.
Definition uniqueViolation : error := pgError "23505".
Definition foreignKeyViolation : error := pgError "23503".
Definition checkViolation : error := pgError "23514".
Definition is_unique (e : error) : bool :=
  match e with PlainError msg None => bool_decide (msg = "SQLSTATE 23505") | _ => false end.

(** ** Constraints of the schema *)

Definition instance_statuses : list string :=
  ["provisioning"; "running"; "stopped"; "error"; "destroying"; "restoring"].
Definition instance_roles : list string := ["standalone"; "primary"; "replica"].
Definition cluster_statuses : list string :=
  ["provisioning"; "running"; "degraded"; "error"; "destroying"].

(** The row is the primary of a cluster: what [one_primary_per_cluster] indexes. *)
Definition primary_of (i : Inst) (cid : string) : Prop :=
  inst_Role i = RolePrimary ∧ inst_ClusterID i = cid ∧ cid ≠ "".
#[export] Instance primary_of_dec i cid : Decision (primary_of i cid).
Proof. unfold primary_of. apply _. Defined.

(** The error a new version [i] of a row runs into, against the other rows. *)
Definition row_error (db : DB) (i : Inst) : option error :=
  let others P := map_Forall (λ id (r : Row), id = inst_ID i ∨ P r.1) (db_instances db) in
  if negb (bool_decide (inst_Status i ∈ instance_statuses)) ||
     negb (bool_decide (inst_Role i ∈ instance_roles)) ||
     negb (RepoType_Valid (inst_RepoType i)) then Some checkViolation
  else if negb (bool_decide (others (λ j, inst_Name j ≠ inst_Name i))) then Some uniqueViolation
  else if bool_decide (primary_of i (inst_ClusterID i)) &&
          negb (bool_decide (others (λ j, ¬ primary_of j (inst_ClusterID i))))
       then Some uniqueViolation
  else if bool_decide (inst_ClusterID i ≠ "") &&
          bool_decide (db_clusters db !! inst_ClusterID i = None) then Some foreignKeyViolation
  else None.

Definition cluster_error (db : DB) (c : Cluster) : option error :=
  if negb (bool_decide (cl_Status c ∈ cluster_statuses)) then Some checkViolation
  else if negb (bool_decide (map_Forall (λ id c', id = cl_ID c ∨ cl_Name c' ≠ cl_Name c)
                               (db_clusters db))) then Some uniqueViolation
  else if bool_decide (cl_PrimaryInstanceID c ≠ "") &&
          bool_decide (db_instances db !! cl_PrimaryInstanceID c = None)
       then Some foreignKeyViolation
  else None.

Definition put_row (r : Row) (db : DB) : DB :=
  db_set_instances (<[inst_ID r.1 := r]> (db_instances db)) db.
Definition put_cluster (c : Cluster) (db : DB) : DB :=
  db_set_clusters (<[cl_ID c := c]> (db_clusters db)) db.

(** [ON DELETE SET NULL] on [clusters.primary_instance_id]. *)
Definition null_primary (gone : string → Prop) `{∀ id, Decision (gone id)} (c : Cluster) : Cluster :=
  if bool_decide (gone (cl_PrimaryInstanceID c)) then cl_set_Primary "" c else c.

(** ** Statements *)

(** Run one statement: the environment may fail it, and then nothing changes. *)
Definition statement {A} (body : DB → result (A * DB)) : M DB (result A) := λ db0,
  let db := db_next db0 in
  match env_fault (db_env db) (db_qn db) with
  | Some e => (Err e, db)
  | None => match body db with Ok (a, db') => (Ok a, db') | Err e => (Err e, db) end
  end.

(** [Repository.exec] of either package: [upd] says how many rows the statement
    affects. *)
Definition db_exec (pkg : string) (upd : DB → result (Z * DB)) : M DB (result unit) :=
  rows <-? statement upd orelse (λ e, fail (Wrap KindInternal (pkg +:+ ": exec") e));;
  if bool_decide (rows = 0)%Z then fail (New KindNotFound (pkg +:+ ": not found")) else done_ok.

(** [queryOne] and [one]. *)
Definition db_queryOne {A} (pkg : string) (sel : DB → option A) : M DB (result A) :=
  o <-? statement (λ db, Ok (sel db, db)) orelse (λ e, fail (Wrap KindInternal (pkg +:+ ": query") e));;
  match o with Some a => ok a | None => fail (New KindNotFound (pkg +:+ ": not found")) end.

(** [queryMany] and [List]. *)
Definition db_queryMany {A} (msg : string) (sel : DB → list A) : M DB (result (list A)) :=
  l <-? statement (λ db, Ok (sel db, db)) orelse (λ e, fail (Wrap KindInternal msg e));; ok l.

(** [UPDATE ... SET ..., updated_at = now() WHERE id = ...]. *)
Definition update_instance (id : string) (f : Inst → Inst) (db : DB) : result (Z * DB) :=
  match db_instances db !! id with
  | None => Ok (0%Z, db)
  | Some (i, sec) =>
      let i' := inst_set_UpdatedAt (db_now db) (f i) in
      match row_error db i' with
      | Some e => Err e
      | None => Ok (1%Z, put_row (i', sec) db)
      end
  end.

Definition update_cluster (id : string) (f : Cluster → Cluster) (db : DB) : result (Z * DB) :=
  match db_clusters db !! id with
  | None => Ok (0%Z, db)
  | Some c =>
      let c' := cl_set_UpdatedAt (db_now db) (f c) in
      match cluster_error db c' with
      | Some e => Err e
      | None => Ok (1%Z, put_cluster c' db)
      end
  end.

Definition delete_instance (id : string) (db : DB) : result (Z * DB) :=
  match db_instances db !! id with
  | None => Ok (0%Z, db)
  | Some _ =>
      Ok (1%Z, db_set_clusters (null_primary (λ p, p = id) <$> db_clusters db)
             (db_set_instances (delete id (db_instances db)) db))
  end.

(** [ON DELETE CASCADE] from a cluster to its instances. *)
Definition delete_cluster (id : string) (db : DB) : result (Z * DB) :=
  match db_clusters db !! id with
  | None => Ok (0%Z, db)
  | Some _ =>
      let kept := filter (λ kr : string * Row, inst_ClusterID kr.2.1 ≠ id ∨ id = "") (db_instances db) in
      Ok (1%Z, db_set_clusters
             (null_primary (λ p, kept !! p = None) <$> delete id (db_clusters db))
             (db_set_instances kept db))
  end.

Definition insert_row (mk : DB → Row) (db : DB) : result (Inst * DB) :=
  let r := mk db in
  match db_instances db !! inst_ID r.1, row_error db r.1 with
  | Some _, _ => Err uniqueViolation
  | None, Some e => Err e
  | None, None => Ok (r.1, put_row r db)
  end.

Definition insert_cluster (mk : DB → Cluster) (db : DB) : result (Cluster * DB) :=
  let c := mk db in
  match db_clusters db !! cl_ID c, cluster_error db c with
  | Some _, _ => Err uniqueViolation
  | None, Some e => Err e
  | None, None => Ok (c, put_cluster c db)
  end.

(** [ORDER BY created_at DESC, id DESC], and primary first, oldest first. *)
Definition newest_first (a b : Inst) : Prop :=
  (inst_CreatedAt b < inst_CreatedAt a)%Z ∨
  (inst_CreatedAt b = inst_CreatedAt a ∧ String.le (inst_ID b) (inst_ID a)).
#[export] Instance newest_first_dec : RelDecision newest_first.
Proof. intros a b. unfold newest_first. apply _. Defined.

Definition is_primary (i : Inst) : bool := bool_decide (inst_Role i = RolePrimary).
Definition primary_first (a b : Inst) : Prop :=
  if is_primary a then is_primary b = false ∨ (inst_CreatedAt a ≤ inst_CreatedAt b)%Z
  else is_primary b = false ∧ (inst_CreatedAt a ≤ inst_CreatedAt b)%Z.
#[export] Instance primary_first_dec : RelDecision primary_first.
Proof. intros a b. unfold primary_first. destruct (is_primary a); apply _. Defined.

Definition cl_newest_first (a b : Cluster) : Prop :=
  (cl_CreatedAt b < cl_CreatedAt a)%Z ∨
  (cl_CreatedAt b = cl_CreatedAt a ∧ String.le (cl_ID b) (cl_ID a)).
#[export] Instance cl_newest_first_dec : RelDecision cl_newest_first.
Proof. intros a b. unfold cl_newest_first. apply _. Defined.

Definition all_rows (db : DB) : list Inst := (λ kr, kr.2.1) <$> map_to_list (db_instances db).

(** ** The repositories *)

(** Sealing a password for storage with the randomness of that statement, and
    opening what is stored; their errors as [Create] and [Password] wrap them
    ([Secrets.seal_with] and [Secrets.open_with] are the ones of the program). *)
Section repositories.
Context (seal_secret : Z → string → result string).
Context (open_secret : string → result string).

(** [instance.Repository.Create]. *)
Definition Repository_Create (n : NewInstance) : M DB (result Inst) :=
  _ <-? lift_r (NewInstance_Validate n) ;;
  let n := applyDefaults n in
  λ db,
  match seal_secret (db_qn db) (ni_Password n) with
  | Err e => (Err e, db)
  | Ok blob =>
      (i <-? statement (insert_row (λ db,
         (mkInst (db_uuid db) (ni_Name n) StatusProvisioning (ni_Image n) (ni_PGVersion n) "" 0 ""
            (ni_RepoType n) (StanzaFor (ni_Name n)) (ni_Superuser n) "" (ni_ClusterID n)
            (ni_Role n) (ni_Parameters n) (ni_Extensions n) false false
            (db_now db) (db_now db), blob)))
       orelse (λ e,
         if is_unique e then fail (Wrap KindConflict "instance: name already exists" e)
         else fail (Wrap KindInternal "instance: create" e)) ;;
       ok i) db
  end.

Definition Repository_Get (id : string) : M DB (result Inst) :=
  db_queryOne "instance" (λ db, fst <$> db_instances db !! id).
Definition Repository_GetByName (name : string) : M DB (result Inst) :=
  db_queryOne "instance" (λ db, head (filter (λ i, inst_Name i = name) (all_rows db))).
Definition Repository_List : M DB (result (list Inst)) :=
  db_queryMany "instance: query" (λ db, merge_sort newest_first (all_rows db)).
Definition Repository_ListByCluster (clusterID : string) : M DB (result (list Inst)) :=
  db_queryMany "instance: query" (λ db,
    merge_sort primary_first
      (filter (λ i, inst_ClusterID i = clusterID ∧ clusterID ≠ "") (all_rows db))).

Definition Repository_SetRole (id role : string) : M DB (result unit) :=
  db_exec "instance" (update_instance id (inst_set_Role role)).
Definition Repository_SetPublic (id : string) (b : bool) : M DB (result unit) :=
  db_exec "instance" (update_instance id (inst_set_Public b)).
Definition Repository_SetEncrypted (id : string) (b : bool) : M DB (result unit) :=
  db_exec "instance" (update_instance id (inst_set_Encrypted b)).
Definition Repository_SetStatus (id status lastErr : string) : M DB (result unit) :=
  db_exec "instance" (update_instance id (inst_set_Status status lastErr)).
Definition Repository_SetRuntime (id containerID : string) (hostPort : Z) : M DB (result unit) :=
  db_exec "instance" (update_instance id (inst_set_Runtime containerID hostPort)).
Definition Repository_SetDataVolume (id volume : string) : M DB (result unit) :=
  db_exec "instance" (update_instance id (inst_set_DataVolume volume)).
Definition Repository_Delete (id : string) : M DB (result unit) :=
  db_exec "instance" (delete_instance id).

(** [Password]. *)
Definition Repository_Password (id : string) : M DB (result string) :=
  o <-? statement (λ db, Ok (snd <$> db_instances db !! id, db))
    orelse (λ e, fail (Wrap KindInternal "instance: read secret" e));;
  match o with
  | None => fail (New KindNotFound "instance: not found")
  | Some blob =>
      match open_secret blob with
      | Err e => fail e
      | Ok p => ok p
      end
  end.

(** [cluster.Repository]. *)
Definition Clusters_Create (n : NewCluster) : M DB (result Cluster) :=
  _ <-? lift_r (NewCluster_Validate n) ;;
  let poolMode := if bool_decide (nc_PoolMode n = "") then "transaction" else nc_PoolMode n in
  c <-? statement (insert_cluster (λ db,
      mkCluster (db_uuid db) (nc_Name n) ClusterProvisioning "" "" 0 "" poolMode
        (db_now db) (db_now db)))
    orelse (λ e,
      if is_unique e then fail (Wrap KindConflict "cluster: name already exists" e)
      else fail (Wrap KindInternal "cluster: create" e)) ;;
  ok c.
Definition Clusters_Get (id : string) : M DB (result Cluster) :=
  db_queryOne "cluster" (λ db, db_clusters db !! id).
Definition Clusters_List : M DB (result (list Cluster)) :=
  db_queryMany "cluster: list" (λ db,
    merge_sort cl_newest_first (snd <$> map_to_list (db_clusters db))).
Definition Clusters_SetPrimary (id primary : string) : M DB (result unit) :=
  db_exec "cluster" (update_cluster id (cl_set_Primary primary)).
Definition Clusters_SetRouter (id cid : string) (port : Z) : M DB (result unit) :=
  db_exec "cluster" (update_cluster id (cl_set_Router cid port)).
Definition Clusters_SetStatus (id status lastErr : string) : M DB (result unit) :=
  db_exec "cluster" (update_cluster id (cl_set_Status status lastErr)).
Definition Clusters_Delete (id : string) : M DB (result unit) :=
  db_exec "cluster" (delete_cluster id).
End repositories.

(** ** Well-formed databases *)

(** What the constraints of the schema keep true of the tables: rows are stored
    under their id, names are unique, statuses and roles are known, a cluster
    has at most one primary, and the foreign keys point at rows. *)
Record db_wf (db : DB) : Prop := {
  wf_id : ∀ id r, db_instances db !! id = Some r → inst_ID r.1 = id;
  wf_checks : ∀ id r, db_instances db !! id = Some r →
    inst_Status r.1 ∈ instance_statuses ∧ inst_Role r.1 ∈ instance_roles;
  wf_name : ∀ id1 id2 r1 r2,
    db_instances db !! id1 = Some r1 → db_instances db !! id2 = Some r2 →
    inst_Name r1.1 = inst_Name r2.1 → id1 = id2;
  wf_primary : ∀ cid id1 id2 r1 r2,
    db_instances db !! id1 = Some r1 → db_instances db !! id2 = Some r2 →
    primary_of r1.1 cid → primary_of r2.1 cid → id1 = id2;
  wf_cluster : ∀ id r, db_instances db !! id = Some r →
    inst_ClusterID r.1 = "" ∨ is_Some (db_clusters db !! inst_ClusterID r.1);
  wf_cid : ∀ id c, db_clusters db !! id = Some c → cl_ID c = id;
  wf_cname : ∀ id1 id2 c1 c2,
    db_clusters db !! id1 = Some c1 → db_clusters db !! id2 = Some c2 →
    cl_Name c1 = cl_Name c2 → id1 = id2;
  wf_cprimary : ∀ id c, db_clusters db !! id = Some c →
    cl_PrimaryInstanceID c = "" ∨ is_Some (db_instances db !! cl_PrimaryInstanceID c);
}.

Definition emptyDB (e : Env) : DB := mkDB e 0 ∅ ∅.

(** Every way the program writes the database. *)
Inductive DBOp :=
  | OpCreate (n : NewInstance)
  | OpSetRole (id role : string)
  | OpSetPublic (id : string) (b : bool)
  | OpSetEncrypted (id : string) (b : bool)
  | OpSetStatus (id status err : string)
  | OpSetRuntime (id cid : string) (port : Z)
  | OpSetDataVolume (id v : string)
  | OpDelete (id : string)
  | OpClusterCreate (n : NewCluster)
  | OpClusterSetPrimary (id p : string)
  | OpClusterSetRouter (id cid : string) (port : Z)
  | OpClusterSetStatus (id status err : string)
  | OpClusterDelete (id : string).

Definition run_op (seal : Z → string → result string) (op : DBOp) : M DB unit :=
  match op with
  | OpCreate n => discard (Repository_Create seal n)
  | OpSetRole id role => discard (Repository_SetRole id role)
  | OpSetPublic id b => discard (Repository_SetPublic id b)
  | OpSetEncrypted id b => discard (Repository_SetEncrypted id b)
  | OpSetStatus id st err => discard (Repository_SetStatus id st err)
  | OpSetRuntime id cid port => discard (Repository_SetRuntime id cid port)
  | OpSetDataVolume id v => discard (Repository_SetDataVolume id v)
  | OpDelete id => discard (Repository_Delete id)
  | OpClusterCreate n => discard (Clusters_Create n)
  | OpClusterSetPrimary id p => discard (Clusters_SetPrimary id p)
  | OpClusterSetRouter id cid port => discard (Clusters_SetRouter id cid port)
  | OpClusterSetStatus id st err => discard (Clusters_SetStatus id st err)
  | OpClusterDelete id => discard (Clusters_Delete id)
  end.

Definition run_ops (seal : Z → string → result string) (ops : list DBOp) (db : DB) : DB :=
  foldl (λ db op, (run_op seal op db).2) db ops.

(** ** Lemmas *)

Lemma row_error_None db i :
  row_error db i = None →
  (inst_Status i ∈ instance_statuses ∧ inst_Role i ∈ instance_roles) ∧
  (∀ id r, db_instances db !! id = Some r → id = inst_ID i ∨ inst_Name r.1 ≠ inst_Name i) ∧
  (∀ cid, primary_of i cid →
   ∀ id r, db_instances db !! id = Some r → id = inst_ID i ∨ ¬ primary_of r.1 cid) ∧
  (inst_ClusterID i = "" ∨ is_Some (db_clusters db !! inst_ClusterID i)).
Proof.
  unfold row_error.
  destruct (_ || _) eqn:H1; [done|]. rewrite !orb_false_iff, !negb_false_iff, !bool_decide_eq_true in H1.
  destruct (negb _) eqn:H2; [done|]. rewrite negb_false_iff, bool_decide_eq_true in H2.
  if_goal H3; [done|]. if_goal H4; [done|]. intros _.
  split_and!; [naive_solver..|exact H2| |].
  - intros cid Hp. assert (cid = inst_ClusterID i) as -> by (by destruct Hp as (_ & ? & _)).
    rewrite bool_decide_true in H3 by done. cbn in H3.
    by rewrite negb_false_iff, bool_decide_eq_true in H3.
  - destruct (decide (inst_ClusterID i = "")); [by left|right].
    rewrite bool_decide_true in H4 by done. cbn in H4.
    rewrite bool_decide_eq_false in H4. by apply not_eq_None_Some.
Qed.

Lemma cluster_error_None db c :
  cluster_error db c = None →
  (∀ id c', db_clusters db !! id = Some c' → id = cl_ID c ∨ cl_Name c' ≠ cl_Name c) ∧
  (cl_PrimaryInstanceID c = "" ∨ is_Some (db_instances db !! cl_PrimaryInstanceID c)).
Proof.
  unfold cluster_error. if_goal H1; [done|].
  if_goal H2; [done|]. rewrite negb_false_iff, bool_decide_eq_true in H2.
  if_goal H4; [done|]. intros _. split; [exact H2|].
  destruct (decide (cl_PrimaryInstanceID c = "")); [by left|right].
  rewrite bool_decide_true in H4 by done. cbn in H4.
  rewrite bool_decide_eq_false in H4. by apply not_eq_None_Some.
Qed.

Lemma put_row_wf db r :
  db_wf db → row_error db r.1 = None → db_wf (put_row r db).
Proof.
  intros Hwf (H1 & H2 & H3 & H4)%row_error_None. destruct Hwf.
  assert (Hl : ∀ id r', db_instances (put_row r db) !! id = Some r' →
    (id = inst_ID r.1 ∧ r' = r) ∨ (id ≠ inst_ID r.1 ∧ db_instances db !! id = Some r')).
  { intros id r'. cbn. rewrite lookup_insert_Some. naive_solver. }
  split; cbn [db_clusters put_row db_set_instances]; try done.
  - intros id r' [[-> ->]|[_ Hr]]%Hl; [done|by eapply wf_id0].
  - intros id r' [[-> ->]|[_ Hr]]%Hl; [done|by eapply wf_checks0].
  - intros id1 id2 r1 r2 [[-> ->]|[Hn1 Hr1]]%Hl [[-> ->]|[Hn2 Hr2]]%Hl Hnm;
      [done|by destruct (H2 id2 r2 Hr2)|by destruct (H2 id1 r1 Hr1)|by eapply wf_name0].
  - intros cid id1 id2 r1 r2 [[-> ->]|[Hn1 Hr1]]%Hl [[-> ->]|[Hn2 Hr2]]%Hl Hp1 Hp2;
      [done|by destruct (H3 cid Hp1 id2 r2 Hr2)|by destruct (H3 cid Hp2 id1 r1 Hr1)|
       by eapply wf_primary0].
  - intros id r' [[-> ->]|[_ Hr]]%Hl; [done|by eapply wf_cluster0].
  - intros id c Hc. destruct (wf_cprimary0 id c Hc) as [?|Hs]; [by left|right].
    cbn. apply lookup_insert_is_Some. destruct (decide (inst_ID r.1 = cl_PrimaryInstanceID c)); auto.
Qed.

Lemma put_cluster_wf db c :
  db_wf db → cluster_error db c = None → db_wf (put_cluster c db).
Proof.
  intros Hwf (H2 & H4)%cluster_error_None. destruct Hwf.
  assert (Hl : ∀ id c', db_clusters (put_cluster c db) !! id = Some c' →
    (id = cl_ID c ∧ c' = c) ∨ (id ≠ cl_ID c ∧ db_clusters db !! id = Some c')).
  { intros id r'. cbn. rewrite lookup_insert_Some. naive_solver. }
  split; cbn [db_instances put_cluster db_set_clusters]; try done.
  - intros id r Hr. destruct (wf_cluster0 id r Hr) as [?|Hs]; [by left|right].
    cbn. apply lookup_insert_is_Some. destruct (decide (cl_ID c = inst_ClusterID r.1)); auto.
  - intros id c' [[-> ->]|[_ Hr]]%Hl; [done|by eapply wf_cid0].
  - intros id1 id2 r1 r2 [[-> ->]|[Hn1 Hr1]]%Hl [[-> ->]|[Hn2 Hr2]]%Hl Hnm;
      [done|by destruct (H2 id2 r2 Hr2)|by destruct (H2 id1 r1 Hr1)|by eapply wf_cname0].
  - intros id c' [[-> ->]|[_ Hr]]%Hl; [done|by eapply wf_cprimary0].
Qed.

Lemma db_next_wf db : db_wf db → db_wf (db_next db).
Proof. by intros []. Qed.

(** A statement body that keeps the tables well formed. *)
Definition body_wf {A} (body : DB → result (A * DB)) : Prop :=
  ∀ db a db', db_wf db → body db = Ok (a, db') → db_wf db'.

Lemma statement_wf {A} (body : DB → result (A * DB)) db :
  body_wf body → db_wf db → db_wf (statement body db).2.
Proof.
  intros Hb Hdb. unfold statement. destruct (env_fault _ _); [by apply db_next_wf|].
  destruct (body (db_next db)) as [[a db']|e] eqn:He; [|by apply db_next_wf].
  cbn. eapply Hb; [|done]. by apply db_next_wf.
Qed.

Lemma db_exec_wf pkg upd db : body_wf upd → db_wf db → db_wf (db_exec pkg upd db).2.
Proof.
  intros Hb Hdb. pose proof (statement_wf upd db Hb Hdb) as H.
  unfold db_exec, try_or, bind. destruct (statement upd db) as [[n|e] db']; [|done].
  by case_bool_decide.
Qed.

Lemma update_instance_wf id f : (∀ i, inst_ID (f i) = inst_ID i) → body_wf (update_instance id f).
Proof.
  intros Hf db n db' Hwf. unfold update_instance.
  destruct (db_instances db !! id) as [[i sec]|] eqn:Hi; [|naive_solver].
  destruct (row_error _ _) eqn:He; [done|]. intros [= _ <-]. by apply put_row_wf.
Qed.

Lemma update_cluster_wf id f : (∀ c, cl_ID (f c) = cl_ID c) → body_wf (update_cluster id f).
Proof.
  intros Hf db n db' Hwf. unfold update_cluster.
  destruct (db_clusters db !! id) as [c|] eqn:Hi; [|naive_solver].
  destruct (cluster_error _ _) eqn:He; [done|]. intros [= _ <-]. by apply put_cluster_wf.
Qed.

Lemma null_primary_fields gone `{∀ id, Decision (gone id)} c :
  cl_ID (null_primary gone c) = cl_ID c ∧ cl_Name (null_primary gone c) = cl_Name c ∧
  (cl_PrimaryInstanceID (null_primary gone c) = "" ∨
   (cl_PrimaryInstanceID (null_primary gone c) = cl_PrimaryInstanceID c ∧
    ¬ gone (cl_PrimaryInstanceID c))).
Proof. unfold null_primary. case_bool_decide; naive_solver. Qed.

(** Deleting instances and clusters, with the delete actions of the foreign
    keys. *)
Lemma delete_wf db (rows : gmap string Row) (cs : gmap string Cluster)
    gone `{∀ id, Decision (gone id)} :
  db_wf db → rows ⊆ db_instances db → cs ⊆ db_clusters db →
  (∀ id, gone id ∨ db_instances db !! id = rows !! id) →
  (∀ id r, rows !! id = Some r → inst_ClusterID r.1 = "" ∨ is_Some (cs !! inst_ClusterID r.1)) →
  db_wf (db_set_clusters (null_primary gone <$> cs) (db_set_instances rows db)).
Proof.
  intros [] Hr Hc Hg Hfk.
  assert (Hl : ∀ id c, (null_primary gone <$> cs) !! id = Some c →
    ∃ c0, db_clusters db !! id = Some c0 ∧ c = null_primary gone c0).
  { intros id c. rewrite lookup_fmap, fmap_Some. intros (c0 & H0 & ->). exists c0. split; [|done].
    by eapply lookup_weaken. }
  split; cbn.
  - intros id r ?. eapply wf_id0, lookup_weaken; eauto.
  - intros id r ?. eapply wf_checks0, lookup_weaken; eauto.
  - intros id1 id2 r1 r2 H1 H2. eapply wf_name0; eapply lookup_weaken; eauto.
  - intros cid id1 id2 r1 r2 H1 H2. eapply wf_primary0; eapply lookup_weaken; eauto.
  - intros id r Hid. destruct (Hfk id r Hid); [by left|right]. rewrite lookup_fmap. by apply fmap_is_Some.
  - intros id c (c0 & H0 & ->)%Hl. destruct (null_primary_fields gone c0) as (-> & _). eauto.
  - intros id1 id2 c1 c2 (d1 & H1 & ->)%Hl (d2 & H2 & ->)%Hl.
    destruct (null_primary_fields gone d1) as (_ & -> & _).
    destruct (null_primary_fields gone d2) as (_ & -> & _). eauto.
  - intros id c (c0 & H0 & ->)%Hl.
    destruct (null_primary_fields gone c0) as (_ & _ & [?|[-> Hn]]); [by left|].
    destruct (wf_cprimary0 id c0 H0) as [?|Hs]; [by left|right].
    destruct (Hg (cl_PrimaryInstanceID c0)) as [?|<-]; done.
Qed.

Lemma delete_instance_wf id : body_wf (delete_instance id).
Proof.
  intros db n db' Hwf. unfold delete_instance.
  destruct (db_instances db !! id) as [r|] eqn:Hi; [|naive_solver]. intros [= _ <-].
  apply delete_wf; [done|apply delete_subseteq|done| |].
  - intros id'. destruct (decide (id' = id)); [by left|right]. by rewrite lookup_delete_ne.
  - intros id' r' [_ Hr']%lookup_delete_Some. by eapply wf_cluster.
Qed.

Lemma delete_cluster_wf id : body_wf (delete_cluster id).
Proof.
  intros db n db' Hwf. unfold delete_cluster.
  destruct (db_clusters db !! id) as [c|] eqn:Hi; [|naive_solver]. intros [= _ <-].
  set (kept := filter _ _).
  apply (delete_wf db kept _ (λ p, kept !! p = None));
    [done|apply map_filter_subseteq|apply delete_subseteq| |].
  - intros id'. destruct (kept !! id') as [r'|] eqn:Hk; [right|by left].
    by apply map_lookup_filter_Some in Hk as [-> _].
  - intros id' r' [Hr' Hk]%map_lookup_filter_Some. cbn in Hk.
    destruct (wf_cluster _ Hwf id' r' Hr') as [?|Hs]; [by left|].
    destruct (decide (inst_ClusterID r'.1 = "")); [by left|right].
    rewrite lookup_delete_ne; [done|]. naive_solver.
Qed.

Lemma insert_row_wf mk : body_wf (insert_row mk).
Proof.
  intros db i db' Hwf. unfold insert_row.
  destruct (db_instances db !! _); [done|]. destruct (row_error _ _) eqn:He; [done|].
  intros [= _ <-]. by apply put_row_wf.
Qed.

Lemma insert_cluster_wf mk : body_wf (insert_cluster mk).
Proof.
  intros db i db' Hwf. unfold insert_cluster.
  destruct (db_clusters db !! _); [done|]. destruct (cluster_error _ _) eqn:He; [done|].
  intros [= _ <-]. by apply put_cluster_wf.
Qed.

Lemma Repository_Create_wf seal n db : db_wf db → db_wf (Repository_Create seal n db).2.
Proof.
  intros Hwf. unfold Repository_Create, try, try_or, bind, lift_r, ret.
  destruct (NewInstance_Validate n); [|done]. destruct (seal _ _) as [blob|]; [|done].
  match goal with |- context [statement (insert_row ?mk) db] =>
    pose proof (statement_wf _ db (insert_row_wf mk) Hwf) as H;
    destruct (statement (insert_row mk) db) as [[i|e] db'] end; [done|].
  by destruct (is_unique e).
Qed.

Lemma Clusters_Create_wf n db : db_wf db → db_wf (Clusters_Create n db).2.
Proof.
  intros Hwf. unfold Clusters_Create, try, try_or, bind, lift_r, ret.
  destruct (NewCluster_Validate n); [|done].
  match goal with |- context [statement (insert_cluster ?mk) db] =>
    pose proof (statement_wf _ db (insert_cluster_wf mk) Hwf) as H;
    destruct (statement (insert_cluster mk) db) as [[i|e] db'] end; [done|].
  by destruct (is_unique e).
Qed.

Lemma run_op_wf seal op db : db_wf db → db_wf (run_op seal op db).2.
Proof.
  intros Hwf.
  assert (Hd : ∀ A (m : M DB A), db_wf (m db).2 → db_wf (discard m db).2).
  { intros A m. unfold discard, bind. by destruct (m db). }
  destruct op; apply Hd;
    first [by apply Repository_Create_wf|by apply Clusters_Create_wf|
           apply db_exec_wf; [|done]];
    first [by apply update_instance_wf|by apply update_cluster_wf|
           apply delete_instance_wf|apply delete_cluster_wf].
Qed.

(** ** The repositories keep the contract of the stores *)

Definition DBState : Type := {db : DB | db_wf db}.

Definition keeps_db_wf {A} (m : M DB A) : Prop := ∀ db, db_wf db → db_wf (m db).2.

Definition lift_db {A} (m : M DB A) (Hm : keeps_db_wf m) : M DBState A := λ ds,
  ((m (`ds)).1, exist _ (m (`ds)).2 (Hm (`ds) (proj2_sig ds))).

Lemma db_exec_keeps pkg upd : body_wf upd → keeps_db_wf (db_exec pkg upd).
Proof. intros Hb db. by apply db_exec_wf. Qed.

Lemma select_wf {A} (sel : DB → A) : body_wf (λ db, Ok (sel db, db)).
Proof. intros db a db' Hwf [= _ <-]. done. Qed.

Lemma queryOne_keeps {A} pkg (sel : DB → option A) : keeps_db_wf (db_queryOne pkg sel).
Proof.
  intros db Hwf. pose proof (statement_wf _ db (select_wf sel) Hwf) as H.
  unfold db_queryOne, try_or, bind. destruct (statement _ db) as [[[a|]|e] db']; done.
Qed.

Lemma queryMany_keeps {A} msg (sel : DB → list A) : keeps_db_wf (db_queryMany msg sel).
Proof.
  intros db Hwf. pose proof (statement_wf _ db (select_wf sel) Hwf) as H.
  unfold db_queryMany, try_or, bind. destruct (statement _ db) as [[a|e] db']; done.
Qed.

Lemma Password_keeps opn id : keeps_db_wf (Repository_Password opn id).
Proof.
  intros db Hwf.
  pose proof (statement_wf _ db (select_wf (λ db, snd <$> db_instances db !! id)) Hwf) as H.
  unfold Repository_Password, try_or, bind.
  destruct (statement _ db) as [[[a|]|e] db']; [destruct (opn a)|..]; done.
Qed.

Definition update_keeps id f (Hf : ∀ i, inst_ID (f i) = inst_ID i) :
  keeps_db_wf (db_exec "instance" (update_instance id f)) :=
  db_exec_keeps _ _ (update_instance_wf id f Hf).
Definition update_cluster_keeps id f (Hf : ∀ c, cl_ID (f c) = cl_ID c) :
  keeps_db_wf (db_exec "cluster" (update_cluster id f)) :=
  db_exec_keeps _ _ (update_cluster_wf id f Hf).

Section instances.
Context (seal_secret : Z → string → result string).
Context (open_secret : string → result string).

Definition metadb_instances : InstanceStore DBState := {|
  repo_Create _ n := lift_db (Repository_Create seal_secret n) (Repository_Create_wf seal_secret n);
  repo_Get _ id := lift_db (Repository_Get id) (queryOne_keeps _ _);
  repo_GetByName _ n := lift_db (Repository_GetByName n) (queryOne_keeps _ _);
  repo_List _ := lift_db Repository_List (queryMany_keeps _ _);
  repo_ListByCluster _ c := lift_db (Repository_ListByCluster c) (queryMany_keeps _ _);
  repo_Password _ id := lift_db (Repository_Password open_secret id) (Password_keeps _ _);
  repo_SetRuntime _ id cid p :=
    lift_db (Repository_SetRuntime id cid p) (update_keeps id (inst_set_Runtime cid p) (λ _, eq_refl));
  repo_SetDataVolume _ id v :=
    lift_db (Repository_SetDataVolume id v) (update_keeps id (inst_set_DataVolume v) (λ _, eq_refl));
  repo_SetStatus _ id st e :=
    lift_db (Repository_SetStatus id st e) (update_keeps id (inst_set_Status st e) (λ _, eq_refl));
  repo_SetPublic _ id b := lift_db (Repository_SetPublic id b) (update_keeps id (inst_set_Public b) (λ _, eq_refl));
  repo_SetEncrypted _ id b :=
    lift_db (Repository_SetEncrypted id b) (update_keeps id (inst_set_Encrypted b) (λ _, eq_refl));
  repo_SetRole _ id r := lift_db (Repository_SetRole id r) (update_keeps id (inst_set_Role r) (λ _, eq_refl));
  repo_Delete _ id := lift_db (Repository_Delete id) (db_exec_keeps _ _ (delete_instance_wf id));
|}.

Definition metadb_clusters : ClusterStore DBState := {|
  clusters_Create _ n := lift_db (Clusters_Create n) (Clusters_Create_wf n);
  clusters_Get _ id := lift_db (Clusters_Get id) (queryOne_keeps _ _);
  clusters_List _ := lift_db Clusters_List (queryMany_keeps _ _);
  clusters_SetPrimary _ id p :=
    lift_db (Clusters_SetPrimary id p) (update_cluster_keeps id (cl_set_Primary p) (λ _, eq_refl));
  clusters_SetRouter _ id c p :=
    lift_db (Clusters_SetRouter id c p) (update_cluster_keeps id (cl_set_Router c p) (λ _, eq_refl));
  clusters_SetStatus _ id st e :=
    lift_db (Clusters_SetStatus id st e) (update_cluster_keeps id (cl_set_Status st e) (λ _, eq_refl));
  clusters_Delete _ id := lift_db (Clusters_Delete id) (db_exec_keeps _ _ (delete_cluster_wf id));
|}.
End instances.

Definition db_rows (db : DB) : gmap string Inst := fst <$> db_instances db.

Lemma statement_select {A} (sel : DB → A) db :
  db_instances (statement (λ db, Ok (sel db, db)) db).2 = db_instances db ∧
  match (statement (λ db, Ok (sel db, db)) db).1 with
  | Ok a => a = sel (db_next db)
  | Err _ => True
  end.
Proof. unfold statement. destruct (env_fault _ _); done. Qed.

Lemma db_exec_update id f db :
  db_wf db → (∀ i, inst_ID (f i) = inst_ID i) →
  wp (db_exec "instance" (update_instance id f)) (λ r db',
    match r with
    | Ok _ => is_Some (db_rows db !! id) ∧
              ∃ t, db_rows db' = alter (λ i, inst_set_UpdatedAt t (f i)) id (db_rows db)
    | Err _ => db_rows db' = db_rows db
    end) db.
Proof.
  intros Hwf Hf. unfold wp, db_exec, try_or, bind, statement, update_instance.
  destruct (env_fault _ _); [done|]. cbn.
  destruct (db_instances db !! id) as [[i sec]|] eqn:Hi; [|done].
  destruct (row_error _ _) eqn:He; [done|].
  change (bool_decide (1%Z = 0%Z)) with false. unfold db_rows in *. cbn.
  split; [by rewrite lookup_fmap, Hi|]. eexists. rewrite fmap_insert. cbn.
  rewrite Hf, (wf_id db Hwf id _ Hi : inst_ID i = id). apply map_eq. intros j.
  destruct (decide (id = j)) as [<-|Hj].
  - by rewrite lookup_insert_eq, lookup_alter_eq, lookup_fmap, Hi.
  - by rewrite lookup_insert_ne, lookup_alter_ne.
Qed.

Lemma db_exec_delete id db :
  wp (db_exec "instance" (delete_instance id)) (λ r db',
    match r with
    | Ok _ => is_Some (db_rows db !! id) ∧ db_rows db' = delete id (db_rows db)
    | Err _ => db_rows db' = db_rows db
    end) db.
Proof.
  unfold wp, db_exec, try_or, bind, statement, delete_instance.
  destruct (env_fault _ _); [done|]. cbn.
  destruct (db_instances db !! id) as [[i sec]|] eqn:Hi; [|done].
  change (bool_decide (1%Z = 0%Z)) with false. unfold db_rows. cbn.
  rewrite lookup_fmap, Hi, fmap_delete. done.
Qed.

Lemma elem_of_all_rows db i : db_wf db → i ∈ all_rows db ↔ db_rows db !! inst_ID i = Some i.
Proof.
  intros Hwf. unfold all_rows, db_rows. rewrite list_elem_of_fmap, lookup_fmap, fmap_Some. split.
  - intros [[id r] [-> Hr%elem_of_map_to_list]]. cbn. exists r.
    by rewrite (wf_id db Hwf _ _ Hr).
  - intros [r [Hr ->]]. exists (inst_ID r.1, r). by rewrite elem_of_map_to_list.
Qed.

Lemma NoDup_all_rows db : db_wf db → NoDup (inst_ID <$> all_rows db).
Proof.
  intros Hwf. unfold all_rows. rewrite <- list_fmap_compose.
  rewrite (list_fmap_ext _ fst (map_to_list (db_instances db))).
  - apply NoDup_fst_map_to_list.
  - intros k [id r] Hk%list_elem_of_lookup_2%elem_of_map_to_list. by apply (wf_id db Hwf).
Qed.

(** The repositories over the database keep the contract the callers rely on. *)
#[export] Instance metadb_laws seal opn : @StoreLaws DBState (metadb_instances seal opn).
Proof.
  refine (@Build_StoreLaws DBState (metadb_instances seal opn) (λ ds, db_rows (`ds))
    _ _ _ _ _ _ _ _ _ _).
  - intros ctx id [db Hwf]. unfold wp. cbn. unfold Repository_Get, db_queryOne, try_or, bind.
    pose proof (statement_select (λ db, fst <$> db_instances db !! id) db) as [H1 H2].
    destruct (statement _ db) as [[[i|]|e] db']; cbn in *;
      unfold db_rows; rewrite H1; [|done|done].
    split; [done|]. rewrite lookup_fmap. cbn in H2.
    split; [done|]. symmetry in H2. apply fmap_Some in H2 as (r & Hr & ->). by apply (wf_id db Hwf).
  - intros ctx id [db Hwf]. unfold wp. cbn. unfold Repository_Password, try_or, bind.
    pose proof (statement_select (λ db, snd <$> db_instances db !! id) db) as [H1 H2].
    destruct (statement _ db) as [[[i|]|e] db']; cbn in *;
      unfold db_rows; [destruct (opn i)|..]; cbn; by rewrite H1.
  - intros ctx [db Hwf]. unfold wp. cbn. unfold Repository_List, db_queryMany, try_or, bind.
    pose proof (statement_select (λ db, merge_sort newest_first (all_rows db)) db) as [H1 H2].
    destruct (statement _ db) as [[l|e] db']; cbn in *;
      unfold db_rows; rewrite H1; [|done].
    split; [done|]. subst l. change (all_rows (db_next db)) with (all_rows db). split.
    + rewrite merge_sort_Permutation. by apply NoDup_all_rows.
    + intros i. rewrite merge_sort_Permutation. by apply elem_of_all_rows.
  - intros ctx id cid port [db Hwf]. by apply (db_exec_update id _ db Hwf).
  - intros ctx id v [db Hwf]. by apply (db_exec_update id _ db Hwf).
  - intros ctx id st e [db Hwf]. by apply (db_exec_update id _ db Hwf).
  - intros ctx id b [db Hwf]. by apply (db_exec_update id _ db Hwf).
  - intros ctx id b [db Hwf]. by apply (db_exec_update id _ db Hwf).
  - intros ctx id b [db Hwf]. by apply (db_exec_update id _ db Hwf).
  - intros ctx id [db Hwf]. apply (db_exec_delete id db).
Defined.

(** ** Properties *)

