(* ===== verification/Tables.v ===== *)
(** * Single tables of the meta database

    The smaller repositories keep one table each.  [Table K V] is such a table,
    its rows under their key, with the environment that fails statements and
    gives ids and times, as in [MetaDB].  Foreign keys to the instances are not
    part of these tables: a violation is a statement that the environment
    fails. *)

From stdpp Require Import gmap.
From S2P Require Import Prelude GoStrings Apperr GoMonad MetaDB.

Record Table (K V : Type) `{Countable K} := mkTable {
  tb_env : Env;
  tb_qn : Z;
  tb_rows : gmap K V;
}.
Arguments mkTable {K V _ _} _ _ _.
Arguments tb_env {K V _ _} _.
Arguments tb_qn {K V _ _} _.
Arguments tb_rows {K V _ _} _.

Section table.
Context {K V : Type} `{Countable K}.
Implicit Types (t : Table K V).

Definition tb_uuid t : string := env_uuid (tb_env t) (tb_qn t).
Definition tb_now t : Z := env_now (tb_env t) (tb_qn t).
Definition tb_next t : Table K V := mkTable (tb_env t) (tb_qn t + 1) (tb_rows t).
Definition tb_set (rows : gmap K V) t : Table K V := mkTable (tb_env t) (tb_qn t) rows.

(** Run one statement: the environment may fail it, and then nothing changes. *)
Definition tstatement {A} (body : Table K V → result (A * gmap K V)) : M (Table K V) (result A) := λ t0,
  let t := tb_next t0 in
  match env_fault (tb_env t) (tb_qn t) with
  | Some e => (Err e, t)
  | None => match body t with Ok (a, rows) => (Ok a, tb_set rows t) | Err e => (Err e, t) end
  end.

(** A statement that only reads. *)
Definition tselect {A} (sel : gmap K V → A) : M (Table K V) (result A) :=
  tstatement (λ t, Ok (sel (tb_rows t), tb_rows t)).

(** The table without a row is read as SQL does: what it returns. *)
Lemma wp_tstatement {A} (body : Table K V → result (A * gmap K V)) (Q : result A → Table K V → Prop) t :
  (∀ e t', tb_rows t' = tb_rows t → Q (Err e) t') →
  (∀ a rows t' t'', tb_rows t' = tb_rows t → body t' = Ok (a, rows) → tb_rows t'' = rows → Q (Ok a) t'') →
  wp (tstatement body) Q t.
Proof.
  intros He Ho. unfold wp, tstatement. destruct (env_fault _ _); [by apply He|].
  destruct (body (tb_next t)) as [[a rows]|e] eqn:Hb; [|by apply He].
  by eapply (Ho a rows (tb_next t)).
Qed.

Lemma wp_tselect {A} (sel : gmap K V → A) (Q : result A → Table K V → Prop) t :
  (∀ e t', tb_rows t' = tb_rows t → Q (Err e) t') →
  (∀ t', tb_rows t' = tb_rows t → Q (Ok (sel (tb_rows t))) t') →
  wp (tselect sel) Q t.
Proof.
  intros He Ho. apply wp_tstatement; [done|]. intros a rows t' t'' Ht [= <- <-] Ht''.
  rewrite Ht in *. by apply Ho.
Qed.
End table.

(** ** Transactions *)

Section transactions.
Context {K V : Type} `{Countable K}.
Implicit Types (t : Table K V).

(** [Begin], a body, [Commit]: any error rolls the rows back to what they were. *)
Definition transaction {A} (on_begin on_commit : error → error) (body : M (Table K V) (result A)) :
    M (Table K V) (result A) := λ t0,
  match tselect (λ _, tt) t0 with
  | (Err e, t) => (Err (on_begin e), t)
  | (Ok _, t) =>
      match body t with
      | (Err e, t') => (Err e, tb_set (tb_rows t) t')
      | (Ok a, t') =>
          match tselect (λ _, tt) t' with
          | (Err e, t'') => (Err (on_commit e), tb_set (tb_rows t) t'')
          | (Ok _, t'') => (Ok a, t'')
          end
      end
  end.

Lemma tselect_rows {A} (sel : gmap K V → A) t : tb_rows (tselect sel t).2 = tb_rows t.
Proof. apply (wp_tselect sel (λ _ t', tb_rows t' = tb_rows t)); done. Qed.

Lemma wp_transaction {A} on_begin on_commit (body : M (Table K V) (result A)) (Q : result A → Table K V → Prop) t :
  (∀ e t', tb_rows t' = tb_rows t → Q (Err e) t') →
  (∀ t1, tb_rows t1 = tb_rows t →
     wp body (λ r t', match r with
                      | Ok a => ∀ t'', tb_rows t'' = tb_rows t' → Q (Ok a) t''
                      | Err _ => True
                      end) t1) →
  wp (transaction on_begin on_commit body) Q t.
Proof.
  intros He Hb. unfold wp, transaction. pose proof (tselect_rows (λ _, tt) t) as H1.
  destruct (tselect _ t) as [[[]|e] t1]; cbn [fst snd] in *; [|by apply He].
  specialize (Hb t1 H1). unfold wp in Hb. destruct (body t1) as [[a|e] t2]; cbn [fst snd] in *.
  - pose proof (tselect_rows (λ _, tt) t2) as H2. destruct (tselect _ t2) as [[[]|e] t3]; cbn [fst snd] in *.
    + by apply Hb.
    + by apply He.
  - by apply He.
Qed.
End transactions.
