(* ===== verification/Provision.v ===== *)
(** * Provisioning: [internal/provision/provision.go], [cipher.go], [router.go],
      [failover_support.go]

    The provisioner over a runtime state [R] and a repository state [D].  A deferred
    cleanup is written as the handler of every step after the [defer]; the
    progress callback is the one of [Process] when it is not nil. *)

From Stdlib Require Import Ascii.
From stdpp Require Import gmap sets.
From S2P Require Import Prelude GoStrings Apperr GoMonad ObjectStore PgConfig Instances PgBackRest PgCat Runtime Stores.

(** ** Data *)

Definition pgDataPath : string := "/var/lib/postgresql/data".
Definition repoPath : string := "/var/lib/pgbackrest".
Definition confPath : string := "/etc/pgbackrest/pgbackrest.conf".
Definition pgPort : Z := 5432.
Definition readyTimeout : Z := 90 * Second.

(** [Options]. *)
Record Options := mkOptions {
  op_Network : string;
  op_InstanceHost : string;
  op_S3 : S3Config;
  op_S3BackrestEndpoint : string;
  op_RestartPolicy : string;
  op_BindAddress : string;
  op_MasterKey : string;
  op_BackupEncryption : bool;
  op_BlockIncr : bool;
  op_Repo2Path : string;
}.

(** [ProgressFunc]: nil, or the caller's callback. *)
Inductive ProgressFunc := NoProgress | Progress.

(** [RouterMember], [RouterMirror], [RouterSpec]. *)
Record RouterMember := mkRouterMember {
  rm_Host : string;
  rm_Role : string;
}.
Record RouterMirror := mkRouterMirror {
  rmi_Host : string;
  rmi_Port : Z;
}.
Record RouterSpec := mkRouterSpec {
  rsp_ClusterID : string;
  rsp_ClusterName : string;
  rsp_Database : string;
  rsp_User : string;
  rsp_Password : string;
  rsp_AdminPassword : string;
  rsp_Members : list RouterMember;
  rsp_PoolMode : string;
  rsp_Mirrors : list RouterMirror;
}.

(** ** Pure helpers *)

(** [asPostgres], [PgBackRestExec], [createExtension]. *)
Definition asPostgres (cmd : list string) : list string := ["gosu"; "postgres"] ++ cmd.
Definition PgBackRestExec (cmd : list string) : list string := asPostgres cmd.
Definition createExtension (superuser name : string) : list string :=
  asPostgres ["psql"; "-U"; superuser; "-d"; "postgres"; "-c";
    "CREATE EXTENSION IF NOT EXISTS " +:+ dq +:+ name +:+ dq].

(** [sortedKeys]. *)
Definition sortedKeys (m : gmap string string) : list string :=
  sort_strings (map_to_list m).*1.

(** [volumeName], [InstanceContainerName]. *)
Definition volumeName (kind id : string) : string := "pgfleet-" +:+ kind +:+ "-" +:+ id.
Definition InstanceContainerName (name : string) : string := "pgfleet-pg-" +:+ name.

(** [instanceLabels], [recoveryLabels]. *)
Definition instanceLabels (id : string) : gmap string string :=
  <[LabelManaged := "true"]> (<[LabelInstance := id]> {[LabelRole := "postgres"]}).

Definition recoveryLabels (inst : Inst) : gmap string string :=
  let role := if bool_decide (inst_Role inst = "") || bool_decide (inst_Role inst = RoleStandalone)
              then "postgres" else inst_Role inst in
  let l : gmap string string :=
    <[LabelManaged := "true"]> (
    <[LabelInstance := inst_ID inst]> (
    <[LabelRole := role]> (
    <[LabelName := inst_Name inst]> (
    <[LabelStanza := inst_Stanza inst]> (
    <[LabelRepoType := inst_RepoType inst]> {[LabelPGVersion := inst_PGVersion inst]}))))) in
  if bool_decide (inst_ClusterID inst ≠ "") then <[LabelCluster := inst_ClusterID inst]> l else l.

(** [portFor], [assignedPort]. *)
Definition portFor (state : ContainerState) (containerPort : Z) : result Z :=
  let hp := cst_Ports state !! (itoa containerPort +:+ "/tcp") in
  if bool_decide (default "" hp = "") then
    Err (New KindInternal "provision: no host port assigned")
  else match Sscanf_d (default "" hp) with
       | Some port => Ok port
       | None => Err (Wrap KindInternal "provision: parse host port" (Errorf "expected integer"))
       end.
Definition assignedPort (state : ContainerState) : result Z := portFor state pgPort.

(** [redactSecrets]: one pass per key, left to right.  The fuel of a pass is the
    length of the text, which every replacement shortens. *)
Fixpoint redact_pass (fuel : nat) (marker rest : string) : string :=
  match fuel with
  | O => rest
  | S fuel =>
      match Index rest marker with
      | None => rest
      | Some i =>
          let tail := str_drop i rest in
          let stop := default (String.length tail) (Index tail nl) in
          str_take i rest +:+ marker +:+ "***" +:+ redact_pass fuel marker (str_drop stop tail)
      end
  end.
Definition redact_key (key s : string) : string :=
  redact_pass (S (String.length s)) (key +:+ "=") s.
Definition secretKeys : list string :=
  ["repo1-s3-key-secret"; "repo1-s3-key"; "repo1-cipher-pass"; "repo2-cipher-pass"].
Definition redactSecrets (s : string) : string := foldl (λ s key, redact_key key s) s secretKeys.

(** [RouterMembersFromInstances]. *)
Definition RouterMembersFromInstances (primaryName : string) (replicaNames : list string) :
    list RouterMember :=
  mkRouterMember (InstanceContainerName primaryName) "primary" ::
  ((λ n, mkRouterMember (InstanceContainerName n) "replica") <$> replicaNames).

Definition PgCatImage : string := "ghcr.io/postgresml/pgcat:latest".
Definition pgcatPort : Z := 6432.

(** [routerConfig]. *)
Definition routerConfig (spec : RouterSpec) : Config :=
  mkConfig pgcatPort "pgfleet_admin" (rsp_AdminPassword spec) (rsp_Database spec) (rsp_User spec)
    (rsp_Password spec) 0 (rsp_PoolMode spec)
    ((λ m, mkServer (rm_Host m) pgPort (rm_Role m)) <$> rsp_Members spec)
    ((λ m, mkMirror (rmi_Host m) (if bool_decide (rmi_Port m = 0)%Z then pgPort else rmi_Port m))
       <$> rsp_Mirrors spec).

(** ** The cipher passphrases: [cipher.go] *)

Section cipher.
(** [hex(HMAC-SHA256(key, message))] *)
Context (hmac_hex : string → string → string).

Definition cipherPassPrefix : string := "pgbackrest-cipher:".
Definition routerAdminPrefix : string := "pgcat-admin:".

(** [deriveCipherPass], [RouterAdminPass]. *)
Definition deriveCipherPass (masterKey instanceID : string) : string :=
  if bool_decide (len masterKey = 0)%Z then ""
  else hmac_hex masterKey (cipherPassPrefix +:+ instanceID).
Definition RouterAdminPass (masterKey clusterID : string) : string :=
  if bool_decide (len masterKey = 0)%Z then ""
  else hmac_hex masterKey (routerAdminPrefix +:+ clusterID).
End cipher.

(** ** The provisioner *)

Section provisioner.
Context {R D : Type} {RT : ContainerRuntime R} {PR : Process R} {ST : InstanceStore D}.
Context (hmac_hex : string → string → string).
Context (opts : Options).

(** The state of the provisioner: what its runtime and its repository hold. *)
Notation W := (R * D)%type.
Definition rt {A} (m : M R A) : M (R * D) A := on_fst m.
Definition repo {A} (m : M D A) : M (R * D) A := on_snd m.

(** [emit]. *)
Definition emit (p : ProgressFunc) (step detail : string) : M W unit :=
  match p with NoProgress => ret tt | Progress => rt (progress_call step detail) end.

(** [bindAddrFor]. *)
Definition bindAddrFor (inst : Inst) : string :=
  if inst_Public inst then "0.0.0.0"
  else if bool_decide (op_BindAddress opts ≠ "") then op_BindAddress opts
  else "127.0.0.1".

Definition networks : list string :=
  if bool_decide (op_Network opts ≠ "") then [op_Network opts] else [].

(** [containerSpec]. *)
Definition platformFlags (inst : Inst) : list string :=
  ["-c"; "archive_mode=on";
   "-c"; "archive_command=pgbackrest --stanza=" +:+ inst_Stanza inst +:+ " archive-push %p";
   "-c"; "archive_timeout=60";
   "-c"; "wal_level=replica";
   "-c"; "max_wal_senders=10";
   "-c"; "max_replication_slots=10";
   "-c"; "max_slot_wal_keep_size=10GB";
   "-c"; "shared_preload_libraries=" +:+ Join (PreloadLibraries (inst_Extensions inst)) ","].

Definition userFlags (params : gmap string string) : list string :=
  concat ((λ key, ["-c"; key +:+ "=" +:+ default "" (params !! key)]) <$> sortedKeys params).

Definition containerSpec (inst : Inst) (password : string) (mounts : list Mount) : ContainerSpec :=
  mkSpec (InstanceContainerName (inst_Name inst)) (inst_Image inst)
    ("postgres" :: platformFlags inst ++ userFlags (inst_Parameters inst))
    (<["POSTGRES_USER" := inst_Superuser inst]> (
     <["POSTGRES_PASSWORD" := password]> {["POSTGRES_DB" := "postgres"]}))
    (recoveryLabels inst)
    [mkPort pgPort 0 "" (bindAddrFor inst)]
    mounts networks "" (op_RestartPolicy opts).

(** [backrestConf]. *)
Definition backrestConf (inst : Inst) : result string :=
  let s3 := op_S3 opts in
  let endpoint := if bool_decide (op_S3BackrestEndpoint opts = "") then s3c_Endpoint s3
                  else op_S3BackrestEndpoint opts in
  BackrestConf (mkInstanceConf (inst_Stanza inst) pgDataPath pgPort 2 (inst_RepoType inst)
    (if bool_decide (inst_RepoType inst = RepoS3) then
       mkRepoS3 endpoint (s3c_Bucket s3) (s3c_Region s3) (s3c_AccessKey s3) (s3c_SecretKey s3)
         ("/stanzas/" +:+ inst_Stanza inst) "path" (negb (s3c_SkipTLSVerify s3))
     else zeroRepoS3)
    (if bool_decide (inst_RepoType inst = RepoLocal) then repoPath else "")
    (if inst_Encrypted inst then deriveCipherPass hmac_hex (op_MasterKey opts) (inst_ID inst) else "")
    (op_BlockIncr opts) (op_Repo2Path opts)).

(** [execOK]. *)
Definition execOK (ctx : Context) (containerID : string) (cmd : list string) : M W (result unit) :=
  res <-? rt (Exec ctx containerID cmd) ;;
  if bool_decide (er_ExitCode res ≠ 0)%Z then
    let prog := match cmd with c :: _ => c | [] => "command" end in
    fail (New KindInternal ("provision: " +:+ prog +:+ " failed (exit " +:+ itoa (er_ExitCode res) +:+
      "): " +:+ redactSecrets (TrimSpace (er_Stderr res +:+ er_Stdout res))))
  else done_ok.

(** [writeConfig]. *)
Definition writeConfig_script (conf : string) : string :=
  Join ["set -e";
        "chown -R postgres:postgres " +:+ repoPath;
        "umask 0177";
        "cat > " +:+ confPath +:+ " <<'PGBR_EOF'";
        conf;
        "PGBR_EOF";
        "chown postgres:postgres " +:+ confPath] nl.
Definition writeConfig (ctx : Context) (containerID : string) (inst : Inst) : M W (result unit) :=
  conf <-? lift_r (backrestConf inst) ;;
  execOK ctx containerID ["sh"; "-c"; writeConfig_script conf].

(** [waitReady]: poll every second until the deadline.  One round per unit of
    fuel; 92 rounds pass the deadline of 90 seconds. *)
Fixpoint waitReady_loop (fuel : nat) (ctx : Context) (containerID superuser : string)
    (deadline : Z) : M W (result unit) :=
  match fuel with
  | O => fail (Errorf "out of fuel")
  | S fuel =>
      res <- rt (Exec ctx containerID ["pg_isready"; "-U"; superuser; "-h"; "127.0.0.1"]) ;;
      match res with
      | Ok (mkExecResult 0 _ _) => done_ok
      | _ =>
          t <- rt now ;;
          if bool_decide (deadline < t)%Z then
            fail (New KindInternal "provision: postgres did not become ready in time")
          else
            _ <-? rt (sleep ctx Second) ;;
            waitReady_loop fuel ctx containerID superuser deadline
      end
  end.
Definition waitReady_fuel : nat := 92.
Definition waitReady (ctx : Context) (containerID superuser : string) : M W (result unit) :=
  t <- rt now ;;
  waitReady_loop waitReady_fuel ctx containerID superuser (t + readyTimeout)%Z.

(** The deferred cleanup: the created container first, then the created
    volumes, outside the caller's context; errors are ignored. *)
Definition cleanup (createdContainer : string) (createdVolumes : list string) : M W unit :=
  _ <- when (bool_decide (createdContainer ≠ ""))
         (discard (rt (RemoveContainer Background createdContainer true))) ;;
  for_each createdVolumes tt (λ _ v, discard (rt (RemoveVolume Background v true))).

Definition abort {A} (createdContainer : string) (createdVolumes : list string) (e : error) :
    M W (result A) :=
  _ <- cleanup createdContainer createdVolumes ;; fail e.

(** Stamp the encryption decision on the instance, if it differs. *)
Definition stampEncrypted (ctx : Context) (id : string) (inst : Inst) (encrypted : bool) :
    M W (result Inst) :=
  if Bool.eqb (inst_Encrypted inst) encrypted then ok inst
  else
    _ <-? repo (repo_SetEncrypted ctx id encrypted) ;;
    ok (inst_set_Encrypted encrypted inst).

Definition dataMount (v : string) : Mount := mkMount v pgDataPath false.
Definition repoMount (v : string) : Mount := mkMount v repoPath false.

(** The repository volume of a local instance: the volumes created so far and
    the mounts. *)
Definition createRepoVolume (ctx : Context) (id : string) (inst : Inst) (dataVol : string) :
    M W (result (list string * list Mount)) :=
  if bool_decide (inst_RepoType inst = RepoLocal) then
    let repoVol := volumeName "repo" id in
    _ <-? rt (CreateVolume ctx repoVol (instanceLabels id)) orelse abort "" [dataVol] ;;
    ok ([dataVol; repoVol], [dataMount dataVol; repoMount repoVol])
  else ok ([dataVol], [dataMount dataVol]).

(** [provision]. *)
Definition provision (ctx : Context) (id : string) (progress : ProgressFunc) : M W (result unit) :=
  inst <-? repo (repo_Get ctx id) ;;
  inst <-? stampEncrypted ctx id inst (op_BackupEncryption opts) ;;
  password <-? repo (repo_Password ctx id) ;;
  _ <- emit progress "image" ("ensuring image " +:+ inst_Image inst) ;;
  _ <-? rt (EnsureImage ctx (inst_Image inst)) ;;
  let dataVol := volumeName "data" id in
  _ <- emit progress "volume" "creating data volume" ;;
  _ <-? rt (CreateVolume ctx dataVol (instanceLabels id)) orelse abort "" [] ;;
  _ <- discard (repo (repo_SetDataVolume ctx id dataVol)) ;;
  vm <-? createRepoVolume ctx id inst dataVol ;;
  let '(vols, mounts) := vm : list string * list Mount in
  _ <- emit progress "container" "creating container" ;;
  containerID <-? rt (CreateContainer ctx (containerSpec inst password mounts)) orelse abort "" vols ;;
  _ <- discard (repo (repo_SetRuntime ctx id containerID 0)) ;;
  _ <-? rt (StartContainer ctx containerID) orelse abort containerID vols ;;
  state <-? rt (Inspect ctx containerID) orelse abort containerID vols ;;
  hostPort <-? lift_r (assignedPort state) orelse abort containerID vols ;;
  _ <-? repo (repo_SetRuntime ctx id containerID hostPort) orelse abort containerID vols ;;
  _ <- emit progress "waiting" "waiting for postgres to accept connections" ;;
  _ <-? waitReady ctx containerID (inst_Superuser inst) orelse abort containerID vols ;;
  _ <- emit progress "extensions" "enabling extensions" ;;
  _ <- discard (execOK ctx containerID (createExtension (inst_Superuser inst) "pg_stat_statements")) ;;
  _ <-? for_each_e (inst_Extensions inst) tt (λ _ ext,
          execOK ctx containerID (createExtension (inst_Superuser inst) ext))
        orelse abort containerID vols ;;
  _ <- emit progress "config" "writing pgbackrest configuration" ;;
  _ <-? writeConfig ctx containerID inst orelse abort containerID vols ;;
  _ <- emit progress "stanza" "creating pgBackRest stanza" ;;
  _ <-? execOK ctx containerID (asPostgres (StanzaCreate (inst_Stanza inst) confPath))
        orelse abort containerID vols ;;
  _ <- emit progress "check" "verifying WAL archiving" ;;
  _ <-? execOK ctx containerID (asPostgres (CheckCmd (inst_Stanza inst) confPath))
        orelse abort containerID vols ;;
  _ <- emit progress "ready" "instance is healthy" ;;
  done_ok.

(** The wrapper shared by [Provision], [Restore] and [Clone]: record the error and
    return it, or set the instance running. *)
Definition recording (ctx : Context) (id : string) (m : M W (result unit)) : M W (result unit) :=
  _ <-? m orelse (λ e,
    _ <- discard (repo (repo_SetStatus ctx id StatusError (Error e))) ;; fail e) ;;
  repo (repo_SetStatus ctx id StatusRunning "").

(** [Provision]. *)
Definition Provision (ctx : Context) (id : string) (progress : ProgressFunc) : M W (result unit) :=
  recording ctx id (provision ctx id progress).

(** ** The router: [router.go] *)

(** [StartRouter]. *)
Definition StartRouter (ctx : Context) (spec : RouterSpec) (progress : ProgressFunc) :
    M W (result (string * Z)) :=
  let conf := Generate (routerConfig spec) in
  _ <- emit progress "router-image" "ensuring router image" ;;
  _ <-? rt (EnsureImage ctx PgCatImage) ;;
  let cspec := mkSpec ("pgfleet-router-" +:+ rsp_ClusterName spec) PgCatImage
    ["sh"; "-c";
     "printf '%s' " +:+ dq +:+ "$PGCAT_CONFIG" +:+ dq +:+ " > /tmp/pgcat.toml && exec pgcat /tmp/pgcat.toml"]
    {["PGCAT_CONFIG" := conf]}
    (<[LabelManaged := "true"]> (<[LabelInstance := rsp_ClusterID spec]> {[LabelRole := "router"]}))
    [mkPort pgcatPort 0 "" (op_BindAddress opts)] [] networks "" (op_RestartPolicy opts) in
  _ <- emit progress "router" "starting query router" ;;
  cid <-? rt (CreateContainer ctx cspec) ;;
  _ <-? rt (StartContainer ctx cid) orelse abort cid [] ;;
  state <-? rt (Inspect ctx cid) orelse abort cid [] ;;
  port <-? lift_r (portFor state pgcatPort) orelse abort cid [] ;;
  ok (cid, port).

(** ** What failover needs: [failover_support.go] *)

Definition stopTimeoutSeconds : Z := 30.

(** [PrimaryReachable]. *)
Definition PrimaryReachable (ctx : Context) (inst : Inst) : M W bool :=
  if bool_decide (inst_ContainerID inst = "") then ret false
  else
    res <- rt (Exec ctx (inst_ContainerID inst) (asPostgres ["pg_isready"; "-U"; inst_Superuser inst])) ;;
    ret (match res with Ok r => bool_decide (er_ExitCode r = 0)%Z | Err _ => false end).

(** [ReplayLSN].  On an error of the exec itself its output is empty. *)
Definition ReplayLSN (ctx : Context) (inst : Inst) : M W (result Z) :=
  if bool_decide (inst_ContainerID inst = "") then
    fail (New KindInternal "failover: replica has no container")
  else
    res <- rt (Exec ctx (inst_ContainerID inst) (asPostgres
      ["psql"; "-U"; inst_Superuser inst; "-d"; "postgres"; "-tAc";
       "SELECT COALESCE(pg_wal_lsn_diff(pg_last_wal_replay_lsn(), '0/0'), 0)::bigint"])) ;;
    let query_error stderr :=
      New KindInternal ("failover: query replay lsn: " +:+ TrimSpace stderr) in
    match res with
    | Err _ => fail (query_error "")
    | Ok r =>
        if bool_decide (er_ExitCode r ≠ 0)%Z then fail (query_error (er_Stderr r))
        else match ParseInt64 (TrimSpace (er_Stdout r)) with
             | NumOk n => ok n
             | _ => fail (Wrap KindInternal "failover: parse replay lsn" (Errorf "strconv.ParseInt"))
             end
    end.

(** [Promote]. *)
Definition Promote (ctx : Context) (inst : Inst) : M W (result unit) :=
  if bool_decide (inst_ContainerID inst = "") then
    fail (New KindInternal "failover: instance has no container")
  else
    execOK ctx (inst_ContainerID inst) (asPostgres
      ["psql"; "-U"; inst_Superuser inst; "-d"; "postgres"; "-tAc";
       "SELECT pg_promote(wait := true)"]).

(** [Fence]. *)
Definition Fence (ctx : Context) (inst : Inst) : M W (result unit) :=
  if bool_decide (inst_ContainerID inst = "") then done_ok
  else
    _ <- discard (rt (StopContainer ctx (inst_ContainerID inst) (Some stopTimeoutSeconds))) ;;
    _ <-? rt (RemoveContainer ctx (inst_ContainerID inst) true)
          orelse (λ e, fail (Wrap KindInternal "failover: fence old primary" e)) ;;
    _ <- discard (repo (repo_SetRuntime ctx (inst_ID inst) "" 0)) ;;
    done_ok.

(** The data volume of an instance, by name when the row has none. *)
Definition dataVolumeOf (inst : Inst) (id : string) : string :=
  if bool_decide (inst_DataVolume inst = "") then volumeName "data" id else inst_DataVolume inst.

(** [PrepareReclone]. *)
Definition PrepareReclone (ctx : Context) (inst : Inst) : M W (result unit) :=
  _ <- when (bool_decide (inst_ContainerID inst ≠ ""))
        (_ <- discard (rt (StopContainer ctx (inst_ContainerID inst) (Some stopTimeoutSeconds))) ;;
         discard (rt (RemoveContainer ctx (inst_ContainerID inst) true))) ;;
  _ <-? rt (RemoveVolume ctx (dataVolumeOf inst (inst_ID inst)) true)
        orelse (λ e, fail (Wrap KindInternal "failover: reset replica data volume" e)) ;;
  _ <- discard (repo (repo_SetRuntime ctx (inst_ID inst) "" 0)) ;;
  done_ok.
End provisioner.
