(* ===== verification/ProvisionOps.v ===== *)
(** * The instance operations: [restore.go], [visibility.go], [clone.go],
      [replica.go], [lifecycle.go], [drill.go] of [internal/provision]

    Each operation runs alone on its instance: the per-instance mutex that
    [Restore] and [SetVisibility] take is what makes them sequential. *)

From Stdlib Require Import Ascii.
From stdpp Require Import gmap sets.
From S2P Require Import Prelude GoStrings Apperr GoMonad PgConfig Instances PgBackRest PgCat Runtime Stores Provision.

(** ** Data *)

Definition restoreTimeout : Z := 5 * Minute.

(** [RestoreOptions]. *)
Record RestoreOptions := mkRestoreOptions {
  rso_Type : string;
  rso_Target : string;
  rso_Set : string;
  rso_Delta : bool;
  rso_Repo : Z;
}.

(** [DrillResult]. *)
Record DrillResult := mkDrillResult {
  dr_OK : bool;
  dr_Duration : Z;
  dr_Detail : string;
}.

(** ** Pure helpers *)

(** [targetAction]. *)
Definition targetAction (restoreType : string) : string :=
  if bool_decide (restoreType = "") then "" else "promote".

Definition sq : string := "'".

(** [shellJoin]. *)
Definition shell_quote (a : string) : string :=
  sq +:+ ReplaceAll a sq ("'\''") +:+ sq.
Definition shellJoin (args : list string) : string := Join (shell_quote <$> args) " ".

(** [quoteIdent], [quoteLiteral]. *)
Definition quoteIdent (s : string) : string := dq +:+ ReplaceAll s dq (dq +:+ dq) +:+ dq.
Definition quoteLiteral (s : string) : string := sq +:+ ReplaceAll s sq (sq +:+ sq) +:+ sq.

(** [slotName] and [SlotName]. *)
Definition slotName (replicaName : string) : string :=
  "pgfleet_" +:+ ReplaceAll replicaName "-" "_".
Definition SlotName (replicaName : string) : string := slotName replicaName.

(** The lines that write the configuration in a one-shot container. *)
Definition conf_heredoc (chownTargets conf : string) : list string :=
  ["set -e";
   "mkdir -p /etc/pgbackrest";
   "chown postgres:postgres " +:+ chownTargets;
   "umask 0177";
   "cat > " +:+ confPath +:+ " <<'PGBR_EOF'";
   conf;
   "PGBR_EOF";
   "chown postgres:postgres " +:+ confPath].

Definition restore_script (chownTargets conf : string) (restoreArgs : list string) : string :=
  Join (conf_heredoc chownTargets conf ++
        [shellJoin (asPostgres restoreArgs);
         "gosu postgres pg_ctl -D " +:+ pgDataPath +:+ " -o '-c archive_mode=off' -w -t 600 start";
         "i=0; while [ $i -lt 600 ]; do " +:+
         "rec=$(gosu postgres psql -tAXc 'SELECT pg_is_in_recovery()' 2>/dev/null || echo t); " +:+
         "[ " +:+ dq +:+ "$rec" +:+ dq +:+ " = f ] && break; i=$((i+1)); sleep 1; done";
         "gosu postgres pg_ctl -D " +:+ pgDataPath +:+ " -m fast -w stop"]) nl.

Definition drill_script (conf : string) (restoreArgs : list string) : string :=
  Join (conf_heredoc pgDataPath conf ++
        [shellJoin (asPostgres restoreArgs);
         shellJoin (asPostgres ["pg_controldata"; pgDataPath])]) nl.

(** Double quotes in the scripts below. *)
Definition quoted (s : string) : string := dq +:+ s +:+ dq.

Definition hba_script (superuser : string) : string :=
  Join ["set -e";
        "grep -q 'pgfleet-replication' " +:+ quoted "$PGDATA/pg_hba.conf" +:+ " || " +:+
        "echo 'host replication all 0.0.0.0/0 scram-sha-256 # pgfleet-replication' >> " +:+
        quoted "$PGDATA/pg_hba.conf";
        "gosu postgres psql -U " +:+ superuser +:+ " -d postgres -c 'SELECT pg_reload_conf()'"] nl.

Definition createSlot_sql (slot : string) : string :=
  "DO $$ BEGIN IF NOT EXISTS (SELECT 1 FROM pg_replication_slots WHERE slot_name='" +:+ slot +:+ "') " +:+
  "THEN PERFORM pg_create_physical_replication_slot('" +:+ slot +:+ "'); END IF; END $$;".
Definition dropSlot_sql (slot : string) : string :=
  "DO $$ BEGIN IF EXISTS (SELECT 1 FROM pg_replication_slots WHERE slot_name='" +:+ slot +:+ "') " +:+
  "THEN PERFORM pg_drop_replication_slot('" +:+ slot +:+ "'); END IF; END $$;".

Definition basebackup_script : string :=
  Join ["set -e";
        "chown postgres:postgres " +:+ quoted "$PGDATA_DIR";
        "gosu postgres pg_basebackup -h " +:+ quoted "$PRIMARY_HOST" +:+ " -p 5432 -U " +:+
        quoted "$PRIMARY_USER" +:+ " -D " +:+ quoted "$PGDATA_DIR" +:+ " -X stream -S " +:+
        quoted "$SLOT" +:+ " -w -c fast";
        "touch " +:+ quoted "$PGDATA_DIR/standby.signal";
        "printf " +:+ quoted ("primary_conninfo = 'host=%s port=5432 user=%s application_name=%s passfile=%s'\n" +:+
          "primary_slot_name = '%s'\nrecovery_target_timeline = 'latest'\n") +:+ " " +:+
        quoted "$PRIMARY_HOST" +:+ " " +:+ quoted "$PRIMARY_USER" +:+ " " +:+ quoted "$APP_NAME" +:+ " " +:+
        quoted "$PGDATA_DIR/.pgpass" +:+ " " +:+ quoted "$SLOT" +:+ " >> " +:+
        quoted "$PGDATA_DIR/postgresql.auto.conf";
        "ESC_PW=$(printf '%s' " +:+ quoted "$PGPASSWORD" +:+ " | sed 's/\\/\\\\/g; s/:/\\:/g')";
        "printf '%s:5432:*:%s:%s\n' " +:+ quoted "$PRIMARY_HOST" +:+ " " +:+ quoted "$PRIMARY_USER" +:+
        " " +:+ quoted "$ESC_PW" +:+ " > " +:+ quoted "$PGDATA_DIR/.pgpass";
        "chmod 600 " +:+ quoted "$PGDATA_DIR/.pgpass";
        "chown -R postgres:postgres " +:+ quoted "$PGDATA_DIR"] nl.

Section operations.
Context {R D : Type} {RT : ContainerRuntime R} {PR : Process R} {ST : InstanceStore D}.
Context (hmac_hex : string → string → string).
Context (json_Unmarshal : string → result (list rawStanza)).
Context (opts : Options).

Notation W := (R * D)%type.
Notation containerSpec := (Provision.containerSpec opts).
Notation backrestConf := (Provision.backrestConf hmac_hex opts).
Notation writeConfig := (Provision.writeConfig hmac_hex opts).

(** [shortStamp]. *)
Definition shortStamp : M W string :=
  t <- rt now ;;
  n <- rt stampCounter_Add ;;
  ret (fmt_x (Z.land t 16777215) +:+ "-" +:+ itoa n).

(** [defer cleanup()] after which [m] runs. *)
Definition deferred {A} (cleanup : M W unit) (m : M W A) : M W A :=
  r <- m ;; _ <- cleanup ;; ret r.

Definition helperLabels (id role : string) : gmap string string :=
  <[LabelManaged := "true"]> (<[LabelInstance := id]> {[LabelRole := role]}).

(** [containerLogs]. *)
Definition containerLogs (ctx : Context) (cid : string) : M W string :=
  r <- rt (Logs ctx cid false) ;;
  ret (match r with
       | Err _ => ""
       | Ok data => redactSecrets (TrimSpace (str_take (64 * 1024) data))
       end).

(** [waitRestoreExit]: one round per unit of fuel; 302 rounds of a second pass the
    deadline of five minutes. *)
Fixpoint waitRestoreExit_loop (fuel : nat) (ctx : Context) (cid : string) (deadline : Z) :
    M W (result unit) :=
  match fuel with
  | O => fail (Errorf "out of fuel")
  | S fuel =>
      state <-? rt (Inspect ctx cid) ;;
      if negb (cst_Running state) && bool_decide (cst_Status state = "exited") then
        if bool_decide (cst_ExitCode state ≠ 0)%Z then
          logs <- containerLogs ctx cid ;;
          fail (New KindInternal ("provision: restore failed (exit " +:+ itoa (cst_ExitCode state) +:+
            "): " +:+ logs))
        else done_ok
      else
        t <- rt now ;;
        if bool_decide (deadline < t)%Z then fail (New KindInternal "provision: restore timed out")
        else _ <-? rt (sleep ctx Second) ;; waitRestoreExit_loop fuel ctx cid deadline
  end.
Definition waitRestoreExit (ctx : Context) (cid : string) : M W (result unit) :=
  t <- rt now ;; waitRestoreExit_loop 302 ctx cid (t + restoreTimeout)%Z.

(** A one-shot container: create, and whatever happens remove it. *)
Definition oneShot {A} (ctx : Context) (spec : ContainerSpec) (m : string → M W (result A)) :
    M W (result A) :=
  cid <-? rt (CreateContainer ctx spec) ;;
  deferred (discard (rt (RemoveContainer Background cid true))) (m cid).

(** [runRestoreContainer]. *)
Definition restoreContainerSpec (inst : Inst) (stamp script : string) (dataVolume : string)
    (repoReadOnly : bool) : ContainerSpec :=
  mkSpec ("pgfleet-restore-" +:+ inst_Name inst +:+ "-" +:+ stamp) (inst_Image inst)
    ["bash"; "-c"; script] ∅ (helperLabels (inst_ID inst) "restore") []
    (dataMount dataVolume ::
     (if bool_decide (inst_RepoType inst = RepoLocal)
      then [mkMount (volumeName "repo" (inst_ID inst)) repoPath repoReadOnly] else []))
    (networks opts) "" "".

Definition runRestoreContainer (ctx : Context) (inst : Inst) (restoreArgs : list string)
    (dataVolume : string) (repoReadOnly : bool) : M W (result unit) :=
  conf <-? lift_r (backrestConf inst) ;;
  let chownTargets := if negb repoReadOnly then repoPath +:+ " " +:+ pgDataPath else pgDataPath in
  stamp <- shortStamp ;;
  oneShot ctx
    (restoreContainerSpec inst stamp (restore_script chownTargets conf restoreArgs) dataVolume repoReadOnly)
    (λ cid,
      _ <-? rt (StartContainer ctx cid) ;;
      waitRestoreExit ctx cid).

(** ** Lifecycle: [lifecycle.go] *)

(** [refreshPort]. *)
Definition refreshPort (ctx : Context) (id containerID : string) : M W unit :=
  state <- rt (Inspect ctx containerID) ;;
  match rbind state assignedPort with
  | Err _ => ret tt
  | Ok port => discard (repo (repo_SetRuntime ctx id containerID port))
  end.

(** [Start], [Stop], [Restart]. *)
Definition Start (ctx : Context) (id : string) : M W (result unit) :=
  inst <-? repo (repo_Get ctx id) ;;
  _ <-? rt (StartContainer ctx (inst_ContainerID inst)) ;;
  _ <- refreshPort ctx id (inst_ContainerID inst) ;;
  repo (repo_SetStatus ctx id StatusRunning "").
Definition Stop (ctx : Context) (id : string) : M W (result unit) :=
  inst <-? repo (repo_Get ctx id) ;;
  _ <-? rt (StopContainer ctx (inst_ContainerID inst) (Some stopTimeoutSeconds)) ;;
  repo (repo_SetStatus ctx id StatusStopped "").
Definition Restart (ctx : Context) (id : string) : M W (result unit) :=
  _ <-? Stop ctx id ;; Start ctx id.

(** A NotFound on removal is tolerated. *)
Definition tolerate_not_found (m : M W (result unit)) : M W (result unit) :=
  r <- m ;;
  ret (match r with
       | Err e => if bool_decide (Kind e = KindNotFound) then Ok tt else Err e
       | Ok _ => Ok tt
       end).

(** [Destroy]. *)
Definition destroyFail (ctx : Context) (id : string) (e : error) : M W (result unit) :=
  _ <- discard (repo (repo_SetStatus ctx id StatusError ("destroy failed: " +:+ Error e))) ;; fail e.
Definition Destroy (ctx : Context) (id : string) (retainBackups : bool) : M W (result unit) :=
  inst <-? repo (repo_Get ctx id) ;;
  _ <- discard (repo (repo_SetStatus ctx id StatusDestroying "")) ;;
  _ <-? (if bool_decide (inst_ContainerID inst ≠ "")
         then tolerate_not_found (rt (RemoveContainer ctx (inst_ContainerID inst) true)) else done_ok)
        orelse destroyFail ctx id ;;
  _ <-? tolerate_not_found (rt (RemoveVolume ctx (dataVolumeOf inst id) true)) orelse destroyFail ctx id ;;
  _ <-? (if negb retainBackups && bool_decide (inst_RepoType inst = RepoLocal)
         then tolerate_not_found (rt (RemoveVolume ctx (volumeName "repo" id) true)) else done_ok)
        orelse destroyFail ctx id ;;
  repo (repo_Delete ctx id).

(** [MarkError]. *)
Definition MarkError (ctx : Context) (id reason : string) : M W (result unit) :=
  repo (repo_SetStatus ctx id StatusError reason).

(** [DSN]. *)
Definition DSN (ctx : Context) (id : string) : M W (result string) :=
  inst <-? repo (repo_Get ctx id) ;;
  password <-? repo (repo_Password ctx id) ;;
  let host := if bool_decide (op_InstanceHost opts = "") then "localhost" else op_InstanceHost opts in
  ok (url_String "postgres" (inst_Superuser inst) password
        (host +:+ ":" +:+ itoa (inst_HostPort inst)) "/postgres" "sslmode=disable").

(** [Adopt]. *)
Definition Adopt (ctx : Context) (id : string) (info : ContainerInfo) : M W (result unit) :=
  state <-? rt (Inspect ctx (ci_ID info)) ;;
  let hostPort := value_or 0%Z (assignedPort state) in
  _ <-? repo (repo_SetRuntime ctx id (ci_ID info) hostPort) ;;
  repo (repo_SetStatus ctx id (if cst_Running state then StatusRunning else StatusStopped) "").

(** ** Restore in place: [restore.go] *)

(** [rollbackRestore]. *)
Definition rollbackRestore (ctx : Context) (inst : Inst) (newContainer newVol : string) : M W unit :=
  _ <- when (bool_decide (newContainer ≠ "")) (discard (rt (RemoveContainer Background newContainer true))) ;;
  _ <- when (bool_decide (newVol ≠ "")) (discard (rt (RemoveVolume Background newVol true))) ;;
  when (bool_decide (inst_ContainerID inst ≠ ""))
    (_ <- discard (rt (StartContainer ctx (inst_ContainerID inst))) ;;
     refreshPort ctx (inst_ID inst) (inst_ContainerID inst)).

Definition rollback {A} (ctx : Context) (inst : Inst) (newContainer newVol : string) (e : error) :
    M W (result A) :=
  _ <- rollbackRestore ctx inst newContainer newVol ;; fail e.

(** The failure of the one-shot restore: the staging volume goes first. *)
Definition rollbackStaging {A} (ctx : Context) (inst : Inst) (newVol : string) (e : error) :
    M W (result A) :=
  _ <- discard (rt (RemoveVolume Background newVol true)) ;;
  rollback ctx inst "" "" e.

(** The mounts of an instance on a data volume. *)
Definition instanceMounts (inst : Inst) (id dataVol : string) : list Mount :=
  dataMount dataVol ::
  (if bool_decide (inst_RepoType inst = RepoLocal) then [repoMount (volumeName "repo" id)] else []).

Definition set_spec_Name (name : string) (sp : ContainerSpec) : ContainerSpec :=
  mkSpec name (cs_Image sp) (cs_Cmd sp) (cs_Env sp) (cs_Labels sp) (cs_Ports sp) (cs_Mounts sp)
    (cs_Networks sp) (cs_User sp) (cs_RestartPolicy sp).

(** [restore]. *)
Definition restore (ctx : Context) (id : string) (o : RestoreOptions) (progress : ProgressFunc) :
    M W (result unit) :=
  inst <-? repo (repo_Get ctx id) ;;
  if bool_decide (inst_Role inst = RoleReplica) then
    fail (New KindInvalid "restore: a replica cannot be restored; rebuild it from the primary")
  else if bool_decide (inst_Role inst = RolePrimary) && bool_decide (inst_ClusterID inst ≠ "") then
    fail (New KindInvalid "restore: restoring a clustered primary would diverge its replicas; not yet supported")
  else
  let oldVol := dataVolumeOf inst (inst_ID inst) in
  _ <- discard (repo (repo_SetStatus ctx id StatusRestoring "")) ;;
  restoreArgs <-? lift_r (RestoreCmd (inst_Stanza inst) confPath
    (mkRestoreOpts (rso_Type o) (rso_Target o) (targetAction (rso_Type o)) (rso_Set o)
       (rso_Delta o) (rso_Repo o))) ;;
  stamp <- shortStamp ;;
  let newVol := "pgfleet-data-" +:+ inst_ID inst +:+ "-r" +:+ stamp in
  _ <-? rt (CreateVolume ctx newVol (instanceLabels (inst_ID inst))) ;;
  _ <- emit progress "stopping" "stopping instance for restore" ;;
  _ <- when (bool_decide (inst_ContainerID inst ≠ ""))
         (discard (rt (StopContainer ctx (inst_ContainerID inst) (Some stopTimeoutSeconds)))) ;;
  _ <- emit progress "restoring" "restoring into a staging volume" ;;
  _ <-? runRestoreContainer ctx inst restoreArgs newVol false orelse rollbackStaging ctx inst newVol ;;
  _ <- emit progress "swapping" "promoting the restored volume" ;;
  password <-? repo (repo_Password ctx id) orelse rollback ctx inst "" newVol ;;
  stamp <- shortStamp ;;
  let spec := containerSpec inst password (instanceMounts inst (inst_ID inst) newVol) in
  let spec := set_spec_Name (cs_Name spec +:+ "-r" +:+ stamp) spec in
  newContainer <-? rt (CreateContainer ctx spec) orelse rollback ctx inst "" newVol ;;
  _ <-? rt (StartContainer ctx newContainer) orelse rollback ctx inst newContainer newVol ;;
  _ <-? waitReady ctx newContainer (inst_Superuser inst) orelse rollback ctx inst newContainer newVol ;;
  _ <-? writeConfig ctx newContainer inst orelse rollback ctx inst newContainer newVol ;;
  state <- rt (Inspect ctx newContainer) ;;
  _ <- (match state with
        | Ok st => discard (repo (repo_SetRuntime ctx id newContainer (value_or 0%Z (assignedPort st))))
        | Err _ => ret tt
        end) ;;
  _ <- discard (repo (repo_SetDataVolume ctx id newVol)) ;;
  _ <- when (bool_decide (inst_ContainerID inst ≠ ""))
         (discard (rt (RemoveContainer Background (inst_ContainerID inst) true))) ;;
  _ <- discard (rt (RemoveVolume Background oldVol true)) ;;
  _ <- emit progress "restored" "restore complete" ;;
  done_ok.

(** [Restore]. *)
Definition Restore (ctx : Context) (id : string) (o : RestoreOptions) (progress : ProgressFunc) :
    M W (result unit) :=
  recording ctx id (restore ctx id o progress).

(** ** The published address: [visibility.go] *)

(** [recoverFailedFlip]. *)
Definition recoverFailedFlip {A} (ctx : Context) (id : string) (inst : Inst) (password : string)
    (originalPublic : bool) (mounts : list Mount) (cause : error) : M W (result A) :=
  _ <- discard (repo (repo_SetPublic ctx id originalPublic)) ;;
  let inst := inst_set_Public originalPublic inst in
  recovered <-? rt (CreateContainer ctx (containerSpec inst password mounts))
    orelse (λ _,
      _ <- discard (repo (repo_SetStatus ctx id StatusStopped
             ("visibility change failed and container could not be recreated: " +:+ Error cause))) ;;
      fail cause) ;;
  _ <- discard (repo (repo_SetRuntime ctx id recovered 0)) ;;
  _ <-? rt (StartContainer ctx recovered)
    orelse (λ _,
      _ <- discard (repo (repo_SetStatus ctx id StatusStopped
             ("visibility change failed; container recreated but not started: " +:+ Error cause))) ;;
      fail cause) ;;
  _ <- discard (writeConfig ctx recovered inst) ;;
  _ <- refreshPort ctx id recovered ;;
  _ <- discard (repo (repo_SetStatus ctx id StatusRunning
         ("visibility change failed; reverted to previous binding: " +:+ Error cause))) ;;
  fail cause.

(** [SetVisibility]. *)
Definition SetVisibility (ctx : Context) (id : string) (public : bool) : M W (result unit) :=
  inst <-? repo (repo_Get ctx id) ;;
  if bool_decide (inst_Role inst = RoleReplica) || bool_decide (inst_ClusterID inst ≠ "") then
    fail (New KindInvalid "visibility: only a standalone instance can change visibility")
  else if negb (bool_decide (inst_Status inst = StatusRunning) ||
                bool_decide (inst_Status inst = StatusStopped)) then
    fail (New KindInvalid
      ("visibility: instance is not in a stable state (status " +:+ inst_Status inst +:+ ")"))
  else if Bool.eqb (inst_Public inst) public then done_ok
  else
  _ <-? repo (repo_SetPublic ctx id public) ;;
  let inst := inst_set_Public public inst in
  if bool_decide (inst_Status inst ≠ StatusRunning) || bool_decide (inst_ContainerID inst = "")
  then done_ok
  else
  password <-? repo (repo_Password ctx id) ;;
  let mounts := instanceMounts inst id (dataVolumeOf inst id) in
  let old := inst_ContainerID inst in
  _ <- discard (rt (StopContainer ctx old (Some stopTimeoutSeconds))) ;;
  _ <- discard (rt (RemoveContainer ctx old true)) ;;
  newContainer <-? rt (CreateContainer ctx (containerSpec inst password mounts))
    orelse recoverFailedFlip ctx id inst password (negb public) mounts ;;
  _ <- discard (repo (repo_SetRuntime ctx id newContainer 0)) ;;
  _ <-? rt (StartContainer ctx newContainer)
    orelse recoverFailedFlip ctx id inst password (negb public) mounts ;;
  _ <-? waitReady ctx newContainer (inst_Superuser inst)
    orelse (λ e, _ <- discard (repo (repo_SetStatus ctx id StatusError (Error e))) ;; fail e) ;;
  _ <-? writeConfig ctx newContainer inst
    orelse (λ e,
      _ <- discard (repo (repo_SetStatus ctx id StatusError
             ("visibility: archiving config could not be written: " +:+ Error e))) ;;
      fail e) ;;
  _ <- refreshPort ctx id newContainer ;;
  _ <- discard (repo (repo_SetStatus ctx id StatusRunning "")) ;;
  done_ok.

(** ** Clones: [clone.go] *)

(** [ensureSourceHasBackup]. *)
Definition ensureSourceHasBackup (ctx : Context) (source : Inst) : M W (result unit) :=
  if bool_decide (inst_ContainerID source = "") then
    fail (New KindInvalid "clone: source instance is not running; start it and take a backup before cloning")
  else
  res <-? rt (Exec ctx (inst_ContainerID source) (asPostgres (InfoCmd (inst_Stanza source) confPath)))
    orelse (λ e, fail (Wrap KindInvalid "clone: cannot read source backup catalog" e)) ;;
  if bool_decide (er_ExitCode res ≠ 0)%Z then
    fail (New KindInvalid ("clone: cannot read source backup catalog: " +:+
      redactSecrets (TrimSpace (er_Stderr res +:+ er_Stdout res))))
  else
  stanzas <-? lift_r (ParseInfo json_Unmarshal (er_Stdout res))
    orelse (λ e, fail (Wrap KindInvalid "clone: cannot parse source backup catalog" e)) ;;
  if existsb (λ s, bool_decide (st_Name s = inst_Stanza source) &&
                   bool_decide (0 < length (st_Backups s))) stanzas
  then done_ok
  else fail (New KindInvalid
    "clone: source has no backup to clone from; a fresh backup of the source could not be produced").

(** [clone]. *)
Definition clone (ctx : Context) (cloneID : string) (source : Inst) (progress : ProgressFunc) :
    M W (result unit) :=
  cl <-? repo (repo_Get ctx cloneID) ;;
  password <-? repo (repo_Password ctx cloneID) ;;
  cl <-? stampEncrypted ctx cloneID cl (inst_Encrypted source) ;;
  _ <- emit progress "preflight" "verifying source has a backup" ;;
  _ <-? ensureSourceHasBackup ctx source ;;
  _ <- emit progress "image" ("ensuring image " +:+ inst_Image cl) ;;
  _ <-? rt (EnsureImage ctx (inst_Image cl)) ;;
  let dataVol := volumeName "data" cloneID in
  _ <- emit progress "volume" "creating clone data volume" ;;
  _ <-? rt (CreateVolume ctx dataVol (instanceLabels cloneID)) orelse abort "" [] ;;
  _ <- discard (repo (repo_SetDataVolume ctx cloneID dataVol)) ;;
  _ <- emit progress "restoring" ("restoring data from " +:+ inst_Name source) ;;
  restoreArgs <-? lift_r (RestoreCmd (inst_Stanza source) confPath zeroRestoreOpts)
    orelse abort "" [dataVol] ;;
  _ <-? runRestoreContainer ctx source restoreArgs dataVol true orelse abort "" [dataVol] ;;
  vm <-? createRepoVolume ctx cloneID cl dataVol ;;
  let '(vols, mounts) := vm : list string * list Mount in
  _ <- emit progress "container" "starting clone" ;;
  containerID <-? rt (CreateContainer ctx (containerSpec cl password mounts)) orelse abort "" vols ;;
  _ <- discard (repo (repo_SetRuntime ctx cloneID containerID 0)) ;;
  _ <-? rt (StartContainer ctx containerID) orelse abort containerID vols ;;
  _ <- emit progress "waiting" "waiting for postgres" ;;
  _ <-? waitReady ctx containerID (inst_Superuser cl) orelse abort containerID vols ;;
  _ <- refreshPort ctx cloneID containerID ;;
  _ <- emit progress "credentials" "resetting superuser password" ;;
  _ <-? execOK ctx containerID (asPostgres
          ["psql"; "-U"; inst_Superuser cl; "-d"; "postgres"; "-tAc";
           "ALTER USER " +:+ quoteIdent (inst_Superuser cl) +:+ " WITH PASSWORD " +:+
           quoteLiteral password])
        orelse abort containerID vols ;;
  _ <- emit progress "config" "writing clone pgbackrest config" ;;
  _ <-? writeConfig ctx containerID cl orelse abort containerID vols ;;
  _ <- emit progress "stanza" "creating pgBackRest stanza" ;;
  _ <-? execOK ctx containerID (asPostgres (StanzaCreate (inst_Stanza cl) confPath))
        orelse abort containerID vols ;;
  _ <- discard (execOK ctx containerID (createExtension (inst_Superuser cl) "pg_stat_statements")) ;;
  _ <- for_each (inst_Extensions cl) tt (λ _ ext,
         discard (execOK ctx containerID (createExtension (inst_Superuser cl) ext))) ;;
  _ <- emit progress "ready" "clone is ready" ;;
  done_ok.

(** [Clone]. *)
Definition Clone (ctx : Context) (cloneID : string) (source : Inst) (progress : ProgressFunc) :
    M W (result unit) :=
  recording ctx cloneID (clone ctx cloneID source progress).

(** ** Standbys: [replica.go] *)

(** [preparePrimary]. *)
Definition preparePrimary (ctx : Context) (primary : Inst) (slot : string) : M W (result unit) :=
  _ <-? execOK ctx (inst_ContainerID primary) ["bash"; "-c"; hba_script (inst_Superuser primary)] ;;
  execOK ctx (inst_ContainerID primary)
    (asPostgres ["psql"; "-U"; inst_Superuser primary; "-d"; "postgres"; "-c"; createSlot_sql slot]).

(** [DropReplicationSlot]. *)
Definition DropReplicationSlot (ctx : Context) (primary : Inst) (slot : string) : M W (result unit) :=
  if bool_decide (inst_ContainerID primary = "") then done_ok
  else
  res <- rt (Exec ctx (inst_ContainerID primary)
    (asPostgres ["psql"; "-U"; inst_Superuser primary; "-d"; "postgres"; "-c"; dropSlot_sql slot])) ;;
  match res with
  | Ok (mkExecResult 0 _ _) => done_ok
  | _ => fail (New KindInternal "provision: drop replication slot")
  end.

(** [runBaseBackup]. *)
Definition basebackupSpec (replica primary : Inst) (stamp password primaryHost slot dataVol : string) :
    ContainerSpec :=
  mkSpec ("pgfleet-basebackup-" +:+ inst_Name replica +:+ "-" +:+ stamp) (inst_Image replica)
    ["bash"; "-c"; basebackup_script]
    (list_to_map [("PGPASSWORD", password); ("PRIMARY_HOST", primaryHost);
       ("PRIMARY_USER", inst_Superuser primary); ("APP_NAME", inst_Name replica);
       ("SLOT", slot); ("PGDATA_DIR", pgDataPath)])
    (helperLabels (inst_ID replica) "basebackup") [] [dataMount dataVol] (networks opts) "" "".
Definition runBaseBackup (ctx : Context) (replica primary : Inst)
    (password primaryHost slot dataVol : string) : M W (result unit) :=
  stamp <- shortStamp ;;
  oneShot ctx (basebackupSpec replica primary stamp password primaryHost slot dataVol) (λ cid,
    _ <-? rt (StartContainer ctx cid) ;; waitRestoreExit ctx cid).

(** [replicaSpec]. *)
Definition replicaSpec (replica : Inst) (dataVol : string) : ContainerSpec :=
  mkSpec (InstanceContainerName (inst_Name replica)) (inst_Image replica)
    ["postgres"; "-c"; "hot_standby=on"] ∅ (recoveryLabels replica)
    [mkPort pgPort 0 "" (bindAddrFor opts replica)] [dataMount dataVol] (networks opts) ""
    (op_RestartPolicy opts).

(** [verifyStreaming]: one round per unit of fuel; 32 rounds of two seconds pass the
    deadline of one minute. *)
Definition streaming_sql (appName : string) : string :=
  "SELECT count(*) FROM pg_stat_replication WHERE application_name='" +:+ appName +:+
  "' AND state='streaming'".
Fixpoint verifyStreaming_loop (fuel : nat) (ctx : Context) (primaryContainerID appName : string)
    (deadline : Z) : M W (result unit) :=
  match fuel with
  | O => fail (Errorf "out of fuel")
  | S fuel =>
      res <- rt (Exec ctx primaryContainerID (asPostgres ["psql"; "-tAc"; streaming_sql appName])) ;;
      let streaming := match res with
        | Ok r => bool_decide (er_ExitCode r = 0)%Z && bool_decide (TrimSpace (er_Stdout r) ≠ "0")
        | Err _ => false
        end in
      if streaming then done_ok
      else
        t <- rt now ;;
        if bool_decide (deadline < t)%Z then
          fail (New KindInternal "provision: replica did not start streaming in time")
        else
          _ <-? rt (sleep ctx (2 * Second)) ;;
          verifyStreaming_loop fuel ctx primaryContainerID appName deadline
  end.
Definition verifyStreaming (ctx : Context) (primaryContainerID appName : string) : M W (result unit) :=
  t <- rt now ;; verifyStreaming_loop 32 ctx primaryContainerID appName (t + 60 * Second)%Z.

(** The deferred cleanup of a failed standby, which also drops its slot. *)
Definition abortReplica {A} (primary : Inst) (slot createdContainer : string)
    (createdVolumes : list string) (e : error) : M W (result A) :=
  _ <- cleanup createdContainer createdVolumes ;;
  _ <- discard (DropReplicationSlot Background primary slot) ;;
  fail e.

(** [provisionReplica]. *)
Definition provisionReplica (ctx : Context) (replicaID : string) (primary : Inst)
    (progress : ProgressFunc) : M W (result unit) :=
  replica <-? repo (repo_Get ctx replicaID) ;;
  primaryPassword <-? repo (repo_Password ctx (inst_ID primary)) ;;
  let slot := slotName (inst_Name replica) in
  let primaryHost := InstanceContainerName (inst_Name primary) in
  _ <- emit progress "image" ("ensuring image " +:+ inst_Image replica) ;;
  _ <-? rt (EnsureImage ctx (inst_Image replica)) ;;
  _ <- emit progress "primary" "preparing primary for replication" ;;
  _ <-? preparePrimary ctx primary slot ;;
  let dataVol := volumeName "data" replicaID in
  _ <-? rt (CreateVolume ctx dataVol (instanceLabels replicaID)) orelse abortReplica primary slot "" [] ;;
  _ <- discard (repo (repo_SetDataVolume ctx replicaID dataVol)) ;;
  _ <- emit progress "basebackup" "cloning primary via pg_basebackup" ;;
  _ <-? runBaseBackup ctx replica primary primaryPassword primaryHost slot dataVol
        orelse abortReplica primary slot "" [dataVol] ;;
  _ <- emit progress "container" "starting replica" ;;
  containerID <-? rt (CreateContainer ctx (replicaSpec replica dataVol))
        orelse abortReplica primary slot "" [dataVol] ;;
  _ <- discard (repo (repo_SetRuntime ctx replicaID containerID 0)) ;;
  _ <-? rt (StartContainer ctx containerID) orelse abortReplica primary slot containerID [dataVol] ;;
  state <-? rt (Inspect ctx containerID) orelse abortReplica primary slot containerID [dataVol] ;;
  hostPort <-? lift_r (assignedPort state) orelse abortReplica primary slot containerID [dataVol] ;;
  _ <-? repo (repo_SetRuntime ctx replicaID containerID hostPort)
        orelse abortReplica primary slot containerID [dataVol] ;;
  _ <- emit progress "waiting" "waiting for replica to accept connections" ;;
  _ <-? waitReady ctx containerID (inst_Superuser replica)
        orelse abortReplica primary slot containerID [dataVol] ;;
  _ <- emit progress "streaming" "verifying replication is streaming" ;;
  _ <-? verifyStreaming ctx (inst_ContainerID primary) (inst_Name replica)
        orelse abortReplica primary slot containerID [dataVol] ;;
  _ <- emit progress "ready" "replica is streaming" ;;
  done_ok.

(** [ProvisionReplica]. *)
Definition ProvisionReplica (ctx : Context) (replicaID : string) (primary : Inst)
    (progress : ProgressFunc) : M W (result unit) :=
  _ <- discard (repo (repo_SetStatus ctx replicaID StatusProvisioning "")) ;;
  recording ctx replicaID (provisionReplica ctx replicaID primary progress).

(** ** Restore drills: [drill.go] *)

Definition drillSpec (inst : Inst) (stamp script drillVol : string) : ContainerSpec :=
  mkSpec ("pgfleet-drill-" +:+ inst_Name inst +:+ "-" +:+ stamp) (inst_Image inst)
    ["bash"; "-c"; script] ∅ (helperLabels (inst_ID inst) "drill") []
    (dataMount drillVol ::
     (if bool_decide (inst_RepoType inst = RepoLocal)
      then [mkMount (volumeName "repo" (inst_ID inst)) repoPath true] else []))
    (networks opts) "" "".

(** [RestoreDrill]. *)
Definition RestoreDrill (ctx : Context) (id : string) : M W (result DrillResult) :=
  inst <-? repo (repo_Get ctx id) ;;
  conf <-? lift_r (backrestConf inst) ;;
  restoreArgs <-? lift_r (RestoreCmd (inst_Stanza inst) confPath zeroRestoreOpts) ;;
  let drillVol := volumeName "drill-data" (inst_ID inst) in
  _ <-? rt (CreateVolume ctx drillVol (instanceLabels (inst_ID inst))) ;;
  deferred (discard (rt (RemoveVolume Background drillVol true)))
    (stamp <- shortStamp ;;
     start <- rt now ;;
     oneShot ctx (drillSpec inst stamp (drill_script conf restoreArgs) drillVol) (λ cid,
       _ <-? rt (StartContainer ctx cid) ;;
       r <- waitRestoreExit ctx cid ;;
       stop <- rt now ;;
       let dur := (stop - start)%Z in
       match r with
       | Err e => ok (mkDrillResult false dur (Error e))
       | Ok _ => ok (mkDrillResult true dur "restore + pg_controldata succeeded")
       end)).
End operations.
