(* ===== verification/ProvisionFacts.v ===== *)
(** * Frames and cleanup of the provisioner

    Which computations leave the set of containers and volumes alone ([wkeeps]),
    what the deferred cleanups leave behind, and when a polling loop has enough
    rounds.  The properties of the operations are in the files after this. *)

From stdpp Require Import gmap sets.
From S2P Require Import Prelude GoStrings Apperr GoMonad PgConfig Instances PgBackRest PgCat Runtime Stores Provision ProvisionOps.

Section frames.
Context {R D : Type} {RT : ContainerRuntime R} {PR : Process R} {DL : DockerLaws R}.
Notation W := (R * D)%type.

(** ** Computations that keep the containers and the volumes *)

Definition wkeeps {A} (m : M W A) : Prop :=
  ∀ s, ctrs (m s).2.1 = ctrs s.1 ∧ vols (m s).2.1 = vols s.1.

Lemma wp_wkeeps {A} (m : M W A) (Q : A → W → Prop) s :
  wkeeps m →
  (∀ a s', ctrs s'.1 = ctrs s.1 → vols s'.1 = vols s.1 → Q a s') → wp m Q s.
Proof. intros Hk HQ. destruct (Hk s) as [H1 H2]. by apply HQ. Qed.

Lemma wkeeps_ret {A} (a : A) : wkeeps (ret a).
Proof. done. Qed.

Lemma wkeeps_bind {A B} (m : M W A) (k : A → M W B) :
  wkeeps m → (∀ a, wkeeps (k a)) → wkeeps (bind m k).
Proof.
  intros Hm Hk s. unfold bind. specialize (Hm s). destruct (m s) as [a s'].
  destruct (Hk a s') as [-> ->]. done.
Qed.

Lemma wkeeps_try_or {A B} (m : M W (result A)) h (k : A → M W (result B)) :
  wkeeps m → (∀ e, wkeeps (h e)) → (∀ a, wkeeps (k a)) → wkeeps (try_or m h k).
Proof. intros Hm Hh Hk. apply wkeeps_bind; [done|]. by intros [a|e]. Qed.

Lemma wkeeps_try {A B} (m : M W (result A)) (k : A → M W (result B)) :
  wkeeps m → (∀ a, wkeeps (k a)) → wkeeps (try m k).
Proof. intros Hm Hk. by apply wkeeps_try_or. Qed.

Lemma wkeeps_rt {A} (m : M R A) : keeps ctrs vols m → wkeeps (rt (D:=D) m).
Proof. intros Hm s. unfold rt, on_fst. specialize (Hm s.1). by destruct (m s.1). Qed.

Lemma wkeeps_repo {A} (m : M D A) : wkeeps (repo (R:=R) m).
Proof. intros s. unfold repo, on_snd. by destruct (m s.2). Qed.

Lemma wkeeps_discard {A} (m : M W A) : wkeeps m → wkeeps (discard m).
Proof. intros Hm. by apply wkeeps_bind. Qed.

Lemma wkeeps_when b (m : M W unit) : wkeeps m → wkeeps (when b m).
Proof. by destruct b. Qed.

Lemma wkeeps_for_each {A B} (xs : list A) (acc : B) f :
  (∀ acc x, wkeeps (f acc x)) → wkeeps (for_each xs acc f).
Proof.
  intros Hf. revert acc. induction xs as [|x xs IH]; intros acc; [done|].
  cbn. by apply wkeeps_bind.
Qed.

Lemma wkeeps_for_each_e {A B} (xs : list A) (acc : B) f :
  (∀ acc x, wkeeps (f acc x)) → wkeeps (for_each_e xs acc f).
Proof.
  intros Hf. revert acc. induction xs as [|x xs IH]; intros acc; [done|].
  cbn. by apply wkeeps_try.
Qed.
End frames.

(** Prove [wkeeps] along the structure of the program; the hints name the
    operations already proved. *)
Create HintDb keeps.
#[export] Hint Resolve wkeeps_repo : keeps.

Ltac wkeep :=
  repeat
    lazymatch goal with
    | |- wkeeps (ret _) => apply wkeeps_ret
    | |- wkeeps (ok _) => apply wkeeps_ret
    | |- wkeeps (fail _) => apply wkeeps_ret
    | |- wkeeps done_ok => apply wkeeps_ret
    | |- wkeeps (lift_r _) => apply wkeeps_ret
    | |- wkeeps (bind _ _) => apply wkeeps_bind; [|intros ?]
    | |- wkeeps (try _ _) => apply wkeeps_try; [|intros ?]
    | |- wkeeps (try_or _ _ _) => apply wkeeps_try_or; [|intros ?|intros ?]
    | |- wkeeps (discard _) => apply wkeeps_discard
    | |- wkeeps (when _ _) => apply wkeeps_when
    | |- wkeeps (rt _) => apply wkeeps_rt; solve [auto with wp]
    | |- wkeeps (repo _) => apply wkeeps_repo
    | |- wkeeps (for_each _ _ _) => apply wkeeps_for_each; intros ? ?
    | |- wkeeps (for_each_e _ _ _) => apply wkeeps_for_each_e; intros ? ?
    | |- wkeeps (if ?b then _ else _) => destruct b
    | |- wkeeps (match ?x with _ => _ end) => destruct x
    | |- wkeeps _ => solve [eauto with keeps]
    end.

Section operations.
Context {R D : Type} {RT : ContainerRuntime R} {PR : Process R} {ST : InstanceStore D}
  {DL : DockerLaws R}.
Context (hmac_hex : string → string → string).
Context (json_Unmarshal : string → result (list rawStanza)).
Context (opts : Options).
Notation W := (R * D)%type.

Lemma emit_keeps p step detail : wkeeps (emit (R:=R) (D:=D) p step detail).
Proof. unfold emit. wkeep. Qed.

Lemma execOK_keeps ctx cid cmd : wkeeps (execOK (R:=R) (D:=D) ctx cid cmd).
Proof. unfold execOK. wkeep. Qed.
#[local] Hint Resolve emit_keeps execOK_keeps : keeps.

Lemma writeConfig_keeps ctx cid inst :
  wkeeps (writeConfig (R:=R) (D:=D) hmac_hex opts ctx cid inst).
Proof. unfold writeConfig. wkeep. Qed.

Lemma waitReady_keeps ctx cid su : wkeeps (waitReady (R:=R) (D:=D) ctx cid su).
Proof.
  unfold waitReady. wkeep. generalize (a + readyTimeout)%Z. intros dl.
  generalize waitReady_fuel. intros fuel. induction fuel as [|fuel IH]; [done|].
  cbn [waitReady_loop]. wkeep.
Qed.

Lemma stampEncrypted_keeps ctx id inst b :
  wkeeps (stampEncrypted (R:=R) (D:=D) ctx id inst b).
Proof. unfold stampEncrypted. wkeep. Qed.

Lemma shortStamp_keeps : wkeeps (shortStamp (R:=R) (D:=D)).
Proof. unfold shortStamp. wkeep. Qed.

Lemma containerLogs_keeps ctx cid : wkeeps (containerLogs (R:=R) (D:=D) ctx cid).
Proof. unfold containerLogs. wkeep. Qed.
#[local] Hint Resolve writeConfig_keeps waitReady_keeps stampEncrypted_keeps shortStamp_keeps
  containerLogs_keeps : keeps.

Lemma waitRestoreExit_keeps ctx cid : wkeeps (waitRestoreExit (R:=R) (D:=D) ctx cid).
Proof.
  unfold waitRestoreExit. wkeep. generalize (a + restoreTimeout)%Z. intros dl.
  generalize 302. intros fuel. induction fuel as [|fuel IH]; [done|].
  cbn [waitRestoreExit_loop]. wkeep.
Qed.

Lemma verifyStreaming_keeps ctx cid n : wkeeps (verifyStreaming (R:=R) (D:=D) ctx cid n).
Proof.
  unfold verifyStreaming. wkeep. generalize (a + 60 * Second)%Z. intros dl.
  generalize 32. intros fuel. induction fuel as [|fuel IH]; [done|].
  cbn [verifyStreaming_loop]. wkeep.
Qed.

Lemma refreshPort_keeps ctx id cid : wkeeps (refreshPort (R:=R) (D:=D) ctx id cid).
Proof. unfold refreshPort. wkeep. Qed.

Lemma ensureSourceHasBackup_keeps ctx source :
  wkeeps (ensureSourceHasBackup (R:=R) (D:=D) json_Unmarshal ctx source).
Proof. unfold ensureSourceHasBackup. wkeep. Qed.

Lemma preparePrimary_keeps ctx primary slot :
  wkeeps (preparePrimary (R:=R) (D:=D) ctx primary slot).
Proof. unfold preparePrimary. wkeep. Qed.

Lemma DropReplicationSlot_keeps ctx primary slot :
  wkeeps (DropReplicationSlot (R:=R) (D:=D) ctx primary slot).
Proof. unfold DropReplicationSlot. wkeep. Qed.
#[local] Hint Resolve waitRestoreExit_keeps : keeps.

(** A one-shot container is gone when the operation returns, however it
    returns. *)
Lemma one_shot_keeps {A} ctx sp h (m : string → M W (result A)) :
  (∀ e, wkeeps (h e)) → (∀ cid, wkeeps (m cid)) →
  wkeeps (try_or (rt (CreateContainer ctx sp)) h (λ cid, deferred (discard (rt (RemoveContainer Background cid true))) (m cid))).
Proof.
  intros Hh Hm s.
  enough (Hwp : wp (try_or (rt (CreateContainer ctx sp)) h (λ cid, deferred (discard (rt (RemoveContainer Background cid true))) (m cid)))
     (λ _ s', ctrs s'.1 = ctrs s.1 ∧ vols s'.1 = vols s.1) s) by exact Hwp.
  apply wp_try_or, wp_on_fst, wp_CreateContainer.
  - intros cid r Hne Hnone Hc Hv. unfold deferred. apply wp_bind, wp_wkeeps; [apply Hm|].
    intros a s' Hc' Hv'. cbn in Hc', Hv'. apply wp_bind.
    assert (Hdis : wp (discard (RemoveContainer Background cid true))
              (λ _ r', ctrs r' = delete cid (ctrs s'.1) ∧ vols r' = vols s'.1) s'.1).
    { apply wp_cleanup_container; [|done]. rewrite Hc', Hc, lookup_insert_eq. by eexists. }
    unfold discard in *. apply wp_bind, wp_on_fst. apply wp_bind_inv in Hdis.
    eapply wp_mono; [exact Hdis|]. intros b r' [Hc'' Hv'']. apply wp_ret, wp_ret. cbn in *.
    rewrite Hc'', Hv'', Hc', Hv', Hc, Hv. split; [|done].
    rewrite delete_insert_eq. by apply delete_id.
  - intros e r Hc Hv. apply wp_wkeeps; [apply Hh|]. cbn in *. intros a s' -> ->. by rewrite Hc, Hv.
Qed.

Lemma oneShot_keeps {A} ctx sp (m : string → M W (result A)) :
  (∀ cid, wkeeps (m cid)) → wkeeps (oneShot ctx sp m).
Proof. intros Hm. apply one_shot_keeps; [|done]. intros e. apply wkeeps_ret. Qed.

Lemma runRestoreContainer_keeps ctx inst args v ro :
  wkeeps (runRestoreContainer (R:=R) (D:=D) hmac_hex opts ctx inst args v ro).
Proof.
  unfold runRestoreContainer. wkeep. apply oneShot_keeps. intros cid. wkeep.
Qed.

Lemma runBaseBackup_keeps ctx replica primary pw host slot v :
  wkeeps (runBaseBackup (R:=R) (D:=D) opts ctx replica primary pw host slot v).
Proof.
  unfold runBaseBackup. wkeep. apply oneShot_keeps. intros cid. wkeep.
Qed.

End operations.

(** ** What a cleanup leaves *)

Section cleanups.
Context {R D : Type} {RT : ContainerRuntime R} {PR : Process R} {DL : DockerLaws R}.
Notation W := (R * D)%type.

Lemma wp_rt_cleanup_container cid (Q : unit → W → Prop) s :
  is_Some (ctrs s.1 !! cid) →
  (∀ s', ctrs s'.1 = delete cid (ctrs s.1) → vols s'.1 = vols s.1 → s'.2 = s.2 → Q tt s') →
  wp (discard (rt (RemoveContainer Background cid true))) Q s.
Proof.
  intros Hs HQ.
  assert (Hd : wp (discard (RemoveContainer Background cid true))
            (λ _ r', ctrs r' = delete cid (ctrs s.1) ∧ vols r' = vols s.1) s.1)
    by by apply wp_cleanup_container.
  unfold discard in *. apply wp_bind, wp_on_fst. apply wp_bind_inv in Hd.
  eapply wp_mono; [exact Hd|]. intros b r' [Hc Hv]. by apply HQ.
Qed.

Lemma wp_rt_cleanup_volume v (Q : unit → W → Prop) s :
  ¬ in_use (ctrs s.1) v →
  (∀ s', ctrs s'.1 = ctrs s.1 → vols s'.1 = vols s.1 ∖ {[v]} → s'.2 = s.2 → Q tt s') →
  wp (discard (rt (RemoveVolume Background v true))) Q s.
Proof.
  intros Hs HQ.
  assert (Hd : wp (discard (RemoveVolume Background v true))
            (λ _ r', ctrs r' = ctrs s.1 ∧ vols r' = vols s.1 ∖ {[v]}) s.1)
    by by apply wp_cleanup_volume.
  unfold discard in *. apply wp_bind, wp_on_fst. apply wp_bind_inv in Hd.
  eapply wp_mono; [exact Hd|]. intros b r' [Hc Hv]. by apply HQ.
Qed.

Lemma wp_cleanup_volumes vs (Q : unit → W → Prop) s :
  (∀ v, v ∈ vs → ¬ in_use (ctrs s.1) v) →
  (∀ s', ctrs s'.1 = ctrs s.1 → vols s'.1 = vols s.1 ∖ list_to_set vs → s'.2 = s.2 → Q tt s') →
  wp (for_each vs tt (λ _ v, discard (rt (RemoveVolume Background v true)))) Q s.
Proof.
  intros Hu HQ. revert s Hu HQ. induction vs as [|v vs IH]; intros s Hu HQ.
  - apply wp_ret, HQ; try done. cbn. set_solver.
  - cbn [for_each]. apply wp_bind, wp_rt_cleanup_volume; [by apply Hu; left|].
    intros s1 Hc1 Hv1 Hd1. apply IH.
    + intros v' Hv'. rewrite Hc1. apply Hu. by right.
    + intros s2 Hc2 Hv2 Hd2. apply HQ; [congruence| |congruence].
      rewrite Hv2, Hv1. cbn. set_solver.
Qed.

(** [abort] removes the container it is given, then the volumes: they can only go
    once the container that mounts them is gone. *)
Lemma wp_abort {A} C cid vs e (Q : result A → W → Prop) s :
  (cid = "" ∧ ctrs s.1 = C ∨
   cid ≠ "" ∧ is_Some (ctrs s.1 !! cid) ∧ delete cid (ctrs s.1) = C) →
  (∀ v, v ∈ vs → ¬ in_use C v) →
  (∀ s', ctrs s'.1 = C → vols s'.1 = vols s.1 ∖ list_to_set vs → s'.2 = s.2 → Q (Err e) s') →
  wp (abort cid vs e) Q s.
Proof.
  intros Hcid Hu HQ. unfold abort, cleanup. apply wp_bind, wp_bind, wp_when.
  - intros Hb%bool_decide_eq_true. destruct Hcid as [[? _]|(_ & Hs & HC)]; [done|].
    apply wp_rt_cleanup_container; [done|]. intros s1 Hc1 Hv1 Hd1.
    apply wp_cleanup_volumes; [intros v Hv; rewrite Hc1, HC; by apply Hu|].
    intros s2 Hc2 Hv2 Hd2. apply wp_ret, HQ; congruence.
  - intros Hb%bool_decide_eq_false. destruct Hcid as [[_ HC]|[? _]]; [|by destruct Hb].
    apply wp_cleanup_volumes; [intros v Hv; rewrite HC; by apply Hu|].
    intros s2 Hc2 Hv2 Hd2. apply wp_ret, HQ; congruence.
Qed.
End cleanups.

#[export] Hint Resolve emit_keeps execOK_keeps writeConfig_keeps waitReady_keeps
  stampEncrypted_keeps shortStamp_keeps containerLogs_keeps waitRestoreExit_keeps
  verifyStreaming_keeps refreshPort_keeps ensureSourceHasBackup_keeps preparePrimary_keeps
  DropReplicationSlot_keeps runRestoreContainer_keeps runBaseBackup_keeps : keeps.

(** ** Computations that keep a property of the repository *)

Section repository_frames.
Context {R D : Type} {RT : ContainerRuntime R} {PR : Process R}.
Context (I : D → Prop).
Notation W := (R * D)%type.

Definition dkeeps {A} (m : M W A) : Prop := ∀ s, I s.2 → I (m s).2.2.

Lemma dkeeps_ret {A} (a : A) : dkeeps (ret a).
Proof. intros s Hs. exact Hs. Qed.

Lemma dkeeps_fail {A} (e : error) : dkeeps (fail (A:=A) e).
Proof. apply dkeeps_ret. Qed.
#[local] Hint Extern 0 (dkeeps _) => apply dkeeps_ret : core.

Lemma dkeeps_bind {A B} (m : M W A) (k : A → M W B) :
  dkeeps m → (∀ a, dkeeps (k a)) → dkeeps (bind m k).
Proof.
  intros Hm Hk s Hs. unfold bind. specialize (Hm s Hs). destruct (m s) as [a s']. by apply Hk.
Qed.

Lemma dkeeps_try_or {A B} (m : M W (result A)) h (k : A → M W (result B)) :
  dkeeps m → (∀ e, dkeeps (h e)) → (∀ a, dkeeps (k a)) → dkeeps (try_or m h k).
Proof. intros Hm Hh Hk. apply dkeeps_bind; [done|]. by intros [a|e]. Qed.

Lemma dkeeps_rt {A} (m : M R A) : dkeeps (rt m).
Proof. intros s Hs. unfold rt, on_fst. by destruct (m s.1). Qed.

Lemma dkeeps_repo {A} (m : M D A) : (∀ d, I d → I (m d).2) → dkeeps (repo m).
Proof. intros Hm s Hs. unfold repo, on_snd. specialize (Hm s.2 Hs). by destruct (m s.2). Qed.

Lemma dkeeps_discard {A} (m : M W A) : dkeeps m → dkeeps (discard m).
Proof. intros Hm. apply dkeeps_bind; [done|]. intros _. apply dkeeps_ret. Qed.

Lemma dkeeps_when b (m : M W unit) : dkeeps m → dkeeps (when b m).
Proof. intros Hm. destruct b; [exact Hm|apply dkeeps_ret]. Qed.

Lemma dkeeps_emit p step detail : dkeeps (emit p step detail).
Proof. destruct p; [apply dkeeps_ret|apply dkeeps_rt]. Qed.

Lemma dkeeps_execOK ctx cid cmd : dkeeps (execOK ctx cid cmd).
Proof.
  unfold execOK. apply dkeeps_try_or; [apply dkeeps_rt|done|]. intros r. by case_bool_decide.
Qed.

Lemma dkeeps_waitReady ctx cid su : dkeeps (waitReady ctx cid su).
Proof.
  unfold waitReady. apply dkeeps_bind; [apply dkeeps_rt|]. intros t.
  generalize (t + readyTimeout)%Z waitReady_fuel. intros dl fuel.
  induction fuel as [|fuel IH]; [done|]. cbn [waitReady_loop].
  apply dkeeps_bind; [apply dkeeps_rt|]. intros r.
  assert (Hrest : dkeeps (t <- rt now ;;
    if bool_decide (dl < t)%Z then
      fail (New KindInternal "provision: postgres did not become ready in time")
    else _ <-? rt (sleep ctx Second) ;; waitReady_loop fuel ctx cid su dl)).
  { apply dkeeps_bind; [apply dkeeps_rt|]. intros t'. case_bool_decide; [done|].
    by apply dkeeps_try_or; [apply dkeeps_rt|..]. }
  destruct r as [[[] ? ?]|?]; done.
Qed.

Lemma dkeeps_writeConfig hmac_hex opts ctx cid inst : dkeeps (writeConfig hmac_hex opts ctx cid inst).
Proof.
  unfold writeConfig. apply dkeeps_try_or; [done|done|]. intros conf. apply dkeeps_execOK.
Qed.

Lemma dkeeps_shortStamp : dkeeps shortStamp.
Proof. by apply dkeeps_bind; [apply dkeeps_rt|intros ?; apply dkeeps_bind; [apply dkeeps_rt|]]. Qed.

Lemma dkeeps_waitRestoreExit ctx cid : dkeeps (waitRestoreExit ctx cid).
Proof.
  unfold waitRestoreExit. apply dkeeps_bind; [apply dkeeps_rt|]. intros t.
  generalize (t + restoreTimeout)%Z 302. intros dl fuel.
  induction fuel as [|fuel IH]; [done|]. cbn [waitRestoreExit_loop].
  apply dkeeps_try_or; [apply dkeeps_rt|done|]. intros st.
  destruct (_ && _).
  - case_bool_decide; [|done]. unfold containerLogs.
    by repeat (apply dkeeps_bind; [|intros ?]); [apply dkeeps_rt|..].
  - apply dkeeps_bind; [apply dkeeps_rt|]. intros t'. case_bool_decide; [done|].
    by apply dkeeps_try_or; [apply dkeeps_rt|..].
Qed.

Lemma dkeeps_oneShot {A} ctx sp (m : string → M W (result A)) :
  (∀ cid, dkeeps (m cid)) → dkeeps (oneShot ctx sp m).
Proof.
  intros Hm. apply dkeeps_try_or; [apply dkeeps_rt|done|]. intros cid.
  apply dkeeps_bind; [done|]. intros r. apply dkeeps_bind; [|done].
  apply dkeeps_discard, dkeeps_rt.
Qed.

Lemma dkeeps_runRestoreContainer hmac_hex opts ctx inst args v ro :
  dkeeps (runRestoreContainer hmac_hex opts ctx inst args v ro).
Proof.
  unfold runRestoreContainer. apply dkeeps_try_or; [done|done|]. intros conf.
  apply dkeeps_bind; [apply dkeeps_shortStamp|]. intros stamp. apply dkeeps_oneShot. intros cid.
  apply dkeeps_try_or; [apply dkeeps_rt|done|]. intros _. apply dkeeps_waitRestoreExit.
Qed.
End repository_frames.

(** One step of a [wp] goal whose computation keeps the containers, the volumes
    and the property [I] of the repository. *)
Lemma wp_frame {R D} `{DockerLaws R} {A} (I : D → Prop) (m : M (R * D) A) (Q : A → R * D → Prop) s :
  wkeeps m → dkeeps I m → I s.2 →
  (∀ a s', ctrs s'.1 = ctrs s.1 → vols s'.1 = vols s.1 → I s'.2 → Q a s') → wp m Q s.
Proof.
  intros Hk Hd HI HQ. destruct (Hk s) as [Hc Hv]. by apply HQ, Hd.
Qed.

#[export] Hint Resolve dkeeps_rt dkeeps_discard dkeeps_when dkeeps_emit dkeeps_execOK
  dkeeps_waitReady dkeeps_writeConfig dkeeps_shortStamp dkeeps_runRestoreContainer dkeeps_ret
  : keeps.
