(* ===== verification/Samples.v ===== *)
(** * A concrete world for the examples

    The fake runtime and the meta database with one instance (or one cluster),
    on which the theorems with hypotheses are applied. *)

From stdpp Require Import gmap sets.
From S2P Require Import Prelude GoStrings Apperr GoMonad ObjectStore PgConfig Instances PgBackRest PgCat Runtime DockerFake Stores MetaDB Provision ProvisionOps.

Definition sample_env : Env := mkEnv (λ _, None) (λ n, "id-" +:+ itoa n) (λ n, n).

Lemma emptyDB_wf e : db_wf (emptyDB e).
Proof. by split. Qed.

Definition sample_empty : DBState := exist _ (emptyDB sample_env) (emptyDB_wf _).

(** A codec that stores the password in the clear. *)
Definition sample_seal : Z → string → result string := λ _ p, Ok p.
Definition sample_open : string → result string := Ok.

Definition sample_instances : InstanceStore DBState := metadb_instances sample_seal sample_open.
Definition sample_clusters : ClusterStore DBState := metadb_clusters.

Definition sample_new (name role cluster : string) : NewInstance :=
  mkNewInstance name "" "" cluster role RepoLocal "" "secret-password" ∅ ["pg_trgm"].

(** One standalone instance, whose id is [id-1]. *)
Definition sample_db : DBState :=
  (@repo_Create _ sample_instances CallerCtx (sample_new "orders" "" "") sample_empty).2.

Lemma const_exec_ok (g : string → list string → result ExecResult) :
  ∀ g', Some (λ id cmd, lift_r (g id cmd)) = Some g' → ∀ id cmd, hook_ok (λ f, (g' id cmd f).2).
Proof. by intros g' [= <-]. Qed.

(** Hooks whose exec results are a function of the command, and in which a
    container whose command starts with [bash] exits at once with code [code]. *)
Definition exit_bash (code : Z) (f : Fake) (id : string) : Fake :=
  fk_set_containers (alter (λ c,
    match cs_Cmd (fc_spec c) with
    | prog :: _ => if bool_decide (prog = "bash") then fk_exit (Some code) c else c
    | [] => c
    end) id) f.

Lemma exit_bash_ok code : ∀ g, Some (exit_bash code) = Some g → ∀ id, hook_ok (λ f, g f id).
Proof.
  intros g [= <-] id f. split_and!; [done| |done]. apply specs_alter.
  intros c. destruct (cs_Cmd (fc_spec c)); [done|]. by case_bool_decide.
Qed.

Definition sample_hooks (g : string → list string → result ExecResult) (code : Z) : Hooks :=
  mkHooks (Some (λ id cmd, lift_r (g id cmd))) None (Some (exit_bash code))
    (const_exec_ok g) (exit_bash_ok code).

Lemma NewFake_wf : fake_wf NewFake.
Proof. done. Qed.

Definition sample_world : FakeWorld := (exist _ NewFake NewFake_wf, (0, 0)%Z).

Definition exec_ok : string → list string → result ExecResult := λ _ _, Ok (mkExecResult 0 "1" "").

(** Every command succeeds but the one that holds the word [w]. *)
Definition exec_but (w : string) : string → list string → result ExecResult := λ _ cmd,
  if bool_decide (w ∈ cmd) then Ok (mkExecResult 1 "" "boom") else Ok (mkExecResult 0 "1" "").

Definition sample_opts : Options :=
  mkOptions "net" "" (mkS3Config "" "" "" "" "" false false) "" "unless-stopped" "" "key"
    true false "".

Definition sample_hmac : string → string → string := λ k m, k +:+ m.

(** The world after [orders] ([id-1]) was provisioned, and a second row [copy]
    ([id-2] if it is the second statement). *)
Definition sample_hooks_ok : Hooks := sample_hooks exec_ok 0.

Definition sample_db2 : DBState :=
  (@repo_Create _ sample_instances CallerCtx (sample_new "copy" "" "") sample_db).2.

Definition sample_running : FakeWorld * DBState :=
  (@Provision _ _ (fake_runtime sample_hooks_ok) fake_process sample_instances
     sample_hmac sample_opts CallerCtx "id-1" NoProgress (sample_world, sample_db2)).2.

(** The row of an instance in a sample state. *)
Definition sample_row (s : FakeWorld * DBState) (id : string) : Inst :=
  default zeroInst (db_rows (`s.2) !! id).

(** A decoder that reads any text as a catalog with one full backup of [orders]. *)
Definition sample_json : string → result (list rawStanza) := λ _,
  Ok [mkRawStanza "orders" 0 "ok"
        [mkRawBackup "20240101-000000F" "full" 1 2 10 10 5 5 "A" "B" [] false ∅]].
