(* ===== verification/ProvisionSafety.v ===== *)
(** * What provisioning, cloning and adding a replica leave behind

    Failed operations leave no container and no new volume; successful ones
    leave exactly one container on the volumes they created. *)

From stdpp Require Import gmap sets.
From S2P Require Import Prelude GoStrings Apperr GoMonad PgConfig Instances PgBackRest PgCat Runtime DockerFake Stores MetaDB Provision ProvisionOps ProvisionFacts Samples.

Section safety.
Context {R D : Type} {RT : ContainerRuntime R} {PR : Process R} {ST : InstanceStore D}
  {DL : DockerLaws R}.
Notation W := (R * D)%type.

(** ** After the container is created *)

Section guarded_run.
Context (C : gmap string ContainerSpec) (cid : string) (sp : ContainerSpec).
Context (V : gset string) (vs : list string).
(** The handler of every later failure brings back [C] and drops [vs]. *)
Context (h : error → M W (result unit)).

Definition created (s : W) : Prop := ctrs s.1 = <[cid := sp]> C ∧ vols s.1 = V.

(** Success keeps the container, failure undoes it. *)
Definition guarded_post (r : result unit) (s : W) : Prop :=
  match r with
  | Ok _ => created s
  | Err _ => ctrs s.1 = C ∧ vols s.1 = V ∖ list_to_set vs
  end.

Definition guarded_run (m : M W (result unit)) : Prop := ∀ s, created s → wp m guarded_post s.

Lemma guarded_done : guarded_run done_ok.
Proof. intros s Hs. by apply wp_ret. Qed.

Lemma guarded_bind {A} (m : M W A) (k : A → M W (result unit)) :
  wkeeps m → (∀ a, guarded_run (k a)) → guarded_run (bind m k).
Proof.
  intros Hm Hk s [Hc Hv]. apply wp_bind, wp_wkeeps; [done|]. intros a s' Hc' Hv'.
  apply Hk. split; congruence.
Qed.

Lemma guarded_try_or {A} (m : M W (result A)) (k : A → M W (result unit)) :
  (∀ e, guarded_run (h e)) → wkeeps m → (∀ a, guarded_run (k a)) → guarded_run (try_or m h k).
Proof.
  intros Hh Hm Hk. apply guarded_bind; [done|]. intros [a|e]; [apply Hk|apply Hh].
Qed.
End guarded_run.

Lemma guarded_abort C cid sp V vs e :
  cid ≠ "" → C !! cid = None → (∀ v, v ∈ vs → ¬ in_use C v) →
  guarded_run C cid sp V vs (abort cid vs e).
Proof.
  intros Hne Hnone Hu s [Hc Hv]. eapply (wp_abort C); [right|done|].
  - rewrite Hc. split_and!; [done|by rewrite lookup_insert_eq; eexists|].
    rewrite delete_insert_eq. by apply delete_id.
  - intros s' Hc' Hv' _. split; [done|congruence].
Qed.

Lemma guarded_abortReplica C cid sp V vs primary slot e :
  cid ≠ "" → C !! cid = None → (∀ v, v ∈ vs → ¬ in_use C v) →
  guarded_run C cid sp V vs (abortReplica primary slot cid vs e).
Proof.
  intros Hne Hnone Hu s Hs.
  assert (Ha : wp (abort (A:=unit) cid vs e) (guarded_post C cid sp V vs) s)
    by by apply guarded_abort.
  unfold abort, abortReplica in *. apply wp_bind_inv in Ha. apply wp_bind.
  eapply wp_mono; [exact Ha|]. intros a s' Hpost. apply wp_bind, wp_wkeeps; [apply wkeeps_discard, DropReplicationSlot_keeps|].
  intros b s'' Hc Hv. apply wp_ret. unfold wp, fail, ret, guarded_post in *. cbn in *.
  by rewrite Hc, Hv.
Qed.
End safety.

(** Prove [guarded] along the program: every step keeps the containers and the
    volumes, or is undone by the handler [h]. *)
Ltac guarding tac :=
  repeat
    first
      [ apply guarded_done
      | apply guarded_try_or; [intros ?; solve [tac]|solve [wkeep]|intros ?]
      | apply guarded_bind; [solve [wkeep]|intros ?] ].

Section theorems.
Context {R D : Type} {RT : ContainerRuntime R} {PR : Process R} {ST : InstanceStore D}
  {DL : DockerLaws R}.
Notation W := (R * D)%type.

(** What the operation leaves: on a failure the containers are those of before
    and no volume is new; on success one container is new, and its volumes,
    the operation's own, exist. *)
Definition left_behind (id : string) (spec_ok : ContainerSpec → Prop) (s : W) (r : result unit)
    (s' : W) : Prop :=
  let own : gset string := {[volumeName "data" id; volumeName "repo" id]} in
  match r with
  | Err _ => ctrs s'.1 = ctrs s.1 ∧ vols s'.1 ⊆ vols s.1 ∧ vols s.1 ⊆ vols s'.1 ∪ own
  | Ok _ => ∃ cid sp, spec_ok sp ∧ ctrs s.1 !! cid = None ∧ ctrs s'.1 = <[cid := sp]> (ctrs s.1) ∧
      list_to_set (volumes_of sp) ⊆ own ∧ vols s'.1 = list_to_set (volumes_of sp) ∪ vols s.1
  end.

Lemma left_behind_fail id P (s s' : W) e vs :
  ctrs s'.1 = ctrs s.1 → list_to_set vs ⊆ ({[volumeName "data" id; volumeName "repo" id]} : gset string) →
  vols s'.1 = (list_to_set vs ∪ vols s.1) ∖ list_to_set vs →
  left_behind id P s (Err e) s'.
Proof.
  intros Hc Hs Hv. split; [done|]. rewrite Hv. generalize dependent (list_to_set vs : gset string).
  intros X HX _. split; [set_solver|]. intros v Hin.
  destruct (decide (v ∈ X)); set_solver.
Qed.

(** The repository volume of a local instance. *)
Lemma wp_createRepoVolume ctx id inst C V (Q : result (list string * list Mount) → W → Prop) s :
  let dataVol := volumeName "data" id in
  ctrs s.1 = C → vols s.1 = {[dataVol]} ∪ V → ¬ in_use C dataVol →
  (∀ vs ms s', mt_Volume <$> ms = vs →
     list_to_set vs ⊆ ({[dataVol; volumeName "repo" id]} : gset string) → dataVol ∈ vs →
     ctrs s'.1 = C → vols s'.1 = list_to_set vs ∪ V → Q (Ok (vs, ms)) s') →
  (∀ e s', ctrs s'.1 = C → vols s'.1 = (list_to_set [dataVol] ∪ V) ∖ list_to_set [dataVol] →
     Q (Err e) s') →
  wp (createRepoVolume ctx id inst dataVol) Q s.
Proof.
  intros dataVol Hc Hv Hu HOk HErr. unfold createRepoVolume. case_bool_decide.
  - apply wp_try_or, wp_on_fst, wp_CreateVolume.
    + intros r Hc' Hv'. apply wp_ret, HOk; [done|cbn; set_solver|by left|cbn; congruence|].
      cbn. cbn in Hv'. rewrite Hv', Hv. set_solver.
    + intros e r Hc' Hv'. eapply (wp_abort C).
      * left. split; [done|]. cbn. congruence.
      * intros v ->%list_elem_of_singleton. done.
      * intros s' Hc'' Hv'' _. cbn in Hv''. apply HErr; [done|].
        rewrite Hv'', Hv', Hv. cbn. set_solver.
  - apply wp_ret, HOk; [done|cbn; set_solver|by left|done|].
    rewrite Hv. cbn. set_solver.
Qed.
End theorems.

Section leaks.
Context {R D : Type} {RT : ContainerRuntime R} {PR : Process R} {ST : InstanceStore D}
  {DL : DockerLaws R}.
Notation W := (R * D)%type.

(** The volumes an operation on [id] creates are not mounted yet. *)
Definition own_unused (id : string) (s : W) : Prop :=
  ¬ in_use (ctrs s.1) (volumeName "data" id) ∧ ¬ in_use (ctrs s.1) (volumeName "repo" id).

Lemma own_unused_list id (s : W) (vs : list string) v :
  own_unused id s → list_to_set vs ⊆ ({[volumeName "data" id; volumeName "repo" id]} : gset string) →
  v ∈ vs → ¬ in_use (ctrs s.1) v.
Proof.
  intros [H1 H2] Hs Hv.
  assert (v ∈ ({[volumeName "data" id; volumeName "repo" id]} : gset string)) as Hin
    by (apply Hs; by apply elem_of_list_to_set).
  apply elem_of_union in Hin as [->%elem_of_singleton| ->%elem_of_singleton]; done.
Qed.

(** The handler [h] undoes the creation of the volumes [vs]. *)
Definition drops {A} (s : W) (vs : list string) (h : error → M W (result A)) : Prop :=
  ∀ e s2, ctrs s2.1 = ctrs s.1 → vols s2.1 = list_to_set vs ∪ vols s.1 →
    wp (h e) (λ r s', ∃ e', r = Err e' ∧ ctrs s'.1 = ctrs s.1 ∧
                vols s'.1 = (list_to_set vs ∪ vols s.1) ∖ list_to_set vs) s2.

Definition own_list (id : string) (vs : list string) : Prop :=
  list_to_set vs ⊆ ({[volumeName "data" id; volumeName "repo" id]} : gset string).

Lemma drops_abort {A} id s vs :
  own_unused id s → own_list id vs → drops s vs (abort (R:=R) (D:=D) (A:=A) "" vs).
Proof.
  intros Hu Ho e s2 Hc Hv. apply (wp_abort (ctrs s.1)); [by left| |].
  - intros v. by eapply own_unused_list.
  - intros s' Hc' Hv' _. rewrite Hv in Hv'. by exists e.
Qed.

Lemma drops_abortReplica {A} id s vs primary slot :
  own_unused id s → own_list id vs →
  drops s vs (abortReplica (R:=R) (D:=D) (A:=A) primary slot "" vs).
Proof.
  intros Hu Ho e s2 Hc Hv. pose proof (drops_abort (A:=A) id s vs Hu Ho e s2 Hc Hv) as Ha.
  unfold abort, abortReplica in *. apply wp_bind_inv in Ha. apply wp_bind.
  eapply wp_mono; [exact Ha|]. intros a s' (e' & He & Hc' & Hv').
  apply wp_bind, wp_wkeeps; [apply wkeeps_discard, DropReplicationSlot_keeps|].
  intros b s'' Hc'' Hv''. apply wp_ret. exists e. cbn in *. rewrite Hc'', Hv''. done.
Qed.

Lemma left_behind_early id P (s s' : W) e :
  ctrs s'.1 = ctrs s.1 → vols s'.1 = vols s.1 → left_behind id P s (Err e) s'.
Proof. intros Hc Hv. unfold left_behind. rewrite Hc, Hv. set_solver. Qed.

(** A step that creates nothing, whose failure undoes [vs]. *)
Lemma wp_step {A} id P (s s1 : W) vs (m : M W (result A)) h k :
  ctrs s1.1 = ctrs s.1 → vols s1.1 = list_to_set vs ∪ vols s.1 → own_list id vs →
  wkeeps m → drops s vs h →
  (∀ a s2, ctrs s2.1 = ctrs s.1 → vols s2.1 = list_to_set vs ∪ vols s.1 →
     wp (k a) (left_behind id P s) s2) →
  wp (try_or m h k) (left_behind id P s) s1.
Proof.
  intros Hc Hv Ho Hm Hh Hk. apply wp_try_or, wp_wkeeps; [done|].
  intros [a|e] s2 Hc2 Hv2; [apply Hk; congruence|].
  eapply wp_mono; [apply Hh; congruence|]. intros r' s' (e' & -> & Hc' & Hv').
  by eapply left_behind_fail.
Qed.

(** The creation of the data volume. *)
Lemma wp_create_data id P (s s1 : W) ctx l h k :
  ctrs s1.1 = ctrs s.1 → vols s1.1 = vols s.1 → drops s [] h →
  (∀ s2, ctrs s2.1 = ctrs s.1 →
     vols s2.1 = list_to_set [volumeName "data" id] ∪ vols s.1 → wp (k tt) (left_behind id P s) s2) →
  wp (try_or (rt (CreateVolume ctx (volumeName "data" id) l)) h k) (left_behind id P s) s1.
Proof.
  intros Hc Hv Hh Hk. apply wp_try_or, wp_on_fst, wp_CreateVolume.
  - intros r Hc2 Hv2. apply Hk; cbn; [congruence|]. rewrite Hv2, Hv. set_solver.
  - intros e r Hc2 Hv2. eapply wp_mono; [apply (Hh e)|].
    + cbn. congruence.
    + cbn. rewrite Hv2, Hv. set_solver.
    + intros r' s' (e' & -> & Hc' & Hv'). eapply (left_behind_fail _ _ _ _ _ []); set_solver.
Qed.

(** From the creation of the container on: the rest of the operation is
    [guarded], and what it leaves follows. *)
Lemma wp_create_guarded id P (s s1 : W) ctx sp vs h k :
  own_unused id s →
  ctrs s1.1 = ctrs s.1 → vols s1.1 = list_to_set vs ∪ vols s.1 → own_list id vs →
  volumes_of sp = vs → P sp → drops s vs h →
  (∀ cid, cid ≠ "" → ctrs s.1 !! cid = None → (∀ v, v ∈ vs → ¬ in_use (ctrs s.1) v) →
     guarded_run (ctrs s.1) cid sp (list_to_set vs ∪ vols s.1) vs (k cid)) →
  wp (try_or (rt (CreateContainer ctx sp)) h k) (left_behind id P s) s1.
Proof.
  intros Hu Hc Hv Hs Hm HP Hh Hk. apply wp_try_or, wp_on_fst, wp_CreateContainer.
  - intros cid r Hne Hnone Hc' Hv'. rewrite Hc in Hnone, Hc'. rewrite Hv in Hv'.
    eapply wp_mono; [apply (Hk cid Hne Hnone)|].
    + intros v Hin. by eapply own_unused_list.
    + by split.
    + intros [[]|e] s' [Hc'' Hv''].
      * exists cid, sp. rewrite Hm. done.
      * by eapply left_behind_fail.
  - intros e r Hc' Hv'. eapply wp_mono; [apply (Hh e); cbn; congruence|].
    intros r' s' (e' & -> & Hc'' & Hv''). by eapply left_behind_fail.
Qed.

(** The specifications of the containers the three operations run. *)
Definition instance_spec (opts : Options) (sp : ContainerSpec) : Prop :=
  ∃ inst pw ms, sp = containerSpec opts inst pw ms.
Definition standby_spec (opts : Options) (sp : ContainerSpec) : Prop :=
  ∃ inst v, sp = replicaSpec opts inst v.

(** The steps before anything is created. *)
Ltac early :=
  repeat
    lazymatch goal with
    | |- wp (try _ _) _ _ =>
        apply wp_try, wp_wkeeps; [solve [wkeep]|]; intros [?|?] ? ? ?;
        [|apply left_behind_early; congruence]
    | |- wp (bind _ _) _ _ => apply wp_bind, wp_wkeeps; [solve [wkeep]|]; intros ? ? ? ?
    end.

(** An ignored step between two creations. *)
Ltac ignored s Hc Hv :=
  apply wp_bind, wp_wkeeps; [solve [wkeep]|]; intros ? s Hc Hv.

Lemma own_data id : own_list id [volumeName "data" id].
Proof. unfold own_list. set_solver. Qed.


(** A clone restores in a helper container and then starts its own; on
    a failure nothing of it is left, the containers of the source and its
    volumes included, which it never changes; on success exactly one container
    is new. *)
Theorem clone_no_leak hmac_hex json_Unmarshal opts ctx id source progress (s : W) :
  own_unused id s →
  wp (clone hmac_hex json_Unmarshal opts ctx id source progress) (left_behind id (instance_spec opts) s) s.
Proof.
  intros Hu. unfold clone. early.
  apply wp_create_data; [congruence|congruence|by eapply drops_abort|]. intros s2 Hc2 Hv2.
  ignored s3 Hc3 Hv3. ignored s4 Hc4 Hv4.
  eapply (wp_step id _ s _ [volumeName "data" id]); [congruence|congruence|apply own_data|wkeep|eapply drops_abort; [done|apply own_data]|].
  intros args s5 Hc5 Hv5.
  eapply (wp_step id _ s _ [volumeName "data" id]); [congruence|congruence|apply own_data|wkeep|eapply drops_abort; [done|apply own_data]|].
  intros _ s6 Hc6 Hv6.
  apply wp_try, (wp_createRepoVolume _ _ _ (ctrs s.1) (vols s.1));
    [congruence|rewrite Hv6; set_solver|by apply Hu|..].
  2: { intros e s7 Hc7 Hv7. by apply (left_behind_fail _ _ _ _ _ [volumeName "data" id]), Hv7; [|apply own_data]. }
  intros vs ms s7 Hms Hown Hdata Hc7 Hv7. ignored s8 Hc8 Hv8.
  eapply (wp_create_guarded id _ s _ _ _ vs);
    [done|congruence|congruence|done|done|by repeat eexists|by eapply drops_abort|].
  intros cid Hne Hnone Hin. guarding ltac:(by apply guarded_abort).
Qed.

(** A standby that cannot be brought up to streaming leaves neither
    its container nor its volume nor the helper of its base backup. *)
Theorem replica_no_leak opts ctx id primary progress (s : W) :
  own_unused id s →
  wp (provisionReplica opts ctx id primary progress) (left_behind id (standby_spec opts) s) s.
Proof.
  intros Hu. unfold provisionReplica. early.
  apply wp_create_data; [congruence|congruence|by eapply drops_abortReplica|]. intros s2 Hc2 Hv2.
  ignored s3 Hc3 Hv3. ignored s4 Hc4 Hv4.
  eapply (wp_step id _ s _ [volumeName "data" id]); [congruence|congruence|apply own_data|wkeep|
                   eapply drops_abortReplica; [done|apply own_data]|].
  intros _ s5 Hc5 Hv5. ignored s6 Hc6 Hv6.
  eapply (wp_create_guarded id _ s _ _ _ [volumeName "data" id]);
    [done|congruence|congruence|apply own_data|done|by repeat eexists|
     eapply drops_abortReplica; [done|apply own_data]|].
  intros cid Hne Hnone Hin. guarding ltac:(by apply guarded_abortReplica).
Qed.
End leaks.

(** ** Concrete runs *)

Lemma fresh_unused (s : FakeWorld * DBState) h id :
  fk_specs (`s.1.1) = ∅ → @own_unused _ DBState (fake_runtime h) fake_process (fake_laws h) id s.
Proof.
  intros He. split; intros (i & sp & Hl & _); change (fk_specs (`s.1.1) !! i = Some sp) in Hl;
    by rewrite He in Hl.
Qed.


Lemma sample_running_unused h :
  @own_unused _ DBState (fake_runtime h) fake_process (fake_laws h) "id-2" sample_running.
Proof.
  assert (Hs : ∃ sp, @ctrs _ _ _ (fake_laws h) sample_running.1 = {["fake-1" := sp]} ∧
    volumes_of sp = ["pgfleet-data-id-1"; "pgfleet-repo-id-1"])
    by (eexists; split; vm_compute; reflexivity).
  destruct Hs as (sp & Hs & Hv). unfold own_unused, in_use. rewrite Hs.
  split; intros (i & sp' & [_ <-]%lookup_singleton_Some & Hin); rewrite Hv in Hin;
    repeat (apply elem_of_cons in Hin as [Hin|Hin]; [discriminate Hin|]);
    by apply elem_of_nil in Hin.
Qed.

Lemma clone_no_leak_witness :
  let s := sample_running in
  let source := sample_row s "id-1" in
  let run code := @clone _ _ (fake_runtime (sample_hooks exec_ok code)) fake_process sample_instances
    sample_hmac sample_json sample_opts CallerCtx "id-2" source NoProgress in
  let post code := @left_behind _ DBState (fake_runtime (sample_hooks exec_ok code)) fake_process
    (fake_laws _) "id-2" (instance_spec sample_opts) s in
  is_ok (run 0%Z s).1 = true ∧ wp (run 0%Z) (post 0%Z) s ∧
  is_ok (run 1%Z s).1 = false ∧ wp (run 1%Z) (post 1%Z) s.
Proof.
  intros s source run post. split; [vm_compute; reflexivity|].
  split; [exact (clone_no_leak _ _ _ _ _ _ _ _ (sample_running_unused _))|].
  split; [vm_compute; reflexivity|].
  exact (clone_no_leak _ _ _ _ _ _ _ _ (sample_running_unused _)).
Defined.

Lemma replica_no_leak_witness :
  let s := sample_running in
  let primary := sample_row s "id-1" in
  let run code := @provisionReplica _ _ (fake_runtime (sample_hooks exec_ok code)) fake_process
    sample_instances sample_opts CallerCtx "id-2" primary NoProgress in
  let post code := @left_behind _ DBState (fake_runtime (sample_hooks exec_ok code)) fake_process
    (fake_laws _) "id-2" (standby_spec sample_opts) s in
  is_ok (run 0%Z s).1 = true ∧ wp (run 0%Z) (post 0%Z) s ∧
  is_ok (run 1%Z s).1 = false ∧ wp (run 1%Z) (post 1%Z) s.
Proof.
  intros s primary run post. split; [vm_compute; reflexivity|].
  split; [exact (replica_no_leak _ _ _ _ _ _ (sample_running_unused _))|].
  split; [vm_compute; reflexivity|].
  exact (replica_no_leak _ _ _ _ _ _ (sample_running_unused _)).
Defined.
