(* ===== verification/Polling.v ===== *)
(** * The polling loops end

    [waitReady], [waitRestoreExit] and [verifyStreaming] poll until a deadline.
    The model gives each a number of rounds; here that number is shown to be
    enough: more rounds never change what the loop does ([polling_rounds_enough]),
    because every round that does not end the loop lets the clock advance by
    the length of its sleep. *)

From stdpp Require Import gmap sets.
From S2P Require Import Prelude GoStrings Apperr GoMonad Instances PgBackRest Runtime DockerFake Stores Provision ProvisionOps MetaDB Samples.

Section polling.
Context {R D : Type} {RT : ContainerRuntime R} {PR : Process R} {CL : ClockLaws R}.
Notation W := (R * D)%type.
Implicit Types (s : W) (ctx : Context).

(** One round of [d] nanoseconds of a loop with deadline [dl], which has enough
    rounds left when the deadline falls before the end of the last sleep. *)
Definition enough (dl d : Z) (fuel : nat) (s : W) : Prop :=
  (dl < clock s.1 + (Z.of_nat fuel - 1) * d)%Z.

(** Two runs agree after a deadline check and a sleep, if they agree on every
    state in which enough rounds are left. *)
Lemma poll_step {A} (m1 m2 late : M W (result A)) ctx dl d fuel s :
  (0 < d)%Z → enough dl d (S fuel) s →
  (∀ s', 0 < fuel → enough dl d fuel s' → m1 s' = m2 s') →
  (t <- rt now ;;
   if bool_decide (dl < t)%Z then late else _ <-? rt (sleep ctx d) ;; m1) s =
  (t <- rt now ;;
   if bool_decide (dl < t)%Z then late else _ <-? rt (sleep ctx d) ;; m2) s.
Proof.
  intros Hd He Hm. unfold enough in *. destruct s as [r db]. unfold bind, rt, on_fst. cbn [fst snd] in *.
  destruct (now_clock r) as [Ht Hc]. destruct (now r) as [t r1]. cbn [fst snd] in Ht, Hc. subst t.
  case_bool_decide as Hdl; [done|]. unfold try, try_or, bind, on_fst. cbn [fst snd].
  pose proof (proj2 (sleep_clock ctx d r1 ltac:(lia))) as Hs. destruct (sleep ctx d r1) as [[[]|e] r2]; [|done].
  cbn [fst snd is_ok] in Hs. specialize (Hs eq_refl).
  apply Hm; cbn [fst snd]; nia.
Qed.

Lemma enough_after_Exec ctx cid cmd dl d fuel s :
  enough dl d fuel s → enough dl d fuel (rt (D:=D) (Exec ctx cid cmd) s).2.
Proof.
  destruct s as [r db]. unfold enough, rt, on_fst. cbn [fst snd].
  pose proof (Exec_clock ctx cid cmd r). destruct (Exec ctx cid cmd r). cbn [fst snd] in *. lia.
Qed.

Lemma enough_after_Inspect ctx cid dl d fuel s :
  enough dl d fuel s → enough dl d fuel (rt (D:=D) (Inspect ctx cid) s).2.
Proof.
  destruct s as [r db]. unfold enough, rt, on_fst. cbn [fst snd].
  pose proof (Inspect_clock ctx cid r). destruct (Inspect ctx cid r). cbn [fst snd] in *. lia.
Qed.

Lemma bind_run {A B} (m : M W A) (k : A → M W B) s : bind m k s = k (m s).1 (m s).2.
Proof. unfold bind. by destruct (m s). Qed.

Lemma try_run {A B} (m : M W (result A)) (k : A → M W (result B)) s :
  try m k s = match (m s).1 with Ok a => k a (m s).2 | Err e => (Err e, (m s).2) end.
Proof. unfold try, try_or. rewrite bind_run. by destruct (m s).1. Qed.

Lemma waitReady_more ctx cid su dl n fuel s :
  0 < fuel → enough dl Second fuel s →
  waitReady_loop (fuel + n) ctx cid su dl s = waitReady_loop fuel ctx cid su dl s.
Proof.
  revert s. induction fuel as [|fuel IH]; intros s Hf He; [lia|].
  cbn [Nat.add waitReady_loop]. rewrite !(bind_run (rt (Exec ctx cid _))).
  pose proof (enough_after_Exec ctx cid ["pg_isready"; "-U"; su; "-h"; "127.0.0.1"] dl Second (S fuel) s He) as He1.
  destruct (rt (Exec ctx cid _) s) as [res s1]. cbn [fst snd] in He1 |- *.
  pose proof (poll_step _ _ (fail (New KindInternal "provision: postgres did not become ready in time")) ctx
    dl Second fuel s1 eq_refl He1 IH) as Hp.
  by destruct res as [[[] ? ?]|].
Qed.

Lemma waitRestoreExit_more ctx cid dl n fuel s :
  0 < fuel → enough dl Second fuel s →
  waitRestoreExit_loop (fuel + n) ctx cid dl s = waitRestoreExit_loop fuel ctx cid dl s.
Proof.
  revert s. induction fuel as [|fuel IH]; intros s Hf He; [lia|].
  cbn [Nat.add waitRestoreExit_loop]. rewrite !(try_run (rt (Inspect ctx cid))).
  pose proof (enough_after_Inspect ctx cid dl Second (S fuel) s He) as He1.
  destruct (rt (Inspect ctx cid) s) as [res s1]. cbn [fst snd] in He1 |- *.
  pose proof (poll_step _ _ (fail (New KindInternal "provision: restore timed out")) ctx
    dl Second fuel s1 eq_refl He1 IH) as Hp.
  destruct res as [st|]; [|done]. by destruct (_ && _).
Qed.

Lemma verifyStreaming_more ctx cid app dl n fuel s :
  0 < fuel → enough dl (2 * Second) fuel s →
  verifyStreaming_loop (fuel + n) ctx cid app dl s = verifyStreaming_loop fuel ctx cid app dl s.
Proof.
  revert s. induction fuel as [|fuel IH]; intros s Hf He; [lia|].
  cbn [Nat.add verifyStreaming_loop]. rewrite !(bind_run (rt (Exec ctx cid _))).
  pose proof (enough_after_Exec ctx cid (asPostgres ["psql"; "-tAc"; streaming_sql app]) dl (2 * Second)
    (S fuel) s He) as He1.
  destruct (rt (Exec ctx cid _) s) as [res s1]. cbn [fst snd] in He1 |- *.
  pose proof (poll_step _ _ (fail (New KindInternal "provision: replica did not start streaming in time")) ctx
    dl (2 * Second) fuel s1 eq_refl He1 IH) as Hp.
  by destruct (match res with Ok r => _ | Err _ => _ end).
Qed.

(** [m], the wait of the model, started at the current time with [timeout],
    does what the loop does with any number of further rounds. *)
Definition rounds_enough {A} (loop : nat → Z → M W (result A)) (rounds : nat) (timeout : Z)
    (m : M W (result A)) : Prop :=
  ∀ n s, m s = (t <- rt now ;; loop (rounds + n) (t + timeout)%Z) s.

Lemma rounds_enough_intro {A} (loop : nat → Z → M W (result A)) rounds timeout d :
  (∀ dl n s, enough dl d rounds s → loop (rounds + n) dl s = loop rounds dl s) →
  (timeout < (Z.of_nat rounds - 1) * d)%Z →
  rounds_enough loop rounds timeout (t <- rt now ;; loop rounds (t + timeout)%Z).
Proof.
  intros Hl Ht n [r db]. unfold bind, rt, on_fst. cbn [fst snd].
  destruct (now_clock r) as [Hn Hc]. destruct (now r) as [t r1]. cbn [fst snd] in Hn, Hc. subst t.
  symmetry. apply Hl. unfold enough. cbn [fst]. lia.
Qed.

(** C40: the three waits of the provisioner end on their own:
    with a clock that advances by at least what a completed sleep asked for, no
    run of a wait ever uses up the rounds the model gives it, so giving it any
    number of further rounds is the same computation.  The rounds are those of
    the deadlines: 90 seconds in steps of one, five minutes in steps of one, one
    minute in steps of two. *)
Theorem polling_rounds_enough ctx cid :
  (∀ superuser, rounds_enough (λ n dl, waitReady_loop n ctx cid superuser dl)
     waitReady_fuel readyTimeout (waitReady (R:=R) (D:=D) ctx cid superuser)) ∧
  rounds_enough (λ n dl, waitRestoreExit_loop n ctx cid dl) 302 restoreTimeout
    (waitRestoreExit (R:=R) (D:=D) ctx cid) ∧
  (∀ appName, rounds_enough (λ n dl, verifyStreaming_loop n ctx cid appName dl) 32 (60 * Second)
     (verifyStreaming (R:=R) (D:=D) ctx cid appName)).
Proof.
  split_and!; [intros su| |intros app].
  - apply (rounds_enough_intro (λ n dl, waitReady_loop n ctx cid su dl) _ _ Second); [|done].
    intros dl n s. apply waitReady_more. cbv. lia.
  - apply (rounds_enough_intro (λ n dl, waitRestoreExit_loop n ctx cid dl) _ _ Second); [|done].
    intros dl n s. apply waitRestoreExit_more. lia.
  - apply (rounds_enough_intro (λ n dl, verifyStreaming_loop n ctx cid app dl) _ _ (2 * Second)); [|done].
    intros dl n s. apply verifyStreaming_more. lia.
Qed.
End polling.

(** ** The fake's clock *)

#[export] Instance fake_clock h : @ClockLaws FakeWorld (fake_runtime h) fake_process.
Proof.
  assert (Hkeep : ∀ A (m : M {f : Fake | fake_wf f} A) (w : FakeWorld),
            (w.2.1 ≤ (on_fst (T := Z * Z) m w).2.2.1)%Z).
  { intros A m [f t]. unfold on_fst. cbn. destruct (m f). cbn. lia. }
  refine (@Build_ClockLaws FakeWorld (fake_runtime h) fake_process (λ w, w.2.1) _ _ _ _).
  - done.
  - intros ctx d w Hd. cbn. split; [lia|intros _; lia].
  - intros. apply Hkeep.
  - intros. apply Hkeep.
Defined.

Lemma polling_rounds_enough_witness :
  @rounds_enough FakeWorld DBState fake_process unit
    (λ n dl, @waitReady_loop _ DBState (fake_runtime sample_hooks_ok) fake_process n CallerCtx "fake-1" "postgres" dl)
    waitReady_fuel readyTimeout
    (@waitReady _ DBState (fake_runtime sample_hooks_ok) fake_process CallerCtx "fake-1" "postgres").
Proof.
  exact (proj1 (@polling_rounds_enough FakeWorld DBState (fake_runtime sample_hooks_ok) fake_process
                  (fake_clock sample_hooks_ok) CallerCtx "fake-1") "postgres").
Defined.
