(* ===== verification/ProvisionOrder.v ===== *)
(** * The order of effects of a provisioning

    [Provision] on a runtime that logs its calls ([traced_runtime]).  When it
    succeeds, the log holds the milestones of bringing an instance up, each with
    its success, in order, the last of them the check of the archive; and the
    row names the container they happened in ([provision_order]).  [gives] is a
    small program logic for such statements: a triple whose postcondition also
    speaks of the calls appended to the log. *)

From stdpp Require Import gmap sets.
From S2P Require Import Prelude GoStrings Apperr GoMonad Triples PgConfig Instances PgBackRest Runtime DockerFake Stores MetaDB Provision ProvisionOps Samples.

(** ** Successful steps *)

Inductive Step :=
  | Created (sp : ContainerSpec) (cid : string)
  | Started (cid : string)
  | Ran (cid : string) (cmd : list string)
  | VolumeCreated (v : string).

(** What a call of the log achieved; a command counts when it exits with 0. *)
Definition step_of (c : Call) : option Step :=
  match c with
  | CallCreate sp (Ok cid) => Some (Created sp cid)
  | CallStart cid (Ok _) => Some (Started cid)
  | CallExec cid cmd (Ok r) => if bool_decide (er_ExitCode r = 0)%Z then Some (Ran cid cmd) else None
  | CallCreateVolume v (Ok _) => Some (VolumeCreated v)
  | _ => None
  end.
Definition steps (l : list Call) : list Step := omap step_of l.

Lemma steps_app l1 l2 : steps (l1 ++ l2) = steps l1 ++ steps l2.
Proof. apply omap_app. Qed.

(** The milestones are reached one after the other. *)
Lemma milestone_app ms1 ms2 l1 l2 :
  ms1 `sublist_of` steps l1 → ms2 `sublist_of` steps l2 → ms1 ++ ms2 `sublist_of` steps (l1 ++ l2).
Proof. rewrite steps_app. apply sublist_app. Qed.

Section order.
Context {R D : Type} {RT0 : ContainerRuntime R} {PR0 : Process R} {ST : InstanceStore D}.
Notation W := ((R * list Call) * D)%type.
#[local] Existing Instance traced_runtime.
#[local] Existing Instance process_fst.
Implicit Types (s : W) (l : list Call) (I J : D → Prop).

Notation gives := (Triples.gives (λ s : W, s.1.2) (λ s : W, s.2)).
Notation quiet := (Triples.quiet (λ s : W, s.1.2) (λ s : W, s.2)).
Notation silent := (Triples.silent (λ s : W, s.1.2) (λ s : W, s.2)).

Lemma gives_rt {A} I (ev : result A → Call) (m : M R (result A)) :
  gives I (rt (traced ev m)) (λ a l d, l = [ev (Ok a)] ∧ I d).
Proof.
  intros [[r lg] d] Hd. unfold rt, on_fst, traced. cbn [fst snd]. destruct (m r) as [[a|e] r'];
    cbn [fst snd]; by eexists.
Qed.

Lemma gives_repo {A} I (m : M D (result A)) (P : A → D → Prop) :
  (∀ d, I d → wp m (λ r d', match r with Ok a => P a d' | Err _ => True end) d) →
  gives I (repo m) (λ a l d, l = [] ∧ P a d).
Proof.
  intros Hm [[r lg] d] Hd. exists []. specialize (Hm d Hd). revert Hm. unfold wp, repo, on_snd. cbn [fst snd].
  rewrite app_nil_r. by destruct (m d) as [[a|e] d'].
Qed.

Lemma quiet_rt {A} I (ev : A → Call) (m : M R A) : quiet I (rt (traced ev m)) I.
Proof. intros [[r lg] d] Hd. unfold rt, on_fst, traced. cbn [fst snd] in *. destruct (m r). by eexists. Qed.

Lemma silent_process {A} I (m : M R A) : silent I (rt (on_fst m)) I.
Proof. intros [[r lg] d] Hd. unfold rt, on_fst. cbn [fst snd] in *. by destruct (m r). Qed.

Lemma silent_repo {A} I (m : M D A) : silent I (repo m) (λ _, True).
Proof. intros [[r lg] d] Hd. unfold repo, on_snd. cbn [fst snd] in *. by destruct (m d). Qed.

(** ** The operations *)

Lemma silent_emit I p step detail : silent I (emit p step detail) I.
Proof. destruct p; [done|apply silent_process]. Qed.

Lemma quiet_cleanup c vs I : quiet I (cleanup (R := R * list Call) (D := D) c vs) I.
Proof.
  unfold cleanup. eapply quiet_bind.
  - unfold when. destruct (bool_decide _); [|apply quiet_ret]. apply quiet_discard, quiet_rt.
  - intros _. induction vs as [|v vs IH]; [apply quiet_ret|].
    cbn [for_each]. eapply quiet_bind; [apply quiet_discard, quiet_rt|]. intros []. apply IH.
Qed.

Lemma gives_abort {A} I c vs e (P : A → list Call → D → Prop) :
  gives I (abort (R := R * list Call) (D := D) c vs e) P.
Proof. eapply gives_bind; [apply quiet_cleanup|]. intros _ l. apply gives_fail. Qed.

Lemma gives_execOK I ctx cid cmd :
  gives I (execOK (R := R * list Call) ctx cid cmd) (λ _ l d, steps l = [Ran cid cmd] ∧ I d).
Proof.
  unfold execOK. eapply gives_try; [apply gives_rt|]. intros res l1. apply gives_pure. intros ->.
  case_bool_decide as He; [apply gives_fail|]. apply gives_ok. intros d Hd. split; [|done].
  cbn. rewrite bool_decide_eq_true_2; [done|lia].
Qed.

Lemma quiet_execOK I ctx cid cmd : quiet I (execOK (R := R * list Call) ctx cid cmd) I.
Proof.
  unfold execOK. apply quiet_try; [apply quiet_rt|]. intros res. case_bool_decide; apply quiet_ret.
Qed.

Definition ready_cmd (su : string) : list string := ["pg_isready"; "-U"; su; "-h"; "127.0.0.1"].

Lemma gives_waitReady_loop I fuel ctx cid su dl :
  gives I (waitReady_loop (R := R * list Call) fuel ctx cid su dl)
    (λ _ l d, [Ran cid (ready_cmd su)] `sublist_of` steps l ∧ I d).
Proof.
  induction fuel as [|fuel IH]; [apply gives_fail|]. cbn [waitReady_loop].
  assert (Hpoll : ∀ l1, gives I
    (t0 <- rt now ;;
     if bool_decide (dl < t0)%Z then fail (New KindInternal "provision: postgres did not become ready in time")
     else _ <-? rt (sleep ctx Second) ;; waitReady_loop fuel ctx cid su dl)
    (λ _ l d, [Ran cid (ready_cmd su)] `sublist_of` steps (l1 ++ l) ∧ I d)).
  { intros l1. eapply gives_bind; [apply silent_quiet, silent_process|]. intros t0 l2. case_bool_decide; [apply gives_fail|].
    eapply (gives_case _ _ I I _ _ (λ _ _, I)); [|apply silent_quiet, silent_process| |intros; apply gives_fail].
    - intros s Hs. destruct (silent_process I (sleep ctx Second) s Hs) as [Hl Hd]. exists [].
      rewrite app_nil_r.
      split; [exact Hl|]. by destruct (rt (sleep ctx Second) s).1.
    - intros [] l3. eapply gives_mono; [apply IH|]. intros _ l d [Hs Hd]. split; [|done].
      rewrite !app_assoc, steps_app. by apply sublist_inserts_l. }
  eapply gives_case; [apply gives_rt|apply quiet_rt| |intros e l1; apply Hpoll].
  intros [[] out err] l1; apply gives_pure; intros ->; try apply Hpoll.
  apply gives_ok. intros d Hd. by split.
Qed.

Lemma gives_waitReady I ctx cid su :
  gives I (waitReady (R := R * list Call) ctx cid su)
    (λ _ l d, [Ran cid (ready_cmd su)] `sublist_of` steps l ∧ I d).
Proof.
  unfold waitReady. eapply gives_silent; [apply silent_process|]. intros t. apply gives_waitReady_loop.
Qed.

(** The extensions are created in order. *)
Lemma gives_extensions I ctx cid su exts :
  gives I (for_each_e exts tt (λ _ ext, execOK (R := R * list Call) ctx cid (createExtension su ext)))
    (λ _ l d, steps l = (λ ext, Ran cid (createExtension su ext)) <$> exts ∧ I d).
Proof.
  induction exts as [|ext exts IH]; [by apply gives_ok|]. cbn [for_each_e].
  eapply gives_try; [apply gives_execOK|]. intros [] l1. apply gives_pure. intros Hl1.
  eapply gives_mono; [apply IH|]. intros _ l d [Hl Hd]. split; [|done]. by rewrite steps_app, Hl1, Hl.
Qed.
(** ** Provisioning *)

Lemma gives_writeConfig hmac_hex opts I ctx cid inst :
  gives I (writeConfig (R := R * list Call) hmac_hex opts ctx cid inst)
    (λ _ l d, (∃ conf, backrestConf hmac_hex opts inst = Ok conf ∧
                steps l = [Ran cid ["sh"; "-c"; writeConfig_script conf]]) ∧ I d).
Proof.
  unfold writeConfig. eapply gives_try; [apply gives_lift|]. intros conf l1.
  apply gives_pure. intros ->. apply gives_pure. intros Hconf.
  eapply gives_mono; [apply gives_execOK|]. intros _ l d [Hl Hd]. split; [by exists conf|done].
Qed.

Lemma quiet_createRepoVolume I ctx id inst v :
  gives I (createRepoVolume (R := R * list Call) (D := D) ctx id inst v) (λ _ _, I).
Proof.
  unfold createRepoVolume. case_bool_decide; [|by apply gives_ok].
  eapply gives_try_or; [apply gives_rt|intros; apply gives_abort|]. intros [] l1.
  apply gives_pure. intros _. by apply gives_ok.
Qed.
End order.

(** What happens on the way to a running instance, in this order. *)
Definition bring_up (opts : Options) (id : string) (inst : Inst) (password : string)
    (mounts : list Mount) (conf cid : string) : list Step :=
  [VolumeCreated (volumeName "data" id);
   Created (containerSpec opts inst password mounts) cid;
   Started cid;
   Ran cid (ready_cmd (inst_Superuser inst))] ++
  ((λ ext, Ran cid (createExtension (inst_Superuser inst) ext)) <$> inst_Extensions inst) ++
  [Ran cid ["sh"; "-c"; writeConfig_script conf];
   Ran cid (asPostgres (StanzaCreate (inst_Stanza inst) confPath));
   Ran cid (asPostgres (CheckCmd (inst_Stanza inst) confPath))].

Section provision.
Context {R D : Type} {RT0 : ContainerRuntime R} {PR0 : Process R} {ST : InstanceStore D} {SL : StoreLaws D}.
Notation W := ((R * list Call) * D)%type.
#[local] Existing Instance traced_runtime.
#[local] Existing Instance process_fst.
Notation gives := (Triples.gives (λ s : W, s.1.2) (λ s : W, s.2)).

(** The row [id] is on container [cid]. *)
Definition on_container (id cid : string) (d : D) : Prop :=
  ∃ i, rows d !! id = Some i ∧ inst_ContainerID i = cid.

Lemma SetRuntime_on ctx id cid port d :
  wp (repo_SetRuntime ctx id cid port)
    (λ r d', match r with Ok _ => on_container id cid d' | Err _ => True end) d.
Proof.
  eapply wp_update; [apply repo_SetRuntime_law| |done].
  intros t d' [i Hi] Hr. unfold on_container. rewrite Hr, lookup_alter_eq, Hi. by eexists.
Qed.

Definition brought_up (hmac_hex : string → string → string) opts id inst0
    (l : list Call) (d : D) : Prop :=
  let inst := inst_set_Encrypted (op_BackupEncryption opts) inst0 in
  ∃ password mounts conf cid,
    backrestConf hmac_hex opts inst = Ok conf ∧
    bring_up opts id inst password mounts conf cid `sublist_of` steps l ∧
    last (steps l) = Some (Ran cid (asPostgres (CheckCmd (inst_Stanza inst) confPath))) ∧
    on_container id cid d.

Lemma gives_stamp ctx id inst b :
  gives (λ _, True) (stampEncrypted (R := R * list Call) ctx id inst b)
    (λ i l (_ : D), l = [] ∧ i = inst_set_Encrypted b inst ∧ True).
Proof.
  unfold stampEncrypted. destruct (Bool.eqb _ _) eqn:He.
  - apply eqb_prop in He as <-. apply gives_ok. intros _ _. split_and!; [done| |done]. by destruct inst.
  - eapply gives_try; [apply (gives_repo _ _ (λ _ _, True)); intros; by apply wp_any; intros [?|?] ?|].
    intros [] l1. apply gives_pure. intros ->. by apply gives_ok.
Qed.

Lemma gives_provision hmac_hex opts ctx id progress inst0 :
  gives (λ d, rows d !! id = Some inst0) (provision (R := R * list Call) hmac_hex opts ctx id progress)
    (λ _, brought_up hmac_hex opts id inst0).
Proof.
  unfold provision.
  eapply gives_try; [apply (gives_repo _ _ (λ i _, i = inst0 ∧ True))|].
  { intros d Hd. eapply wp_mono; [apply repo_Get_law|]. intros [i|e] d' [_ Hi]; [|done].
    rewrite Hd in Hi. split; [|done]. by destruct Hi as [[= ->] _]. }
  intros inst l1. apply gives_pure. intros ->. apply gives_pure. intros ->.
  eapply gives_try; [apply gives_stamp|]. intros inst l1. apply gives_pure. intros ->. apply gives_pure. intros ->.
  set (inst := inst_set_Encrypted (op_BackupEncryption opts) inst0).
  eapply gives_try; [apply (gives_repo _ _ (λ _ _, True)); intros; by apply wp_any; intros [?|?] ?|].
  intros password l1. apply gives_pure. intros ->.
  eapply gives_silent; [apply silent_emit|]. intros _.
  eapply gives_try; [apply gives_rt|]. intros [] l1. apply gives_pure. intros _.
  eapply gives_silent; [apply silent_emit|]. intros _.
  eapply gives_try_or; [apply gives_rt|intros; apply gives_abort|]. intros [] l2. apply gives_pure. intros ->.
  eapply gives_silent; [apply silent_discard, silent_repo|]. intros _.
  eapply gives_try; [apply quiet_createRepoVolume|]. intros [vs mounts] l3.
  eapply gives_silent; [apply silent_emit|]. intros _.
  eapply gives_try_or; [apply gives_rt|intros; apply gives_abort|]. intros cid l4. apply gives_pure. intros ->.
  eapply gives_silent; [apply silent_discard, silent_repo|]. intros _.
  eapply gives_try_or; [apply gives_rt|intros; apply gives_abort|]. intros [] l5. apply gives_pure. intros ->.
  eapply gives_try_or; [apply gives_rt|intros; apply gives_abort|]. intros state l6. apply gives_pure. intros _.
  eapply gives_try_or; [apply gives_lift|intros; apply gives_abort|]. intros port l7.
  apply gives_pure. intros ->. apply gives_pure. intros _.
  eapply gives_try_or; [apply (gives_repo _ _ (λ _, on_container id cid)); intros; apply SetRuntime_on|
                        intros; apply gives_abort|].
  intros [] l8. apply gives_pure. intros ->.
  eapply gives_silent; [apply silent_emit|]. intros _.
  eapply gives_try_or; [apply gives_waitReady|intros; apply gives_abort|]. intros [] l9. apply gives_pure. intros H9.
  eapply gives_silent; [apply silent_emit|]. intros _.
  eapply gives_bind; [apply quiet_discard, quiet_execOK|]. intros [] l10.
  eapply gives_try_or; [apply gives_extensions|intros; apply gives_abort|]. intros [] l11. apply gives_pure. intros H11.
  eapply gives_silent; [apply silent_emit|]. intros _.
  eapply gives_try_or; [apply gives_writeConfig|intros; apply gives_abort|]. intros [] l12.
  apply gives_pure. intros (conf & Hconf & H12).
  eapply gives_silent; [apply silent_emit|]. intros _.
  eapply gives_try_or; [apply gives_execOK|intros; apply gives_abort|]. intros [] l13. apply gives_pure. intros H13.
  eapply gives_silent; [apply silent_emit|]. intros _.
  eapply gives_try_or; [apply gives_execOK|intros; apply gives_abort|]. intros [] l14. apply gives_pure. intros H14.
  eapply gives_silent; [apply silent_emit|]. intros _.
  apply gives_ok. intros d Hd. exists password, mounts, conf, cid. rewrite !app_nil_l, app_nil_r.
  split_and!; [done| | |done].
  - unfold bring_up. cbn [app].
    rewrite steps_app. apply sublist_inserts_l.
    apply (milestone_app [_] (_ :: _) [_]); [done|].
    rewrite steps_app. apply sublist_inserts_l.
    apply (milestone_app [_] (_ :: _) [_]); [done|]. apply (milestone_app [_] (_ :: _) [_]); [done|].
    rewrite steps_app. apply sublist_inserts_l.
    apply (milestone_app [_]); [done|].
    rewrite steps_app. apply sublist_inserts_l.
    apply (milestone_app (_ <$> _) [_; _; _]); [by rewrite H11|]. apply (milestone_app [_] [_; _]); [by rewrite H12|].
    apply (milestone_app [_] [_]); [by rewrite H13|by rewrite H14].
  - rewrite !app_assoc, steps_app, H14. apply last_snoc.
Qed.

(** When [Provision] reports success, the data volume was created,
    the container was created on the instance's own specification and started,
    Postgres answered, every extension of the row was created in the order of the
    row, the archiving configuration of the row (with the encryption decided at
    this moment) was written, the stanza was created and the archive check passed,
    each with success and in this order; the check is the last thing that
    happened, and the row is running on that container. *)
Theorem provision_order hmac_hex opts ctx id progress inst0 (s : W) :
  rows s.2 !! id = Some inst0 →
  wp (Provision (R := R * list Call) hmac_hex opts ctx id progress) (λ r s',
    is_ok r = true →
    ∃ l, s'.1.2 = s.1.2 ++ l ∧ brought_up hmac_hex opts id inst0 l s'.2 ∧
         inst_Status <$> rows s'.2 !! id = Some StatusRunning) s.
Proof.
  intros Hrow.
  assert (Hg : gives (λ d, rows d !! id = Some inst0)
    (Provision (R := R * list Call) hmac_hex opts ctx id progress)
    (λ _ l d, brought_up hmac_hex opts id inst0 l d ∧ inst_Status <$> rows d !! id = Some StatusRunning)).
  { unfold Provision, recording. eapply gives_try_or; [apply gives_provision| |].
    - intros e l1. eapply gives_silent; [apply silent_discard, silent_repo|]. intros _. apply gives_fail.
    - intros [] l1. eapply gives_mono; [apply (gives_repo _ _ (λ _ d,
        brought_up hmac_hex opts id inst0 l1 d ∧ inst_Status <$> rows d !! id = Some StatusRunning))|].
      + intros d (pw & ms & conf & cid & Hconf & Hup & Hlast & i & Hi & Hcid).
        eapply wp_update; [apply repo_SetStatus_law| |done].
        intros t d' _ Hr. rewrite Hr, lookup_alter_eq, Hi. split; [|done].
        exists pw, ms, conf, cid. split_and!; [done..|]. eexists. by rewrite Hr, lookup_alter_eq, Hi.
      + intros [] l d [-> Hd]. by rewrite app_nil_r. }
  destruct (Hg s Hrow) as (l & Hl & HP). unfold wp. intros Hok. exists l.
  destruct (Provision _ _ _ _ _ s).1; [|done]. destruct HP. by split_and!.
Qed.
End provision.

(** The sample instance, provisioned on a logging runtime. *)
Definition sample_inst : Inst := default zeroInst (db_rows (`sample_db) !! "id-1").

Lemma sample_inst_row : db_rows (`sample_db) !! "id-1" = Some sample_inst.
Proof. vm_compute. reflexivity. Qed.

Lemma provision_order_witness :
  let run := @Provision _ _ (@traced_runtime _ (fake_runtime sample_hooks_ok)) (@process_fst _ _ fake_process)
    sample_instances sample_hmac sample_opts CallerCtx "id-1" Progress in
  let s := ((sample_world, []), sample_db) in
  (run s).1 = Ok tt ∧
  wp run (λ r s', is_ok r = true →
    ∃ l, s'.1.2 = s.1.2 ++ l ∧
      @brought_up _ _ (metadb_laws sample_seal sample_open) sample_hmac sample_opts "id-1" sample_inst l s'.2 ∧
      inst_Status <$> db_rows (`s'.2) !! "id-1" = Some StatusRunning) s.
Proof.
  intros run s. split; [vm_compute; reflexivity|].
  exact (@provision_order _ _ (fake_runtime sample_hooks_ok) fake_process sample_instances
           (metadb_laws sample_seal sample_open) sample_hmac sample_opts CallerCtx "id-1" Progress
           sample_inst s sample_inst_row).
Defined.
