(* ===== verification/RestoreSafety.v ===== *)
(** * Restores in place and restore drills

    A restore that fails leaves the live container, the live volume and the row
    that names them as they were; one that succeeds has replaced both.  A drill
    touches nothing. *)

From stdpp Require Import gmap sets.
From S2P Require Import Prelude GoStrings Apperr GoMonad PgConfig Instances PgBackRest PgCat Runtime DockerFake Stores MetaDB Provision ProvisionOps ProvisionFacts Samples.

(** The name of the staging volume of a restore. *)
Definition stagingVolume (id stamp : string) : string := "pgfleet-data-" +:+ id +:+ "-r" +:+ stamp.

Section restore.
Context {R D : Type} {RT : ContainerRuntime R} {PR : Process R} {ST : InstanceStore D}
  {DL : DockerLaws R} {SL : StoreLaws D}.
Notation W := (R * D)%type.

(** The row of the instance names this container and this data volume. *)
Definition pins (id cid vol : string) (d : D) : Prop :=
  ∀ i, rows d !! id = Some i → inst_ContainerID i = cid ∧ inst_DataVolume i = vol.

(** A stamp drawn now names a volume that does not exist yet. *)
Definition fresh_stamp (id : string) (s : W) : Prop :=
  ∀ s1 : W, ctrs s1.1 = ctrs s.1 → vols s1.1 = vols s.1 →
    stagingVolume id (shortStamp s1).1 ∉ vols s.1 ∧
    ¬ in_use (ctrs s.1) (stagingVolume id (shortStamp s1).1).

Lemma pins_update id cid vol id' f (m : M D (result unit)) d :
  updates rows id' f m →
  (∀ i, inst_ContainerID i = cid → inst_DataVolume i = vol →
     inst_ContainerID (f i) = cid ∧ inst_DataVolume (f i) = vol) →
  pins id cid vol d → pins id cid vol (m d).2.
Proof.
  intros Hu Hf Hp i Hi. specialize (Hu d). unfold wp in Hu.
  destruct (m d) as [[[]|e] d']; cbn in *; [|rewrite Hu in Hi; by apply Hp].
  destruct Hu as [_ [t Hr]]. rewrite Hr in Hi.
  destruct (decide (id' = id)) as [->|Hne].
  - rewrite lookup_alter_eq in Hi. destruct (rows d !! id) as [i0|] eqn:H0; [|done].
    cbn in Hi. injection Hi as <-. destruct (Hp i0 H0). by apply Hf.
  - rewrite lookup_alter_ne in Hi by done. by apply Hp.
Qed.

Lemma dkeeps_SetStatus id cid vol ctx id' st e :
  dkeeps (R:=R) (pins id cid vol) (repo (repo_SetStatus ctx id' st e)).
Proof. apply dkeeps_repo. intros d. by apply (pins_update _ _ _ id' _ _ d (repo_SetStatus_law _ _ _ _)). Qed.

Lemma dkeeps_Password id cid vol ctx id' :
  dkeeps (R:=R) (pins id cid vol) (repo (repo_Password ctx id')).
Proof.
  apply dkeeps_repo. intros d Hp i Hi. apply Hp.
  pose proof (repo_Password_law ctx id' d) as H. unfold wp in H. congruence.
Qed.

Lemma dkeeps_refreshPort id cid vol ctx :
  dkeeps (R:=R) (pins id cid vol) (refreshPort ctx id cid).
Proof.
  unfold refreshPort. apply dkeeps_bind; [apply dkeeps_rt|]. intros st.
  destruct (rbind _ _) as [port|e]; [|apply dkeeps_ret]. apply dkeeps_discard, dkeeps_repo.
  intros d. apply (pins_update _ _ _ id _ _ d (repo_SetRuntime_law _ _ _ _)). done.
Qed.

(** What a failed restore brings back. *)
Definition undone (id : string) (inst : Inst) (s s' : W) : Prop :=
  ctrs s'.1 = ctrs s.1 ∧ vols s'.1 = vols s.1 ∧
  pins id (inst_ContainerID inst) (inst_DataVolume inst) s'.2.

(** The rollback, from a state with the new container [cid] if there is one and
    the staging volume [v] if there is one. *)
Lemma wp_rollback {A} ctx inst cid v e (s s1 : W) :
  v = "" ∧ vols s1.1 = vols s.1 ∨
  v ≠ "" ∧ v ∉ vols s.1 ∧ ¬ in_use (ctrs s.1) v ∧ vols s1.1 = {[v]} ∪ vols s.1 →
  cid = "" ∧ ctrs s1.1 = ctrs s.1 ∨
  (cid ≠ "" ∧ ∃ sp, ctrs s.1 !! cid = None ∧ ctrs s1.1 = <[cid := sp]> (ctrs s.1)) →
  pins (inst_ID inst) (inst_ContainerID inst) (inst_DataVolume inst) s1.2 →
  wp (rollback (A:=A) ctx inst cid v e)
    (λ r s', r = Err e ∧ undone (inst_ID inst) inst s s') s1.
Proof.
  intros Hv Hc Hp. unfold rollback, rollbackRestore. apply wp_bind, wp_bind.
  assert (H1 : wp (when (bool_decide (cid ≠ "")) (discard (rt (RemoveContainer Background cid true))))
    (λ _ s', ctrs s'.1 = ctrs s.1 ∧ vols s'.1 = vols s1.1 ∧ s'.2 = s1.2) s1).
  { apply wp_when; intros Hb.
    - apply bool_decide_eq_true in Hb. destruct Hc as [[? _]|(_ & sp & Hnone & Hc)]; [done|].
      apply wp_rt_cleanup_container; [rewrite Hc, lookup_insert_eq; by eexists|].
      intros s' Hc' Hv' Hd'. split_and!; [|done..]. rewrite Hc', Hc, delete_insert_eq.
      by apply delete_id.
    - apply bool_decide_eq_false in Hb. destruct Hc as [[_ ?]|[? _]]; [done|by destruct Hb]. }
  eapply wp_mono; [exact H1|]. intros [] s2 (Hc2 & Hv2 & Hd2). apply wp_bind.
  assert (H2 : wp (when (bool_decide (v ≠ "")) (discard (rt (RemoveVolume Background v true))))
    (λ _ s', ctrs s'.1 = ctrs s.1 ∧ vols s'.1 = vols s.1 ∧ s'.2 = s1.2) s2).
  { apply wp_when; intros Hb.
    - apply bool_decide_eq_true in Hb. destruct Hv as [[? _]|(_ & Hnew & Hu & Hv)]; [done|].
      apply wp_rt_cleanup_volume; [by rewrite Hc2|].
      intros s' Hc' Hv' Hd'. split_and!; [congruence| |congruence].
      rewrite Hv', Hv2, Hv. set_solver.
    - apply bool_decide_eq_false in Hb. destruct Hv as [[_ ?]|[? _]]; [|by destruct Hb].
      split_and!; congruence. }
  eapply wp_mono; [exact H2|]. intros [] s3 (Hc3 & Hv3 & Hd3).
  apply (wp_frame (pins (inst_ID inst) (inst_ContainerID inst) (inst_DataVolume inst)));
    [wkeep|apply dkeeps_when, dkeeps_bind|by rewrite Hd3|].
  - apply dkeeps_discard, dkeeps_rt.
  - intros _. apply dkeeps_refreshPort.
  - intros _ s' Hc' Hv' Hp'. apply wp_ret. split; [done|]. split_and!; [congruence..|done].
Qed.

(** The instance runs in its container, on a data volume nothing else mounts. *)
Definition live_ok (inst : Inst) (s : W) : Prop :=
  let old := dataVolumeOf inst (inst_ID inst) in
  inst_ContainerID inst ≠ "" ∧ is_Some (ctrs s.1 !! inst_ContainerID inst) ∧
  old ∈ vols s.1 ∧ old ≠ volumeName "repo" (inst_ID inst) ∧
  ∀ c sp, ctrs s.1 !! c = Some sp → old ∈ volumes_of sp → c = inst_ContainerID inst.

(** The live container and volume are replaced by a new container on a new
    volume. *)
Definition swapped (inst : Inst) (s s' : W) : Prop :=
  ∃ new sp stamp,
    let v := stagingVolume (inst_ID inst) stamp in
    ctrs s.1 !! new = None ∧ v ∉ vols s.1 ∧ v ∈ volumes_of sp ∧
    ctrs s'.1 = <[new := sp]> (delete (inst_ContainerID inst) (ctrs s.1)) ∧
    vols s'.1 = ({[v]} ∪ vols s.1) ∖ {[dataVolumeOf inst (inst_ID inst)]}.

Definition restore_post (inst : Inst) (s : W) (r : result unit) (s' : W) : Prop :=
  match r with
  | Err _ => undone (inst_ID inst) inst s s'
  | Ok _ => live_ok inst s → swapped inst s s'
  end.

Lemma stagingVolume_nonempty id stamp : stagingVolume id stamp ≠ "".
Proof. unfold stagingVolume. by rewrite app_cons_str. Qed.

Lemma restore_post_early inst (s s' : W) e :
  ctrs s'.1 = ctrs s.1 → vols s'.1 = vols s.1 →
  pins (inst_ID inst) (inst_ContainerID inst) (inst_DataVolume inst) s'.2 →
  restore_post inst s (Err e) s'.
Proof. done. Qed.

(** The commit after the new container answers. *)
Definition commit ctx id inst v progress : M W (result unit) :=
  _ <- discard (repo (repo_SetDataVolume ctx id v)) ;;
  _ <- when (bool_decide (inst_ContainerID inst ≠ ""))
         (discard (rt (RemoveContainer Background (inst_ContainerID inst) true))) ;;
  _ <- discard (rt (RemoveVolume Background (dataVolumeOf inst (inst_ID inst)) true)) ;;
  _ <- emit progress "restored" "restore complete" ;;
  done_ok.

(** Nothing in it can fail. *)
Lemma commit_ok ctx id inst v progress s1 : (commit ctx id inst v progress s1).1 = Ok tt.
Proof.
  unfold commit, bind. repeat (match goal with |- context [match ?m ?s with _ => _ end] =>
    destruct (m s) end). done.
Qed.

Lemma wp_commit ctx id inst new sp stamp progress (s s1 : W) :
  let v := stagingVolume (inst_ID inst) stamp in
  live_ok inst s →
  ctrs s.1 !! new = None → v ∉ vols s.1 →
  volumes_of sp = mt_Volume <$> instanceMounts inst (inst_ID inst) v →
  ctrs s1.1 = <[new := sp]> (ctrs s.1) → vols s1.1 = {[v]} ∪ vols s.1 →
  wp (commit ctx id inst v progress) (λ _ s', swapped inst s s') s1.
Proof.
  intros v (Hcid & Hlive & Hold & Hrepo & Honly) Hnone Hnew Hsp Hc Hv. unfold commit.
  apply wp_bind, wp_wkeeps; [wkeep|]. intros [] s2 Hc2 Hv2. rewrite Hc in Hc2. rewrite Hv in Hv2.
  assert (Hne : inst_ContainerID inst ≠ new) by (intros He; rewrite He, Hnone in Hlive; by destruct Hlive).
  apply wp_bind. rewrite bool_decide_true by done. cbn [when].
  apply wp_rt_cleanup_container; [by rewrite Hc2, lookup_insert_ne|].
  intros s3 Hc3 Hv3 _. rewrite Hc2, delete_insert_ne in Hc3 by done. rewrite Hv2 in Hv3.
  apply wp_bind, wp_rt_cleanup_volume.
  { rewrite Hc3. intros (c & sp' & [[<- <-]|[Hc' Hsp']]%lookup_insert_Some & Hin).
    - rewrite Hsp in Hin. unfold instanceMounts in Hin. cbn in Hin.
      apply elem_of_cons in Hin as [Hin|Hin]; [by rewrite <- Hin in Hnew|].
      case_bool_decide; cbn in Hin; [|by apply elem_of_nil in Hin].
      by apply list_elem_of_singleton in Hin.
    - apply lookup_delete_Some in Hsp' as [Hc'' Hsp']. by apply Hc'', eq_sym, (Honly c sp'). }
  intros s4 Hc4 Hv4 _. apply wp_bind, wp_wkeeps; [wkeep|]. intros [] s5 Hc5 Hv5.
  apply wp_ret. exists new, sp, stamp. split_and!; [done|done| |by rewrite Hc5, Hc4|by rewrite Hv5, Hv4, Hv3].
  rewrite Hsp. by left.
Qed.

(** A step of the restore once the staging volume exists, whose failure rolls
    back. *)
Definition staged (inst : Inst) (v : string) (s s1 : W) : Prop :=
  ctrs s1.1 = ctrs s.1 ∧ vols s1.1 = {[v]} ∪ vols s.1 ∧
  pins (inst_ID inst) (inst_ContainerID inst) (inst_DataVolume inst) s1.2.
Definition started (inst : Inst) (v cid : string) (sp : ContainerSpec) (s s1 : W) : Prop :=
  ctrs s1.1 = <[cid := sp]> (ctrs s.1) ∧ vols s1.1 = {[v]} ∪ vols s.1 ∧
  pins (inst_ID inst) (inst_ContainerID inst) (inst_DataVolume inst) s1.2.

Lemma rollback_post {A B} ctx inst cid v e (s s1 : W) (Q : result B → W → Prop) :
  wp (rollback (A:=A) ctx inst cid v e) (λ r s', r = Err e ∧ undone (inst_ID inst) inst s s') s1 →
  (∀ s', undone (inst_ID inst) inst s s' → Q (Err e) s') →
  wp (rollback (A:=B) ctx inst cid v e) Q s1.
Proof.
  unfold rollback. intros H HQ. apply wp_bind. apply wp_bind_inv in H.
  eapply wp_mono; [exact H|]. intros [] s' [_ Hu]. by apply wp_ret, HQ.
Qed.

Lemma wp_staged {A} ctx inst v (m : M W (result A)) k (s s1 : W) :
  v ≠ "" → v ∉ vols s.1 → ¬ in_use (ctrs s.1) v → staged inst v s s1 →
  wkeeps m → dkeeps (pins (inst_ID inst) (inst_ContainerID inst) (inst_DataVolume inst)) m →
  (∀ a s2, staged inst v s s2 → wp (k a) (restore_post inst s) s2) →
  wp (try_or m (rollback ctx inst "" v) k) (restore_post inst s) s1.
Proof.
  intros Hv Hnew Hu (Hc1 & Hv1 & Hp1) Hm Hd Hk.
  apply wp_try_or, (wp_frame (pins (inst_ID inst) (inst_ContainerID inst) (inst_DataVolume inst)));
    [done..|]. intros [a|e] s2 Hc2 Hv2 Hp2.
  - apply Hk. split_and!; [congruence..|done].
  - eapply rollback_post; [|done]. apply (wp_rollback (A:=unit)); [right|left|done].
    + split_and!; [done..|congruence].
    + split; [done|congruence].
Qed.

Lemma wp_started {A} ctx inst v cid sp (m : M W (result A)) k (s s1 : W) :
  v ≠ "" → v ∉ vols s.1 → ¬ in_use (ctrs s.1) v → cid ≠ "" → ctrs s.1 !! cid = None →
  started inst v cid sp s s1 →
  wkeeps m → dkeeps (pins (inst_ID inst) (inst_ContainerID inst) (inst_DataVolume inst)) m →
  (∀ a s2, started inst v cid sp s s2 → wp (k a) (restore_post inst s) s2) →
  wp (try_or m (rollback ctx inst cid v) k) (restore_post inst s) s1.
Proof.
  intros Hv Hnew Hu Hcid Hnone (Hc1 & Hv1 & Hp1) Hm Hd Hk.
  apply wp_try_or, (wp_frame (pins (inst_ID inst) (inst_ContainerID inst) (inst_DataVolume inst)));
    [done..|]. intros [a|e] s2 Hc2 Hv2 Hp2.
  - apply Hk. split_and!; [congruence..|done].
  - eapply rollback_post; [|done]. apply (wp_rollback (A:=unit)); [right|right|done].
    + split_and!; [done..|congruence].
    + split; [done|]. exists sp. split; [done|congruence].
Qed.


Definition untouched {A} (s : W) (_ : A) (s' : W) : Prop :=
  ctrs s'.1 = ctrs s.1 ∧ vols s'.1 = vols s.1 ∧ rows s'.2 = rows s.2.

(** A restore drill, whatever it finds, leaves the containers, the
    volumes and the rows exactly as they were: the throwaway container and volume
    are gone when it returns. *)
Theorem drill_untouched hmac_hex opts ctx id (s : W) :
  volumeName "drill-data" id ∉ vols s.1 → ¬ in_use (ctrs s.1) (volumeName "drill-data" id) →
  wp (RestoreDrill hmac_hex opts ctx id) (untouched s) s.
Proof.
  intros Hnew Hu. set (v := volumeName "drill-data" id) in *.
  unfold RestoreDrill. apply wp_try, wp_on_snd, wp_repo_Get; [|by intros e d Hd].
  intros inst d Hi Hid Hd. rewrite Hid. fold v.
  apply wp_try. destruct (backrestConf hmac_hex opts inst) as [conf|e]; [apply wp_ret|by apply wp_ret].
  apply wp_try, wp_ret, wp_try, wp_on_fst, wp_CreateVolume; [|by intros e r Hc Hv].
  intros r Hc Hv. unfold deferred. apply wp_bind.
  apply (wp_frame (λ d, rows d = rows s.2)); [| |done|].
  - wkeep. apply oneShot_keeps. intros cid. wkeep.
  - apply dkeeps_bind; [apply dkeeps_shortStamp|intros stamp].
    apply dkeeps_bind; [apply dkeeps_rt|intros start]. apply dkeeps_oneShot. intros cid.
    apply dkeeps_try_or; [apply dkeeps_rt|intros e; apply dkeeps_ret|intros _].
    apply dkeeps_bind; [apply dkeeps_waitRestoreExit|intros res].
    apply dkeeps_bind; [apply dkeeps_rt|intros stop]. destruct res; apply dkeeps_ret.
  - intros res s2 Hc2 Hv2 Hr2. cbn in Hc2, Hv2.
    apply wp_bind, wp_rt_cleanup_volume; [by rewrite Hc2, Hc|].
    intros s3 Hc3 Hv3 Hd3. apply wp_ret. unfold untouched. rewrite Hc3, Hv3, Hd3, Hc2, Hv2, Hc, Hv.
    split_and!; [done|set_solver|done].
Qed.
End restore.

(** ** Concrete runs *)

(** What the sample world holds after the instance was provisioned. *)
Definition sample_holds (C : gmap string ContainerSpec) (V : gset string) : Prop :=
  (∃ sp, C = {["fake-1" := sp]} ∧ volumes_of sp = ["pgfleet-data-id-1"; "pgfleet-repo-id-1"]) ∧
  V = {["pgfleet-data-id-1"; "pgfleet-repo-id-1"]}.

Lemma sample_running_holds : sample_holds (fake_ctrs sample_running.1) (fake_vols sample_running.1).
Proof. split; [eexists; split|]; vm_compute; reflexivity. Qed.

Lemma sample_holds_other C V v :
  sample_holds C V → v ∉ ["pgfleet-data-id-1"; "pgfleet-repo-id-1"] → v ∉ V ∧ ¬ in_use C v.
Proof.
  intros [(sp & -> & Hsp) ->] Hv. split.
  - rewrite elem_of_union, !elem_of_singleton. rewrite !elem_of_cons in Hv. tauto.
  - intros (i & sp' & [_ <-]%lookup_singleton_Some & Hin). by rewrite Hsp in Hin.
Qed.

Lemma sample_fresh_stamp h :
  @fresh_stamp _ DBState (fake_runtime h) fake_process (fake_laws h) "id-1" sample_running.
Proof.
  intros s1 _ _. apply (sample_holds_other _ _ _ sample_running_holds).
  generalize (shortStamp s1).1. intros st Hin. unfold stagingVolume in Hin.
  repeat (apply elem_of_cons in Hin as [Hin|Hin]; [vm_compute in Hin; congruence|]).
  by apply elem_of_nil in Hin.
Qed.


Lemma drill_untouched_witness :
  let s := sample_running in
  let run code := @RestoreDrill _ _ (fake_runtime (sample_hooks exec_ok code)) fake_process
    sample_instances sample_hmac sample_opts CallerCtx "id-1" in
  let post code := λ (_ : result DrillResult) (s' : FakeWorld * DBState),
    fake_ctrs s'.1 = fake_ctrs s.1 ∧ fake_vols s'.1 = fake_vols s.1 ∧
    db_rows (`s'.2) = db_rows (`s.2) in
  (run 1%Z s).1 = Ok (mkDrillResult false 0 "provision: restore failed (exit 1): ") ∧
  wp (run 1%Z) (post 1%Z) s.
Proof.
  intros s run post. split; [vm_compute; reflexivity|].
  assert (Hd : volumeName "drill-data" "id-1" ∉ fake_vols sample_running.1 ∧
               ¬ in_use (fake_ctrs sample_running.1) (volumeName "drill-data" "id-1")).
  { apply (sample_holds_other _ _ _ sample_running_holds).
    apply (bool_decide_unpack (_ ∉ _)). vm_compute. exact I. }
  exact (@drill_untouched _ _ _ _ _ (fake_laws _) (metadb_laws sample_seal sample_open) _ _ _ _ s
           (proj1 Hd) (proj2 Hd)).
Defined.
