(* ===== verification/Redact.v ===== *)
(** * Redaction of secrets: [redactSecrets] of [internal/provision/provision.go]

    Command output may echo the repository configuration.  The pass over one key
    works line by line ([redact_key_lines]), and the value of a key cannot
    influence the redacted text ([redact_noninterference]). *)

From Stdlib Require Import Ascii.
From S2P Require Import Prelude GoStrings Apperr GoMonad PgBackRest Provision.

(** ** Searching across a separator *)

Lemma prefix_app_long m l t :
  String.length m ≤ String.length l → str_prefix m (l +:+ t) = str_prefix m l.
Proof.
  revert l. induction m as [|a m IH]; intros [|b l] Hl; cbn [String.length] in Hl; try done; [lia|].
  rewrite app_cons_str. cbn [str_prefix]. rewrite IH; [done|lia].
Qed.

(** A word that ends at the first [c] of it, or has no [c], cannot run past a
    [c] of the text. *)
Definition stops_at (c : ascii) (m : string) : Prop :=
  ∃ w z, m = w +:+ z ∧ str_forallb (λ a, negb (ascii_eqb a c)) w = true ∧ (z = "" ∨ z = String c "").

Lemma prefix_stops c m l t :
  stops_at c m → str_prefix m (l +:+ String c t) = true → str_prefix m (l +:+ String c "") = true.
Proof.
  intros (w & z & -> & Hw & Hz). revert l. induction w as [|a w IH]; intros [|b l].
  - rewrite !app_nil_l_str. destruct Hz as [->| ->]; [done|]. cbn [str_prefix]. by rewrite ascii_eqb_refl.
  - rewrite !app_nil_l_str, !app_cons_str. destruct Hz as [->| ->]; [done|]. cbn [str_prefix].
    by destruct (ascii_eqb c b).
  - rewrite !app_nil_l_str, app_cons_str. cbn [str_prefix str_forallb] in *.
    apply andb_true_iff in Hw as [Ha _]. intros [Hc _]%andb_true_iff.
    apply ascii_eqb_eq in Hc as ->. by rewrite ascii_eqb_refl in Ha.
  - rewrite !app_cons_str. cbn [str_prefix str_forallb] in *.
    apply andb_true_iff in Hw as [_ Hw]. intros [-> Hp]%andb_true_iff. by apply IH.
Qed.

Lemma Index_nil_eq m : Index "" m = if str_prefix m "" then Some 0 else None.
Proof. reflexivity. Qed.

Lemma Index_cons_eq a s m :
  Index (String a s) m = if str_prefix m (String a s) then Some 0 else S <$> Index s m.
Proof. reflexivity. Qed.

Lemma Index_bound l m i : Index l m = Some i → i + String.length m ≤ String.length l.
Proof.
  assert (Hp : ∀ m l, str_prefix m l = true → String.length m ≤ String.length l).
  { intros m' l' [t ->]%prefix_spec. rewrite length_app_str. lia. }
  revert i. induction l as [|a l IH]; intros i Hi;
    rewrite ?Index_nil_eq, ?Index_cons_eq in Hi.
  - destruct (str_prefix m "") eqn:Hm; [|done]. injection Hi as <-. by apply (Hp m "").
  - destruct (str_prefix m (String a l)) eqn:Hm; [injection Hi as <-; by apply Hp|].
    apply fmap_Some in Hi as (j & Hj & ->). specialize (IH j Hj). cbn. lia.
Qed.

Lemma Index_app_l l m t i : Index l m = Some i → Index (l +:+ t) m = Some i.
Proof.
  intros Hi. pose proof (Index_bound l m i Hi) as Hlen.
  revert i Hi Hlen. induction l as [|a l IH]; intros i Hi Hlen;
    rewrite ?Index_nil_eq, ?Index_cons_eq in Hi.
  - destruct m; [|done]. injection Hi as <-. by destruct t.
  - rewrite app_cons_str, Index_cons_eq. rewrite <- (app_cons_str a l t), prefix_app_long by lia.
    destruct (str_prefix m (String a l)); [done|].
    apply fmap_Some in Hi as (j & Hj & ->). rewrite (IH j Hj); [done|]. cbn in Hlen. lia.
Qed.

Lemma Index_past c m l t :
  stops_at c m → m ≠ "" → Index (l +:+ String c "") m = None →
  Index (l +:+ String c t) m = (λ n, S (String.length l) + n) <$> Index t m.
Proof.
  intros Hm Hne. induction l as [|a l IH].
  - rewrite !app_nil_l_str, !Index_cons_eq. intros H0.
    destruct (str_prefix m (String c t)) eqn:Hp.
    + rewrite (prefix_stops c m "" t Hm Hp : str_prefix m (String c "") = true) in H0. done.
    + by destruct (Index t m).
  - rewrite !app_cons_str, !Index_cons_eq. intros H0.
    destruct (str_prefix m (String a (l +:+ String c t))) eqn:Hp.
    + rewrite (prefix_stops c m (String a l) t Hm Hp : str_prefix m (String a (l +:+ String c "")) = true) in H0.
      done.
    + destruct (str_prefix m (String a (l +:+ String c ""))); [done|].
      destruct (Index (l +:+ String c "") m) eqn:Hi; [done|]. rewrite IH by done.
      by destruct (Index t m).
Qed.

(** ** One pass, line by line *)

Implicit Types (m l p t v : string).

Definition redact_line (m l : string) : string :=
  match Index l m with Some i => str_take i l +:+ m +:+ "***" | None => l end.

Lemma no_nl_stops m : no_nl m = true → stops_at nl_char m.
Proof. intros Hm. exists m, "". split_and!; [by rewrite app_nil_r_str|done|by left]. Qed.

Lemma prefix_nl_cons a l : str_prefix nl (String a l) = ascii_eqb a nl_char.
Proof.
  unfold nl. cbn [str_prefix]. unfold ascii_eqb. rewrite andb_true_r. by apply bool_decide_ext.
Qed.

Lemma Index_no_nl l : no_nl l = true → Index l nl = None.
Proof.
  induction l as [|a l IH]; [done|]. rewrite no_nl_cons, Index_cons_eq, prefix_nl_cons.
  intros [Ha Hl]%andb_true_iff. rewrite IH by done. by destruct (ascii_eqb a nl_char).
Qed.

Lemma Index_nl l t : no_nl l = true → Index (l +:+ String nl_char t) nl = Some (String.length l).
Proof.
  induction l as [|a l IH].
  - intros _. by rewrite app_nil_l_str, Index_cons_eq, prefix_nl_cons, ascii_eqb_refl.
  - rewrite no_nl_cons, app_cons_str, Index_cons_eq, prefix_nl_cons.
    intros [Ha Hl]%andb_true_iff. rewrite IH by done. by destruct (ascii_eqb a nl_char).
Qed.

Lemma no_nl_take n l : no_nl l = true → no_nl (str_take n l) = true.
Proof.
  intros Hl. rewrite <- (str_take_drop n l), no_nl_app in Hl. by apply andb_true_iff in Hl as [? _].
Qed.

Lemma no_nl_drop n l : no_nl l = true → no_nl (str_drop n l) = true.
Proof.
  intros Hl. rewrite <- (str_take_drop n l), no_nl_app in Hl. by apply andb_true_iff in Hl as [_ ?].
Qed.

Lemma str_drop_all n s : String.length s ≤ n → str_drop n s = "".
Proof.
  revert n. induction s as [|c s IH]; intros [|n] Hn; cbn [String.length] in *; try done; [lia|].
  cbn. apply IH. lia.
Qed.

Lemma str_drop_app_le n s t :
  n ≤ String.length s → str_drop n (s +:+ t) = str_drop n s +:+ t.
Proof.
  revert n. induction s as [|c s IH]; intros [|n] Hn; cbn [String.length] in *; try done; [lia|].
  rewrite app_cons_str. cbn. apply IH. lia.
Qed.

Lemma str_take_app_short n s t : n ≤ String.length s → str_take n (s +:+ t) = str_take n s.
Proof.
  revert n. induction s as [|c s IH]; intros [|n] Hn; cbn [String.length] in *; rewrite ?str_take_0; try done; [lia|].
  rewrite app_cons_str. cbn. rewrite IH; [done|lia].
Qed.

(** A search for a word without a newline is not helped by a trailing one. *)
Lemma prefix_snoc_nl m l :
  no_nl m = true → str_prefix m (l +:+ nl) = str_prefix m l.
Proof.
  revert l. induction m as [|a m IH]; intros [|b l] Hm; rewrite ?app_cons_str, ?app_nil_l_str; try done.
  - rewrite no_nl_cons in Hm. apply andb_true_iff in Hm as [Ha _]. unfold nl. cbn [str_prefix].
    by apply negb_true_iff in Ha as ->.
  - rewrite no_nl_cons in Hm. apply andb_true_iff in Hm as [_ Hm]. cbn [str_prefix]. by rewrite IH.
Qed.

Lemma Index_snoc_none m l :
  no_nl m = true → m ≠ "" → Index l m = None → Index (l +:+ nl) m = None.
Proof.
  intros Hm Hne. induction l as [|a l IH]; intros Hi.
  - rewrite app_nil_l_str. unfold nl. rewrite Index_cons_eq, Index_nil_eq.
    pose proof (prefix_snoc_nl m "" Hm) as Hp. rewrite app_nil_l_str in Hp. unfold nl in Hp. rewrite Hp.
    by destruct m.
  - rewrite app_cons_str. rewrite Index_cons_eq in *. rewrite <- app_cons_str, (prefix_snoc_nl m _ Hm).
    destruct (str_prefix m (String a l)); [done|]. destruct (Index l m); [done|]. by rewrite IH.
Qed.

(** A pass over a text whose first marker lies past the prefix [p]. *)
Lemma redact_pass_skip fuel m p t :
  Index (p +:+ t) m = (λ n, String.length p + n) <$> Index t m →
  redact_pass (S fuel) m (p +:+ t) = p +:+ redact_pass (S fuel) m t.
Proof.
  intros Hi. cbn [redact_pass]. rewrite Hi. destruct (Index t m) as [n|]; [|done]. cbn [fmap option_fmap option_map].
  assert (Htake : str_take (String.length p + n) (p +:+ t) = p +:+ str_take n t).
  { rewrite str_take_app_le by lia. do 2 f_equal. lia. }
  assert (Hdrop : str_drop (String.length p + n) (p +:+ t) = str_drop n t).
  { clear. induction p as [|a p IH]; [done|]. rewrite app_cons_str. cbn. exact IH. }
  by rewrite Htake, Hdrop, app_assoc_str.
Qed.

Lemma Index_drop l m i : Index l m = Some i → ∃ t, str_drop i l = m +:+ t.
Proof.
  revert i. induction l as [|a l IH]; intros i; rewrite ?Index_nil_eq, ?Index_cons_eq.
  - destruct (str_prefix m "") eqn:Hm; [|done]. intros [= <-]. apply prefix_spec in Hm as [t ->]. by exists t.
  - destruct (str_prefix m (String a l)) eqn:Hm.
    + intros [= <-]. apply prefix_spec in Hm as [t ->]. exists t. by destruct (m +:+ t).
    + intros (j & Hj & ->)%fmap_Some. cbn. by apply IH.
Qed.

Lemma redact_pass_empty fuel m : m ≠ "" → redact_pass fuel m "" = "".
Proof. intros Hm. destruct fuel; [done|]. cbn [redact_pass]. rewrite Index_nil_eq. by destruct m. Qed.

Lemma redact_pass_line fuel m l :
  m ≠ "" → no_nl l = true → redact_pass (S fuel) m l = redact_line m l.
Proof.
  intros Hne Hl. unfold redact_line. cbn [redact_pass]. destruct (Index l m) as [i|]; [|done].
  rewrite (Index_no_nl (str_drop i l)) by (by apply no_nl_drop). cbn [default from_option id].
  rewrite str_drop_all by lia. by rewrite redact_pass_empty, app_nil_r_str.
Qed.

(** The marker of one line is found before anything of the next lines. *)
Lemma redact_pass_cons m l t r fuel :
  no_nl m = true → m ≠ "" → no_nl l = true →
  (∀ fuel', String.length t < fuel' → redact_pass fuel' m t = r) →
  String.length l + S (String.length t) < fuel →
  redact_pass fuel m (l +:+ String nl_char t) = redact_line m l +:+ String nl_char r.
Proof.
  intros Hm Hne Hl Ht Hf. destruct fuel as [|fuel]; [lia|].
  assert (Hskip : Index (nl +:+ t) m = (λ n, 1 + n) <$> Index t m).
  { apply (Index_past nl_char m "" t); [by apply no_nl_stops|done|].
    apply (Index_snoc_none m ""); [done|done|]. by destruct m. }
  unfold redact_line. destruct (Index l m) as [i|] eqn:Hi.
  - cbn [redact_pass]. rewrite (Index_app_l l m _ i Hi).
    pose proof (Index_bound l m i Hi) as Hb.
    rewrite str_drop_app_le by lia. rewrite Index_nl by (by apply no_nl_drop). cbn [default from_option id].
    rewrite str_drop_app, str_take_app_short by lia. rewrite !app_assoc_str. do 3 f_equal.
    destruct fuel as [|fuel]; [lia|].
    rewrite (redact_pass_skip fuel m nl t Hskip : redact_pass (S fuel) m (String nl_char t) = _).
    rewrite Ht by lia. done.
  - assert (E : l +:+ String nl_char t = (l +:+ nl) +:+ t) by (by rewrite app_assoc_str).
    rewrite E, redact_pass_skip.
    + rewrite app_assoc_str. f_equal. rewrite Ht by lia. done.
    + rewrite <- E, (Index_past nl_char m l t); [|by apply no_nl_stops|done|by apply Index_snoc_none].
      rewrite length_app_str. change (String.length nl) with 1.
      destruct (Index t m); [|done]. cbn [fmap option_fmap option_map]. f_equal. lia.
Qed.

Lemma redact_pass_lines m ls fuel :
  no_nl m = true → m ≠ "" → Forall (λ l, no_nl l = true) ls →
  String.length (Join ls nl) < fuel →
  redact_pass fuel m (Join ls nl) = Join (redact_line m <$> ls) nl.
Proof.
  intros Hm Hne Hls. revert fuel. induction Hls as [|l ls Hl Hls IH]; intros fuel Hf.
  { by apply redact_pass_empty. }
  destruct ls as [|l' ls'].
  - destruct fuel as [|fuel]; [cbn in Hf; lia|]. by apply redact_pass_line.
  - remember (l' :: ls') as ls eqn:Els. assert (Hnn : ls ≠ []) by (by rewrite Els).
    assert (Hj : Join (l :: ls) nl = l +:+ String nl_char (Join ls nl)) by (by rewrite Els).
    assert (Hj' : Join (redact_line m <$> l :: ls) nl =
                  redact_line m l +:+ String nl_char (Join (redact_line m <$> ls) nl)) by (by rewrite Els).
    rewrite Hj in Hf |- *. rewrite Hj'. rewrite length_app_str in Hf. cbn [String.length] in Hf.
    by apply redact_pass_cons.
Qed.

(** ** The lines of a text *)

Definition on_lines (f : string → string) (t : string) : string := Join (f <$> SplitChar nl_char t) nl.

(** One pass over the text redacts each line on its own. *)
Lemma redact_key_lines key t :
  no_nl key = true → redact_key key t = on_lines (redact_line (key +:+ "=")) t.
Proof.
  intros Hk. unfold redact_key, on_lines. rewrite <- (Join_SplitChar nl_char t) at 1 2.
  apply redact_pass_lines.
  - by rewrite no_nl_app, Hk.
  - by destruct key.
  - apply SplitChar_no_sep.
  - change (String nl_char "") with nl. lia.
Qed.

Lemma redact_line_no_nl m l : no_nl m = true → no_nl l = true → no_nl (redact_line m l) = true.
Proof.
  intros Hm Hl. unfold redact_line. destruct (Index l m) as [i|]; [|done].
  by rewrite !no_nl_app, Hm, no_nl_take.
Qed.

Lemma SplitChar_Join_nl ls :
  ls ≠ [] → Forall (λ l, no_nl l = true) ls → SplitChar nl_char (Join ls nl) = ls.
Proof. exact (SplitChar_Join nl_char ls). Qed.

(** The passes over all keys also work line by line. *)
Lemma redact_keys_lines keys t :
  Forall (λ k, no_nl k = true) keys →
  foldl (λ s key, redact_key key s) t keys =
  on_lines (λ l, foldl (λ l key, redact_line (key +:+ "=") l) l keys) t.
Proof.
  intros Hks. revert t. induction Hks as [|k ks Hk Hks IH]; intros t.
  { unfold on_lines. cbn [foldl]. rewrite list_fmap_id. symmetry. apply Join_SplitChar. }
  cbn [foldl]. rewrite IH, redact_key_lines by done. unfold on_lines.
  rewrite SplitChar_Join_nl.
  - by rewrite <- list_fmap_compose.
  - intros E%fmap_nil_inv. by apply SplitChar_nonempty in E.
  - apply Forall_fmap. eapply Forall_impl; [apply SplitChar_no_sep|]. intros l Hl. cbn.
    apply redact_line_no_nl; [|done]. by rewrite no_nl_app, Hk.
Qed.

(** ** Two lines that agree up to the value of one key *)

Inductive same_but (key : string) : string → string → Prop :=
| same_refl l : same_but key l l
| same_value p v1 v2 :
    same_but key ((p +:+ key) +:+ String "=" v1) ((p +:+ key) +:+ String "=" v2).

Lemma Index_found p m : is_Some (Index (p +:+ m) m).
Proof.
  induction p as [|a p IH].
  - rewrite app_nil_l_str. destruct m as [|b m]; [by eexists|]. rewrite Index_cons_eq.
    rewrite <- (app_nil_r_str (String b m)) at 2. rewrite prefix_app. by eexists.
  - rewrite app_cons_str, Index_cons_eq. destruct (str_prefix _ _); [by eexists|]. by apply fmap_is_Some.
Qed.

Definition no_eq (k : string) : bool := str_forallb (λ a, negb (ascii_eqb a "="%char)) k.

Lemma redact_line_same_but k key l1 l2 :
  no_eq k = true → same_but key l1 l2 →
  same_but key (redact_line (k +:+ "=") l1) (redact_line (k +:+ "=") l2) ∧
  (k = key → redact_line (k +:+ "=") l1 = redact_line (k +:+ "=") l2).
Proof.
  intros Hk [l|p v1 v2]; [split; [constructor|done]|].
  unfold redact_line. destruct (Index ((p +:+ key) +:+ "=") (k +:+ "=")) as [i|] eqn:Hi.
  - pose proof (Index_bound _ _ _ Hi) as Hb.
    assert (E : ∀ v, (p +:+ key) +:+ String "=" v = ((p +:+ key) +:+ "=") +:+ v).
    { intros v. by rewrite (app_assoc_str (p +:+ key) "=" v). }
    rewrite (E v1), (E v2), (Index_app_l _ _ v1 _ Hi), (Index_app_l _ _ v2 _ Hi).
    rewrite (str_take_app_short i _ v1), (str_take_app_short i _ v2) by lia. split; [constructor|done].
  - split.
    + assert (Hstop : stops_at "=" (k +:+ "=")) by (exists k, "="; split_and!; [done|done|by right]).
      assert (Hne : k +:+ "=" ≠ "") by (by destruct k).
      rewrite (Index_past "=" (k +:+ "=") (p +:+ key) v1), (Index_past "=" (k +:+ "=") (p +:+ key) v2) by done.
      assert (Htake : ∀ n v, str_take (S (String.length (p +:+ key)) + n) ((p +:+ key) +:+ String "=" v) =
                             (p +:+ key) +:+ String "=" (str_take n v)).
      { intros n v. rewrite str_take_app_le by lia.
        by replace (S (String.length (p +:+ key)) + n - String.length (p +:+ key)) with (S n) by lia. }
      assert (Hval : ∀ n v, str_take (S (String.length (p +:+ key)) + n) ((p +:+ key) +:+ String "=" v) +:+
                (k +:+ "=") +:+ "***" = (p +:+ key) +:+ String "=" (str_take n v +:+ (k +:+ "=") +:+ "***")).
      { intros n v. by rewrite Htake, (app_assoc_str (p +:+ key)). }
      destruct (Index v1 _) as [n1|], (Index v2 _) as [n2|]; cbn [fmap option_fmap option_map].
      * rewrite (Hval n1 v1), (Hval n2 v2). constructor.
      * rewrite (Hval n1 v1). constructor.
      * rewrite (Hval n2 v2). constructor.
      * constructor.
    + intros ->. destruct (Index_found p (key +:+ "=")) as [i Hf].
      by rewrite <- app_assoc_str, Hi in Hf.
Qed.

Lemma redact_lines_same_but keys key l1 l2 :
  Forall (λ k, no_eq k = true) keys → same_but key l1 l2 → key ∈ keys →
  foldl (λ l key, redact_line (key +:+ "=") l) l1 keys =
  foldl (λ l key, redact_line (key +:+ "=") l) l2 keys.
Proof.
  intros Hks. revert l1 l2. induction Hks as [|k ks Hk Hks IH]; intros l1 l2 Hs Hin.
  { by apply elem_of_nil in Hin. }
  cbn [foldl]. destruct (redact_line_same_but k key l1 l2 Hk Hs) as [Hs' He].
  destruct (decide (k = key)) as [Hkey|Hkey].
  - by rewrite (He Hkey).
  - apply IH; [done|]. apply elem_of_cons in Hin as [->|Hin]; [done|done].
Qed.

(** The text before a point contributes whole lines and the start of one. *)
Lemma SplitChar_split pre :
  ∃ init p, ∀ x, SplitChar nl_char (pre +:+ x) = init ++ SplitChar nl_char (p +:+ x) ∧ no_nl p = true.
Proof.
  induction pre as [|a pre IH]; [by exists [], ""|].
  destruct IH as (init & p & IH). destruct (decide (a = nl_char)) as [->|Ha].
  - exists ("" :: init), p. intros x. destruct (IH x) as [E Hp]. split; [|done].
    by rewrite app_cons_str, SplitChar_cons, ascii_eqb_refl, E.
  - assert (Ha' : ascii_eqb a nl_char = false) by (by apply bool_decide_eq_false).
    destruct init as [|w init].
    + exists [], (String a p). intros x. destruct (IH x) as [E Hp]. split.
      * by rewrite !app_cons_str, !SplitChar_cons, Ha', E.
      * by rewrite no_nl_cons, Ha'.
    + exists (String a w :: init), p. intros x. destruct (IH x) as [E Hp]. split; [|done].
      by rewrite app_cons_str, SplitChar_cons, Ha', E.
Qed.

Lemma SplitChar_end l post :
  no_nl l = true → post = "" ∨ HasPrefix post nl = true →
  SplitChar nl_char (l +:+ post) = l :: tail (SplitChar nl_char post).
Proof.
  intros Hl [->|[t ->]%prefix_spec].
  - rewrite app_nil_r_str. apply (SplitChar_Join_nl [l]); [done|by constructor].
  - unfold nl. rewrite app_cons_str, app_nil_l_str, SplitChar_app_sep by done.
    by rewrite SplitChar_cons, ascii_eqb_refl.
Qed.

(** A command's output in which [key=v] stands somewhere on a line. *)
Definition output_with (key pre post v : string) : string := pre +:+ key +:+ "=" +:+ v +:+ post.

(** C39: the text [redactSecrets] returns does not depend
    on the value of a secret key: two outputs that differ only in what follows
    [key=] on a line, wherever that line stands and whatever the rest of it
    and of the text hold (other secrets, the same key again), redact to the
    same text. *)
Theorem redact_noninterference key pre v1 v2 post :
  key ∈ secretKeys → no_nl v1 = true → no_nl v2 = true →
  post = "" ∨ HasPrefix post nl = true →
  redactSecrets (output_with key pre post v1) = redactSecrets (output_with key pre post v2).
Proof.
  intros Hkey Hv1 Hv2 Hpost. unfold redactSecrets.
  rewrite !redact_keys_lines by by repeat constructor.
  destruct (SplitChar_split pre) as (init & p & Hsplit).
  assert (Hknl : no_nl key = true).
  { assert (Hall : Forall (λ k, no_nl k = true) secretKeys) by by repeat constructor.
    by apply (proj1 (Forall_forall _ _) Hall). }
  assert (Hline : ∀ v, no_nl v = true →
    SplitChar nl_char (output_with key pre post v) =
    init ++ ((p +:+ key) +:+ String "=" v) :: tail (SplitChar nl_char post)).
  { intros v Hv. unfold output_with. destruct (Hsplit (key +:+ "=" +:+ v +:+ post)) as [-> Hp].
    assert (E : p +:+ key +:+ "=" +:+ v +:+ post = ((p +:+ key) +:+ String "=" v) +:+ post).
    { by rewrite !app_assoc_str. }
    rewrite E, SplitChar_end; [done| |done].
    rewrite !no_nl_app, no_nl_cons, Hp, Hknl, Hv. done. }
  unfold on_lines. rewrite !Hline, !fmap_app, !fmap_cons by done. do 3 f_equal.
  apply (redact_lines_same_but secretKeys key); [by repeat constructor|constructor|done].
Qed.

Lemma redact_noninterference_witness :
  redactSecrets (output_with "repo1-cipher-pass" "log: " (nl +:+ "done") "hunter2") =
  redactSecrets (output_with "repo1-cipher-pass" "log: " (nl +:+ "done") "repo1-s3-key=x").
Proof.
  apply (redact_noninterference "repo1-cipher-pass" "log: " "hunter2" "repo1-s3-key=x" (nl +:+ "done"));
    [by repeat constructor|vm_compute; reflexivity|vm_compute; reflexivity|by right].
Defined.
