(* ===== verification/Failover.v ===== *)
(** * The failover controller: [internal/failover], and [events.NewEvent]

    One pass over the clusters ([Run]) probes each primary and counts strikes;
    at the threshold it fails over: quorum, election, fencing of the old primary,
    promotion, the new roles, the reattached replicas, the router.  The
    provisioner, the two repositories, the router remover and the event recorder
    are interfaces over one world [S]; the strike counters are the controller's
    own state. *)

From stdpp Require Import gmap.
From S2P Require Import Prelude GoStrings Apperr GoMonad Instances Runtime Stores Provision.

(** ** Data *)

(** [events.NewEvent]. *)
Record NewEvent := mkNewEvent {
  ne_InstanceID : string;
  ne_ClusterID : string;
  ne_Type : string;
  ne_Message : string;
  ne_Metadata : gmap string string;
}.

(** [events.NewEvent.Validate]. *)
Definition NewEvent_Validate (e : NewEvent) : result unit :=
  if bool_decide (TrimSpace (ne_Type e) = "") then Err (New KindInvalid "events: type is required")
  else if bool_decide (TrimSpace (ne_Message e) = "") then
    Err (New KindInvalid "events: message is required")
  else Ok tt.

(** ** Interfaces *)

(** [failover.Promoter]. *)
Class Promoter (S : Type) := {
  pr_PrimaryReachable : Context → Inst → M S bool;
  pr_ReplayLSN : Context → Inst → M S (result Z);
  pr_Promote : Context → Inst → M S (result unit);
  pr_Fence : Context → Inst → M S (result unit);
  pr_PrepareReclone : Context → Inst → M S (result unit);
  pr_ProvisionReplica : Context → string → Inst → ProgressFunc → M S (result unit);
  pr_StartRouter : Context → RouterSpec → ProgressFunc → M S (result (string * Z));
}.

(** [failover.RouterRemover] and [failover.EventRecorder]. *)
Class RouterRemover (S : Type) := {
  router_RemoveContainer : Context → string → bool → M S (result unit);
}.
Class EventRecorder (S : Type) := {
  event_Record : Context → NewEvent → M S (result unit);
}.

(** The immutable fields of [Controller]; the recorder may be nil. *)
Record Controller := mkController {
  ct_events : bool;
  ct_threshold : Z;
  ct_masterKey : string;
}.

(** [New]. *)
Definition NewController (events : bool) (threshold : Z) (masterKey : string) : Controller :=
  mkController events (if bool_decide (threshold < 1)%Z then 3 else threshold) masterKey.

(** [splitMembers]: the last primary listed, and the replicas in order. *)
Definition splitMembers (members : list Inst) : option Inst * list Inst :=
  (foldl (λ p m, if bool_decide (inst_Role m = RolePrimary) then Some m else p) None members,
   filter (λ m, inst_Role m = RoleReplica) members).

Section controller.
Context {S : Type} {PM : Promoter S} {IS : InstanceStore S} {CS : ClusterStore S}
  {RR : RouterRemover S} {ER : EventRecorder S}.
Context (hmac_hex : string → string → string).
Context (c : Controller).

(** ** Operations *)

(** [record]. *)
Definition record (ctx : Context) (clu : Cluster) (message instanceID : string) : M S unit :=
  when (ct_events c) (discard (event_Record ctx
    (mkNewEvent instanceID (cl_ID clu) "failover" message {["cluster" := cl_Name clu]}))).

(** [elect]: [best], [bestLSN] and [found] are the accumulator. *)
Definition elect (ctx : Context) (replicas : list Inst) : M S (option Inst) :=
  acc <- for_each replicas (zeroInst, 0%Z, false) (λ acc r,
    let '(best, bestLSN, found) := acc in
    up <- pr_PrimaryReachable ctx r ;;
    if negb up then ret acc
    else
      lsn <- pr_ReplayLSN ctx r ;;
      ret (match lsn with
           | Err _ => acc
           | Ok lsn =>
               if bool_decide (lsn ≤ 0)%Z then acc
               else if bool_decide (bestLSN < lsn)%Z then (r, lsn, true) else acc
           end)) ;;
  let '(best, _, found) := acc in
  ret (if found : bool then Some best else None).

(** The number of reachable replicas. *)
Definition countReachable (ctx : Context) (replicas : list Inst) : M S Z :=
  for_each replicas 0%Z (λ n r,
    up <- pr_PrimaryReachable ctx r ;; ret (if up : bool then n + 1 else n)%Z).

(** [majority] with the two-node exception. *)
Definition needed (replicas : list Inst) : Z :=
  let total := (Z.of_nat (length replicas) + 1)%Z in
  let majority := (total / 2 + 1)%Z in
  if bool_decide (length replicas = 1) then 1%Z else majority.

(** [repointRouter]. *)
Definition repointRouter (ctx : Context) (clu : Cluster) (newPrimary : Inst)
    (replicaNames : list string) : M S (result unit) :=
  password <-? repo_Password ctx (inst_ID newPrimary) ;;
  let adminPassword := RouterAdminPass hmac_hex (ct_masterKey c) (cl_ID clu) in
  _ <- when (bool_decide (cl_RouterContainerID clu ≠ ""))
         (discard (router_RemoveContainer Background (cl_RouterContainerID clu) true)) ;;
  rp <-? pr_StartRouter ctx
    (mkRouterSpec (cl_ID clu) (cl_Name clu) "postgres" (inst_Superuser newPrimary) password
       adminPassword (RouterMembersFromInstances (inst_Name newPrimary) replicaNames)
       (cl_PoolMode clu) []) NoProgress ;;
  let '(routerID, port) := rp : string * Z in
  clusters_SetRouter ctx (cl_ID clu) routerID port.

(** One replica other than the new primary: wiped and cloned again.  The
    accumulator is [degraded] and [reattached]. *)
Definition reattach (ctx : Context) (newPrimary : Inst) (acc : bool * list string) (r : Inst) :
    M S (bool * list string) :=
  let '(degraded, reattached) := acc in
  _ <- discard (repo_SetStatus ctx (inst_ID r) StatusProvisioning "") ;;
  prep <- pr_PrepareReclone ctx r ;;
  match prep with
  | Err e =>
      _ <- discard (repo_SetStatus ctx (inst_ID r) StatusError ("reattach prep failed: " +:+ Error e)) ;;
      ret (true, reattached)
  | Ok _ =>
      built <- pr_ProvisionReplica ctx (inst_ID r) newPrimary NoProgress ;;
      match built with
      | Err e =>
          _ <- discard (repo_SetStatus ctx (inst_ID r) StatusError ("reattach failed: " +:+ Error e)) ;;
          ret (true, reattached)
      | Ok _ =>
          ri <- repo_Get ctx (inst_ID r) ;;
          ret (degraded, match ri with Ok ri => reattached ++ [inst_Name ri] | Err _ => reattached end)
      end
  end.

Definition quorum_msg : string := "quorum not met — refusing to promote (possible partition)".

(** After the promotion: the roles and the primary of the cluster. *)
Definition recordPrimary (ctx : Context) (clu : Cluster) (oldPrimary : option Inst) (newP : Inst) :
    M S unit :=
  _ <- match oldPrimary with
       | Some old =>
           _ <- discard (repo_SetStatus ctx (inst_ID old) StatusError "failed over; rebuild as a replica") ;;
           discard (repo_SetRole ctx (inst_ID old) RoleReplica)
       | None => ret tt
       end ;;
  roleErr <- repo_SetRole ctx (inst_ID newP) RolePrimary ;;
  _ <- discard (repo_SetStatus ctx (inst_ID newP) StatusRunning "") ;;
  primErr <- clusters_SetPrimary ctx (cl_ID clu) (inst_ID newP) ;;
  when (negb (is_ok roleErr) || negb (is_ok primErr))
    (discard (clusters_SetStatus ctx (cl_ID clu) ClusterDegraded
       ("promoted " +:+ inst_Name newP +:+ " but failed to update primary metadata; manual check needed"))).

(** Everything after the promotion. *)
Definition settle (ctx : Context) (clu : Cluster) (oldPrimary : option Inst) (newP : Inst)
    (replicas : list Inst) : M S (result unit) :=
  _ <- recordPrimary ctx clu oldPrimary newP ;;
  got <- repo_Get ctx (inst_ID newP) ;;
  let newPrimary := value_or newP got in
  acc <- for_each replicas (false, []) (λ acc r,
    if bool_decide (inst_ID r = inst_ID newP) then ret acc else reattach ctx newPrimary acc r) ;;
  let '(degraded, reattached) := acc : bool * list string in
  routed <- repointRouter ctx clu newPrimary reattached ;;
  let degraded := degraded || negb (is_ok routed) in
  _ <- discard (if degraded
                then clusters_SetStatus ctx (cl_ID clu) ClusterDegraded "failed over with degraded members"
                else clusters_SetStatus ctx (cl_ID clu) ClusterRunning "") ;;
  _ <- record ctx clu ("failover complete; new primary " +:+ inst_Name newP) (inst_ID newP) ;;
  done_ok.

(** [failover]. *)
Definition failover (ctx : Context) (clu : Cluster) (oldPrimary : option Inst) (replicas : list Inst) :
    M S (result unit) :=
  reachable <- countReachable ctx replicas ;;
  if bool_decide (reachable < needed replicas)%Z then
    _ <- discard (clusters_SetStatus ctx (cl_ID clu) ClusterError quorum_msg) ;;
    _ <- record ctx clu ("failover aborted: " +:+ quorum_msg) "" ;;
    fail (New KindInternal ("failover: " +:+ quorum_msg))
  else
  elected <- elect ctx replicas ;;
  match elected with
  | None =>
      _ <- discard (clusters_SetStatus ctx (cl_ID clu) ClusterError
             "primary unreachable and no promotable replica") ;;
      _ <- record ctx clu "failover aborted: no promotable replica" "" ;;
      fail (New KindInternal "failover: no promotable replica")
  | Some newP =>
      _ <-? match oldPrimary with Some old => pr_Fence ctx old | None => done_ok end
        orelse (λ e,
          _ <- discard (clusters_SetStatus ctx (cl_ID clu) ClusterError
                 ("failover aborted: could not fence old primary: " +:+ Error e)) ;;
          _ <- record ctx clu "failover aborted: fencing the old primary failed" "" ;;
          fail e) ;;
      _ <-? pr_Promote ctx newP
        orelse (λ e,
          _ <- discard (clusters_SetStatus ctx (cl_ID clu) ClusterError
                 ("promotion failed: " +:+ Error e)) ;;
          fail e) ;;
      settle ctx clu oldPrimary newP replicas
  end.

(** ** A pass over the clusters *)

Notation C := (S * gmap string Z)%type.

Definition strikes (id : string) (f : gmap string Z) : Z := default 0%Z (f !! id).
Definition get_strikes (id : string) : M C Z := λ s, (strikes id s.2, s).
Definition set_strikes (id : string) (n : Z) : M C unit := λ s, (tt, (s.1, <[id := n]> s.2)).

(** One cluster: probe, count, and at the threshold fail over. *)
Definition runOne (ctx : Context) (clu : Cluster) : M C unit :=
  if negb (bool_decide (cl_Status clu = ClusterRunning) || bool_decide (cl_Status clu = ClusterDegraded))
  then ret tt
  else
  members <- on_fst (repo_ListByCluster ctx (cl_ID clu)) ;;
  match members with
  | Err _ => ret tt
  | Ok members =>
      let '(primary, replicas) := splitMembers members in
      up <- match primary with
            | Some p => on_fst (pr_PrimaryReachable ctx p)
            | None => ret false
            end ;;
      if up : bool then set_strikes (cl_ID clu) 0
      else
        n <- get_strikes (cl_ID clu) ;;
        _ <- set_strikes (cl_ID clu) (n + 1) ;;
        if bool_decide (n + 1 < ct_threshold c)%Z then ret tt
        else
          _ <- set_strikes (cl_ID clu) 0 ;;
          discard (on_fst (failover ctx clu primary replicas))
  end.

(** Prune the counters of the clusters that are gone. *)
Definition prune (live : list string) : M C unit :=
  λ s, (tt, (s.1, filter (λ kv, kv.1 ∈ live) s.2)).

(** [Run]. *)
Definition Run (ctx : Context) : M C (result unit) :=
  clusters <-? on_fst (clusters_List ctx) ;;
  _ <- for_each clusters tt (λ _ clu, runOne ctx clu) ;;
  _ <- prune (cl_ID <$> clusters) ;;
  done_ok.
End controller.
