(* ===== verification/FailoverSafety.v ===== *)
(** * Safety of a failover

    The controller of [Failover] run on a world that logs what it does.  The
    abstract specification [failover_run] is an inductive description of the
    event sequences a failover may produce: poll, elect, fence, promote, settle.
    Every run of the code is one of them ([failover_refines]); what a promotion
    presupposes is then read off the specification ([promotion_safe]). *)

From stdpp Require Import gmap.
From S2P Require Import Prelude GoStrings Apperr GoMonad Triples Instances Runtime Stores Provision Failover.

(** ** Events *)

Inductive FEvent :=
  | EProbe (i : Inst) (up : bool)
  | ELSN (i : Inst) (r : result Z)
  | EFence (i : Inst) (r : result unit)
  | EPromote (i : Inst) (r : result unit)
  | EReclone (i : Inst) (r : result unit)
  | EReplica (id : string) (source : Inst) (r : result unit)
  | ERouter (spec : RouterSpec) (r : result (string * Z))
  | ERole (id role : string) (r : result unit)
  | EPrimary (cluster id : string) (r : result unit)
  | EStatus (cluster status msg : string) (r : result unit).

Definition is_promote (e : FEvent) : bool :=
  match e with EPromote _ _ => true | _ => false end.

(** ** The pure decisions *)

(** What the poll of the replicas heard, and how many were up. *)
Definition poll_events (replicas : list Inst) (ups : list bool) : list FEvent :=
  zip_with EProbe replicas ups.
Definition count_up (ups : list bool) : Z := Z.of_nat (length (filter (λ b, b = true) ups)).

(** What the election heard of one replica: [None] when it does not answer. *)
Definition answer_events (r : Inst) (a : option (result Z)) : list FEvent :=
  match a with None => [EProbe r false] | Some lsn => [EProbe r true; ELSN r lsn] end.
Definition election_events (heard : list (Inst * option (result Z))) : list FEvent :=
  concat ((λ ra, answer_events ra.1 ra.2) <$> heard).

(** A replica is promotable with the position it has replayed, if positive. *)
Definition position (a : option (result Z)) : option Z :=
  match a with
  | Some (Ok lsn) => if bool_decide (0 < lsn)%Z then Some lsn else None
  | _ => None
  end.

(** [p] is the first of the replicas with the highest position. *)
Definition best (heard : list (Inst * option (result Z))) (p : Inst) : Prop :=
  ∃ l1 a l2 lsn, heard = l1 ++ (p, a) :: l2 ∧ position a = Some lsn ∧
    (∀ ra m, ra ∈ l1 → position ra.2 = Some m → m < lsn)%Z ∧
    (∀ ra m, ra ∈ l2 → position ra.2 = Some m → m ≤ lsn)%Z.
Definition none_promotable (heard : list (Inst * option (result Z))) : Prop :=
  ∀ ra, ra ∈ heard → position ra.2 = None.

(** ** The specification *)

(** Fencing the old primary, when there is one. *)
Definition fence_events (old : option Inst) : list FEvent :=
  match old with Some o => [EFence o (Ok tt)] | None => [] end.

(** An event that neither fences, promotes nor records a primary. *)
Definition calm (e : FEvent) : Prop :=
  match e with EFence _ _ | EPromote _ _ | ERole _ _ _ | EPrimary _ _ _ => False | _ => True end.

(** What follows a promotion of [p]: the old primary is demoted, [p] is
    recorded, and nobody is promoted or fenced any more. *)
Inductive settled (clu : Cluster) (old : option Inst) (p : Inst) : list FEvent → Prop :=
  | Settled demoted r1 r2 tail :
      match old with
      | Some o => ∃ r0, demoted = [ERole (inst_ID o) RoleReplica r0]
      | None => demoted = []
      end →
      Forall calm tail →
      (∃ pre st msg r, tail = pre ++ [EStatus (cl_ID clu) st msg r] ∧
         (st = ClusterRunning ∨ st = ClusterDegraded)) →
      settled clu old p (demoted ++ [ERole (inst_ID p) RolePrimary r1; EPrimary (cl_ID clu) (inst_ID p) r2] ++ tail).

(** The runs of a failover and their results. *)
Inductive failover_run (clu : Cluster) (old : option Inst) (replicas : list Inst) :
    result unit → list FEvent → Prop :=
  | NoQuorum ups msg r e :
      length ups = length replicas → (count_up ups < needed replicas)%Z →
      failover_run clu old replicas (Err e)
        (poll_events replicas ups ++ [EStatus (cl_ID clu) ClusterError msg r])
  | NoCandidate ups heard msg r e :
      length ups = length replicas → (needed replicas ≤ count_up ups)%Z →
      heard.*1 = replicas → none_promotable heard →
      failover_run clu old replicas (Err e)
        (poll_events replicas ups ++ election_events heard ++ [EStatus (cl_ID clu) ClusterError msg r])
  | FenceFailed ups heard p o msg r e :
      length ups = length replicas → (needed replicas ≤ count_up ups)%Z →
      heard.*1 = replicas → best heard p → old = Some o →
      failover_run clu old replicas (Err e)
        (poll_events replicas ups ++ election_events heard ++
         [EFence o (Err e); EStatus (cl_ID clu) ClusterError msg r])
  | PromoteFailed ups heard p msg r e :
      length ups = length replicas → (needed replicas ≤ count_up ups)%Z →
      heard.*1 = replicas → best heard p →
      failover_run clu old replicas (Err e)
        (poll_events replicas ups ++ election_events heard ++ fence_events old ++
         [EPromote p (Err e); EStatus (cl_ID clu) ClusterError msg r])
  | FailedOver ups heard p tail :
      length ups = length replicas → (needed replicas ≤ count_up ups)%Z →
      heard.*1 = replicas → best heard p → settled clu old p tail →
      failover_run clu old replicas (Ok tt)
        (poll_events replicas ups ++ election_events heard ++ fence_events old ++
         EPromote p (Ok tt) :: tail).

(** ** The logging world *)

Section logged.
Context {S : Type} {PM0 : Promoter S} {IS0 : InstanceStore S} {CS0 : ClusterStore S}
  {RR0 : RouterRemover S} {ER0 : EventRecorder S}.

#[export] Instance logged_promoter : Promoter (S * list FEvent) := {|
  pr_PrimaryReachable ctx i := traced (EProbe i) (pr_PrimaryReachable ctx i);
  pr_ReplayLSN ctx i := traced (ELSN i) (pr_ReplayLSN ctx i);
  pr_Promote ctx i := traced (EPromote i) (pr_Promote ctx i);
  pr_Fence ctx i := traced (EFence i) (pr_Fence ctx i);
  pr_PrepareReclone ctx i := traced (EReclone i) (pr_PrepareReclone ctx i);
  pr_ProvisionReplica ctx id p g := traced (EReplica id p) (pr_ProvisionReplica ctx id p g);
  pr_StartRouter ctx sp g := traced (ERouter sp) (pr_StartRouter ctx sp g);
|}.

#[export] Instance logged_instances : InstanceStore (S * list FEvent) := {|
  repo_Create ctx n := on_fst (repo_Create ctx n);
  repo_Get ctx id := on_fst (repo_Get ctx id);
  repo_GetByName ctx n := on_fst (repo_GetByName ctx n);
  repo_List ctx := on_fst (repo_List ctx);
  repo_ListByCluster ctx id := on_fst (repo_ListByCluster ctx id);
  repo_Password ctx id := on_fst (repo_Password ctx id);
  repo_SetRuntime ctx id cid port := on_fst (repo_SetRuntime ctx id cid port);
  repo_SetDataVolume ctx id v := on_fst (repo_SetDataVolume ctx id v);
  repo_SetStatus ctx id st err := on_fst (repo_SetStatus ctx id st err);
  repo_SetPublic ctx id b := on_fst (repo_SetPublic ctx id b);
  repo_SetEncrypted ctx id b := on_fst (repo_SetEncrypted ctx id b);
  repo_SetRole ctx id role := traced (ERole id role) (repo_SetRole ctx id role);
  repo_Delete ctx id := on_fst (repo_Delete ctx id);
|}.

#[export] Instance logged_clusters : ClusterStore (S * list FEvent) := {|
  clusters_Create ctx n := on_fst (clusters_Create ctx n);
  clusters_Get ctx id := on_fst (clusters_Get ctx id);
  clusters_List ctx := on_fst (clusters_List ctx);
  clusters_SetPrimary ctx id p := traced (EPrimary id p) (clusters_SetPrimary ctx id p);
  clusters_SetRouter ctx id cid port := on_fst (clusters_SetRouter ctx id cid port);
  clusters_SetStatus ctx id st msg := traced (EStatus id st msg) (clusters_SetStatus ctx id st msg);
  clusters_Delete ctx id := on_fst (clusters_Delete ctx id);
|}.

#[export] Instance logged_router : RouterRemover (S * list FEvent) := {|
  router_RemoveContainer ctx id f := on_fst (router_RemoveContainer ctx id f);
|}.

#[export] Instance logged_recorder : EventRecorder (S * list FEvent) := {|
  event_Record ctx e := on_fst (event_Record ctx e);
|}.
End logged.

(** ** The events of the operations *)

Section runs.
Context {S : Type} {PM : Promoter S} {IS : InstanceStore S} {CS : ClusterStore S}
  {RR : RouterRemover S} {ER : EventRecorder S}.
Notation L := (S * list FEvent)%type.

(** A status write of the cluster, its outcome ignored. *)
Lemma logs_status {B} ctx id st msg (k : unit → M L B) ψ :
  (∀ r, logs (k tt) (λ b l, ψ b (EStatus id st msg r :: l))) →
  logs (bind (discard (clusters_SetStatus ctx id st msg)) k) ψ.
Proof.
  intros Hk. eapply (logs_bind _ _ (λ _ l, ∃ r, l = [EStatus id st msg r])).
  - apply logs_discard. eapply logs_mono; [apply logs_traced|]. intros r l ->. by eexists.
  - intros [] l1 [r ->]. exact (Hk r).
Qed.

Lemma logs_record (c : Controller) ctx clu msg id : logs (record c ctx clu msg id) (λ _ l, l = []).
Proof. unfold record. apply logs_when; [|done]. apply logs_discard, logs_silent. Qed.

(** ** The poll and the election *)

Lemma logs_countReachable ctx replicas :
  logs (countReachable ctx replicas)
    (λ n l, ∃ ups, length ups = length replicas ∧ l = poll_events replicas ups ∧ n = count_up ups).
Proof.
  unfold countReachable.
  assert (H : ∀ n0, logs (for_each replicas n0 (λ n r,
      up <- pr_PrimaryReachable ctx r ;; ret (if up : bool then n + 1 else n)%Z))
    (λ n l, ∃ ups, length ups = length replicas ∧ l = poll_events replicas ups ∧ n = (n0 + count_up ups)%Z)).
  { induction replicas as [|r rs IH]; intros n0; cbn [for_each].
    - apply logs_ret. exists []. cbn. split_and!; [done..|]. change (count_up []) with 0%Z. lia.
    - eapply (logs_bind _ _ (λ n l, ∃ up, l = [EProbe r up] ∧ n = (if up : bool then n0 + 1 else n0)%Z)).
      + eapply logs_bind; [apply logs_traced|]. intros up l1 ->. apply logs_ret. by exists up.
      + intros n l1 (up & -> & ->). eapply logs_mono; [apply IH|].
        intros n l (ups & Hlen & -> & ->). exists (up :: ups). cbn [length]. split_and!; [lia|done|].
        unfold count_up. destruct up.
        * rewrite filter_cons_True by done. rewrite length_cons. lia.
        * rewrite filter_cons_False by done. lia. }
  eapply logs_mono; [apply (H 0%Z)|]. intros n l (ups & ? & ? & ->). by exists ups.
Qed.

(** The accumulator of [elect] after the replicas [heard]. *)
Definition elect_acc (heard : list (Inst * option (result Z))) (acc : Inst * Z * bool) : Prop :=
  let '(p, lsn, found) := acc in
  if found : bool then
    (0 < lsn)%Z ∧ ∃ l1 a l2, heard = l1 ++ (p, a) :: l2 ∧ position a = Some lsn ∧
      (∀ ra m, ra ∈ l1 → position ra.2 = Some m → m < lsn)%Z ∧
      (∀ ra m, ra ∈ l2 → position ra.2 = Some m → m ≤ lsn)%Z
  else lsn = 0%Z ∧ none_promotable heard.

Definition elect_next (acc : Inst * Z * bool) (r : Inst) (a : option (result Z)) : Inst * Z * bool :=
  match position a with
  | Some lsn => if bool_decide (acc.1.2 < lsn)%Z then (r, lsn, true) else acc
  | None => acc
  end.

Lemma position_pos a lsn : position a = Some lsn → (0 < lsn)%Z.
Proof. destruct a as [[n|]|]; cbn; try done. case_bool_decide; [|done]. intros [= <-]. done. Qed.

Lemma elect_acc_next heard acc r a :
  elect_acc heard acc → elect_acc (heard ++ [(r, a)]) (elect_next acc r a).
Proof.
  destruct acc as [[p lsn] found]. unfold elect_next, elect_acc. cbn [fst snd]. intros Hacc.
  destruct (position a) as [m|] eqn:Hm.
  - pose proof (position_pos a m Hm) as Hpos. case_bool_decide as Hlt.
    + split; [done|]. exists heard, a, []. split_and!; [done|done| |by intros ? ? ?%elem_of_nil].
      intros ra n Hin Hn. destruct found.
      * destruct Hacc as (_ & l1 & a' & l2 & -> & Ha' & H1 & H2).
        apply elem_of_app in Hin as [Hin|[->|Hin]%elem_of_cons].
        -- specialize (H1 ra n Hin Hn). lia.
        -- cbn in Hn. rewrite Ha' in Hn. injection Hn as <-. done.
        -- specialize (H2 ra n Hin Hn). lia.
      * destruct Hacc as [_ Hnone]. by rewrite (Hnone ra Hin) in Hn.
    + destruct found; [|destruct Hacc as [-> _]; lia].
      destruct Hacc as (Hp & l1 & a' & l2 & -> & Ha' & H1 & H2). split; [done|].
      exists l1, a', (l2 ++ [(r, a)]). split_and!; [by rewrite <- app_assoc|done|done|].
      intros ra n [Hin|Hin]%elem_of_app Hn; [by eapply H2|].
      apply list_elem_of_singleton in Hin as ->. cbn in Hn. rewrite Hm in Hn. injection Hn as <-. lia.
  - destruct found.
    + destruct Hacc as (Hp & l1 & a' & l2 & -> & Ha' & H1 & H2). split; [done|].
      exists l1, a', (l2 ++ [(r, a)]). split_and!; [by rewrite <- app_assoc|done|done|].
      intros ra n [Hin|Hin]%elem_of_app Hn; [by eapply H2|].
      apply list_elem_of_singleton in Hin as ->. cbn in Hn. by rewrite Hm in Hn.
    + destruct Hacc as [-> Hnone]. split; [done|]. intros ra [Hin|Hin]%elem_of_app; [by apply Hnone|].
      by apply list_elem_of_singleton in Hin as ->.
Qed.

Lemma logs_elect ctx replicas :
  logs (elect ctx replicas)
    (λ p l, ∃ heard, heard.*1 = replicas ∧ l = election_events heard ∧
       match p with Some p => best heard p | None => none_promotable heard end).
Proof.
  unfold elect.
  eapply (logs_bind _ _ (λ acc l, ∃ heard, heard.*1 = replicas ∧ l = election_events heard ∧ elect_acc heard acc)).
  - assert (H : ∀ seen acc0, elect_acc seen acc0 →
      logs (for_each replicas acc0 (λ acc r,
        let '(best, bestLSN, found) := acc in
        up <- pr_PrimaryReachable ctx r ;;
        if negb up then ret acc
        else
          lsn <- pr_ReplayLSN ctx r ;;
          ret (match lsn with
               | Err _ => acc
               | Ok lsn =>
                   if bool_decide (lsn ≤ 0)%Z then acc
                   else if bool_decide (bestLSN < lsn)%Z then (r, lsn, true) else acc
               end)))
      (λ acc l, ∃ heard, heard.*1 = replicas ∧ l = election_events heard ∧ elect_acc (seen ++ heard) acc)).
    { induction replicas as [|r rs IH]; intros seen acc0 Hacc; cbn [for_each].
      - apply logs_ret. exists []. rewrite app_nil_r. done.
      - eapply (logs_bind _ _ (λ acc l, ∃ a, l = answer_events r a ∧ acc = elect_next acc0 r a)).
        + destruct acc0 as [[p0 n0] f0]. eapply logs_bind; [apply logs_traced|]. intros [] l1 ->; cbn [negb].
          * eapply logs_bind; [apply logs_traced|]. intros lsn l1 ->. apply logs_ret. exists (Some lsn).
            split; [done|]. unfold elect_next, position. cbn [fst snd]. destruct lsn as [n|]; [|done].
            repeat case_bool_decide; try done; lia.
          * apply logs_ret. by exists None.
        + intros acc l1 (a & -> & ->). eapply logs_mono; [apply (IH (seen ++ [(r, a)])); by apply elect_acc_next|].
          intros acc l (heard & Hh & -> & Hacc'). exists ((r, a) :: heard).
          rewrite fmap_cons, Hh. split_and!; [done|done|]. by rewrite <- app_assoc in Hacc'. }
    apply (H [] (zeroInst, 0%Z, false)). split; [done|]. by intros ? ?%elem_of_nil.
  - intros [[p lsn] found] l1 (heard & Hh & -> & Hacc). apply logs_ret. rewrite app_nil_r.
    exists heard. split_and!; [done|done|]. cbn in Hacc. destruct found; [|apply Hacc].
    destruct Hacc as (_ & l1 & a & l2 & H). exists l1, a, l2, lsn. done.
Qed.
(** ** Settling *)

Lemma logs_calm {A} (m : M L A) : logs m (λ _ l, l = []) → logs m (λ _ l, Forall calm l).
Proof. intros Hm. eapply logs_mono; [exact Hm|]. by intros a l ->. Qed.

Lemma calm_bind {A B} (m : M L A) (k : A → M L B) :
  logs m (λ _ l, Forall calm l) → (∀ a, logs (k a) (λ _ l, Forall calm l)) →
  logs (bind m k) (λ _ l, Forall calm l).
Proof.
  intros Hm Hk. eapply logs_bind; [exact Hm|]. intros a l1 H1. eapply logs_mono; [apply Hk|].
  intros b l H2. by apply Forall_app.
Qed.

Lemma calm_try {A B} (m : M L (result A)) (k : A → M L (result B)) :
  logs m (λ _ l, Forall calm l) → (∀ a, logs (k a) (λ _ l, Forall calm l)) →
  logs (try m k) (λ _ l, Forall calm l).
Proof. intros Hm Hk. apply calm_bind; [exact Hm|]. intros [a|e]; [apply Hk|by apply logs_ret]. Qed.

Lemma calm_traced {A} (ev : A → FEvent) (m : M S A) :
  (∀ a, calm (ev a)) → logs (traced ev m) (λ _ l, Forall calm l).
Proof. intros H. eapply logs_mono; [apply logs_traced|]. intros a l ->. by constructor. Qed.

Lemma calm_silent {A} (m : M S A) : logs (on_fst m) (λ _ l, Forall calm l).
Proof. apply logs_calm, logs_silent. Qed.

Lemma calm_discard {A} (m : M L A) : logs m (λ _ l, Forall calm l) → logs (discard m) (λ _ l, Forall calm l).
Proof. intros Hm. by apply logs_discard. Qed.

Lemma calm_ret {A} (a : A) : logs (S := S) (ret a) (λ _ l, Forall calm l).
Proof. by apply logs_ret. Qed.

Lemma calm_reattach ctx p acc r : logs (reattach ctx p acc r) (λ _ l, Forall calm l).
Proof.
  destruct acc as [dg re]. apply calm_bind; [apply calm_discard, calm_silent|intros _].
  apply calm_bind; [by apply calm_traced|]. intros [[]|e].
  - apply calm_bind; [by apply calm_traced|]. intros [[]|e].
    + apply calm_bind; [apply calm_silent|]. intros ri. apply calm_ret.
    + apply calm_bind; [apply calm_discard, calm_silent|intros _]. apply calm_ret.
  - apply calm_bind; [apply calm_discard, calm_silent|intros _]. apply calm_ret.
Qed.

Lemma calm_reattach_all ctx p newP replicas acc0 :
  logs (for_each replicas acc0 (λ acc r,
    if bool_decide (inst_ID r = inst_ID newP) then ret acc else reattach ctx p acc r))
    (λ _ l, Forall calm l).
Proof.
  revert acc0. induction replicas as [|r rs IH]; intros acc0; cbn [for_each]; [apply calm_ret|].
  apply calm_bind; [|exact IH]. case_bool_decide; [apply calm_ret|apply calm_reattach].
Qed.

Lemma calm_repointRouter hmac_hex c ctx clu p names :
  logs (repointRouter hmac_hex c ctx clu p names) (λ _ l, Forall calm l).
Proof.
  apply calm_try; [apply calm_silent|]. intros pw.
  apply calm_bind; [apply logs_when; [apply calm_discard, calm_silent|done]|intros _].
  apply calm_try; [by apply calm_traced|]. intros [cid port]. apply calm_silent.
Qed.

(** The roles: the old primary's first. *)
Lemma logs_recordPrimary ctx clu old p :
  logs (recordPrimary ctx clu old p) (λ _ l, ∃ demoted r1 r2 tail,
    l = demoted ++ [ERole (inst_ID p) RolePrimary r1; EPrimary (cl_ID clu) (inst_ID p) r2] ++ tail ∧
    Forall calm tail ∧
    match old with
    | Some o => ∃ r0, demoted = [ERole (inst_ID o) RoleReplica r0]
    | None => demoted = []
    end).
Proof.
  unfold recordPrimary.
  eapply (logs_bind _ _ (λ _ l, match old with
    | Some o => ∃ r0, l = [ERole (inst_ID o) RoleReplica r0] | None => l = [] end)).
  { destruct old as [o|]; [|by apply logs_ret].
    apply logs_step; [apply logs_discard, logs_silent|intros _].
    apply logs_discard. eapply logs_mono; [apply logs_traced|]. intros r l ->. by eexists. }
  intros [] demoted Hd. eapply logs_bind; [apply logs_traced|]. intros r1 l1 ->.
  apply logs_step; [apply logs_discard, logs_silent|intros _].
  eapply logs_bind; [apply logs_traced|]. intros r2 l2 ->.
  eapply logs_mono.
  - apply (logs_when _ _ (λ _ l, Forall calm l)); [|done]. apply calm_discard. by apply calm_traced.
  - intros [] tail Ht. exists demoted, r1, r2, tail. by split_and!.
Qed.

Lemma logs_settle hmac_hex c ctx clu old p replicas :
  logs (settle hmac_hex c ctx clu old p replicas) (λ r l, r = Ok tt ∧ settled clu old p l).
Proof.
  unfold settle. eapply logs_bind; [apply logs_recordPrimary|].
  intros [] l1 (demoted & r1 & r2 & tail & -> & Htail & Hd).
  apply logs_step; [apply logs_silent|]. intros got.
  eapply logs_bind; [apply calm_reattach_all|]. intros [dg re] l2 H2.
  eapply logs_bind; [apply calm_repointRouter|]. intros routed l3 H3.
  eapply (logs_bind _ _ (λ _ l, ∃ st msg r, l = [EStatus (cl_ID clu) st msg r] ∧
                           (st = ClusterRunning ∨ st = ClusterDegraded))).
  { apply logs_discard. destruct (_ || _); (eapply logs_mono; [apply logs_traced|]);
      intros r l ->; repeat eexists; by constructor. }
  intros [] l4 (st & msg & r & -> & Hst).
  apply logs_step; [apply logs_record|]. intros _. apply logs_ret. split; [done|].
  rewrite app_nil_r, <- !app_assoc. apply Settled; [done| |].
  - rewrite !Forall_app. repeat split; try done. by constructor.
  - exists (tail ++ l2 ++ l3), st, msg, r. by rewrite <- !app_assoc.
Qed.

(** ** The failover *)

Lemma logs_failover hmac_hex c ctx clu old replicas :
  logs (failover hmac_hex c ctx clu old replicas) (failover_run clu old replicas).
Proof.
  unfold failover.
  eapply logs_bind; [apply logs_countReachable|]. intros n l1 (ups & Hlen & -> & ->).
  case_bool_decide as Hq.
  { apply logs_status. intros r. apply logs_step; [apply logs_record|]. intros _.
    apply logs_ret. by apply NoQuorum. }
  eapply logs_bind; [apply logs_elect|]. intros [p|] l2 (heard & Hh & -> & Hbest).
  2: { apply logs_status. intros r. apply logs_step; [apply logs_record|]. intros _.
       apply logs_ret. apply NoCandidate; [done|lia|done|done]. }
  eapply (logs_try_or _ _ _ (λ r l, match r with
    | Ok _ => l = fence_events old
    | Err e => ∃ o, old = Some o ∧ l = [EFence o (Err e)] end)).
  { destruct old as [o|]; [|by apply logs_ret].
    eapply logs_mono; [apply logs_traced|]. intros [[]|e] l ->; [done|by exists o]. }
  - intros e l3 (o & Ho & ->). apply logs_status. intros r. apply logs_step; [apply logs_record|].
    intros _. apply logs_ret. apply (FenceFailed _ _ _ ups heard p o); [done|lia|done..].
  - intros [] l3 ->. eapply logs_try_or; [apply logs_traced| |].
    + intros e l4 ->. apply logs_status. intros r. apply logs_ret.
      apply (PromoteFailed _ _ _ ups heard p); [done|lia|done..].
    + intros [] l4 ->. eapply logs_mono; [apply logs_settle|]. intros r l [-> Hs].
      apply (FailedOver _ _ _ ups heard p); [done|lia|done..].
Qed.
(** C17: whatever the runtime, the databases and the network
    answer, what a failover does is one of the runs of the specification: the
    poll of every replica in order, the election among the same replicas when
    enough of them answered, the fencing of the old primary, one promotion, and
    the recording of the outcome; with the result that goes with it. *)
Theorem failover_refines hmac_hex c ctx clu old replicas (s : L) :
  ∃ l, (failover hmac_hex c ctx clu old replicas s).2.2 = s.2 ++ l ∧
    failover_run clu old replicas (failover hmac_hex c ctx clu old replicas s).1 l.
Proof.
  apply logs_run, logs_failover.
Qed.

(** ** What a promotion presupposes *)

Lemma unique_split (pre tail l1 l2 : list FEvent) e e' :
  Forall (λ x, is_promote x = false) pre → Forall (λ x, is_promote x = false) tail →
  is_promote e' = true → pre ++ e :: tail = l1 ++ e' :: l2 → l1 = pre ∧ e' = e ∧ l2 = tail.
Proof.
  revert l1. induction pre as [|x pre IH]; intros [|y l1] Hp Ht He' Heq; cbn [app] in Heq.
  - by injection Heq as -> ->.
  - injection Heq as -> Heq. subst tail. apply Forall_app in Ht as [_ Ht]. apply Forall_cons in Ht as [Ht _]. congruence.
  - injection Heq as -> Heq. apply Forall_cons in Hp as [Hp _]. congruence.
  - injection Heq as -> Heq. apply Forall_cons in Hp as [_ Hp].
    destruct (IH _ Hp Ht He' Heq) as (-> & -> & ->). done.
Qed.

Lemma calm_no_promote l : Forall calm l → Forall (λ e, is_promote e = false) l.
Proof. intros H. eapply Forall_impl; [exact H|]. by intros []. Qed.

Lemma settled_no_promote clu old p l : settled clu old p l → Forall (λ e, is_promote e = false) l.
Proof.
  intros [demoted r1 r2 tail Hd Ht _]. rewrite !Forall_app. split_and!.
  - destruct old as [o|]; [destruct Hd as [r0 ->]|subst]; by repeat constructor.
  - by repeat constructor.
  - by apply calm_no_promote.
Qed.

Lemma poll_no_promote replicas ups : Forall (λ e, is_promote e = false) (poll_events replicas ups).
Proof.
  unfold poll_events. revert ups. induction replicas as [|r rs IH]; intros [|u ups]; constructor; [done|apply IH].
Qed.

Lemma election_no_promote heard : Forall (λ e, is_promote e = false) (election_events heard).
Proof.
  induction heard as [|[r a] heard IH]; [constructor|].
  apply Forall_app. split; [|exact IH]. by destruct a; repeat constructor.
Qed.

Lemma fence_no_promote old : Forall (λ e, is_promote e = false) (fence_events old).
Proof. by destruct old; repeat constructor. Qed.

(** Everything that was known and done before the one promotion of [l]. *)
Definition justified (old : option Inst) (replicas : list Inst) (p : Inst) (before : list FEvent) : Prop :=
  ∃ ups heard,
    before = poll_events replicas ups ++ election_events heard ++ fence_events old ∧
    length ups = length replicas ∧ (needed replicas ≤ count_up ups)%Z ∧
    (length replicas ≠ 1 → (Z.of_nat (length replicas) + 1 < 2 * count_up ups)%Z) ∧
    heard.*1 = replicas ∧ best heard p.

Lemma needed_majority replicas n :
  (needed replicas ≤ n)%Z → length replicas ≠ 1 → (Z.of_nat (length replicas) + 1 < 2 * n)%Z.
Proof. unfold needed. intros Hn Hl. rewrite bool_decide_eq_false_2 in Hn by done. Z.to_euclidean_division_equations. lia. Qed.

(** C1: a failover promotes at most once, and only after: every
    replica was polled and enough of them were up (more than half of the whole
    cluster, the one replica of a two-node cluster apart); the promoted one is
    the first of the replicas with the highest replayed position, which is
    positive; and the old primary, if there is one, has been fenced with success
    and nothing has been promoted since. *)
Theorem promotion_safe hmac_hex c ctx clu old replicas (s : L) :
  ∃ l, (failover hmac_hex c ctx clu old replicas s).2.2 = s.2 ++ l ∧
    ∀ l1 p r l2, l = l1 ++ EPromote p r :: l2 →
      justified old replicas p l1 ∧ Forall (λ e, is_promote e = false) (l1 ++ l2).
Proof.
  destruct (logs_run _ _ s (logs_failover hmac_hex c ctx clu old replicas)) as (l & Hl & Hrun).
  exists l. split; [exact Hl|]. intros l1 p r l2 Heq. clear Hl.
  assert (Hnone : ∀ l', Forall (λ e, is_promote e = false) l' → l' ≠ l1 ++ EPromote p r :: l2).
  { intros l' H ->. apply Forall_app in H as [_ H]. by apply Forall_cons in H as [? _]. }
  assert (Hone : ∀ ups heard p' r' tail,
    length ups = length replicas → (needed replicas ≤ count_up ups)%Z → heard.*1 = replicas → best heard p' →
    Forall (λ e, is_promote e = false) tail →
    (poll_events replicas ups ++ election_events heard ++ fence_events old) ++ EPromote p' r' :: tail =
      l1 ++ EPromote p r :: l2 →
    justified old replicas p l1 ∧ Forall (λ e, is_promote e = false) (l1 ++ l2)).
  { intros ups heard p' r' tail Hlen Hq Hh Hb Ht H.
    assert (Hpre : Forall (λ e, is_promote e = false)
                     (poll_events replicas ups ++ election_events heard ++ fence_events old)).
    { rewrite !Forall_app. split_and!; [apply poll_no_promote|apply election_no_promote|apply fence_no_promote]. }
    destruct (unique_split _ _ _ _ _ (EPromote p r) Hpre Ht eq_refl H) as (-> & He & ->). injection He as -> _. split; [|by apply Forall_app].
    exists ups, heard. split_and!; try done. intros Hn. by apply needed_majority. }
  destruct Hrun as [ups msg r0 e Hlen Hq|ups heard msg r0 e Hlen Hq Hh Hb|ups heard p' o msg r0 e Hlen Hq Hh Hb Ho
    |ups heard p' msg r0 e Hlen Hq Hh Hb|ups heard p' tail Hlen Hq Hh Hb Hs].
  - exfalso. eapply Hnone; [|exact Heq]. apply Forall_app. split; [apply poll_no_promote|by repeat constructor].
  - exfalso. eapply Hnone; [|exact Heq]. rewrite !Forall_app.
    split_and!; [apply poll_no_promote|apply election_no_promote|by repeat constructor].
  - exfalso. eapply Hnone; [|exact Heq]. rewrite !Forall_app.
    split_and!; [apply poll_no_promote|apply election_no_promote|by repeat constructor].
  - eapply Hone; [done..| |rewrite <- Heq, <- !app_assoc; reflexivity]. by repeat constructor.
  - eapply Hone; [done..| |rewrite <- Heq, <- !app_assoc; reflexivity]. exact (settled_no_promote _ _ _ _ Hs).
Qed.
End runs.
