(* ===== verification/FailoverRun.v ===== *)
(** * The strike counters of the failover controller

    [Run] counts, per cluster, the consecutive passes in which the primary did
    not answer.  A history of rounds (one per eligible cluster and pass) explains
    every sequence of passes: the counters never run ahead of the history, and a
    failover only happens when the history of its cluster ends in enough
    consecutive failed probes ([failover_needs_strikes]). *)

From stdpp Require Import gmap.
From S2P Require Import Prelude GoStrings Apperr GoMonad Triples Instances Runtime Stores Provision Failover FailoverSafety.

(** ** Histories *)

Inductive Verdict := Up | Down | FailedAt.

(** A round: a cluster whose members were listed, what its primary answered, and
    the events of the round. *)
Record Round := mkRound {
  rd_cluster : Cluster;
  rd_primary : option Inst;
  rd_replicas : list Inst;
  rd_verdict : Verdict;
  rd_events : list FEvent;
}.

(** The probe of a primary that is not reachable, or that does not exist. *)
Definition missed (primary : option Inst) : list FEvent :=
  match primary with Some p => [EProbe p false] | None => [] end.

Definition round_ok (r : Round) : Prop :=
  (cl_Status (rd_cluster r) = ClusterRunning ∨ cl_Status (rd_cluster r) = ClusterDegraded) ∧
  match rd_verdict r with
  | Up => ∃ p, rd_primary r = Some p ∧ rd_events r = [EProbe p true]
  | Down => rd_events r = missed (rd_primary r)
  | FailedAt => ∃ res l, rd_events r = missed (rd_primary r) ++ l ∧
                  failover_run (rd_cluster r) (rd_primary r) (rd_replicas r) res l
  end.

(** The failed probes of a cluster since it last answered or failed over. *)
Definition trail_step (id : string) (n : Z) (r : Round) : Z :=
  if bool_decide (cl_ID (rd_cluster r) = id)
  then match rd_verdict r with Down => n + 1 | _ => 0 end
  else n.
Definition trailing (id : string) (h : list Round) : Z := foldl (trail_step id) 0%Z h.

(** Every failover of the history came at the threshold. *)
Definition sound (threshold : Z) (h : list Round) : Prop :=
  ∀ h1 r h2, h = h1 ++ r :: h2 → rd_verdict r = FailedAt →
    (threshold ≤ trailing (cl_ID (rd_cluster r)) h1 + 1)%Z.

Lemma trailing_snoc id h r : trailing id (h ++ [r]) = trail_step id (trailing id h) r.
Proof. unfold trailing. by rewrite foldl_app. Qed.

Lemma sound_snoc threshold h r :
  sound threshold h →
  (rd_verdict r = FailedAt → (threshold ≤ trailing (cl_ID (rd_cluster r)) h + 1)%Z) →
  sound threshold (h ++ [r]).
Proof.
  intros Hs Hr h1 r' h2 Heq Hv.
  destruct h2 as [|x h2 _] using rev_ind.
  - apply app_inj_tail in Heq as [<- <-]. by apply Hr.
  - rewrite app_comm_cons, app_assoc in Heq. apply app_inj_tail in Heq as [-> <-]. by eapply Hs.
Qed.

(** The counters [f] after the history [h]. *)
Definition tracks (threshold : Z) (h : list Round) (f : gmap string Z) : Prop :=
  sound threshold h ∧
  ∀ id, (0 ≤ strikes id f < threshold)%Z ∧ (strikes id f ≤ trailing id h)%Z.

Lemma strikes_insert id id' n f :
  strikes id' (<[id := n]> f) = if bool_decide (id = id') then n else strikes id' f.
Proof.
  unfold strikes. case_bool_decide as H; [subst; by rewrite lookup_insert_eq|].
  by rewrite lookup_insert_ne.
Qed.

(** A round that sets the counter of its cluster. *)
Lemma tracks_round threshold h f r n :
  tracks threshold h f → (0 ≤ n < threshold)%Z →
  (n ≤ trail_step (cl_ID (rd_cluster r)) (trailing (cl_ID (rd_cluster r)) h) r)%Z →
  (rd_verdict r = FailedAt → (threshold ≤ trailing (cl_ID (rd_cluster r)) h + 1)%Z) →
  tracks threshold (h ++ [r]) (<[cl_ID (rd_cluster r) := n]> f).
Proof.
  intros [Hs Hf] Hn Ht Hr. split; [by apply sound_snoc|]. intros id.
  rewrite strikes_insert, trailing_snoc. case_bool_decide as Hid; [by subst|].
  unfold trail_step. rewrite bool_decide_eq_false_2 by done. apply Hf.
Qed.

Section passes.
Context {S : Type} {PM : Promoter S} {IS : InstanceStore S} {CS : ClusterStore S}
  {RR : RouterRemover S} {ER : EventRecorder S}.
Notation L := (S * list FEvent)%type.
Notation C := (L * gmap string Z)%type.
Context (hmac_hex : string → string → string) (c : Controller).

Notation traces := (Triples.traces (λ s : C, s.1.2) (λ s : C, s.2)).

(** What a computation of the controller does on the logging world, the counters
    untouched. *)
Lemma traces_on_fst {A} I (m : M L A) φ :
  logs m φ → traces I (on_fst m) (λ a l f, φ a l ∧ I f).
Proof.
  intros Hm [s f] Hf. destruct (logs_run m φ s Hm) as (l & Hl & Hφ). exists l.
  unfold on_fst. cbn [fst snd] in *. by destruct (m s).
Qed.

Lemma traces_get id (I : gmap string Z → Prop) :
  traces I (get_strikes id) (λ n l f, l = [] ∧ n = strikes id f ∧ I f).
Proof. intros [s f] Hf. exists []. by rewrite app_nil_r. Qed.

Lemma traces_set id n (I : gmap string Z → Prop) :
  traces I (set_strikes id n) (λ _ l f, l = [] ∧ ∃ f0, f = <[id := n]> f0 ∧ I f0).
Proof. intros [s f] Hf. exists []. rewrite app_nil_r. split_and!; [done..|]. by exists f. Qed.

(** What a pass, or a part of one, adds to the history. *)
Definition extends (h : list Round) (l : list FEvent) (f : gmap string Z) : Prop :=
  ∃ h', l = concat (rd_events <$> h') ∧ Forall round_ok h' ∧ tracks (ct_threshold c) (h ++ h') f.

Lemma extends_one h r l f :
  l = rd_events r → round_ok r → tracks (ct_threshold c) (h ++ [r]) f → extends h l f.
Proof. intros -> Hr Ht. exists [r]. cbn. rewrite app_nil_r. split_and!; [done|by constructor|done]. Qed.

Lemma extends_none h f : tracks (ct_threshold c) h f → extends h [] f.
Proof. intros Ht. exists []. by rewrite app_nil_r. Qed.

Lemma runOne_extends ctx clu h :
  (1 ≤ ct_threshold c)%Z →
  traces (tracks (ct_threshold c) h) (runOne hmac_hex c ctx clu) (λ _ l f, extends h l f).
Proof.
  intros Hth. unfold runOne. destruct (negb _) eqn:Hst.
  { apply traces_ret. apply extends_none. }
  assert (Hstatus : cl_Status clu = ClusterRunning ∨ cl_Status clu = ClusterDegraded).
  { apply negb_false_iff, orb_true_iff in Hst as [H|H]; apply bool_decide_eq_true in H; auto. }
  clear Hst.
  eapply traces_bind; [apply traces_on_fst, logs_silent|]. intros [members|e] l1; apply traces_pure; intros ->.
  2: { apply traces_ret. apply extends_none. }
  destruct (splitMembers members) as [primary replicas].
  eapply (traces_bind _ _ _ _ _ (λ up l f,
    (if up : bool then ∃ p, primary = Some p ∧ l = [EProbe p true] else l = missed primary) ∧
    tracks (ct_threshold c) h f)).
  { destruct primary as [p|]; [|by apply traces_ret].
    eapply traces_mono; [apply traces_on_fst, logs_traced|]. intros [] l f [-> Hf]; (split; [|done]); [by exists p|done]. }
  intros [] l1; apply traces_pure.
  - intros (p & -> & ->).
    eapply traces_mono; [apply traces_set|]. intros _ l f [-> (f0 & -> & Hf)]. rewrite app_nil_r.
    set (r := mkRound clu (Some p) replicas Up [EProbe p true]).
    apply (extends_one _ r); [done|split; [exact Hstatus|by exists p]|].
    apply (tracks_round _ _ _ r 0 Hf); [lia| |done].
    unfold trail_step. by rewrite bool_decide_eq_true_2.
  - intros ->. eapply traces_bind; [apply traces_get|]. intros n l2. apply traces_pure. intros ->.
    eapply traces_bind; [apply (traces_set _ _ (λ f, n = strikes (cl_ID clu) f ∧ tracks (ct_threshold c) h f))|].
    intros [] l3. apply traces_pure. intros ->. case_bool_decide as Hn.
    + apply traces_ret. intros f (f0 & -> & -> & Hf). rewrite !app_nil_r.
      set (r := mkRound clu primary replicas Down (missed primary)).
      destruct (proj2 Hf (cl_ID clu)) as [Hr Ht].
      apply (extends_one _ r); [done|by split|]. apply (tracks_round _ _ _ r _ Hf); [lia| |done].
      unfold trail_step. rewrite bool_decide_eq_true_2 by done. cbn. lia.
    + eapply traces_bind; [apply traces_set|]. intros [] l4. apply traces_pure. intros ->.
      apply traces_discard. eapply traces_mono; [apply traces_on_fst, logs_failover|].
      intros res l f [Hrun (f1 & -> & f0 & -> & -> & Hf)]. rewrite !app_nil_l, insert_insert_eq.
      set (r := mkRound clu primary replicas FailedAt (missed primary ++ l)).
      destruct (proj2 Hf (cl_ID clu)) as [Hr Ht].
      apply (extends_one _ r); [done|split; [exact Hstatus|by exists res, l]|].
      apply (tracks_round _ _ _ r _ Hf); [lia| |cbn; lia].
      unfold trail_step. by rewrite bool_decide_eq_true_2.
Qed.

Lemma extends_trans h l1 f1 : ∀ h1 l f,
  l1 = concat (rd_events <$> h1) → Forall round_ok h1 → tracks (ct_threshold c) (h ++ h1) f1 →
  extends (h ++ h1) l f → extends h (l1 ++ l) f.
Proof.
  intros h1 l f -> H1 Ht (h2 & -> & H2 & Ht2). exists (h1 ++ h2).
  rewrite fmap_app, concat_app, app_assoc. split_and!; [done| |done]. by apply Forall_app.
Qed.

(** A step after a prefix of the pass. *)
Lemma traces_extends {A B} h (m : M C A) (k : A → M C B) :
  traces (tracks (ct_threshold c) h) m (λ _ l f, extends h l f) →
  (∀ a h', traces (tracks (ct_threshold c) h') (k a) (λ _ l f, extends h' l f)) →
  traces (tracks (ct_threshold c) h) (bind m k) (λ _ l f, extends h l f).
Proof.
  intros Hm Hk. eapply traces_bind; [exact Hm|]. intros a l1 s (h1 & Hl & Hr & Ht).
  destruct (Hk a (h ++ h1) s Ht) as (l & Hlog & He). exists l. split; [exact Hlog|].
  by eapply extends_trans.
Qed.

Lemma prune_extends live h :
  (1 ≤ ct_threshold c)%Z →
  traces (tracks (ct_threshold c) h) (prune live) (λ _ l f, extends h l f).
Proof.
  intros Hth [s f] [Hs Hf]. exists []. cbn. rewrite app_nil_r. split; [done|]. apply extends_none.
  split; [exact Hs|]. intros id. destruct (Hf id) as [Hr Ht]. unfold strikes in *.
  rewrite map_lookup_filter. destruct (f !! id) as [n|] eqn:Hn; cbn in *; [|lia].
  rewrite Hn in Hr, Ht. cbn in Hr, Ht. case_guard; cbn; lia.
Qed.

Lemma Run_extends ctx h :
  (1 ≤ ct_threshold c)%Z →
  traces (tracks (ct_threshold c) h) (Run hmac_hex c ctx) (λ _ l f, extends h l f).
Proof.
  intros Hth. unfold Run. eapply traces_bind; [apply traces_on_fst, logs_silent|].
  intros [clusters|e] l1; apply traces_pure; intros ->; [|by apply traces_ret, extends_none].
  apply (traces_extends h).
  - generalize (). generalize h. induction clusters as [|clu rest IH]; intros h0 []; cbn [for_each].
    + apply traces_ret, extends_none.
    + apply traces_extends; [by apply runOne_extends|]. intros [] h'. apply IH.
  - intros _ h'. apply traces_extends; [by apply prune_extends|]. intros _ h''.
    apply traces_ret, extends_none.
Qed.

(** Any number of passes. *)
Fixpoint passes (ctx : Context) (n : nat) : M C unit :=
  match n with
  | O => ret tt
  | Datatypes.S n => _ <- discard (Run hmac_hex c ctx) ;; passes ctx n
  end.

Lemma passes_extends ctx n h :
  (1 ≤ ct_threshold c)%Z →
  traces (tracks (ct_threshold c) h) (passes ctx n) (λ _ l f, extends h l f).
Proof.
  intros Hth. revert h. induction n as [|n IH]; intros h; cbn [passes].
  - apply traces_ret, extends_none.
  - apply traces_extends; [by apply traces_discard, Run_extends|]. intros _ h'. apply IH.
Qed.

Lemma tracks_empty : (1 ≤ ct_threshold c)%Z → tracks (ct_threshold c) [] ∅.
Proof.
  intros Hth. split; [by intros [|] ? ? ?|]. intros id. unfold strikes. rewrite lookup_empty. cbn. lia.
Qed.
End passes.

