(* ===== verification/Backup.v ===== *)
(** * Backups: [internal/backup]

    The backup service runs pgBackRest in an instance's container and mirrors
    what [pgbackrest info] reports in a catalog; [Catalog] is the table behind
    it.  The per-instance mutex makes the operations of one instance sequential,
    which is how they are modelled; decoding the JSON of [pgbackrest info] is an
    argument. *)

From Stdlib Require Import Ascii.
From stdpp Require Import gmap sorting strings.
From S2P Require Import Prelude GoStrings Apperr GoMonad PgBackRest Instances Runtime Stores MetaDB Tables Provision Failover.

(** ** Data *)

(** [Backup], a catalog row. *)
Record BackupRow := mkBackupRow {
  bk_ID : string;
  bk_InstanceID : string;
  bk_Label : string;
  bk_Type : string;
  bk_RepoSize : Z;
  bk_LogicalSize : Z;
  bk_WALStart : string;
  bk_WALStop : string;
  bk_StartedAt : Z;
  bk_StoppedAt : Z;
  bk_Error : bool;
  bk_Annotations : gmap string string;
}.

(** [RunOpts]. *)
Record RunOpts := mkRunOpts {
  rn_Annotation : string;
  rn_Standby : bool;
}.

(** [catalog]. *)
Class catalog (D : Type) := {
  cat_Upsert : Context → string → BackupInfo → M D (result unit);
  cat_Prune : Context → string → list string → M D (result unit);
  cat_Delete : Context → string → string → M D (result unit);
  cat_List : Context → string → M D (result (list BackupRow));
}.

(** ** Notes and secrets *)

Definition maxAnnotationLen : nat := 200.

(** [sanitizeAnnotation]. *)
Definition blank_control (c : ascii) : ascii := if byte_val c <? 32 then " "%char else c.
Definition sanitizeAnnotation (s : string) : string :=
  let s := map_ascii blank_control 0 s in
  let s := TrimSpace s in
  if maxAnnotationLen <? String.length s then TrimSpace (str_take maxAnnotationLen s) else s.

(** The keys of this package's [redactSecrets]; its loop is the one of
    [Provision]. *)
Definition backup_secretKeys : list string :=
  ["repo1-cipher-pass"; "repo2-cipher-pass"; "repo1-s3-key-secret"; "repo1-s3-key"].
Definition backup_redactSecrets (s : string) : string :=
  foldl (λ s key, redact_key key s) s backup_secretKeys.

(** ** The service *)

(** The stanza of that name in the output of [pgbackrest info], the last one if
    several: whether there is one, its health, its backups. *)
Definition reportedStanza (stanza : string) (stanzas : list StanzaInfo) : bool * bool * list BackupInfo :=
  foldl (λ acc st,
    if bool_decide (st_Name st ≠ stanza) then acc else (true, Healthy st, st_Backups st))
    (false, false, []) stanzas.

Section service.
Context {R D : Type} {RT : ContainerRuntime R} {IS : InstanceStore D} {CT : catalog D}.
Context {ER : EventRecorder (R * D)}.
Notation W := (R * D)%type.
Context (json_Unmarshal : string → result (list rawStanza)).
(** Whether an event recorder is attached. *)
Context (events : bool).

(** [execOK]. *)
Definition backup_execOK (ctx : Context) (containerID : string) (cmd : list string) : M W (result unit) :=
  res <-? rt (Exec ctx containerID cmd) ;;
  if bool_decide (er_ExitCode res ≠ 0)%Z then
    fail (New KindInternal ("backup: command failed (exit " +:+ itoa (er_ExitCode res) +:+ "): " +:+
      backup_redactSecrets (TrimSpace (er_Stderr res +:+ er_Stdout res))))
  else done_ok.

(** [record]. *)
Definition backup_meta (inst : Inst) (backupType label : string) : gmap string string :=
  let meta := {["instance" := inst_Name inst]} in
  let meta := if bool_decide (backupType ≠ "") then <["backup_type" := backupType]> meta else meta in
  if bool_decide (label ≠ "") then <["label" := label]> meta else meta.
Definition backup_record (ctx : Context) (inst : Inst) (message backupType label : string) : M W unit :=
  when events (discard (event_Record ctx
    (mkNewEvent (inst_ID inst) "" "backup" message (backup_meta inst backupType label)))).

(** [sync]. *)
Definition sync (ctx : Context) (inst : Inst) : M W (result (list BackupInfo)) :=
  res <-? rt (Exec ctx (inst_ContainerID inst) (asPostgres (InfoCmd (inst_Stanza inst) confPath))) ;;
  if bool_decide (er_ExitCode res ≠ 0)%Z then
    fail (New KindInternal ("backup: info failed: " +:+ TrimSpace (er_Stderr res)))
  else
  stanzas <-? lift_r (ParseInfo json_Unmarshal (er_Stdout res)) ;;
  let '(found, healthy, backups) := reportedStanza (inst_Stanza inst) stanzas in
  if negb found then
    fail (New KindInternal
      ("backup: stanza " +:+ inst_Stanza inst +:+ " not present in pgbackrest info; skipping catalog sync"))
  else if negb healthy && bool_decide (backups = []) then
    fail (New KindInternal
      ("backup: stanza " +:+ inst_Stanza inst +:+
       " is unhealthy and reports no backups; skipping catalog prune"))
  else
  labels <-? for_each_e backups [] (λ labels b,
    _ <-? repo (cat_Upsert ctx (inst_ID inst) b) ;; ok (labels ++ [bi_Label b])) ;;
  _ <-? repo (cat_Prune ctx (inst_ID inst) labels) ;;
  ok backups.

(** [Sync]. *)
Definition Sync (ctx : Context) (instanceID : string) : M W (result (list BackupInfo)) :=
  inst <-? repo (repo_Get ctx instanceID) ;;
  sync ctx inst.

Definition replica_msg : string :=
  "backup: replicas are not backed up directly; back up the cluster primary".

(** [RunWith]. *)
Definition backupOpts (o : RunOpts) : BackupOpts :=
  let note := sanitizeAnnotation (rn_Annotation o) in
  mkBackupOpts (if bool_decide (note ≠ "") then {["name" := note]} else ∅) (rn_Standby o).
Definition RunWith (ctx : Context) (instanceID backupType : string) (o : RunOpts) : M W (result unit) :=
  let opts := backupOpts o in
  _ <-? lift_r (PgBackRest.Backup "" confPath backupType opts) ;;
  inst <-? repo (repo_Get ctx instanceID) ;;
  if bool_decide (inst_Role inst = RoleReplica) then fail (New KindInvalid replica_msg) else
  cmd <-? lift_r (PgBackRest.Backup (inst_Stanza inst) confPath backupType opts) ;;
  _ <- backup_record ctx inst ("backup started (" +:+ backupType +:+ ")") backupType "" ;;
  _ <-? backup_execOK ctx (inst_ContainerID inst) (asPostgres cmd) ;;
  _ <-? sync ctx inst ;;
  _ <- backup_record ctx inst ("backup completed (" +:+ backupType +:+ ")") backupType "" ;;
  done_ok.

(** [Run]. *)
Definition RunBackup (ctx : Context) (instanceID backupType : string) : M W (result unit) :=
  RunWith ctx instanceID backupType (mkRunOpts "" false).

(** [Delete]. *)
Definition DeleteBackup (ctx : Context) (instanceID label : string) : M W (result unit) :=
  if bool_decide (TrimSpace label = "") then
    fail (New KindInvalid "backup: delete requires a non-empty label")
  else
  inst <-? repo (repo_Get ctx instanceID) ;;
  if bool_decide (inst_Role inst = RoleReplica) then
    fail (New KindInvalid "backup: replicas have no backups to delete; operate on the cluster primary")
  else
  cmd <-? lift_r (ExpireSet (inst_Stanza inst) confPath label)
    orelse (λ e, fail (Wrap KindInvalid "backup: delete" e)) ;;
  _ <-? backup_execOK ctx (inst_ContainerID inst) (asPostgres cmd) ;;
  _ <-? sync ctx inst ;;
  _ <- backup_record ctx inst ("backup deleted (" +:+ label +:+ ")") "" label ;;
  done_ok.

(** [Expire]. *)
Definition ExpireBackups (ctx : Context) (instanceID : string) : M W (result unit) :=
  inst <-? repo (repo_Get ctx instanceID) ;;
  if bool_decide (inst_Role inst = RoleReplica) then
    fail (New KindInvalid "backup: replicas have no repo to expire; operate on the cluster primary")
  else
  _ <-? backup_execOK ctx (inst_ContainerID inst) (asPostgres (ExpireCmd (inst_Stanza inst) confPath)) ;;
  _ <-? sync ctx inst ;;
  done_ok.

(** [Verify]. *)
Definition VerifyBackups (ctx : Context) (instanceID : string) : M W (result unit) :=
  inst <-? repo (repo_Get ctx instanceID) ;;
  if bool_decide (inst_Role inst = RoleReplica) then
    fail (New KindInvalid "backup: replicas have no repo to verify; operate on the cluster primary")
  else
  _ <- backup_record ctx inst "backup verify started" "" "" ;;
  _ <-? backup_execOK ctx (inst_ContainerID inst) (asPostgres (VerifyCmd (inst_Stanza inst) confPath)) ;;
  _ <- backup_record ctx inst "backup verify completed" "" "" ;;
  done_ok.

(** [List]. *)
Definition ListBackups (ctx : Context) (instanceID : string) : M W (result (list BackupRow)) :=
  repo (cat_List ctx instanceID).

(** [RunScheduled]: one instance of the sweep, and the sweep.  The accumulator is
    [firstErr]. *)
Definition scheduleOne (ctx : Context) (backupType : string) (firstErr : option error) (inst : Inst) :
    M W (option error) :=
  if bool_decide (inst_Status inst ≠ StatusRunning) then ret firstErr else
  let first e := match firstErr with None => Some e | Some _ => firstErr end in
  ran <- RunBackup ctx (inst_ID inst) backupType ;;
  match ran with
  | Err e => ret (first e)
  | Ok _ =>
      expired <- ExpireBackups ctx (inst_ID inst) ;;
      ret (match expired with Err e => first e | Ok _ => firstErr end)
  end.
Definition RunScheduled (ctx : Context) (backupType : string) : M W (result unit) :=
  instances <-? repo (repo_List ctx) ;;
  firstErr <- for_each instances None (scheduleOne ctx backupType) ;;
  ret (match firstErr with None => Ok tt | Some e => Err e end).
End service.

(** ** The catalog table: [catalog.go] *)

(** The table [backups], unique on the instance and the label.  The annotations
    column keeps what [pgbackrest info] reported: they were decoded from JSON and
    their encoding decodes to the same map. *)
Notation CatTable := (Table (string * string) BackupRow).

(** A row for a reported backup. *)
Definition row_of (id instanceID : string) (b : BackupInfo) : BackupRow :=
  mkBackupRow id instanceID (bi_Label b) (bi_Type b) (bi_RepoSize b) (bi_Size b)
    (bi_WALStart b) (bi_WALStop b) (bi_StartTime b) (bi_StopTime b) (bi_Error b) (bi_Annotations b).

(** [Upsert]: on a conflict the row keeps its id. *)
Definition Catalog_Upsert (instanceID : string) (b : BackupInfo) : M CatTable (result unit) :=
  _ <-? tstatement (λ t,
      let k := (instanceID, bi_Label b) in
      let id := match tb_rows t !! k with Some old => bk_ID old | None => tb_uuid t end in
      Ok (tt, <[k := row_of id instanceID b]> (tb_rows t)))
    orelse (λ e, fail (Wrap KindInternal "backup: upsert" e)) ;;
  done_ok.

(** [Prune], for a [keep] that is not the nil slice, as [sync] calls it. *)
Definition Catalog_Prune (instanceID : string) (keep : list string) : M CatTable (result unit) :=
  _ <-? tstatement (λ t,
      Ok (tt, filter (λ kr : (string * string) * BackupRow, kr.1.1 ≠ instanceID ∨ kr.1.2 ∈ keep) (tb_rows t)))
    orelse (λ e, fail (Wrap KindInternal "backup: prune" e)) ;;
  done_ok.

(** [Delete]. *)
Definition Catalog_Delete (instanceID label : string) : M CatTable (result unit) :=
  _ <-? tstatement (λ t, Ok (tt, delete (instanceID, label) (tb_rows t)))
    orelse (λ e, fail (Wrap KindInternal "backup: delete" e)) ;;
  done_ok.

(** [ORDER BY stopped_at DESC, label DESC]; [Upsert] never stores a NULL. *)
Definition latest_first (a b : BackupRow) : Prop :=
  (bk_StoppedAt b < bk_StoppedAt a)%Z ∨
  (bk_StoppedAt b = bk_StoppedAt a ∧ String.le (bk_Label b) (bk_Label a)).
#[export] Instance latest_first_dec : RelDecision latest_first.
Proof. intros a b. unfold latest_first. apply _. Defined.

(** [List]. *)
Definition Catalog_List (instanceID : string) : M CatTable (result (list BackupRow)) :=
  l <-? tselect (λ rows, merge_sort latest_first
      (filter (λ r, bk_InstanceID r = instanceID) (map_to_list rows).*2))
    orelse (λ e, fail (Wrap KindInternal "backup: list" e)) ;;
  ok l.

#[export] Instance cat_table : catalog CatTable := {
  cat_Upsert := λ _, Catalog_Upsert;
  cat_Prune := λ _, Catalog_Prune;
  cat_Delete := λ _, Catalog_Delete;
  cat_List := λ _, Catalog_List;
}.
