(* ===== verification/BackupSafety.v ===== *)
(** * What the backup service guarantees

    A refresh mirrors a usable report of [pgbackrest info] and nothing else; the
    note of a backup is bounded before it reaches a command line; replicas are
    refused before anything is run. *)

From Stdlib Require Import Ascii.
From stdpp Require Import gmap sorting strings.
From S2P Require Import Prelude GoStrings Apperr GoMonad PgBackRest Instances Runtime DockerFake Stores MetaDB Tables Provision ProvisionOps Samples Failover Backup.

(** ** The contract of the catalog *)

Class CatalogLaws (D : Type) `{InstanceStore D, catalog D} := {
  catrows : D → gmap (string * string) BackupRow;
  repo_Get_cat ctx id d : wp (repo_Get ctx id) (λ _ d', catrows d' = catrows d) d;
  cat_Upsert_law ctx id b d :
    wp (cat_Upsert ctx id b) (λ r d',
      match r with
      | Ok _ => ∃ rid, catrows d' = <[(id, bi_Label b) := row_of rid id b]> (catrows d)
      | Err _ => catrows d' = catrows d
      end) d;
  cat_Prune_law ctx id keep d :
    wp (cat_Prune ctx id keep) (λ r d',
      match r with
      | Ok _ => catrows d' = filter (λ kr : (string * string) * BackupRow, kr.1.1 ≠ id ∨ kr.1.2 ∈ keep) (catrows d)
      | Err _ => catrows d' = catrows d
      end) d;
}.

(** ** The table beside the meta database *)

Section beside.
Context {D T : Type}.

#[export] Instance store_beside {IS : InstanceStore D} : InstanceStore (D * T) := {
  repo_Create ctx n := on_fst (repo_Create ctx n);
  repo_Get ctx id := on_fst (repo_Get ctx id);
  repo_GetByName ctx n := on_fst (repo_GetByName ctx n);
  repo_List ctx := on_fst (repo_List ctx);
  repo_ListByCluster ctx c := on_fst (repo_ListByCluster ctx c);
  repo_Password ctx id := on_fst (repo_Password ctx id);
  repo_SetRuntime ctx id c p := on_fst (repo_SetRuntime ctx id c p);
  repo_SetDataVolume ctx id v := on_fst (repo_SetDataVolume ctx id v);
  repo_SetStatus ctx id st e := on_fst (repo_SetStatus ctx id st e);
  repo_SetPublic ctx id b := on_fst (repo_SetPublic ctx id b);
  repo_SetEncrypted ctx id b := on_fst (repo_SetEncrypted ctx id b);
  repo_SetRole ctx id r := on_fst (repo_SetRole ctx id r);
  repo_Delete ctx id := on_fst (repo_Delete ctx id);
}.
#[export] Instance catalog_beside {CT : catalog T} : catalog (D * T) := {
  cat_Upsert ctx id b := on_snd (cat_Upsert ctx id b);
  cat_Prune ctx id keep := on_snd (cat_Prune ctx id keep);
  cat_Delete ctx id l := on_snd (cat_Delete ctx id l);
  cat_List ctx id := on_snd (cat_List ctx id);
}.
End beside.

#[export] Program Instance cat_table_laws {D : Type} {IS : InstanceStore D} :
  CatalogLaws (D * CatTable) := {| catrows d := tb_rows d.2 |}.
Next Obligation. intros D IS ctx id d. apply wp_on_fst, wp_any. done. Qed.
Next Obligation.
  intros D IS ctx id b [d t]. apply wp_on_snd. cbn. apply wp_try_or, wp_tstatement; cbn.
  - intros e t' Ht. by apply wp_ret.
  - intros [] rows t' t'' Ht [= <-] Ht''. rewrite Ht'', Ht. by eexists.
Qed.
Next Obligation.
  intros D IS ctx id keep [d t]. apply wp_on_snd. cbn. apply wp_try_or, wp_tstatement; cbn.
  - intros e t' Ht. by apply wp_ret.
  - intros [] rows t' t'' Ht [= <-] Ht''. by rewrite Ht'', Ht.
Qed.

(** ** Refreshing the catalog *)

(** What a run of [pgbackrest info] says of a stanza: nothing that can be relied
    on, or its backups. *)
Definition usable (json_Unmarshal : string → result (list rawStanza)) (stanza : string)
    (answer : result ExecResult) : option (list BackupInfo) :=
  match answer with
  | Err _ => None
  | Ok res =>
      if bool_decide (er_ExitCode res ≠ 0)%Z then None else
      match ParseInfo json_Unmarshal (er_Stdout res) with
      | Err _ => None
      | Ok stanzas =>
          let '(found, healthy, backups) := reportedStanza stanza stanzas in
          if found && (healthy || negb (bool_decide (backups = []))) then Some backups else None
      end
  end.

Definition last_with (l : string) (bs : list BackupInfo) : option BackupInfo :=
  last (filter (λ b, bi_Label b = l) bs).

(** The rows of the instance [id] are those of the backups [bs], and the rows of
    other instances are as before. *)
Definition mirrors (id : string) (bs : list BackupInfo) (before after : gmap (string * string) BackupRow) : Prop :=
  (∀ i l, i ≠ id → after !! (i, l) = before !! (i, l)) ∧
  ∀ l, match last_with l bs with
       | None => after !! (id, l) = None
       | Some b => ∃ rid, after !! (id, l) = Some (row_of rid id b)
       end.

(** The rows only grew, and only those of the instance [id]. *)
Definition grew (id : string) (before after : gmap (string * string) BackupRow) : Prop :=
  (∀ i l, i ≠ id → after !! (i, l) = before !! (i, l)) ∧
  ∀ k, is_Some (before !! k) → is_Some (after !! k).

(** The rows while the backups [bs] have been written. *)
Definition written (id : string) (bs : list BackupInfo) (before after : gmap (string * string) BackupRow) : Prop :=
  grew id before after ∧
  ∀ l b, last_with l bs = Some b → ∃ rid, after !! (id, l) = Some (row_of rid id b).

Lemma last_with_snoc l bs b :
  last_with l (bs ++ [b]) = if bool_decide (bi_Label b = l) then Some b else last_with l bs.
Proof.
  unfold last_with. rewrite filter_app, filter_cons, filter_nil.
  destruct (decide (bi_Label b = l)) as [Hl|Hl].
  - by rewrite last_snoc, bool_decide_true.
  - by rewrite app_nil_r, bool_decide_false.
Qed.

Lemma last_with_label l bs : is_Some (last_with l bs) ↔ l ∈ bi_Label <$> bs.
Proof.
  unfold last_with. rewrite last_is_Some, list_elem_of_fmap. split.
  - intros Hne. destruct (filter _ bs) as [|b bs'] eqn:Hf; [done|]. exists b.
    assert (Hb : b ∈ filter (λ b, bi_Label b = l) bs) by (rewrite Hf; left).
    apply list_elem_of_filter in Hb as [? ?]. by split.
  - intros (b & -> & Hb) Hf. by apply (filter_nil_not_elem_of _ bs b) in Hf.
Qed.

Lemma written_upsert id bs b before rows rid :
  written id bs before rows →
  written id (bs ++ [b]) before (<[(id, bi_Label b) := row_of rid id b]> rows).
Proof.
  intros [[Ho Hk] Hw]. split; [split|].
  - intros i l Hi. rewrite lookup_insert_ne by congruence. by apply Ho.
  - intros k Hs. apply lookup_insert_is_Some'. right. by apply Hk.
  - intros l b'. rewrite last_with_snoc. case_bool_decide as Hl.
    + intros [= <-]. exists rid. by rewrite Hl, lookup_insert_eq.
    + rewrite lookup_insert_ne by congruence. apply Hw.
Qed.

Lemma written_prune id bs before rows :
  written id bs before rows →
  mirrors id bs before
    (filter (λ kr : (string * string) * BackupRow, kr.1.1 ≠ id ∨ kr.1.2 ∈ bi_Label <$> bs) rows).
Proof.
  intros [[Ho Hk] Hw]. split.
  - intros i l Hi. rewrite <- Ho by done. apply option_eq. intros r.
    rewrite map_lookup_filter_Some. cbn. naive_solver.
  - intros l. destruct (last_with l bs) as [b|] eqn:Hl.
    + destruct (Hw l b Hl) as [rid Hr]. exists rid. apply map_lookup_filter_Some. split; [done|].
      right. apply last_with_label. by eexists.
    + apply map_lookup_filter_None. right. intros r _ [Hn|Hin]; [done|].
      apply last_with_label in Hin as [b Hb]. cbn in Hb. congruence.
Qed.

Section facts.
Context {R D : Type} {RT : ContainerRuntime R} {IS : InstanceStore D} {CT : catalog D} {CL : CatalogLaws D}.
Context {ER : EventRecorder (R * D)}.
Context (json_Unmarshal : string → result (list rawStanza)).
Notation W := (R * D)%type.
Implicit Types (s : W).

(** The outcome of a refresh for an instance, given what [pgbackrest info]
    answers. *)
Definition refreshed (inst : Inst) (answer : result ExecResult) (before : gmap (string * string) BackupRow)
    (r : result (list BackupInfo)) (after : gmap (string * string) BackupRow) : Prop :=
  match usable json_Unmarshal (inst_Stanza inst) answer, r with
  | None, _ => is_ok r = false ∧ after = before
  | Some bs, Ok bs' => bs' = bs ∧ mirrors (inst_ID inst) bs before after
  | Some bs, Err _ => grew (inst_ID inst) before after
  end.

Lemma wp_upserts ctx id bs done labels s before (Q : result (list string) → W → Prop) :
  written id done before (catrows s.2) → labels = bi_Label <$> done →
  (∀ s', written id (done ++ bs) before (catrows s'.2) → Q (Ok (bi_Label <$> done ++ bs)) s') →
  (∀ e s', grew id before (catrows s'.2) → Q (Err e) s') →
  wp (for_each_e bs labels (λ labels b,
    _ <-? repo (cat_Upsert ctx id b) ;; ok (labels ++ [bi_Label b]))) Q s.
Proof.
  intros Hw -> Hok Herr. revert done s Hw Hok. induction bs as [|b bs IH]; intros done s Hw Hok.
  - rewrite app_nil_r in Hok. by apply wp_ret, Hok.
  - cbn [for_each_e]. apply wp_try, wp_try, wp_on_snd. eapply wp_mono; [apply cat_Upsert_law|].
    intros [[]|e] d'; cbn.
    + intros [rid Hr]. apply wp_ret.
      replace ((bi_Label <$> done) ++ [bi_Label b]) with (bi_Label <$> done ++ [b]) by (by rewrite fmap_app).
      apply IH; cbn; [rewrite Hr; by apply written_upsert|]. by rewrite <- app_assoc.
    + intros Hr. apply Herr. cbn. rewrite Hr. by destruct Hw.
Qed.

Lemma wp_sync ctx inst s :
  wp (sync json_Unmarshal ctx inst) (λ r s',
    refreshed inst (Exec ctx (inst_ContainerID inst) (asPostgres (InfoCmd (inst_Stanza inst) confPath)) s.1).1
      (catrows s.2) r (catrows s'.2)) s.
Proof.
  unfold sync. apply wp_try, wp_on_fst. unfold wp at 1. unfold refreshed, usable.
  destruct (Exec _ _ _ _) as [[res|e] w1]; cbn [fst snd]; [|done].
  case_bool_decide as Hx; [by apply wp_ret|]. apply wp_try, wp_ret.
  destruct (ParseInfo _ _) as [stanzas|e]; [|done].
  destruct (reportedStanza _ _) as [[[] healthy] bs]; cbn [negb andb]; [|by apply wp_ret].
  destruct (negb healthy && bool_decide (bs = [])) eqn:Hb.
  { apply andb_true_iff in Hb as [Hh Hb]. apply negb_true_iff in Hh as ->. rewrite Hb. by apply wp_ret. }
  assert (healthy || negb (bool_decide (bs = [])) = true) as ->.
  { destruct healthy; [done|]. cbn in Hb |- *. by rewrite Hb. }
  apply wp_try. apply (wp_upserts ctx (inst_ID inst) bs [] [] _ (catrows s.2)); [|done| |].
  - split; [by split|]. by intros l b.
  - cbn [app]. intros s' Hw. apply wp_try, wp_on_snd. eapply wp_mono; [apply cat_Prune_law|].
    intros [[]|e] d' Hr; cbn.
    + apply wp_ret. split; [done|]. cbn. rewrite Hr. by apply written_prune.
    + rewrite Hr. by destruct Hw.
  - done.
Qed.

(** C11: a refresh of the catalog ([Sync]) writes exactly what a usable
    report says.  When [pgbackrest info] cannot be run, fails, cannot be decoded,
    does not know the stanza, or calls it unhealthy and lists no backup, the
    refresh fails and no row of the catalog changes.  On a usable report that it
    completes, the rows of the instance are those of the reported backups, with
    their sizes, times, WAL range and annotations, every other row of the
    instance is gone, and other instances' rows are untouched.  A refresh that
    fails half-way loses no row. *)
Theorem sync_mirrors ctx instanceID s :
  wp (Sync json_Unmarshal ctx instanceID) (λ r s',
    match (repo_Get ctx instanceID s.2).1 with
    | Err e => r = Err e ∧ catrows s'.2 = catrows s.2
    | Ok inst =>
        refreshed inst
          (Exec ctx (inst_ContainerID inst) (asPostgres (InfoCmd (inst_Stanza inst) confPath)) s.1).1
          (catrows s.2) r (catrows s'.2)
    end) s.
Proof.
  unfold Sync. apply wp_try, wp_on_snd. pose proof (repo_Get_cat ctx instanceID s.2) as Hc.
  unfold wp in Hc |- * at 1. destruct (repo_Get ctx instanceID s.2) as [[inst|e] d']; cbn [fst snd] in *; [|done].
  eapply wp_mono; [apply wp_sync|]. cbn. intros r s'. by rewrite Hc.
Qed.
End facts.

(** ** A concrete refresh *)

(** A catalog that still lists an expired backup of the instance and one of
    another instance. *)
Definition sample_catalog : CatTable :=
  mkTable sample_env 0 (list_to_map
    [(("id-1", "old"), row_of "b-1" "id-1" (backup_of_raw (mkRawBackup "old" "full" 1 2 0 0 0 0 "" "" [] false ∅)));
     (("id-9", "old"), row_of "b-2" "id-9" (backup_of_raw (mkRawBackup "old" "full" 1 2 0 0 0 0 "" "" [] false ∅)))]).

(** ** The note of a backup *)

(** No ASCII control character: a line break or a tab, for example. *)
Definition no_control (s : string) : bool := str_forallb (λ c, 32 <=? byte_val c) s.

Lemma sanitize_bounded s :
  String.length (sanitizeAnnotation s) ≤ maxAnnotationLen ∧ no_control (sanitizeAnnotation s) = true.
Proof.
  unfold sanitizeAnnotation, no_control.
  assert (Hm : str_forallb (λ c, 32 <=? byte_val c) (TrimSpace (map_ascii blank_control 0 s)) = true).
  { apply TrimSpace_forallb, str_forallb_map_ascii; [| |lia].
    - intros c _. unfold blank_control. destruct (byte_val c <? 32) eqn:Hc; [done|].
      apply Nat.ltb_ge in Hc. by apply Nat.leb_le.
    - intros c Hc. apply Nat.leb_le. lia. }
  destruct (_ <? _) eqn:Hl; [|apply Nat.ltb_ge in Hl; by split].
  split; [|by apply TrimSpace_forallb, str_forallb_take].
  etrans; [apply TrimSpace_length|]. rewrite str_take_length. lia.
Qed.

(** Whatever note a caller gives a backup, the command
    line [RunWith] builds carries at most one annotation argument, it annotates
    [name], and its value is not empty, at most [maxAnnotationLen] bytes, and
    without line breaks, tabs or other control characters; a note of white space
    only adds no argument at all. *)
Theorem backup_note_bounded stanza backupType (o : RunOpts) cmd :
  PgBackRest.Backup stanza confPath backupType (backupOpts o) = Ok cmd →
  (flag_values "annotation" cmd = [] ∧ sanitizeAnnotation (rn_Annotation o) = "") ∨
  ∃ note, flag_values "annotation" cmd = ["name=" +:+ note] ∧ note ≠ "" ∧
    String.length note ≤ maxAnnotationLen ∧ no_control note = true.
Proof.
  unfold PgBackRest.Backup, Backup_in. destruct (bool_decide (_ ∈ backupTypes)); [|done].
  intros Hcmd. apply (f_equal (value_or [])) in Hcmd. cbn [negb value_or] in Hcmd. subst cmd.
  unfold backupOpts. cbn [bo_Annotations bo_BackupStandby].
  assert (Hpre : ∀ l, flag_values "annotation"
      (base stanza confPath ++ ["--type=" +:+ backupType] ++ (if rn_Standby o then ["--backup-standby"] else []) ++ l)
      = flag_values "annotation" l) by (intros l; by destruct (rn_Standby o)).
  case_bool_decide as Hn.
  - right. exists (sanitizeAnnotation (rn_Annotation o)).
    split_and!; [|done|by apply sanitize_bounded..].
    rewrite Hpre, map_to_list_singleton, flag_values_app. cbn [fst snd fmap list_fmap].
    unfold annotation_args. change (sort_strings _) with ["name"]. cbn [fmap list_fmap].
    by rewrite lookup_singleton_eq.
  - left. split; [|by destruct (decide (sanitizeAnnotation (rn_Annotation o) = ""))]. by rewrite Hpre, map_to_list_empty.
Qed.

Lemma backup_note_bounded_witness :
  ∃ note, flag_values "annotation"
      ["pgbackrest"; "--config=/etc/pgbackrest/pgbackrest.conf"; "--stanza=db"; "--type=full";
       "--annotation=name=before migration"; "backup"] = ["name=" +:+ note] ∧
    note ≠ "" ∧ String.length note ≤ maxAnnotationLen ∧ no_control note = true.
Proof.
  destruct (backup_note_bounded "db" "full" (mkRunOpts (" before" +:+ nl +:+ "migration ") false)
    ["pgbackrest"; "--config=/etc/pgbackrest/pgbackrest.conf"; "--stanza=db"; "--type=full";
     "--annotation=name=before migration"; "backup"]) as [[E _]|H]; [vm_compute; reflexivity| |exact H].
  exfalso. revert E. vm_compute. discriminate.
Defined.

(** ** Replicas *)

Section replicas.
Context {R D : Type} {RT : ContainerRuntime R} {IS : InstanceStore D} {CT : catalog D}.
Context {ER : EventRecorder (R * D)}.
Context (json_Unmarshal : string → result (list rawStanza)) (events : bool).
Notation W := (R * D)%type.

(** The operations on the repository of an instance. *)
Definition repo_ops ctx instanceID backupType (o : RunOpts) label : list (M W (result unit)) :=
  [RunWith json_Unmarshal events ctx instanceID backupType o;
   DeleteBackup json_Unmarshal events ctx instanceID label;
   ExpireBackups json_Unmarshal ctx instanceID;
   VerifyBackups events ctx instanceID].

(** Backing up, deleting a backup, expiring and verifying are
    refused for a replica as invalid requests, whatever their arguments (an
    unknown backup type is refused before the instance is looked up, with a plain
    error), and the refusal runs no command, writes no catalog row and records no
    event: at most the instance has been looked up. *)
Theorem replicas_refused ctx instanceID backupType o label (s : W) inst d' :
  repo_Get ctx instanceID s.2 = (Ok inst, d') → inst_Role inst = RoleReplica →
  Forall (λ op : M W (result unit),
    ∃ e, (op s).1 = Err e ∧ ((op s).2 = s ∨ (op s).2 = (s.1, d')) ∧
         (Kind e = KindInvalid ∨ backupType ∉ backupTypes))
    (repo_ops ctx instanceID backupType o label).
Proof.
  intros Hget Hrole.
  assert (Hbind : ∀ k : Inst → M W (result unit),
    (inst <-? repo (repo_Get ctx instanceID) ;; k inst) s = k inst (s.1, d')).
  { intros k. unfold try, try_or, bind, repo, on_snd. by rewrite Hget. }
  assert (Hlift : ∀ (c : list string) (k : list string → M W (result unit)),
    (cmd <-? lift_r (Ok c) ;; k cmd) = k c) by done.
  unfold repo_ops, RunWith, DeleteBackup, ExpireBackups, VerifyBackups.
  repeat apply Forall_cons_2; [| | | |done].
  - unfold PgBackRest.Backup, Backup_in. destruct (decide (backupType ∈ backupTypes)) as [Ht|Ht].
    + rewrite (bool_decide_true _ Ht). cbn [negb]. rewrite Hlift, Hbind, bool_decide_true by done.
      eexists; split_and!; [reflexivity|by right|by left].
    + rewrite (bool_decide_false _ Ht). eexists. split_and!; [reflexivity|by left|by right].
  - case_bool_decide; [eexists; split_and!; [reflexivity|by left|by left]|]. rewrite Hbind, bool_decide_true by done.
    eexists; split_and!; [reflexivity|by right|by left].
  - rewrite Hbind, bool_decide_true by done.
    eexists; split_and!; [reflexivity|by right|by left].
  - rewrite Hbind, bool_decide_true by done.
    eexists; split_and!; [reflexivity|by right|by left].
Qed.
End replicas.

(** A replica whose row the meta database holds, and a recorder that keeps
    nothing. *)
Definition sample_replica : FakeWorld * (DBState * CatTable) :=
  (sample_world, ((@repo_SetRole _ sample_instances CallerCtx "id-1" RoleReplica sample_db).2, sample_catalog)).

Definition no_recorder {S} : EventRecorder S := {| event_Record _ _ := done_ok |}.

Lemma replicas_refused_witness :
  let IS := @store_beside DBState CatTable sample_instances in
  Forall (λ op : M (FakeWorld * (DBState * CatTable)) (result unit),
    ∃ e, (op sample_replica).1 = Err e ∧
      ((op sample_replica).2 = sample_replica ∨
       (op sample_replica).2 = (sample_replica.1, (repo_Get CallerCtx "id-1" sample_replica.2).2)) ∧
      (Kind e = KindInvalid ∨ "full" ∉ backupTypes))
    (@repo_ops _ _ (fake_runtime sample_hooks_ok) IS catalog_beside no_recorder sample_json true
       CallerCtx "id-1" "full" (mkRunOpts "" false) "20240101F").
Proof.
  intros IS.
  apply (@replicas_refused _ _ (fake_runtime sample_hooks_ok) IS catalog_beside no_recorder sample_json true
    CallerCtx "id-1" "full" (mkRunOpts "" false) "20240101F" sample_replica
    (inst_set_UpdatedAt 2 (inst_set_Role RoleReplica (sample_row (sample_world, sample_db) "id-1")))).
  - vm_compute. reflexivity.
  - vm_compute. reflexivity.
Defined.

(** The expired row of the instance is gone, the reported one is there, and the
    other instance keeps its row. *)
Example sync_prunes :
  let s := (@sync _ _ (fake_runtime sample_hooks_ok) (@catalog_beside DBState CatTable cat_table)
              sample_json CallerCtx (sample_row sample_running "id-1")
              (sample_running.1, (sample_running.2, sample_catalog))).2 in
  (map_to_list (tb_rows s.2.2)).*1 = [("id-9", "old"); ("id-1", "20240101-000000F")].
Proof. vm_compute. reflexivity. Qed.
