(* ===== verification/Auth.v ===== *)
(** * Authentication and access control: [internal/auth]

    Roles and the actions they may perform, session tokens, the middleware that
    guards a route, and password hashes.  The JWT library and the argon2 key
    derivation are arguments. *)

From Stdlib Require Import Ascii.
From stdpp Require Import gmap strings.
From S2P Require Import Prelude GoStrings Apperr GoMonad.

(** ** Roles and actions: [roles.go], [rbac.go] *)

Definition RoleAdmin : string := "admin".
Definition RoleOperator : string := "operator".
Definition RoleViewer : string := "viewer".

(** [Role.Valid]. *)
Definition Role_Valid (r : string) : bool := bool_decide (r ∈ [RoleAdmin; RoleOperator; RoleViewer]).

(** [ParseRole]. *)
Definition ParseRole (s : string) : result string :=
  if negb (Role_Valid s) then Err (New KindInvalid ("invalid role: " +:+ s)) else Ok s.

Definition ActionInstanceRead : string := "instance.read".
Definition ActionInstanceWrite : string := "instance.write".
Definition ActionInstanceDelete : string := "instance.delete".
Definition ActionInstanceConnect : string := "instance.connect".
Definition ActionBackupRead : string := "backup.read".
Definition ActionBackupWrite : string := "backup.write".
Definition ActionBackupRestore : string := "backup.restore".
Definition ActionMetricsRead : string := "metrics.read".
Definition ActionAuditRead : string := "audit.read".
Definition ActionUserManage : string := "user.manage".

(** [AllActions]. *)
Definition AllActions : list string :=
  [ActionInstanceRead; ActionInstanceWrite; ActionInstanceDelete; ActionInstanceConnect;
   ActionBackupRead; ActionBackupWrite; ActionBackupRestore;
   ActionMetricsRead; ActionAuditRead; ActionUserManage].

(** [readActions]. *)
Definition readActions : list string := [ActionInstanceRead; ActionBackupRead; ActionMetricsRead].

(** [toSet] and [grants]. *)
Definition toSet (actions : list string) : gset string := list_to_set actions.
Definition grants : gmap string (gset string) :=
  list_to_map
    [(RoleViewer, toSet readActions);
     (RoleOperator, toSet ([ActionInstanceWrite; ActionInstanceDelete; ActionInstanceConnect;
                            ActionBackupWrite; ActionBackupRestore; ActionAuditRead] ++ readActions))].

(** [Can]. *)
Definition Can (role action : string) : bool :=
  if bool_decide (role = RoleAdmin) then true
  else bool_decide (action ∈ default ∅ (grants !! role)).

(** ** Session tokens: [jwt.go] *)

(** [Claims], with the registered claims [Issue] sets; times in nanoseconds. *)
Record Claims := mkClaims {
  clm_UserID : string;
  clm_Email : string;
  clm_Role : string;
  clm_Subject : string;
  clm_IssuedAt : Z;
  clm_NotBefore : Z;
  clm_ExpiresAt : Z;
}.

(** [Issuer]; its clock is an argument of the operations. *)
Record Issuer := mkIssuer {
  iss_secret : string;
  iss_ttl : Z;
}.

Definition MinSecretLen : nat := 32.

(** [NewIssuer]. *)
Definition NewIssuer (secret : string) (ttl : Z) : result Issuer :=
  if String.length secret <? MinSecretLen then
    Err (New KindInternal ("auth: jwt secret must be at least " +:+ itoa (Z.of_nat MinSecretLen) +:+ " bytes"))
  else Ok (mkIssuer secret ttl).

(** The JWT library as the package configures it: signing with HS256, and
    parsing that accepts HS256 only and requires [exp], given the key and the
    time. *)
Class JWT := {
  jwt_sign : string → Claims → result string;
  jwt_parse : string → Z → string → result Claims;
}.

Section tokens.
Context {J : JWT}.

(** [Issue], at the time [now]. *)
Definition Issue (i : Issuer) (now : Z) (userID email role : string) : result string :=
  let claims := mkClaims userID email role userID now now (now + iss_ttl i) in
  match jwt_sign (iss_secret i) claims with
  | Err e => Err (Errorf_w ("auth: sign token: " +:+ Error e) e)
  | Ok signed => Ok signed
  end.

(** [Verify], at the time [now]. *)
Definition VerifyToken (i : Issuer) (now : Z) (token : string) : result Claims :=
  match jwt_parse (iss_secret i) now token with
  | Err e => Err (Wrap KindUnauthorized "auth: invalid token" e)
  | Ok claims =>
      if negb (Role_Valid (clm_Role claims)) then Err (New KindUnauthorized "auth: invalid role claim")
      else Ok claims
  end.

(** ** Middleware: [middleware.go] *)

(** What a middleware does with a request: answer it, or hand it to the next
    handler, with the claims its context carries. *)
Inductive Guard :=
  | Reject (status : Z) (msg : string)
  | Pass (claims : option Claims).

(** [bearerToken], of the [Authorization] header. *)
Definition bearerToken (h : string) : option string :=
  match Cut h " " with
  | None => None
  | Some (scheme, token) =>
      if negb (EqualFold scheme "Bearer") then None
      else
        let token := TrimSpace token in
        if bool_decide (token = "") then None else Some token
  end.

(** [Authenticate]. *)
Definition Authenticate (i : Issuer) (now : Z) (authorization : string) : Guard :=
  match bearerToken authorization with
  | None => Reject 401 "missing or malformed bearer token"
  | Some token =>
      match VerifyToken i now token with
      | Err _ => Reject 401 "invalid token"
      | Ok claims => Pass (Some claims)
      end
  end.

(** [RequireAction], of the claims in the request's context. *)
Definition RequireAction (action : string) (claims : option Claims) : Guard :=
  match claims with
  | None => Reject 401 "authentication required"
  | Some c => if negb (Can (clm_Role c) action) then Reject 403 "insufficient permissions" else Pass claims
  end.

(** A route behind both, as the router chains them. *)
Definition guarded (i : Issuer) (now : Z) (action authorization : string) : Guard :=
  match Authenticate i now authorization with
  | Reject s m => Reject s m
  | Pass claims => RequireAction action claims
  end.
End tokens.

(** ** Base64 without padding *)

Definition b64_alphabet : string := "ABCDEFGHIJKLMNOPQRSTUVWXYZabcdefghijklmnopqrstuvwxyz0123456789+/".
Definition enc6 (n : nat) : ascii := default "A"%char (String.get n b64_alphabet).
Definition dec6 (c : ascii) : option nat := Index b64_alphabet (String c "").

(** [base64.RawStdEncoding.EncodeToString]. *)
Fixpoint b64_encode (s : string) : string :=
  match s with
  | EmptyString => EmptyString
  | String a EmptyString =>
      let a := byte_val a in
      String (enc6 (a / 4)) (String (enc6 (a mod 4 * 16)) "")
  | String a (String b EmptyString) =>
      let a := byte_val a in let b := byte_val b in
      String (enc6 (a / 4)) (String (enc6 (a mod 4 * 16 + b / 16)) (String (enc6 (b mod 16 * 4)) ""))
  | String a (String b (String c s')) =>
      let a := byte_val a in let b := byte_val b in let c := byte_val c in
      String (enc6 (a / 4)) (String (enc6 (a mod 4 * 16 + b / 16))
        (String (enc6 (b mod 16 * 4 + c / 64)) (String (enc6 (c mod 64)) (b64_encode s'))))
  end.

(** [DecodeString]: line breaks are skipped, the bits left over at the end are
    ignored, and a single character left over is an error. *)
Fixpoint b64_quanta (l : list nat) : option string :=
  match l with
  | [] => Some ""
  | [_] => None
  | [n0; n1] => Some (chr (n0 * 4 + n1 / 16))
  | [n0; n1; n2] => Some (chr (n0 * 4 + n1 / 16) +:+ chr (n1 mod 16 * 16 + n2 / 4))
  | n0 :: n1 :: n2 :: n3 :: l' =>
      s ← b64_quanta l';
      Some (chr (n0 * 4 + n1 / 16) +:+ chr (n1 mod 16 * 16 + n2 / 4) +:+ chr (n2 mod 4 * 64 + n3) +:+ s)
  end.
Fixpoint b64_digits (s : string) : option (list nat) :=
  match s with
  | EmptyString => Some []
  | String c s' =>
      if ascii_eqb c nl_char || ascii_eqb c (ascii_of_nat 13) then b64_digits s'
      else n ← dec6 c; l ← b64_digits s'; Some (n :: l)
  end.
Definition b64_decode (s : string) : option string := l ← b64_digits s; b64_quanta l.

(** ** Passwords: [password.go] *)

(** [argon2Params]. *)
Record argon2Params := mkParams {
  a2_memory : Z;
  a2_iterations : Z;
  a2_parallelism : Z;
  a2_saltLen : Z;
  a2_keyLen : Z;
}.

Definition currentParams : argon2Params := mkParams (19 * 1024) 2 1 16 32.
Definition argon2_Version : Z := 19.
Definition ErrInvalidHash : error := Errorf "auth: invalid password hash encoding".

(** [%d] of [Sscanf] into an unsigned integer of [bits] bits: blanks are skipped,
    then digits are read; what follows is the rest. *)
Definition scan_uint (bits : Z) (s : string) : option (Z * string) :=
  let s := skip_blanks s in
  let d := take_digits s in
  if bool_decide (d = "") then None
  else match digits_val 0 d with
       | Some n => if bool_decide (n < 2 ^ bits)%Z then Some (n, str_drop (String.length d) s) else None
       | None => None
       end.

(** A literal of a [Sscanf] format. *)
Definition scan_lit (lit s : string) : option string :=
  if HasPrefix s lit then Some (str_drop (String.length lit) s) else None.

(** [Sscanf(parts[2], "v=%d", &version)] into an [int], and the [Sprintf] back. *)
Definition scan_version (s : string) : option Z := s ← scan_lit "v=" s; Sscanf_d s.
Definition print_version (v : Z) : string := "v=" +:+ itoa v.

(** [Sscanf(parts[3], "m=%d,t=%d,p=%d", ...)] and back. *)
Definition scan_params (s : string) : option (Z * Z * Z) :=
  s ← scan_lit "m=" s; '(m, s) ← scan_uint 32 s;
  s ← scan_lit ",t=" s; '(t, s) ← scan_uint 32 s;
  s ← scan_lit ",p=" s; '(p, s) ← scan_uint 8 s;
  Some (m, t, p).
Definition print_params (m t p : Z) : string :=
  "m=" +:+ itoa m +:+ ",t=" +:+ itoa t +:+ ",p=" +:+ itoa p.

(** [decodeHash]. *)
Definition decodeHash (encoded : string) : result (argon2Params * string * string) :=
  match SplitChar "$" encoded with
  | [_; alg; ver; params; salt64; hash64] =>
      if bool_decide (alg ≠ "argon2id") then Err ErrInvalidHash else
      match scan_version ver with
      | None => Err ErrInvalidHash
      | Some version =>
      if bool_decide (version ≠ argon2_Version) || bool_decide (print_version version ≠ ver)
      then Err ErrInvalidHash else
      match scan_params params with
      | None => Err ErrInvalidHash
      | Some (m, t, p) =>
      if bool_decide (print_params m t p ≠ params) then Err ErrInvalidHash else
      if bool_decide (m = 0)%Z || bool_decide (t = 0)%Z || bool_decide (p = 0)%Z then Err ErrInvalidHash else
      match b64_decode salt64, b64_decode hash64 with
      | Some salt, Some hash =>
          if bool_decide (salt = "") || bool_decide (hash = "") then Err ErrInvalidHash
          else Ok (mkParams m t p (len salt mod 2 ^ 32) (len hash mod 2 ^ 32), salt, hash)
      | _, _ => Err ErrInvalidHash
      end
      end
      end
  | _ => Err ErrInvalidHash
  end.

Section passwords.
(** [argon2.IDKey]. *)
Context (IDKey : string → string → Z → Z → Z → Z → string).

(** The text of a hash. *)
Definition encodeHash (p : argon2Params) (salt hash : string) : string :=
  "$argon2id$v=" +:+ itoa argon2_Version +:+
  "$m=" +:+ itoa (a2_memory p) +:+ ",t=" +:+ itoa (a2_iterations p) +:+ ",p=" +:+ itoa (a2_parallelism p) +:+
  "$" +:+ b64_encode salt +:+ "$" +:+ b64_encode hash.

(** [HashPassword], given what [rand.Read] fills the salt with. *)
Definition HashPassword (rand : result string) (password : string) : result string :=
  let p := currentParams in
  match rand with
  | Err e => Err (Errorf_w ("auth: generate salt: " +:+ Error e) e)
  | Ok salt =>
      let hash := IDKey password salt (a2_iterations p) (a2_memory p) (a2_parallelism p) (a2_keyLen p) in
      Ok (encodeHash p salt hash)
  end.

(** [VerifyPassword]. *)
Definition VerifyPassword (password encoded : string) : result bool :=
  match decodeHash encoded with
  | Err e => Err e
  | Ok (p, salt, want) =>
      let got := IDKey password salt (a2_iterations p) (a2_memory p) (a2_parallelism p) (a2_keyLen p) in
      Ok (bool_decide (got = want))
  end.
End passwords.

(** [NeedsRehash]. *)
Definition NeedsRehash (encoded : string) : bool :=
  match decodeHash encoded with
  | Err _ => true
  | Ok (p, _, _) =>
      bool_decide (a2_memory p < a2_memory currentParams)%Z ||
      bool_decide (a2_iterations p < a2_iterations currentParams)%Z ||
      bool_decide (a2_parallelism p < a2_parallelism currentParams)%Z ||
      bool_decide (a2_keyLen p < a2_keyLen currentParams)%Z
  end.
