(* ===== verification/AuthFacts.v ===== *)
(** * What authentication guarantees

    Password hashes read back exactly, and a malformed one never reaches the key
    derivation. *)

From Stdlib Require Import Ascii Lia ZifyNat.
From stdpp Require Import gmap strings.
From S2P Require Import Prelude GoStrings Apperr GoMonad PgBackRest Auth.

(** Linear arithmetic with quotients and remainders by constants. *)
Ltac div_lia := zify; Z.to_euclidean_division_equations; lia.

(** ** Base64 *)

Lemma dec6_enc6 n : n < 64 → dec6 (enc6 n) = Some n.
Proof.
  intros Hn. assert (Hall : forallb (λ n, bool_decide (dec6 (enc6 n) = Some n)) (seq 0 64) = true)
    by (vm_compute; reflexivity).
  rewrite forallb_forall in Hall. specialize (Hall n). rewrite bool_decide_eq_true in Hall.
  apply Hall, in_seq. lia.
Qed.

(** The characters of an encoding are of the alphabet: no line break, no [$]. *)
Lemma enc6_plain n : n < 64 →
  ascii_eqb (enc6 n) nl_char = false ∧ ascii_eqb (enc6 n) (ascii_of_nat 13) = false ∧
  ascii_eqb (enc6 n) "$"%char = false.
Proof.
  intros Hn.
  assert (Hall : forallb (λ n, negb (ascii_eqb (enc6 n) nl_char) && negb (ascii_eqb (enc6 n) (ascii_of_nat 13)) &&
    negb (ascii_eqb (enc6 n) "$"%char)) (seq 0 64) = true) by (vm_compute; reflexivity).
  rewrite forallb_forall in Hall. specialize (Hall n).
  rewrite !andb_true_iff, !negb_true_iff in Hall. destruct Hall as [[? ?] ?]; [|done]. apply in_seq. lia.
Qed.

Lemma byte_lt c : byte_val c < 256.
Proof. apply nat_ascii_bounded. Qed.

Lemma chr_byte c n : n = byte_val c → chr n = String c "".
Proof. intros ->. unfold chr, byte_val. by rewrite ascii_nat_embedding. Qed.

(** A string by blocks of three bytes. *)
Lemma str_ind3 (P : string → Prop) :
  P "" → (∀ a, P (String a "")) → (∀ a b, P (String a (String b ""))) →
  (∀ a b c s, P s → P (String a (String b (String c s)))) → ∀ s, P s.
Proof.
  intros H0 H1 H2 H3.
  assert (H : ∀ n s, String.length s ≤ n → P s); [|by intros s; apply (H (String.length s))].
  induction n as [|n IH]; intros [|a [|b [|c s]]] Hl; try done; cbn in Hl; try lia.
  apply H3, IH. lia.
Qed.

Lemma b64_digits_cons n s :
  n < 64 → b64_digits (String (enc6 n) s) = (l ← b64_digits s; Some (n :: l)).
Proof.
  intros Hn. cbn [b64_digits]. destruct (enc6_plain n Hn) as (-> & -> & _). cbn [orb].
  rewrite dec6_enc6 by done. done.
Qed.

Lemma b64_bounds a b c :
  byte_val a / 4 < 64 ∧ byte_val a mod 4 * 16 < 64 ∧
  byte_val a mod 4 * 16 + byte_val b / 16 < 64 ∧ byte_val b mod 16 * 4 < 64 ∧
  byte_val b mod 16 * 4 + byte_val c / 64 < 64 ∧ byte_val c mod 64 < 64.
Proof.
  pose proof (byte_lt a). pose proof (byte_lt b). pose proof (byte_lt c).
  revert H H0 H1. generalize (byte_val a) (byte_val b) (byte_val c). intros x y z ? ? ?.
  split_and!; div_lia.
Qed.

Lemma b64_digits_encode s :
  ∃ l, b64_digits (b64_encode s) = Some l ∧ b64_quanta l = Some s.
Proof.
  induction s as [|a|a b|a b c s (l & Hl & Hq)] using str_ind3; [by exists []| | |];
    cbn [b64_encode].
  - destruct (b64_bounds a a a) as (? & ? & _). eexists. rewrite !b64_digits_cons by done.
    split; [reflexivity|]. cbn [b64_quanta]. f_equal. apply chr_byte.
    generalize (byte_val a). intros x. div_lia.
  - destruct (b64_bounds a b b) as (? & ? & ? & ? & _). eexists. rewrite !b64_digits_cons by done.
    split; [reflexivity|]. cbn [b64_quanta]. pose proof (byte_lt b).
    rewrite (chr_byte a), (chr_byte b); [done| |]; revert H3; generalize (byte_val a) (byte_val b);
      intros x y ?; div_lia.
  - destruct (b64_bounds a b c) as (? & ? & ? & ? & ? & ?). exists
      (byte_val a / 4 :: byte_val a mod 4 * 16 + byte_val b / 16 ::
       byte_val b mod 16 * 4 + byte_val c / 64 :: byte_val c mod 64 :: l).
    rewrite !b64_digits_cons, Hl by done. split; [reflexivity|]. cbn [b64_quanta]. rewrite Hq. cbn [mbind option_bind].
    pose proof (byte_lt b). pose proof (byte_lt c).
    rewrite (chr_byte a), (chr_byte b), (chr_byte c); [done| | |]; revert H5 H6;
      generalize (byte_val a) (byte_val b) (byte_val c); intros x y z ? ?; div_lia.
Qed.

Lemma b64_round s : b64_decode (b64_encode s) = Some s.
Proof. unfold b64_decode. by destruct (b64_digits_encode s) as (l & -> & ?). Qed.

(** ** Reading a hash back *)

Definition no_dollar (s : string) : bool := str_forallb (λ a, negb (ascii_eqb a "$"%char)) s.

Lemma no_dollar_digits s : str_forallb is_digit s = true → no_dollar s = true.
Proof.
  apply str_forallb_impl. intros c Hc. apply negb_true_iff, bool_decide_eq_false. by intros ->.
Qed.

Lemma no_dollar_itoa n : (0 ≤ n)%Z → no_dollar (itoa n) = true.
Proof. intros Hn. by apply no_dollar_digits, itoa_digits. Qed.

Lemma no_dollar_app s t : no_dollar (s +:+ t) = no_dollar s && no_dollar t.
Proof. apply str_forallb_app. Qed.

Lemma no_dollar_b64 s : no_dollar (b64_encode s) = true.
Proof.
  assert (H1 : ∀ n w, n < 64 → no_dollar (String (enc6 n) w) = no_dollar w).
  { intros n w Hn. unfold no_dollar. cbn [str_forallb]. by destruct (enc6_plain n Hn) as (_ & _ & ->). }
  induction s as [|a|a b|a b c s IH] using str_ind3; [done| | |]; cbn [b64_encode].
  - destruct (b64_bounds a a a) as (? & ? & _). by rewrite !H1.
  - destruct (b64_bounds a b b) as (? & ? & ? & ? & _). by rewrite !H1.
  - destruct (b64_bounds a b c) as (? & ? & ? & ? & ? & ?). by rewrite !H1.
Qed.

Lemma no_dollar_print m t p :
  (0 ≤ m)%Z → (0 ≤ t)%Z → (0 ≤ p)%Z → no_dollar (print_params m t p) = true.
Proof. intros Hm Ht Hp. unfold print_params. rewrite !no_dollar_app, !no_dollar_itoa by done. done. Qed.

Lemma scan_lit_app lit s : scan_lit lit (lit +:+ s) = Some s.
Proof. unfold scan_lit, HasPrefix. by rewrite prefix_app, str_drop_app. Qed.

Lemma scan_uint_itoa bits n s :
  (0 ≤ n < 2 ^ bits)%Z → take_digits s = "" → scan_uint bits (itoa n +:+ s) = Some (n, s).
Proof.
  intros Hn Hs. unfold scan_uint.
  assert (Hd : str_forallb is_digit (itoa n) = true) by (apply itoa_digits; lia).
  assert (skip_blanks (itoa n +:+ s) = itoa n +:+ s) as ->.
  { pose proof (itoa_nonempty n) as Hne. destruct (itoa n) as [|c d]; [done|].
    rewrite app_cons_str. cbn [skip_blanks]. cbn in Hd. apply andb_true_iff in Hd as [Hc _].
    unfold is_digit, byte_in in Hc. apply andb_true_iff in Hc as [Hc _]. apply Nat.leb_le in Hc.
    rewrite bool_decide_false; [done|]. rewrite !elem_of_cons, elem_of_nil. lia. }
  rewrite take_digits_app by done. rewrite bool_decide_false by apply itoa_nonempty.
  rewrite digits_val_itoa, bool_decide_true by lia. by rewrite str_drop_app.
Qed.

(** Parameters that fit the widths of [argon2Params]. *)
Definition params_fit (m t p : Z) : Prop := (0 < m < 2 ^ 32)%Z ∧ (0 < t < 2 ^ 32)%Z ∧ (0 < p < 2 ^ 8)%Z.

Lemma scan_print m t p : params_fit m t p → scan_params (print_params m t p) = Some (m, t, p).
Proof.
  intros (Hm & Ht & Hp). unfold scan_params, print_params. rewrite scan_lit_app. cbn [mbind option_bind].
  rewrite scan_uint_itoa by (done || lia). cbn [mbind option_bind]. rewrite scan_lit_app. cbn [mbind option_bind].
  rewrite scan_uint_itoa by (done || lia). cbn [mbind option_bind]. rewrite scan_lit_app. cbn [mbind option_bind].
  rewrite <- (app_nil_r_str (itoa p)), scan_uint_itoa by (done || lia). done.
Qed.

Lemma digits_val_nonneg acc s n : (0 ≤ acc)%Z → digits_val acc s = Some n → (0 ≤ n)%Z.
Proof.
  revert acc. induction s as [|c s IH]; intros acc Hacc; cbn; [by intros [= <-]|].
  destruct (is_digit c); [|done]. apply IH. lia.
Qed.

Lemma scan_uint_bound bits s n r : scan_uint bits s = Some (n, r) → (0 ≤ n < 2 ^ bits)%Z.
Proof.
  unfold scan_uint. case_bool_decide; [done|]. destruct (digits_val 0 _) as [v|] eqn:Hv; [|done].
  case_bool_decide; [|done]. intros [= <- _]. split; [|done]. by eapply digits_val_nonneg in Hv.
Qed.

Lemma scan_params_fit s m t p :
  scan_params s = Some (m, t, p) → m ≠ 0%Z → t ≠ 0%Z → p ≠ 0%Z → params_fit m t p.
Proof.
  unfold scan_params. intros H ???.
  apply bind_Some in H as (s1 & _ & H). apply bind_Some in H as ([m' s2] & Hm & H).
  apply bind_Some in H as (s3 & _ & H). apply bind_Some in H as ([t' s4] & Ht & H).
  apply bind_Some in H as (s5 & _ & H). apply bind_Some in H as ([p' s6] & Hp & [= -> -> ->]).
  apply scan_uint_bound in Hm, Ht, Hp. unfold params_fit. lia.
Qed.

Lemma split_encoded p salt hash :
  params_fit (a2_memory p) (a2_iterations p) (a2_parallelism p) →
  SplitChar "$" (encodeHash p salt hash) =
    [""; "argon2id"; "v=19"; print_params (a2_memory p) (a2_iterations p) (a2_parallelism p);
     b64_encode salt; b64_encode hash].
Proof.
  intros (Hm & Ht & Hp).
  assert (E : encodeHash p salt hash =
    "" +:+ String "$" ("argon2id" +:+ String "$" ("v=19" +:+ String "$"
      (print_params (a2_memory p) (a2_iterations p) (a2_parallelism p) +:+ String "$"
        (b64_encode salt +:+ String "$" (b64_encode hash +:+ "")))))).
  { unfold encodeHash, print_params. rewrite app_nil_r_str, !app_assoc_str. reflexivity. }
  assert (Hlast : ∀ w, no_dollar w = true → SplitChar "$" (w +:+ "") = [w]).
  { intros w Hw. rewrite app_nil_r_str. by apply SplitChar_none. }
  rewrite E, !SplitChar_app_sep, Hlast; try reflexivity; try apply no_dollar_b64; apply no_dollar_print; lia.
Qed.

Lemma decode_encode p salt hash :
  params_fit (a2_memory p) (a2_iterations p) (a2_parallelism p) → salt ≠ "" → hash ≠ "" →
  decodeHash (encodeHash p salt hash) =
    Ok (mkParams (a2_memory p) (a2_iterations p) (a2_parallelism p)
          (len salt mod 2 ^ 32) (len hash mod 2 ^ 32), salt, hash).
Proof.
  intros Hfit Hs Hh. unfold decodeHash. rewrite split_encoded by done.
  rewrite bool_decide_false by (by intros []). change (scan_version "v=19") with (Some 19%Z). cbn iota beta.
  change (bool_decide (19%Z ≠ argon2_Version) || bool_decide (print_version 19 ≠ "v=19")) with false. cbn iota.
  rewrite scan_print by done. rewrite (bool_decide_false (_ ≠ _)) by (by intros []).
  destruct Hfit as (Hm & Ht & Hp). rewrite !(bool_decide_false (_ = 0%Z)) by lia. cbn [orb].
  rewrite !b64_round. by rewrite (bool_decide_false (salt = "")), (bool_decide_false (hash = "")).
Qed.

(** C36: a hash that decodes is one [HashPassword] could have
    written, up to the characters base64 ignores: its version is argon2's, its
    cost parameters are written the way they are printed, are not zero and fit
    their types, and neither its salt nor its key is empty, so the key derivation
    is never called with arguments it panics on.  Every such hash decodes to
    exactly what it encodes. *)
Theorem decodeHash_sound :
  (∀ s p salt hash, decodeHash s = Ok (p, salt, hash) →
     params_fit (a2_memory p) (a2_iterations p) (a2_parallelism p) ∧ salt ≠ "" ∧ hash ≠ "" ∧
     ∃ pre salt64 hash64,
       s = Join [pre; "argon2id"; print_version argon2_Version;
                 print_params (a2_memory p) (a2_iterations p) (a2_parallelism p); salt64; hash64] "$" ∧
       b64_decode salt64 = Some salt ∧ b64_decode hash64 = Some hash) ∧
  (∀ p salt hash, params_fit (a2_memory p) (a2_iterations p) (a2_parallelism p) → salt ≠ "" → hash ≠ "" →
     a2_saltLen p = len salt → a2_keyLen p = len hash → (len salt < 2 ^ 32)%Z → (len hash < 2 ^ 32)%Z →
     decodeHash (encodeHash p salt hash) = Ok (p, salt, hash)).
Proof.
  split.
  - intros s p salt hash. unfold decodeHash. pose proof (Join_SplitChar "$" s) as HJ.
    destruct (SplitChar "$" s) as [|pre [|alg [|ver [|pars [|salt64 [|hash64 [|]]]]]]]; try done.
    case_bool_decide as Halg; [done|subst alg].
    destruct (scan_version ver) as [v|]; [|done].
    destruct (bool_decide (v ≠ argon2_Version)) eqn:Hv; [done|].
    destruct (bool_decide (print_version v ≠ ver)) eqn:Hver; [done|]. cbn [orb].
    apply bool_decide_eq_false, dec_stable in Hv as ->. apply bool_decide_eq_false, dec_stable in Hver as <-.
    destruct (scan_params pars) as [[[m t] p']|] eqn:Hscan; [|done].
    case_bool_decide as Hp; [done|subst pars].
    destruct (bool_decide (m = 0)%Z) eqn:Hm; [done|]. destruct (bool_decide (t = 0)%Z) eqn:Ht; [done|].
    destruct (bool_decide (p' = 0)%Z) eqn:Hp'; [done|]. cbn [orb].
    apply bool_decide_eq_false in Hm, Ht, Hp'.
    destruct (b64_decode salt64) as [salt'|] eqn:Hs; [|done].
    destruct (b64_decode hash64) as [hash'|] eqn:Hh; [|done].
    destruct (bool_decide (salt' = "")) eqn:Es; [done|]. destruct (bool_decide (hash' = "")) eqn:Eh; [done|].
    cbn [orb]. apply bool_decide_eq_false in Es, Eh. intros [= <- <- <-]. cbn.
    split_and!; [|done|done|exists pre, salt64, hash64; split; [by symmetry|done]].
    by eapply scan_params_fit.
  - intros p salt hash Hfit Hs Hh Esl Ekl Hsl Hkl. rewrite decode_encode by done.
    rewrite !Z.mod_small by (unfold len in *; lia). rewrite <- Esl, <- Ekl. by destruct p.
Qed.

(** The key argon2 derives under the current parameters. *)
Definition derive (IDKey : string → string → Z → Z → Z → Z → string) (password salt : string) : string :=
  let p := currentParams in
  IDKey password salt (a2_iterations p) (a2_memory p) (a2_parallelism p) (a2_keyLen p).

(** A password verifies against the hash made of it,
    whatever the salt, and another one verifies only if argon2 derives the same
    key for it; a fresh hash needs no rehash. *)
Theorem password_verifies (IDKey : string → string → Z → Z → Z → Z → string) salt password password' :
  (∀ pw s t m p k, (0 ≤ k)%Z → len (IDKey pw s t m p k) = k) → len salt = a2_saltLen currentParams →
  ∃ h, HashPassword IDKey (Ok salt) password = Ok h ∧ NeedsRehash h = false ∧
    VerifyPassword IDKey password h = Ok true ∧
    VerifyPassword IDKey password' h =
      Ok (bool_decide (derive IDKey password' salt = derive IDKey password salt)).
Proof.
  intros Hlen Hsalt. eexists. split; [reflexivity|].
  assert (Hd : decodeHash (encodeHash currentParams salt (derive IDKey password salt)) =
    Ok (currentParams, salt, derive IDKey password salt)).
  { rewrite decode_encode; [|by vm_compute| |].
    - unfold derive. rewrite Hlen, Hsalt by done. reflexivity.
    - by intros ->.
    - intros H. specialize (Hlen password salt 2 (19 * 1024) 1 32)%Z. unfold derive in H. cbn in H.
      rewrite H in Hlen. by discriminate Hlen. }
  unfold NeedsRehash, VerifyPassword. fold (derive IDKey password salt). rewrite Hd.
  split_and!; [reflexivity| |reflexivity]. f_equal. by apply bool_decide_true.
Qed.

(** A derivation that pads the password to the length asked for. *)
Fixpoint pad (n : nat) (s : string) : string :=
  match n with
  | O => ""
  | S n => match s with
           | EmptyString => String "."%char (pad n "")
           | String c s' => String c (pad n s')
           end
  end.
Definition sample_IDKey : string → string → Z → Z → Z → Z → string := λ pw salt t m p k,
  if bool_decide (0 ≤ k)%Z then pad (Z.to_nat k) pw else "".

Lemma pad_length n s : String.length (pad n s) = n.
Proof. revert s. induction n as [|n IH]; intros [|c s]; cbn; by rewrite ?IH. Qed.

Lemma sample_IDKey_length pw s t m p k : (0 ≤ k)%Z → len (sample_IDKey pw s t m p k) = k.
Proof. intros Hk. unfold sample_IDKey, len. rewrite bool_decide_true, pad_length by done. lia. Qed.

Lemma password_verifies_witness :
  ∃ h, HashPassword sample_IDKey (Ok "0123456789abcdef") "secret" = Ok h ∧ NeedsRehash h = false ∧
    VerifyPassword sample_IDKey "secret" h = Ok true ∧
    VerifyPassword sample_IDKey "guess" h = Ok (bool_decide
      (derive sample_IDKey "guess" "0123456789abcdef" = derive sample_IDKey "secret" "0123456789abcdef")).
Proof.
  exact (password_verifies sample_IDKey "0123456789abcdef" "secret" "guess" sample_IDKey_length eq_refl).
Defined.

Example hash_prints :
  HashPassword sample_IDKey (Ok "0123456789abcdef") "secret" =
  Ok "$argon2id$v=19$m=19456,t=2,p=1$MDEyMzQ1Njc4OWFiY2RlZg$c2VjcmV0Li4uLi4uLi4uLi4uLi4uLi4uLi4uLi4uLi4".
Proof. vm_compute. reflexivity. Qed.
