(* ===== verification/Router.v ===== *)
(** * The routes of the API: [internal/api/router.go]

    [NewRouter] as the list of the routes it mounts, each with the middleware it
    runs through, outermost first; [serve] runs that chain on a request.  Which
    collaborators are present decides which routes exist.  Matching a request
    path against the patterns is the router library's. *)

From stdpp Require Import gmap strings.
From S2P Require Import Prelude GoStrings Apperr GoMonad Auth.

(** ** Routes *)

Inductive Middleware :=
  | LimitByIP
  | UseAuthenticate
  | UseRequireAction (action : string).

Record Route := mkRoute {
  rte_Method : string;
  rte_Pattern : string;
  rte_Chain : list Middleware;
  rte_Handler : string;
}.

#[export] Instance Middleware_eq_dec : EqDecision Middleware.
Proof. solve_decision. Defined.
#[export] Instance Route_eq_dec : EqDecision Route.
Proof. solve_decision. Defined.

Definition Get (pattern handler : string) : Route := mkRoute "GET" pattern [] handler.
Definition Post (pattern handler : string) : Route := mkRoute "POST" pattern [] handler.
Definition Put (pattern handler : string) : Route := mkRoute "PUT" pattern [] handler.
Definition Delete (pattern handler : string) : Route := mkRoute "DELETE" pattern [] handler.

(** [Use] in a [Group], and [Route] with a prefix. *)
Definition Use (m : Middleware) (rs : list Route) : list Route :=
  (λ r, mkRoute (rte_Method r) (rte_Pattern r) (m :: rte_Chain r) (rte_Handler r)) <$> rs.
Definition Under (prefix : string) (rs : list Route) : list Route :=
  (λ r, mkRoute (rte_Method r) (prefix +:+ rte_Pattern r) (rte_Chain r) (rte_Handler r)) <$> rs.
Definition mounted (present : bool) (rs : list Route) : list Route := if present then rs else [].

(** [Deps]: which collaborators are not nil. *)
Record Deps := mkDeps {
  dp_Issuer : bool;
  dp_Auth : bool;
  dp_SSO : bool;
  dp_Users : bool;
  dp_Audit : bool;
  dp_Instances : bool;
  dp_Clusters : bool;
  dp_Backups : bool;
  dp_Metrics : bool;
  dp_Health : bool;
  dp_Events : bool;
  dp_Timescale : bool;
  dp_Alerts : bool;
  dp_AlertRules : bool;
  dp_EventsHistory : bool;
  dp_Logs : bool;
  dp_Prometheus : bool;
  dp_SQL : bool;
  dp_Exec : bool;
  dp_Dump : bool;
  dp_Remote : bool;
  dp_Pool : bool;
  dp_Compose : bool;
}.

(** [mountInstanceRoutes]. *)
Definition mountInstanceRoutes : list Route :=
  Use (UseRequireAction ActionInstanceRead)
    [Get "/instances" "Instances.List";
     Get "/instances/{id}" "Instances.Get"] ++
  Use (UseRequireAction ActionInstanceConnect)
    [Get "/instances/{id}/connection" "Instances.Connection"] ++
  Use (UseRequireAction ActionInstanceWrite)
    [Post "/instances" "Instances.Create";
     Post "/instances/{id}/clone" "Instances.Clone";
     Post "/instances/{id}/visibility" "Instances.Visibility";
     Post "/instances/{id}/start" "Instances.Start";
     Post "/instances/{id}/stop" "Instances.Stop";
     Post "/instances/{id}/restart" "Instances.Restart"] ++
  Use (UseRequireAction ActionInstanceDelete)
    [Delete "/instances/{id}" "Instances.Destroy"].

(** [mountClusterRoutes]. *)
Definition mountClusterRoutes : list Route :=
  Use (UseRequireAction ActionInstanceRead)
    [Get "/clusters" "Clusters.List";
     Get "/clusters/{id}" "Clusters.Get"] ++
  Use (UseRequireAction ActionInstanceConnect)
    [Get "/clusters/{id}/connection" "Clusters.Connection"] ++
  Use (UseRequireAction ActionInstanceWrite)
    [Post "/clusters" "Clusters.Create"] ++
  Use (UseRequireAction ActionInstanceDelete)
    [Delete "/clusters/{id}" "Clusters.Destroy"].

(** [mountTimescaleRoutes]. *)
Definition timescaleBase : string := "/instances/{id}/timescale".
Definition mountTimescaleRoutes : list Route :=
  Use (UseRequireAction ActionInstanceRead)
    [Get (timescaleBase +:+ "/hypertables") "Timescale.List";
     Get (timescaleBase +:+ "/jobs") "Timescale.Jobs"] ++
  Use (UseRequireAction ActionInstanceWrite)
    [Post (timescaleBase +:+ "/hypertables") "Timescale.CreateHypertable";
     Post (timescaleBase +:+ "/retention") "Timescale.AddRetention";
     Delete (timescaleBase +:+ "/retention") "Timescale.RemoveRetention";
     Post (timescaleBase +:+ "/compression") "Timescale.EnableCompression";
     Delete (timescaleBase +:+ "/compression") "Timescale.RemoveCompression";
     Post (timescaleBase +:+ "/continuous-aggregates") "Timescale.CreateContinuousAggregate"].

(** [mountRemoteRoutes]. *)
Definition mountRemoteRoutes : list Route :=
  Use (UseRequireAction ActionInstanceRead)
    [Get "/remote/backups" "Remote.List"] ++
  Use (UseRequireAction ActionInstanceWrite)
    [Post "/remote/backups" "Remote.Capture";
     Post "/remote/backups/{id}/restore" "Remote.Restore"].

(** [mountBackupRoutes]. *)
Definition mountBackupRoutes : list Route :=
  Use (UseRequireAction ActionBackupRead)
    [Get "/instances/{id}/backups" "Backups.List"] ++
  Use (UseRequireAction ActionBackupWrite)
    [Post "/instances/{id}/backups" "Backups.Create";
     Post "/instances/{id}/backups/verify" "Backups.Verify"] ++
  Use (UseRequireAction ActionBackupRestore)
    [Post "/instances/{id}/restore" "Backups.Restore";
     Delete "/instances/{id}/backups/{label}" "Backups.Delete"].

(** The group behind [Authenticate]. *)
Definition protectedRoutes (deps : Deps) : list Route :=
  mounted (dp_Auth deps) [Post "/auth/logout" "Auth.Logout"] ++
  mounted (dp_Users deps) (Use (UseRequireAction ActionUserManage)
    [Post "/users" "Users.Create";
     Get "/users" "Users.List";
     Post "/users/{id}/disable" "Users.Disable";
     Post "/users/{id}/enable" "Users.Enable"]) ++
  mounted (dp_Instances deps) mountInstanceRoutes ++
  mounted (dp_Clusters deps) mountClusterRoutes ++
  mounted (dp_Backups deps) mountBackupRoutes ++
  mounted (dp_Metrics deps) (Use (UseRequireAction ActionMetricsRead)
    [Get "/instances/{id}/metrics" "Metrics.Latest";
     Get "/instances/{id}/metrics/{metric}" "Metrics.Range";
     Get "/instances/{id}/queries" "Metrics.Queries"]) ++
  mounted (dp_Health deps) (Use (UseRequireAction ActionMetricsRead)
    [Get "/health" "Health.List"]) ++
  mounted (dp_Alerts deps) (Use (UseRequireAction ActionMetricsRead)
    [Get "/alerts" "Alerts.List"]) ++
  mounted (dp_AlertRules deps)
    (Use (UseRequireAction ActionMetricsRead) [Get "/alert-rules" "AlertRules.List"] ++
     Use (UseRequireAction ActionInstanceWrite)
       [Post "/alert-rules" "AlertRules.Create";
        Put "/alert-rules/{id}" "AlertRules.Update";
        Delete "/alert-rules/{id}" "AlertRules.Delete"]) ++
  mounted (dp_EventsHistory deps) (Use (UseRequireAction ActionMetricsRead)
    [Get "/events/history" "EventsHistory.List"]) ++
  mounted (dp_Logs deps) (Use (UseRequireAction ActionInstanceRead)
    [Get "/instances/{id}/logs" "Logs.Get"]) ++
  mounted (dp_Compose deps) (Use (UseRequireAction ActionInstanceRead)
    [Get "/instances/{id}/compose" "Compose.GetInstance";
     Get "/clusters/{id}/compose" "Compose.GetCluster"]) ++
  mounted (dp_Dump deps) (Use (UseRequireAction ActionInstanceConnect)
    [Get "/instances/{id}/dump" "Dump.Get"]) ++
  mounted (dp_Timescale deps) mountTimescaleRoutes ++
  mounted (dp_SQL deps) (Use (UseRequireAction ActionInstanceConnect)
    [Post "/instances/{id}/sql" "SQL.Run"]) ++
  mounted (dp_Exec deps) (Use (UseRequireAction ActionInstanceWrite)
    [Post "/instances/{id}/exec" "Exec.Run"]) ++
  mounted (dp_Remote deps) mountRemoteRoutes ++
  mounted (dp_Pool deps) (Use (UseRequireAction ActionMetricsRead)
    [Get "/clusters/{id}/pool/stats" "Pool.Stats"]) ++
  mounted (dp_Audit deps) (Use (UseRequireAction ActionUserManage)
    [Get "/audit" "Audit.List"]).

(** [NewRouter]. *)
Definition NewRouter (deps : Deps) : list Route :=
  [Get "/healthz" "handleHealthz"; Get "/readyz" "handleReadyz"] ++
  mounted (dp_Prometheus deps) [Get "/metrics" "Prometheus.Metrics"] ++
  Under "/api/v1" (Use LimitByIP (
    mounted (dp_Auth deps) [Post "/auth/login" "Auth.Login"] ++
    mounted (dp_SSO deps) [Post "/auth/sso" "SSO.Exchange"] ++
    mounted (dp_Issuer deps) (Use UseAuthenticate (protectedRoutes deps)) ++
    mounted (dp_Events deps && dp_Issuer deps) [Get "/events" "ws.Handler"])).

Section serve.
Context {J : JWT}.

(** A request with this [Authorization] header runs through a chain; whether the
    rate limiter stops the client is its own matter. *)
Fixpoint run_chain (limited : bool) (i : Issuer) (now : Z) (authorization : string)
    (chain : list Middleware) (claims : option Claims) : Guard :=
  match chain with
  | [] => Pass claims
  | LimitByIP :: chain =>
      if limited then Reject 429 "Too Many Requests"
      else run_chain limited i now authorization chain claims
  | UseAuthenticate :: chain =>
      match Authenticate i now authorization with
      | Reject status msg => Reject status msg
      | Pass claims => run_chain limited i now authorization chain claims
      end
  | UseRequireAction action :: chain =>
      match RequireAction action claims with
      | Reject status msg => Reject status msg
      | Pass claims => run_chain limited i now authorization chain claims
      end
  end.

Definition serve (limited : bool) (i : Issuer) (now : Z) (authorization : string) (r : Route) : Guard :=
  run_chain limited i now authorization (rte_Chain r) None.

(** The check of the [token] query parameter of [/events]. *)
Definition eventsAuthorize (i : Issuer) (now : Z) (token : string) : result unit :=
  match VerifyToken i now token with
  | Err e => Err e
  | Ok claims =>
      if negb (Can (clm_Role claims) ActionMetricsRead) then Err (Errorf "insufficient permissions") else Ok tt
  end.
End serve.

(** [securityHeaders]. *)
Definition securityHeaders : list (string * string) :=
  [("X-Content-Type-Options", "nosniff"); ("X-Frame-Options", "DENY");
   ("Referrer-Policy", "no-referrer"); ("X-XSS-Protection", "0");
   ("Content-Security-Policy", "default-src 'none'; frame-ancestors 'none'; base-uri 'none'")].

(** A JSON response: its status and the fields of its body. *)
Notation Response := (Z * gmap string string)%type.

(** [handleHealthz] and [handleReadyz], given the outcome of the readiness check
    if there is one. *)
Definition handleHealthz : Response := (200%Z, {["status" := "ok"]}).
Definition handleReadyz (ready : option (result unit)) : Response :=
  match ready with
  | Some (Err e) => (503%Z, <["status" := "unavailable"]> {["error" := Error e]})
  | _ => (200%Z, {["status" := "ok"]})
  end.

(** [respondError]. *)
Definition respondError (err : error) : Response :=
  let status := HTTPStatus err in
  (status, {["error" := if bool_decide (500 ≤ status)%Z then "internal error" else Error err]}).

(** ** What the routes require *)

(** Reachable without a session: probes, metrics, the two ways to log in, and the
    event stream, which checks its own token. *)
Definition public (r : Route) : bool :=
  bool_decide (rte_Pattern r ∈
    ["/healthz"; "/readyz"; "/metrics"; "/api/v1/auth/login"; "/api/v1/auth/sso"; "/api/v1/events"]).

(** Changes something, or hands out credentials or the data itself. *)
Definition privileged (r : Route) : bool :=
  (bool_decide (rte_Method r ≠ "GET") && bool_decide (rte_Pattern r ≠ "/api/v1/auth/logout")) ||
  bool_decide (rte_Pattern r ∈
    ["/api/v1/instances/{id}/connection"; "/api/v1/clusters/{id}/connection"; "/api/v1/instances/{id}/dump"]).

(** User management and the audit log. *)
Definition adminOnly (r : Route) : bool :=
  HasPrefix (rte_Pattern r) "/api/v1/users" || bool_decide (rte_Pattern r = "/api/v1/audit").

(** The chain of a route that is not public: rate limit, authentication, and at
    most one action, which is out of a viewer's reach where that matters. *)
Definition well_guarded (r : Route) : bool :=
  public r ||
  match rte_Chain r with
  | [LimitByIP; UseAuthenticate] => negb (privileged r) && negb (adminOnly r)
  | [LimitByIP; UseAuthenticate; UseRequireAction a] =>
      (negb (privileged r) || negb (Can RoleViewer a)) && (negb (adminOnly r) || negb (Can RoleOperator a))
  | _ => false
  end.

Lemma routes_well_guarded deps : Forall (λ r, well_guarded r = true) (NewRouter deps).
Proof.
  unfold NewRouter, protectedRoutes, mounted, mountInstanceRoutes, mountClusterRoutes, mountBackupRoutes,
    mountTimescaleRoutes, mountRemoteRoutes.
  unfold Under, Use.
  rewrite !fmap_app.
  repeat (apply Forall_app_2 || apply Forall_nil_2 || apply Forall_cons_2 ||
    lazymatch goal with
    | |- Forall _ (_ <$> (_ <$> (_ ++ _))) => rewrite !fmap_app
    | |- Forall _ (_ <$> _ ) =>
        match goal with |- context [if ?b then _ else _] => destruct b end
    | |- Forall _ (if ?b then _ else _) => destruct b
    end).
  all: try (vm_compute; reflexivity).
Qed.

Lemma Can_viewer a : Can RoleViewer a = bool_decide (a ∈ readActions).
Proof.
  unfold Can. change (grants !! RoleViewer) with (Some (toSet readActions)). cbn [default from_option id].
  unfold toSet. apply bool_decide_ext. by rewrite elem_of_list_to_set.
Qed.

(** A viewer may do nothing an operator may not. *)
Lemma Can_viewer_operator a : Can RoleViewer a = true → Can RoleOperator a = true.
Proof.
  rewrite Can_viewer, bool_decide_eq_true. unfold readActions. rewrite !elem_of_cons, elem_of_nil.
  intros [->|[->|[->|[]]]]; vm_compute; reflexivity.
Qed.

Lemma Can_spec role a :
  Role_Valid role = true → Can role a = true →
  (Can RoleViewer a = false → role ≠ RoleViewer) ∧ (Can RoleOperator a = false → role = RoleAdmin).
Proof.
  unfold Role_Valid. rewrite bool_decide_eq_true, !elem_of_cons, elem_of_nil.
  intros [->|[->|[->|[]]]] Hc; split; intros Hn.
  - discriminate.
  - reflexivity.
  - discriminate.
  - rewrite Hn in Hc. discriminate Hc.
  - rewrite Hn in Hc. discriminate Hc.
  - apply Can_viewer_operator in Hc. rewrite Hn in Hc. discriminate Hc.
Qed.

Section guards.
Context {J : JWT}.

Lemma Authenticate_pass i now hdr claims :
  Authenticate i now hdr = Pass claims →
  ∃ token c, bearerToken hdr = Some token ∧ VerifyToken i now token = Ok c ∧ claims = Some c ∧
    Role_Valid (clm_Role c) = true.
Proof.
  unfold Authenticate. destruct (bearerToken hdr) as [token|]; [|done].
  destruct (VerifyToken i now token) as [c|] eqn:Hv; [|done]. intros [= <-]. exists token, c.
  split_and!; try done. unfold VerifyToken in Hv. destruct (jwt_parse _ _ _) as [c'|]; [|done].
  destruct (Role_Valid (clm_Role c')) eqn:Hr; [|done]. by injection Hv as <-.
Qed.

(** C4: whichever collaborators are present, a request to any
    route but the public ones reaches its handler only with a bearer token that
    verifies, and the handler sees exactly that token's claims.  A route that
    changes something, or that hands out connection strings or a dump, is never
    reached with a viewer's token; user management and the audit log only with an
    administrator's. *)
Theorem routes_guarded deps r limited i now hdr claims :
  r ∈ NewRouter deps → public r = false → serve limited i now hdr r = Pass claims →
  ∃ token c, bearerToken hdr = Some token ∧ VerifyToken i now token = Ok c ∧ claims = Some c ∧
    (privileged r = true → clm_Role c ≠ RoleViewer) ∧
    (adminOnly r = true → clm_Role c = RoleAdmin).
Proof.
  intros Hr Hp Hs. pose proof (proj1 (Forall_forall _ _) (routes_well_guarded deps) r Hr) as Hg.
  cbn beta in Hg. unfold well_guarded in Hg. rewrite Hp in Hg. cbn [orb] in Hg. unfold serve in Hs.
  destruct (rte_Chain r) as [|[] [|[] [|[| |a] [|]]]]; try done; cbn [run_chain] in Hs;
    destruct limited; try done; destruct (Authenticate i now hdr) as [|claims'] eqn:Ha; try done;
    apply Authenticate_pass in Ha as (token & c & Ht & Hv & -> & Hrole); exists token, c.
  - injection Hs as <-. apply andb_true_iff in Hg as [H1%negb_true_iff H2%negb_true_iff].
    split_and!; try done; intros H; congruence.
  - cbn [RequireAction] in Hs. destruct (Can (clm_Role c) a) eqn:Hc; [|done]. injection Hs as <-.
    destruct (Can_spec _ _ Hrole Hc) as [Hvw Hop].
    apply andb_true_iff in Hg as [H1 H2]. split_and!; try done; intros H.
    + rewrite H in H1. by apply Hvw, negb_true_iff.
    + rewrite H in H2. by apply Hop, negb_true_iff.
Qed.
End guards.

(** All collaborators present. *)
Definition allDeps : Deps :=
  mkDeps true true true true true true true true true true true true true true true true true true true true
    true true true.

(** A library that accepts one token, an operator's. *)
Definition sample_claims : Claims := mkClaims "u1" "op@example.com" RoleOperator "u1" 0 0 100.
#[local] Instance sample_jwt : JWT := {|
  jwt_sign _ _ := Ok "good";
  jwt_parse _ now token :=
    if bool_decide (token = "good") && bool_decide (now < 100)%Z then Ok sample_claims
    else Err (Errorf "token is malformed");
|}.

Definition sample_exec_route : Route :=
  mkRoute "POST" "/api/v1/instances/{id}/exec"
    [LimitByIP; UseAuthenticate; UseRequireAction ActionInstanceWrite] "Exec.Run".

Lemma routes_guarded_witness :
  ∃ token c, bearerToken "bearer good" = Some token ∧
    VerifyToken (mkIssuer "secret" 100) 5 token = Ok c ∧ Some sample_claims = Some c ∧
    (privileged sample_exec_route = true → clm_Role c ≠ RoleViewer) ∧
    (adminOnly sample_exec_route = true → clm_Role c = RoleAdmin).
Proof.
  apply (routes_guarded allDeps sample_exec_route false (mkIssuer "secret" 100) 5 "bearer good" (Some sample_claims)).
  - apply (bool_decide_unpack (sample_exec_route ∈ NewRouter allDeps)). vm_compute. reflexivity.
  - vm_compute. reflexivity.
  - vm_compute. reflexivity.
Defined.

(** No two routes share a method and a pattern. *)
Example routes_distinct :
  NoDup ((λ r, (rte_Method r, rte_Pattern r)) <$> NewRouter allDeps).
Proof. apply (bool_decide_unpack _). vm_compute. reflexivity. Qed.
