(* ===== verification/Alerts.v ===== *)
(** * Alerts: [internal/alerts]

    Thresholds, the evaluation of a snapshot against them, the rules that
    override them, and the two tables behind: the alert rules, and the alerts
    themselves, which [Sync] brings in agreement with the findings of a
    snapshot inside one transaction.  A [float64] is an IEEE 754 value of the
    standard library's [SpecFloat]. *)

From Stdlib Require Import Ascii Floats.SpecFloat.
From stdpp Require Import gmap strings sorting.
From S2P Require Import Prelude GoStrings Apperr GoMonad NetIP MetaDB Tables.

(** ** Floating point *)

Notation float := spec_float.

(** A constant, rounded to the nearest [float64]. *)
Definition float_const (n : Z) : float := binary_normalize 53 1024 n 0 false.

Definition IsNaN (x : float) : bool := match x with S754_nan => true | _ => false end.
Definition IsInf (x : float) : bool := match x with S754_infinity _ => true | _ => false end.

(** [n / d] rounded to the nearest integer, halves to even. *)
Definition round_half_even (n d : Z) : Z :=
  let q := (n / d)%Z in
  let r := (n mod d)%Z in
  if bool_decide (2 * r < d)%Z then q
  else if bool_decide (d < 2 * r)%Z then (q + 1)%Z
  else if Z.even q then q else (q + 1)%Z.

(** [%.0f] and [%.1f] ([digits] is 0 or 1). *)
Definition fmt_fixed (digits : Z) (x : float) : string :=
  let print (s : bool) (q : Z) :=
    (if s then "-" else "") +:+
    (if bool_decide (digits = 0)%Z then itoa q else itoa (q / 10) +:+ "." +:+ itoa (q mod 10)) in
  match x with
  | S754_nan => "NaN"
  | S754_infinity s => if s then "-Inf" else "+Inf"
  | S754_zero s => print s 0%Z
  | S754_finite s m e =>
      print s (if bool_decide (0 ≤ e)%Z then (Zpos m * 2 ^ e * 10 ^ digits)%Z
               else round_half_even (Zpos m * 10 ^ digits) (2 ^ (- e)))
  end.

(** ** Data: [alerts.go], [rules.go] *)

Definition KindDiskFull : string := "disk_full".
Definition KindReplicationLag : string := "replication_lag".
Definition KindBackupStale : string := "backup_stale".
Definition KindConnectionSaturation : string := "connection_saturation".

Definition SeverityWarning : string := "warning".
Definition SeverityCritical : string := "critical".
Definition StateFiring : string := "firing".
Definition StateResolved : string := "resolved".

(** [Alert]. *)
Record Alert := mkAlert {
  al_ID : string;
  al_InstanceID : string;
  al_Kind : string;
  al_Severity : string;
  al_State : string;
  al_Message : string;
  al_Value : option float;
  al_Threshold : option float;
  al_FiredAt : Z;
  al_ResolvedAt : option Z;
  al_UpdatedAt : Z;
}.

(** [Thresholds] and [DefaultThresholds]. *)
Record Thresholds := mkThresholds {
  th_MinDiskFreePercent : float;
  th_MaxReplicationLagSeconds : float;
  th_MaxBackupAgeSeconds : float;
  th_MaxConnectionUtilizationPercent : float;
}.
Definition DefaultThresholds : Thresholds :=
  mkThresholds (float_const 10) (float_const 300) (float_const (25 * 60 * 60)) (float_const 90).

(** [Rule]; no instance means every instance. *)
Record Rule := mkRule {
  ru_ID : string;
  ru_InstanceID : option string;
  ru_Kind : string;
  ru_Threshold : float;
  ru_Severity : string;
  ru_Enabled : bool;
  ru_CreatedAt : Z;
  ru_UpdatedAt : Z;
}.

(** [knownKinds] and [Rule.Validate]. *)
Definition knownKinds : list string :=
  [KindDiskFull; KindReplicationLag; KindBackupStale; KindConnectionSaturation].
Definition Rule_Validate (r : Rule) : result unit :=
  if negb (bool_decide (ru_Kind r ∈ knownKinds)) then
    Err (New KindInvalid ("alert rule: unknown kind " +:+ ru_Kind r))
  else if bool_decide (ru_Severity r ≠ SeverityWarning) && bool_decide (ru_Severity r ≠ SeverityCritical) then
    Err (New KindInvalid "alert rule: severity must be warning or critical")
  else if IsNaN (ru_Threshold r) || IsInf (ru_Threshold r) then
    Err (New KindInvalid "alert rule: threshold must be a finite number")
  else Ok tt.

(** ** Evaluation: [engine.go], [effective.go] *)

Definition criticalDiskFreePercent : float := float_const 5.
Definition criticalReplicationLagS : float := float_const 900.
Definition criticalConnectionUtilPc : float := float_const 98.

(** [Snapshot]: a metric that is not known is [None]. *)
Record Snapshot := mkSnapshot {
  sn_InstanceID : string;
  sn_DiskFreePercent : option float;
  sn_ReplicationLagSeconds : option float;
  sn_BackupAgeSeconds : option float;
  sn_ConnectionUtilizationPercent : option float;
}.

(** [Finding]. *)
Record Finding := mkFinding {
  fi_Kind : string;
  fi_Severity : string;
  fi_Message : string;
  fi_Value : float;
  fi_Threshold : float;
  fi_Firing : bool;
}.

(** The [if] of one kind of [Evaluate]. *)
Definition check_disk (th : Thresholds) (v : float) : list Finding :=
  if SFltb v (th_MinDiskFreePercent th) then
    [mkFinding KindDiskFull
       (if SFltb v criticalDiskFreePercent then SeverityCritical else SeverityWarning)
       ("disk free " +:+ fmt_fixed 1 v +:+ "% is below " +:+ fmt_fixed 1 (th_MinDiskFreePercent th) +:+ "%")
       v (th_MinDiskFreePercent th) true]
  else [].
Definition check_lag (th : Thresholds) (v : float) : list Finding :=
  if SFltb (th_MaxReplicationLagSeconds th) v then
    [mkFinding KindReplicationLag
       (if SFltb criticalReplicationLagS v then SeverityCritical else SeverityWarning)
       ("replication lag " +:+ fmt_fixed 0 v +:+ "s exceeds " +:+ fmt_fixed 0 (th_MaxReplicationLagSeconds th) +:+ "s")
       v (th_MaxReplicationLagSeconds th) true]
  else [].
Definition check_backup (th : Thresholds) (v : float) : list Finding :=
  if SFltb (th_MaxBackupAgeSeconds th) v then
    [mkFinding KindBackupStale SeverityWarning
       ("last backup " +:+ fmt_fixed 0 v +:+ "s old exceeds " +:+ fmt_fixed 0 (th_MaxBackupAgeSeconds th) +:+ "s")
       v (th_MaxBackupAgeSeconds th) true]
  else [].
Definition check_connections (th : Thresholds) (v : float) : list Finding :=
  if SFltb (th_MaxConnectionUtilizationPercent th) v then
    [mkFinding KindConnectionSaturation
       (if SFltb criticalConnectionUtilPc v then SeverityCritical else SeverityWarning)
       ("connection utilization " +:+ fmt_fixed 1 v +:+ "% exceeds " +:+
        fmt_fixed 1 (th_MaxConnectionUtilizationPercent th) +:+ "%")
       v (th_MaxConnectionUtilizationPercent th) true]
  else [].

(** [Evaluate]. *)
Definition Evaluate (snapshot : Snapshot) (th : Thresholds) : list Finding :=
  let known (v : option float) (check : float → list Finding) :=
    match v with Some v => check v | None => [] end in
  known (sn_DiskFreePercent snapshot) (check_disk th) ++
  known (sn_ReplicationLagSeconds snapshot) (check_lag th) ++
  known (sn_BackupAgeSeconds snapshot) (check_backup th) ++
  known (sn_ConnectionUtilizationPercent snapshot) (check_connections th).

(** [EffectiveThresholds]. *)
Definition override (out : Thresholds) (r : Rule) : Thresholds :=
  if negb (ru_Enabled r) then out
  else if bool_decide (ru_Kind r = KindDiskFull) then
    mkThresholds (ru_Threshold r) (th_MaxReplicationLagSeconds out) (th_MaxBackupAgeSeconds out)
      (th_MaxConnectionUtilizationPercent out)
  else if bool_decide (ru_Kind r = KindReplicationLag) then
    mkThresholds (th_MinDiskFreePercent out) (ru_Threshold r) (th_MaxBackupAgeSeconds out)
      (th_MaxConnectionUtilizationPercent out)
  else if bool_decide (ru_Kind r = KindBackupStale) then
    mkThresholds (th_MinDiskFreePercent out) (th_MaxReplicationLagSeconds out) (ru_Threshold r)
      (th_MaxConnectionUtilizationPercent out)
  else if bool_decide (ru_Kind r = KindConnectionSaturation) then
    mkThresholds (th_MinDiskFreePercent out) (th_MaxReplicationLagSeconds out) (th_MaxBackupAgeSeconds out)
      (ru_Threshold r)
  else out.
Definition EffectiveThresholds (defaults : Thresholds) (rules : list Rule) : Thresholds :=
  foldl override defaults rules.

(** ** The rules table: [rules_store.go] *)

Notation RuleTable := (Table string Rule).

(** [Create]. *)
Definition Rules_Create (r : Rule) : M RuleTable (result Rule) :=
  _ <-? lift_r (Rule_Validate r) ;;
  out <-? tstatement (λ t,
      let r' := mkRule (tb_uuid t) (ru_InstanceID r) (ru_Kind r) (ru_Threshold r) (ru_Severity r)
                  (ru_Enabled r) (tb_now t) (tb_now t) in
      match tb_rows t !! ru_ID r' with
      | Some _ => Err uniqueViolation
      | None => Ok (r', <[ru_ID r' := r']> (tb_rows t))
      end)
    orelse (λ e, fail (Wrap KindInternal "alert rules: create" e)) ;;
  ok out.

(** [ORDER BY created_at DESC]. *)
Definition rule_newest (a b : Rule) : Prop := (ru_CreatedAt b ≤ ru_CreatedAt a)%Z.
#[export] Instance rule_newest_dec : RelDecision rule_newest.
Proof. intros a b. unfold rule_newest. apply _. Defined.

(** [List], [Get]. *)
Definition Rules_List : M RuleTable (result (list Rule)) :=
  l <-? tselect (λ rows, merge_sort rule_newest (map_to_list rows).*2)
    orelse (λ e, fail (Wrap KindInternal "alert rules: list" e)) ;; ok l.
Definition Rules_Get (id : string) : M RuleTable (result Rule) :=
  o <-? tselect (λ rows, rows !! id) orelse (λ e, fail (Wrap KindInternal "alert rules: get" e)) ;;
  match o with Some r => ok r | None => fail (New KindNotFound "alert rule not found") end.

(** A statement that changes the row [id] and counts the rows affected. *)
Definition affect (id : string) (f : Table string Rule → Rule → option Rule) : M RuleTable (result Z) :=
  tstatement (λ t, match tb_rows t !! id with
                   | None => Ok (0%Z, tb_rows t)
                   | Some r => Ok (1%Z, partial_alter (λ _, f t r) id (tb_rows t))
                   end).

(** [Update], [Delete]. *)
Definition Rules_Update (r : Rule) : M RuleTable (result unit) :=
  _ <-? lift_r (Rule_Validate r) ;;
  n <-? affect (ru_ID r) (λ t old, Some (mkRule (ru_ID old) (ru_InstanceID r) (ru_Kind r) (ru_Threshold r)
          (ru_Severity r) (ru_Enabled r) (ru_CreatedAt old) (tb_now t)))
    orelse (λ e, fail (Wrap KindInternal "alert rules: update" e)) ;;
  if bool_decide (n = 0)%Z then fail (New KindNotFound "alert rule not found") else done_ok.
Definition Rules_Delete (id : string) : M RuleTable (result unit) :=
  n <-? affect id (λ _ _, None) orelse (λ e, fail (Wrap KindInternal "alert rules: delete" e)) ;;
  if bool_decide (n = 0)%Z then fail (New KindNotFound "alert rule not found") else done_ok.

(** [ORDER BY (instance_id IS NULL) DESC, created_at ASC]. *)
Definition global_first (a b : Rule) : Prop :=
  match ru_InstanceID a, ru_InstanceID b with
  | None, Some _ => True
  | Some _, None => False
  | _, _ => (ru_CreatedAt a ≤ ru_CreatedAt b)%Z
  end.
#[export] Instance global_first_dec : RelDecision global_first.
Proof.
  intros a b. unfold global_first. destruct (ru_InstanceID a), (ru_InstanceID b); apply _.
Defined.

(** [ListEffective]. *)
Definition applies (instanceID : string) (r : Rule) : Prop :=
  ru_Enabled r = true ∧ (ru_InstanceID r = None ∨ ru_InstanceID r = Some instanceID).
#[export] Instance applies_dec instanceID r : Decision (applies instanceID r).
Proof. unfold applies. apply _. Defined.
Definition Rules_ListEffective (instanceID : string) : M RuleTable (result (list Rule)) :=
  l <-? tselect (λ rows, merge_sort global_first (filter (applies instanceID) (map_to_list rows).*2))
    orelse (λ e, fail (Wrap KindInternal "alert rules: list effective" e)) ;; ok l.

(** ** The alerts table: [store.go] *)

(** [Transition]; its field [State] is a copy of [To]. *)
Record Transition := mkTransition {
  tr_Kind : string;
  tr_InstanceID : string;
  tr_From : string;
  tr_To : string;
  tr_Severity : string;
  tr_Message : string;
  tr_Timestamp : Z;
}.

Notation AlertTable := (Table string Alert).

(** The firing alerts of an instance, and of one kind. *)
Definition is_firing (instanceID : string) (a : Alert) : Prop :=
  al_InstanceID a = instanceID ∧ al_State a = StateFiring.
#[export] Instance is_firing_dec instanceID a : Decision (is_firing instanceID a).
Proof. unfold is_firing. apply _. Defined.
Definition firing_rows (instanceID : string) (rows : gmap string Alert) : list Alert :=
  filter (is_firing instanceID) (map_to_list rows).*2.
Definition firing_of (instanceID kind : string) (rows : gmap string Alert) : list Alert :=
  filter (λ a, al_Kind a = kind) (firing_rows instanceID rows).

(** The upsert of [Sync], on the partial unique index of firing alerts. *)
Definition upsert_alert (now : Z) (instanceID : string) (f : Finding) : M AlertTable (result unit) :=
  tstatement (λ t,
    if negb (bool_decide (fi_Severity f ∈ [SeverityWarning; SeverityCritical])) then Err checkViolation else
    match firing_of instanceID (fi_Kind f) (tb_rows t) with
    | a :: _ =>
        Ok (tt, <[al_ID a := mkAlert (al_ID a) (al_InstanceID a) (al_Kind a) (fi_Severity f) (al_State a)
                               (fi_Message f) (Some (fi_Value f)) (Some (fi_Threshold f)) (al_FiredAt a)
                               (al_ResolvedAt a) now]> (tb_rows t))
    | [] =>
        let a := mkAlert (tb_uuid t) instanceID (fi_Kind f) (fi_Severity f) StateFiring (fi_Message f)
                   (Some (fi_Value f)) (Some (fi_Threshold f)) now None now in
        match tb_rows t !! al_ID a with
        | Some _ => Err uniqueViolation
        | None => Ok (tt, <[al_ID a := a]> (tb_rows t))
        end
    end).

(** The update of [Sync] that resolves a kind. *)
Definition resolve (now : Z) (instanceID kind : string) (a : Alert) : Alert :=
  if bool_decide (is_firing instanceID a ∧ al_Kind a = kind) then
    mkAlert (al_ID a) (al_InstanceID a) (al_Kind a) (al_Severity a) StateResolved (al_Message a)
      (al_Value a) (al_Threshold a) (al_FiredAt a) (Some now) now
  else a.
Definition resolve_alert (now : Z) (instanceID kind : string) : M AlertTable (result unit) :=
  tstatement (λ t, Ok (tt, resolve now instanceID kind <$> tb_rows t)).

(** The two loops of [Sync]: one finding, one stale alert. *)
Definition sync_finding (now : Z) (instanceID : string) (transitions : list Transition) (f : Finding) :
    M AlertTable (result (list Transition)) :=
  existed <-? tselect (λ rows, negb (bool_decide (firing_of instanceID (fi_Kind f) rows = [])))
    orelse (λ e, fail (Wrap KindInternal "alerts: sync exists" e)) ;;
  _ <-? upsert_alert now instanceID f
    orelse (λ e, fail (Wrap KindInternal "alerts: sync upsert" e)) ;;
  ok (if existed : bool then transitions
      else transitions ++ [mkTransition (fi_Kind f) instanceID "" StateFiring (fi_Severity f) (fi_Message f) now]).
Definition resolve_stale (now : Z) (instanceID : string) (transitions : list Transition) (a : Alert) :
    M AlertTable (result (list Transition)) :=
  _ <-? resolve_alert now instanceID (al_Kind a)
    orelse (λ e, fail (Wrap KindInternal "alerts: sync resolve" e)) ;;
  ok (transitions ++
      [mkTransition (al_Kind a) instanceID StateFiring StateResolved (al_Severity a) (al_Message a) now]).

(** [Sync], at the time [now]. *)
Definition Sync_body (now : Z) (instanceID : string) (findings : list Finding) :
    M AlertTable (result (list Transition)) :=
  transitions <-? for_each_e findings [] (sync_finding now instanceID) ;;
  let firingKinds := fi_Kind <$> findings in
  stale <-? tselect (λ rows, filter (λ a, al_Kind a ∉ firingKinds) (firing_rows instanceID rows))
    orelse (λ e, fail (Wrap KindInternal "alerts: sync list firing" e)) ;;
  for_each_e stale transitions (resolve_stale now instanceID).
Definition SyncAlerts (now : Z) (instanceID : string) (findings : list Finding) :
    M AlertTable (result (list Transition)) :=
  transaction (Wrap KindInternal "alerts: begin") (Wrap KindInternal "alerts: commit")
    (Sync_body now instanceID findings).

(** [ListActive], [ListForInstance]: newest first. *)
Definition alert_newest (a b : Alert) : Prop := (al_FiredAt b ≤ al_FiredAt a)%Z.
#[export] Instance alert_newest_dec : RelDecision alert_newest.
Proof. intros a b. unfold alert_newest. apply _. Defined.
Definition list_alerts (P : Alert → Prop) `{∀ a, Decision (P a)} : M AlertTable (result (list Alert)) :=
  l <-? tselect (λ rows, merge_sort alert_newest (filter P (map_to_list rows).*2))
    orelse (λ e, fail (Wrap KindInternal "alerts: list" e)) ;; ok l.
Definition ListActive : M AlertTable (result (list Alert)) := list_alerts (λ a, al_State a = StateFiring).
Definition ListForInstance (instanceID : string) : M AlertTable (result (list Alert)) :=
  list_alerts (λ a, al_InstanceID a = instanceID).

(** ** Notification: [notifier.go] *)

(** [blockedDialControl], on every address about to be dialled. *)
Definition blockedDialControl (address : string) : result unit :=
  match SplitHostPort address with
  | Err e => Err e
  | Ok (host, _) =>
      match ParseIP host with
      | None => Err (Errorf ("alerts: webhook host " +:+ Quote host +:+ " did not resolve to an IP"))
      | Some ip =>
          if IsLinkLocalUnicast ip || IsLinkLocalMulticast ip || isMetadataIP ip then
            Err (Errorf ("alerts: webhook target " +:+ IP_String ip +:+ " is a blocked link-local/metadata address"))
          else Ok tt
      end
  end.

(** The wire form of a transition: kind, instance, state, message, severity,
    time. *)
Notation notifyTransition := (string * string * string * string * string * Z)%type.

(** [Notify], given what posting the payload to the URL returns: a status or an
    error of the client. *)
Definition Notify {S} (url : string) (post : list notifyTransition → M S (result Z))
    (transitions : list Transition) : M S (result unit) :=
  if bool_decide (url = "") || bool_decide (length transitions = 0) then done_ok else
  status <-? post ((λ t, (tr_Kind t, tr_InstanceID t, tr_To t, tr_Message t, tr_Severity t, tr_Timestamp t))
                     <$> transitions)
    orelse (λ e, fail (Wrap KindInternal "alerts: post notification" e)) ;;
  if bool_decide (status < 200)%Z || bool_decide (300 ≤ status)%Z then
    fail (New KindInternal ("alerts: notification webhook returned " +:+ itoa status))
  else done_ok.
