(* ===== verification/AlertsFacts.v ===== *)
(** * What alerting guarantees

    [Sync] makes the firing alerts of an instance those of its findings and
    reports exactly the changes, and a rule for one instance beats a rule for
    all of them. *)

From Stdlib Require Import Ascii Floats.SpecFloat.
From stdpp Require Import gmap strings sorting.
From S2P Require Import Prelude GoStrings Apperr GoMonad MetaDB Tables Alerts.

(** ** The firing kinds of an instance *)

Notation Rows := (gmap string Alert).

Definition fires (instanceID kind : string) (rows : Rows) : Prop :=
  ∃ id a, rows !! id = Some a ∧ is_firing instanceID a ∧ al_Kind a = kind.

(** Rows under their id, and at most one firing alert per instance and kind: what
    the primary key and [alerts_active_idx] keep. *)
Definition alerts_wf (rows : Rows) : Prop :=
  (∀ id a, rows !! id = Some a → al_ID a = id) ∧
  ∀ id1 id2 a1 a2, rows !! id1 = Some a1 → rows !! id2 = Some a2 →
    al_State a1 = StateFiring → al_State a2 = StateFiring →
    al_InstanceID a1 = al_InstanceID a2 → al_Kind a1 = al_Kind a2 → id1 = id2.

(** Only firing alerts of the instance change, or new ones of it appear. *)
Definition only_firing_of (instanceID : string) (before after : Rows) : Prop :=
  (∀ id a, before !! id = Some a → ¬ is_firing instanceID a → after !! id = Some a) ∧
  (∀ id a, after !! id = Some a → al_InstanceID a ≠ instanceID → before !! id = Some a).

Lemma elem_of_firing_rows instanceID rows a :
  a ∈ firing_rows instanceID rows ↔ is_firing instanceID a ∧ ∃ id, rows !! id = Some a.
Proof.
  unfold firing_rows. rewrite list_elem_of_filter, list_elem_of_fmap. f_equiv. split.
  - intros [[id a'] [-> H%elem_of_map_to_list]]. by exists id.
  - intros [id H]. exists (id, a). by rewrite elem_of_map_to_list.
Qed.

Lemma elem_of_firing_of instanceID kind rows a :
  a ∈ firing_of instanceID kind rows ↔
  al_Kind a = kind ∧ is_firing instanceID a ∧ ∃ id, rows !! id = Some a.
Proof. unfold firing_of. by rewrite list_elem_of_filter, elem_of_firing_rows. Qed.

Lemma fires_firing_of instanceID kind rows :
  fires instanceID kind rows ↔ firing_of instanceID kind rows ≠ [].
Proof.
  split.
  - intros (id & a & Hr & Hf & Hk) E. apply (elem_of_nil a). rewrite <- E. apply elem_of_firing_of. eauto.
  - destruct (firing_of _ _ _) as [|a l] eqn:E; [done|]. intros _.
    assert (Ha : a ∈ firing_of instanceID kind rows) by (rewrite E; left).
    apply elem_of_firing_of in Ha as (Hk & Hf & id & Hr). by exists id, a.
Qed.

Lemma NoDup_firing_rows instanceID rows :
  alerts_wf rows → NoDup (al_Kind <$> firing_rows instanceID rows).
Proof.
  intros [Hid Hone].
  assert (Hnd : NoDup (firing_rows instanceID rows)).
  { apply NoDup_filter. apply NoDup_fmap_2_strong; [|apply NoDup_map_to_list].
    intros [i1 a1] [i2 a2] H1%elem_of_map_to_list H2%elem_of_map_to_list [= E]. cbn in E. subst a2.
    apply Hid in H1, H2. congruence. }
  apply NoDup_fmap_2_strong; [|done].
  intros a1 a2 ([Hi1 Hs1] & id1 & H1)%elem_of_firing_rows ([Hi2 Hs2] & id2 & H2)%elem_of_firing_rows Hk.
  assert (id1 = id2) as -> by (eapply Hone; eauto; congruence). congruence.
Qed.

(** ** The two statements *)

(** A firing alert for [kind] was inserted or refreshed. *)
Lemma wp_upsert now inst f (t : AlertTable) (Q : result unit → AlertTable → Prop) :
  alerts_wf (tb_rows t) →
  (∀ e t', tb_rows t' = tb_rows t → Q (Err e) t') →
  (∀ t', alerts_wf (tb_rows t') → only_firing_of inst (tb_rows t) (tb_rows t') →
     (∀ k, fires inst k (tb_rows t') ↔ k = fi_Kind f ∨ fires inst k (tb_rows t)) → Q (Ok tt) t') →
  wp (upsert_alert now inst f) Q t.
Proof.
  intros [Hid Hone] He Ho. apply wp_tstatement; [done|]. intros [] rows t' t'' Ht.
  destruct (negb _); [done|]. rewrite Ht.
  destruct (firing_of inst (fi_Kind f) (tb_rows t)) as [|a l] eqn:Ef.
  - cbn [al_ID]. destruct (tb_rows t !! tb_uuid t') eqn:Hl; [done|]. intros [= <-] Ht''.
    assert (Hno : ∀ id a, tb_rows t !! id = Some a → is_firing inst a → al_Kind a ≠ fi_Kind f).
    { intros id a Ha Hf Hk. assert (Hin : fires inst (fi_Kind f) (tb_rows t)) by by exists id, a.
      by apply fires_firing_of in Hin. }
    apply Ho; rewrite Ht''.
    + split.
      * intros id a [[<- <-]|[_ Ha]]%lookup_insert_Some; [done|by apply Hid].
      * intros id1 id2 a1 a2 [[<- <-]|[? H1]]%lookup_insert_Some [[<- <-]|[? H2]]%lookup_insert_Some
          Hs1 Hs2 Hi Hk; cbn in *; [done| | |by eapply Hone].
        -- exfalso. by eapply (Hno id2 a2).
        -- exfalso. by eapply (Hno id1 a1).
    + split.
      * intros id a Ha _. rewrite lookup_insert_ne; [done|]. congruence.
      * intros id a [[<- <-]|[_ Ha]]%lookup_insert_Some Hne; [done|done].
    + intros k. split.
      * intros (id & a & [[<- <-]|[_ Ha]]%lookup_insert_Some & Hf & Hk); [by left|right; by exists id, a].
      * intros [->|(id & a & Ha & Hf & Hk)].
        -- eexists _, _. split_and!; [by rewrite lookup_insert_eq|done|done].
        -- exists id, a. split_and!; [|done|done]. rewrite lookup_insert_ne; [done|]. congruence.
  - intros [= <-] Ht''.
    assert (Hin : a ∈ firing_of inst (fi_Kind f) (tb_rows t)) by (rewrite Ef; left).
    apply elem_of_firing_of in Hin as (Hk & [Hi Hs] & id & Ha). pose proof (Hid _ _ Ha) as <-.
    apply Ho; rewrite Ht''.
    + split.
      * intros id0 a0 [[<- <-]|[_ Ha0]]%lookup_insert_Some; [done|by apply Hid].
      * intros id1 id2 a1 a2 [[<- <-]|[? H1]]%lookup_insert_Some [[<- <-]|[? H2]]%lookup_insert_Some
          Hs1 Hs2 Hi' Hk'; cbn in *; [done| | |by eapply Hone].
        -- eapply (Hone (al_ID a) id2 a a2); eauto.
        -- eapply (Hone id1 (al_ID a) a1 a); eauto.
    + split.
      * intros id0 a0 Ha0 Hnf. rewrite lookup_insert_ne; [done|]. intros <-. apply Hnf.
        rewrite Ha in Ha0. by injection Ha0 as <-.
      * intros id0 a0 [[<- <-]|[_ Ha0]]%lookup_insert_Some Hne; [done|done].
    + intros k. split.
      * intros (id0 & a0 & [[<- <-]|[_ Ha0]]%lookup_insert_Some & Hf & Hk0);
          [left; cbn in Hk0; congruence|right; by exists id0, a0].
      * intros [->|(id0 & a0 & Ha0 & Hf & Hk0)].
        -- eexists _, _. split_and!; [by rewrite lookup_insert_eq|done|done].
        -- destruct (decide (id0 = al_ID a)) as [->|Hne].
           ++ eexists _, _. split_and!; [by rewrite lookup_insert_eq|done|]. cbn. congruence.
           ++ exists id0, a0. split_and!; [|done|done]. by rewrite lookup_insert_ne.
Qed.

(** The firing alerts of [kind] were resolved. *)
Lemma wp_resolve now inst kind (t : AlertTable) (Q : result unit → AlertTable → Prop) :
  alerts_wf (tb_rows t) →
  (∀ e t', tb_rows t' = tb_rows t → Q (Err e) t') →
  (∀ t', alerts_wf (tb_rows t') → only_firing_of inst (tb_rows t) (tb_rows t') →
     (∀ k, fires inst k (tb_rows t') ↔ k ≠ kind ∧ fires inst k (tb_rows t)) → Q (Ok tt) t') →
  wp (resolve_alert now inst kind) Q t.
Proof.
  intros [Hid Hone] He Ho. apply wp_tstatement; [done|]. intros [] rows t' t'' Ht [= <-] Ht''.
  rewrite Ht in Ht''.
  assert (Hres : ∀ a, (is_firing inst a ∧ al_Kind a = kind ∧ al_State (resolve now inst kind a) = StateResolved) ∨
                      (¬ (is_firing inst a ∧ al_Kind a = kind) ∧ resolve now inst kind a = a)).
  { intros a. unfold resolve. case_bool_decide as Hf; [left; by destruct Hf|by right]. }
  assert (Hsame : ∀ a, al_ID (resolve now inst kind a) = al_ID a ∧
    al_InstanceID (resolve now inst kind a) = al_InstanceID a ∧ al_Kind (resolve now inst kind a) = al_Kind a).
  { intros a. unfold resolve. by case_bool_decide. }
  assert (Hlook : ∀ id a', tb_rows t'' !! id = Some a' ↔ ∃ a, tb_rows t !! id = Some a ∧ a' = resolve now inst kind a).
  { intros id a'. rewrite Ht'', lookup_fmap, fmap_Some. naive_solver. }
  apply Ho.
  - split.
    + intros id a' (a & Ha & ->)%Hlook. destruct (Hsame a) as (-> & _). by apply Hid.
    + intros id1 id2 a1' a2' (a1 & H1 & ->)%Hlook (a2 & H2 & ->)%Hlook Hs1 Hs2.
      destruct (Hsame a1) as (_ & -> & ->), (Hsame a2) as (_ & -> & ->). intros Hi Hk.
      destruct (Hres a1) as [(_ & _ & Hr)|[_ Hr1]]; [by rewrite Hr in Hs1|].
      destruct (Hres a2) as [(_ & _ & Hr)|[_ Hr2]]; [by rewrite Hr in Hs2|].
      rewrite Hr1 in Hs1. rewrite Hr2 in Hs2. by eapply Hone.
  - split.
    + intros id a Ha Hnf. apply Hlook. exists a. split; [done|].
      destruct (Hres a) as [(Hf & _)|[_ ->]]; [done|done].
    + intros id a' (a & Ha & ->)%Hlook Hne. destruct (Hres a) as [([Hi _] & _)|[_ ->]]; [|done].
      by destruct (Hsame a) as (_ & Hi' & _); rewrite Hi' in Hne.
  - intros k. split.
    + intros (id & a' & (a & Ha & ->)%Hlook & [Hi Hs] & Hk).
      destruct (Hres a) as [(_ & _ & Hr)|[Hn Hr]]; [by rewrite Hr in Hs|]. rewrite Hr in Hi, Hs, Hk.
      split; [|by exists id, a]. intros ->. by apply Hn.
    + intros (Hne & id & a & Ha & Hf & Hk). exists id, a. split_and!; [|done|done].
      apply Hlook. exists a. split; [done|]. destruct (Hres a) as [(_ & Hk' & _)|[_ ->]]; [congruence|done].
Qed.

(** ** The loops of [Sync] *)

Lemma only_firing_refl inst rows : only_firing_of inst rows rows.
Proof. by split. Qed.

Lemma only_firing_trans inst r1 r2 r3 :
  only_firing_of inst r1 r2 → only_firing_of inst r2 r3 → only_firing_of inst r1 r3.
Proof. intros [H1 H2] [H3 H4]. split; eauto. Qed.

(** The findings [done] were written, starting from the rows [before]. *)
Record raised (inst : string) (before : Rows) (done : list Finding) (ts : list Transition) (rows : Rows) : Prop := {
  ra_wf : alerts_wf rows;
  ra_only : only_firing_of inst before rows;
  ra_fires k : fires inst k rows ↔ k ∈ fi_Kind <$> done ∨ fires inst k before;
  ra_nodup : NoDup (tr_Kind <$> ts);
  ra_kinds k : k ∈ tr_Kind <$> ts ↔ k ∈ fi_Kind <$> done ∧ ¬ fires inst k before;
  ra_all : Forall (λ tr, tr_InstanceID tr = inst ∧ tr_From tr = "" ∧ tr_To tr = StateFiring) ts;
}.

Lemma wp_sync_finding now inst before fs done ts (t : AlertTable) f (Q : result (list Transition) → AlertTable → Prop) :
  raised inst before done ts (tb_rows t) →
  (∀ e t', Q (Err e) t') →
  (∀ ts' t', raised inst before (done ++ [f]) ts' (tb_rows t') → Q (Ok ts') t') →
  fs = done ++ [f] →
  wp (sync_finding now inst ts f) Q t.
Proof.
  intros [Hwf Honly Hf Hnd Hk Hall] He Ho ->.
  unfold sync_finding. apply wp_try_or, wp_tselect; [intros e t' _; apply wp_ret, He|].
  intros t1 Ht1. apply wp_try_or. apply wp_upsert; [by rewrite Ht1|intros e t' _; apply wp_ret, He|].
  intros t2 Hwf2 Honly2 Hf2. apply wp_ret, Ho. rewrite Ht1 in Honly2, Hf2.
  assert (Hfires : ∀ k, fires inst k (tb_rows t2) ↔ k ∈ fi_Kind <$> done ++ [f] ∨ fires inst k before).
  { intros k. rewrite Hf2, Hf, fmap_app, elem_of_app. cbn. rewrite list_elem_of_singleton. tauto. }
  case_bool_decide as Hex; cbn [negb].
  - (* nothing was firing *)
    assert (Hnew : ¬ fires inst (fi_Kind f) (tb_rows t)) by (by rewrite fires_firing_of, Hex; intros []).
    assert (Hnot : fi_Kind f ∉ tr_Kind <$> ts) by (rewrite Hk; intros [Hd _]; apply Hnew, Hf; by left).
    split; [done|by eapply only_firing_trans|done| | |].
    + rewrite fmap_app. by apply NoDup_snoc.
    + intros k. rewrite !fmap_app, !elem_of_app, Hk. cbn. rewrite !list_elem_of_singleton.
      split; [|tauto]. intros [?| ->]; [tauto|]. split; [by right|]. intros Hb. apply Hnew, Hf. by right.
    + apply Forall_app_2; [done|by constructor].
  - assert (Hold : fires inst (fi_Kind f) (tb_rows t)) by by apply fires_firing_of.
    apply Hf in Hold. split; [done|by eapply only_firing_trans|done|done| |done].
    intros k. rewrite Hk, fmap_app, elem_of_app. cbn. rewrite list_elem_of_singleton.
    split; [tauto|]. intros [[?| ->] ?]; [tauto|]. destruct Hold; [tauto|done].
Qed.

Lemma wp_raise now inst before fs (t : AlertTable) (Q : result (list Transition) → AlertTable → Prop) :
  alerts_wf before → tb_rows t = before →
  (∀ e t', Q (Err e) t') →
  (∀ ts t', raised inst before fs ts (tb_rows t') → Q (Ok ts) t') →
  wp (for_each_e fs [] (sync_finding now inst)) Q t.
Proof.
  intros Hwf Ht He Ho.
  assert (Hloop : ∀ xs done ts (t : AlertTable), raised inst before done ts (tb_rows t) → fs = done ++ xs →
    wp (for_each_e xs ts (sync_finding now inst)) Q t).
  { intros xs. induction xs as [|f xs IH]; intros done ts t1 Hr ->.
    - rewrite app_nil_r in Ho. by apply wp_ret, Ho.
    - apply wp_try. eapply wp_sync_finding; [exact Hr|done| |done].
      intros ts' t' Hr'. apply (IH (done ++ [f])); [done|]. by rewrite <- app_assoc. }
  apply (Hloop fs [] []); [|done]. rewrite Ht. split; [done|apply only_firing_refl| |constructor| |constructor].
  - intros k. rewrite elem_of_nil. tauto.
  - intros k. cbn. rewrite elem_of_nil. tauto.
Qed.

Definition resolution (now : Z) (inst : string) (a : Alert) : Transition :=
  mkTransition (al_Kind a) inst StateFiring StateResolved (al_Severity a) (al_Message a) now.

Lemma wp_resolve_all now inst rows1 stale ts (t : AlertTable) (Q : result (list Transition) → AlertTable → Prop) :
  alerts_wf rows1 → tb_rows t = rows1 →
  (∀ e t', Q (Err e) t') →
  (∀ t', alerts_wf (tb_rows t') → only_firing_of inst rows1 (tb_rows t') →
     (∀ k, fires inst k (tb_rows t') ↔ fires inst k rows1 ∧ k ∉ al_Kind <$> stale) →
     Q (Ok (ts ++ (resolution now inst <$> stale))) t') →
  wp (for_each_e stale ts (resolve_stale now inst)) Q t.
Proof.
  intros Hwf Ht He. revert rows1 ts t Hwf Ht. induction stale as [|a stale IH]; intros rows1 ts t Hwf Ht Ho.
  - rewrite app_nil_r in Ho. apply wp_ret, Ho; rewrite Ht; [done|apply only_firing_refl|].
    intros k. cbn. rewrite elem_of_nil. tauto.
  - apply wp_try, wp_try_or. apply wp_resolve; [by rewrite Ht|intros e t' _; apply wp_ret, He|].
    intros t1 Hwf1 Honly1 Hf1. apply wp_ret. apply (IH (tb_rows t1)); [done|done|].
    intros t2 Hwf2 Honly2 Hf2. rewrite <- app_assoc. rewrite Ht in Honly1, Hf1.
    apply Ho; [done|by eapply only_firing_trans|].
    intros k. rewrite Hf2, Hf1, fmap_cons, elem_of_cons. tauto.
Qed.

(** ** The theorem *)

Definition reports (ts : list Transition) (kind from to : string) : Prop :=
  ∃ tr, tr ∈ ts ∧ tr_Kind tr = kind ∧ tr_From tr = from ∧ tr_To tr = to.

(** What a successful [Sync] leaves, of the rows before it. *)
Definition synced (inst : string) (findings : list Finding) (before : Rows) (ts : list Transition) (after : Rows) : Prop :=
  alerts_wf after ∧ only_firing_of inst before after ∧
  (∀ k, fires inst k after ↔ k ∈ fi_Kind <$> findings) ∧
  NoDup (tr_Kind <$> ts) ∧ Forall (λ tr, tr_InstanceID tr = inst) ts ∧
  (∀ k, reports ts k "" StateFiring ↔ k ∈ fi_Kind <$> findings ∧ ¬ fires inst k before) ∧
  (∀ k, reports ts k StateFiring StateResolved ↔ k ∉ fi_Kind <$> findings ∧ fires inst k before).

Lemma wp_SyncAlerts now inst findings (Q : result (list Transition) → AlertTable → Prop) (t : AlertTable) :
  alerts_wf (tb_rows t) →
  (∀ e t', tb_rows t' = tb_rows t → Q (Err e) t') →
  (∀ ts t', synced inst findings (tb_rows t) ts (tb_rows t') → Q (Ok ts) t') →
  wp (SyncAlerts now inst findings) Q t.
Proof.
  intros Hwf HErr HOk. apply wp_transaction; [done|]. intros t1 Ht1. unfold Sync_body.
  apply wp_try. eapply (wp_raise now inst (tb_rows t)); [done|done|done|].
  intros ts1 t2 [Hwf2 Honly2 Hf2 Hnd Hk Hall]. apply wp_try_or, wp_tselect; [intros e t' _; by apply wp_ret|].
  intros t3 Ht3. remember (filter _ _) as stale eqn:Hstale.
  assert (HS : ∀ k, k ∈ al_Kind <$> stale ↔ k ∉ fi_Kind <$> findings ∧ fires inst k (tb_rows t)).
  { intros k. rewrite list_elem_of_fmap. subst stale. split.
    - intros (a & -> & [Hn (Hfa & id & Ha)%elem_of_firing_rows]%list_elem_of_filter). split; [done|].
      destruct (proj1 (Hf2 (al_Kind a))) as [Hin|Hb]; [by exists id, a|done|done].
    - intros [Hn Hb]. destruct (proj2 (Hf2 k) (or_intror Hb)) as (id & a & Ha & Hfa & <-).
      exists a. split; [done|]. apply list_elem_of_filter. split; [done|]. apply elem_of_firing_rows. eauto. }
  assert (HSnd : NoDup (al_Kind <$> stale)).
  { subst stale. eapply sublist_NoDup; [by apply NoDup_firing_rows|apply fmap_sublist, sublist_filter]. }
  apply (wp_resolve_all now inst (tb_rows t2)); [done|done|done|].
  intros t4 Hwf4 Honly4 Hf4 t5 Ht5. apply HOk. rewrite Ht5.
  assert (Hmk : tr_Kind <$> (resolution now inst <$> stale) = al_Kind <$> stale)
    by by rewrite <- list_fmap_compose.
  split_and!; [done|by eapply only_firing_trans| | | | |].
  - intros k. rewrite Hf4, Hf2, HS. destruct (decide (k ∈ fi_Kind <$> findings)); tauto.
  - rewrite fmap_app, Hmk. apply NoDup_app. split_and!; [done| |done].
    intros k [Hin _]%Hk [Hn _]%HS. done.
  - apply Forall_app_2; [eapply Forall_impl; [exact Hall|]; naive_solver|by apply Forall_fmap, Forall_true].
  - intros k. rewrite <- Hk, list_elem_of_fmap. split.
    + intros (tr & [Htr|(a & -> & _)%list_elem_of_fmap]%elem_of_app & Hkd & Hfr & Hto); [by exists tr|done].
    + intros (tr & -> & Htr). exists tr. pose proof (proj1 (Forall_forall _ _) Hall tr Htr) as (_ & ? & ?).
      split_and!; [apply elem_of_app; by left|done..].
  - intros k. rewrite <- HS, <- Hmk, list_elem_of_fmap. split.
    + intros (tr & [Htr|Htr]%elem_of_app & Hkd & Hfr & Hto); [|by exists tr].
      pose proof (proj1 (Forall_forall _ _) Hall tr Htr) as (_ & Hfr' & _). by rewrite Hfr in Hfr'.
    + intros (tr & -> & Htr). exists tr. split; [apply elem_of_app; by right|].
      by apply list_elem_of_fmap in Htr as (a & -> & _).
Qed.

(** C10: on success [Sync] leaves, for the instance, exactly the
    kinds of the findings firing, each as one alert; it reports a transition to
    firing for exactly the kinds that were not firing before, one to resolved for
    exactly the kinds that no longer are, at most one transition per kind, and
    nothing for what did not change.  Resolved alerts and the alerts of other
    instances are not touched, and when anything fails the table is as before. *)
Theorem alerts_transitions now inst findings (t : AlertTable) :
  alerts_wf (tb_rows t) →
  wp (SyncAlerts now inst findings) (λ r t',
    match r with
    | Err _ => tb_rows t' = tb_rows t
    | Ok ts =>
        alerts_wf (tb_rows t') ∧ only_firing_of inst (tb_rows t) (tb_rows t') ∧
        (∀ k, fires inst k (tb_rows t') ↔ k ∈ fi_Kind <$> findings) ∧
        NoDup (tr_Kind <$> ts) ∧ Forall (λ tr, tr_InstanceID tr = inst) ts ∧
        (∀ k, reports ts k "" StateFiring ↔ k ∈ fi_Kind <$> findings ∧ ¬ fires inst k (tb_rows t)) ∧
        (∀ k, reports ts k StateFiring StateResolved ↔ k ∉ fi_Kind <$> findings ∧ fires inst k (tb_rows t))
    end) t.
Proof.
  intros Hwf. apply wp_SyncAlerts; [done|done|]. intros ts t' H. exact H.
Qed.

(** An alert for a full disk is firing; the backup has become stale, and the disk
    has recovered. *)
Definition sample_alert : Alert :=
  mkAlert "a1" "i1" KindDiskFull SeverityWarning StateFiring "disk free" None None 5 None 5.
Definition sample_alerts : AlertTable :=
  mkTable (mkEnv (λ _, None) (λ n, "id-" +:+ itoa n) (λ n, n)) 0 {["a1" := sample_alert]}.
Definition sample_findings : list Finding :=
  Evaluate (mkSnapshot "i1" (Some (float_const 50)) None (Some (float_const 100000)) None) DefaultThresholds.

Lemma sample_alerts_wf : alerts_wf (tb_rows sample_alerts).
Proof.
  unfold sample_alerts. cbn [tb_rows]. split.
  - intros id a [<- <-]%lookup_singleton_Some. done.
  - intros id1 id2 a1 a2 [<- _]%lookup_singleton_Some [<- _]%lookup_singleton_Some. done.
Qed.

Lemma alerts_transitions_witness :
  (SyncAlerts 7 "i1" sample_findings sample_alerts).1 =
    Ok [mkTransition KindBackupStale "i1" "" StateFiring SeverityWarning "last backup 100000s old exceeds 90000s" 7;
        mkTransition KindDiskFull "i1" StateFiring StateResolved SeverityWarning "disk free" 7] ∧
  ∀ ts t', SyncAlerts 7 "i1" sample_findings sample_alerts = (Ok ts, t') → NoDup (tr_Kind <$> ts).
Proof.
  split; [vm_compute; reflexivity|]. intros ts t' E.
  pose proof (alerts_transitions 7 "i1" sample_findings sample_alerts sample_alerts_wf) as H.
  unfold wp in H. rewrite E in H. exact (proj1 (proj2 (proj2 (proj2 H)))).
Defined.

(** ** Rules *)

Definition threshold_of (kind : string) (th : Thresholds) : float :=
  if bool_decide (kind = KindDiskFull) then th_MinDiskFreePercent th
  else if bool_decide (kind = KindReplicationLag) then th_MaxReplicationLagSeconds th
  else if bool_decide (kind = KindBackupStale) then th_MaxBackupAgeSeconds th
  else th_MaxConnectionUtilizationPercent th.

#[export] Instance global_first_total : Total global_first.
Proof. intros a b. unfold global_first. destruct (ru_InstanceID a), (ru_InstanceID b); try tauto; lia. Qed.
#[export] Instance global_first_trans : Transitive global_first.
Proof.
  intros a b c. unfold global_first.
  destruct (ru_InstanceID a), (ru_InstanceID b), (ru_InstanceID c); try tauto; lia.
Qed.

(** The rule that decides a kind is the last enabled one of the list. *)
Lemma EffectiveThresholds_last defaults rules kind :
  kind ∈ knownKinds →
  threshold_of kind (EffectiveThresholds defaults rules) =
  match last (filter (λ r, ru_Enabled r = true ∧ ru_Kind r = kind) rules) with
  | Some r => ru_Threshold r
  | None => threshold_of kind defaults
  end.
Proof.
  intros Hkind. unfold EffectiveThresholds.
  induction rules as [|r rules IH] using rev_ind; [done|].
  rewrite foldl_snoc, filter_app, filter_cons, filter_nil. unfold override at 1.
  destruct (decide (ru_Enabled r = true ∧ ru_Kind r = kind)) as [[He Hk]|Hn].
  - rewrite last_snoc, He. cbn [negb]. rewrite Hk. unfold knownKinds in Hkind.
    rewrite !elem_of_cons, elem_of_nil in Hkind. by destruct Hkind as [->|[->|[->|[->|[]]]]].
  - rewrite app_nil_r, <- IH. destruct (ru_Enabled r) eqn:He; [|done]. cbn [negb].
    assert (Hk : ru_Kind r ≠ kind) by (by intros Hk; apply Hn). clear IH Hn.
    unfold knownKinds in Hkind. rewrite !elem_of_cons, elem_of_nil in Hkind.
    repeat (case_bool_decide as E; [rewrite E in Hk|clear E]);
      destruct Hkind as [->|[->|[->|[->|[]]]]]; done.
Qed.

Lemma StronglySorted_filter {A} (R : A → A → Prop) (P : A → Prop) `{∀ x, Decision (P x)} l :
  StronglySorted R l → StronglySorted R (filter P l).
Proof.
  induction 1 as [|a l Hl IH Ha]; [constructor|]. rewrite filter_cons. case_decide; [|done].
  constructor; [done|]. rewrite Forall_forall in Ha |- *. intros x [_ Hx]%list_elem_of_filter. by apply Ha.
Qed.

Lemma last_StronglySorted {A} (R : A → A → Prop) l x :
  StronglySorted R l → last l = Some x → ∀ y, y ∈ l → y = x ∨ R y x.
Proof.
  induction 1 as [|a l Hl IH Ha]; [done|]. intros Hx y Hy.
  destruct l as [|b l]; [left; cbn in Hx; set_solver|].
  assert (Hx' : last (b :: l) = Some x) by done. apply elem_of_cons in Hy as [->|Hy]; [|by apply IH].
  right. rewrite Forall_forall in Ha. apply Ha. by eapply last_Some_elem_of.
Qed.

(** With the thresholds [EffectiveThresholds] makes of what
    [ListEffective] returns for an instance, a kind no enabled rule applies to
    keeps its default; otherwise its threshold is that of an enabled rule for
    this kind, and that rule is scoped to the instance if any such rule is, and is
    the newest of its scope.  Rules of other instances, disabled rules and rules
    of other kinds have no say. *)
Theorem effective_rule inst defaults kind (t : RuleTable) :
  kind ∈ knownKinds →
  wp (Rules_ListEffective inst) (λ r t', tb_rows t' = tb_rows t ∧
    match r with
    | Err e => Kind e = KindInternal
    | Ok rules =>
        let candidate r := applies inst r ∧ ru_Kind r = kind ∧ ∃ id, tb_rows t !! id = Some r in
        let th := threshold_of kind (EffectiveThresholds defaults rules) in
        ((∀ r, ¬ candidate r) ∧ th = threshold_of kind defaults) ∨
        ∃ r, candidate r ∧ th = ru_Threshold r ∧ ∀ r', candidate r' → r' = r ∨ global_first r' r
    end) t.
Proof.
  intros Hkind. unfold Rules_ListEffective. apply wp_try_or, wp_tselect.
  { intros e t' Ht. apply wp_ret. by split. }
  intros t' Ht. apply wp_ret. split; [done|]. cbn zeta. rewrite EffectiveThresholds_last by done.
  remember (merge_sort _ _) as rules eqn:Hrules.
  assert (Hel : ∀ r, r ∈ filter (λ r, ru_Enabled r = true ∧ ru_Kind r = kind) rules ↔
    applies inst r ∧ ru_Kind r = kind ∧ ∃ id, tb_rows t !! id = Some r).
  { intros r. rewrite list_elem_of_filter. subst rules. rewrite merge_sort_Permutation, list_elem_of_filter.
    assert (Hmap : r ∈ (map_to_list (tb_rows t)).*2 ↔ ∃ id, tb_rows t !! id = Some r).
    { rewrite list_elem_of_fmap. split; [intros [[id r'] [-> H%elem_of_map_to_list]]; by exists id|].
      intros [id H]. exists (id, r). by rewrite elem_of_map_to_list. }
    rewrite Hmap. unfold applies. tauto. }
  assert (Hsort : StronglySorted global_first (filter (λ r, ru_Enabled r = true ∧ ru_Kind r = kind) rules)).
  { apply StronglySorted_filter. subst rules. apply (StronglySorted_merge_sort _). }
  destruct (last _) as [r|] eqn:Hlast.
  - right. exists r. split; [apply Hel; eapply last_Some_elem_of; exact Hlast|]. split; [done|].
    intros r' Hr'. eapply last_StronglySorted; [exact Hsort|exact Hlast|by apply Hel].
  - left. split; [|done]. apply last_None in Hlast. intros r Hr%Hel. rewrite Hlast in Hr. by apply elem_of_nil in Hr.
Qed.

(** A rule for all instances and one for this instance, made earlier. *)
Definition sample_rules : RuleTable :=
  mkTable (mkEnv (λ _, None) (λ n, "id-" +:+ itoa n) (λ n, n)) 0 (list_to_map
    [("r1", mkRule "r1" None KindReplicationLag (float_const 60) SeverityWarning true 9 9);
     ("r2", mkRule "r2" (Some "i1") KindReplicationLag (float_const 30) SeverityWarning true 1 1)]).

Lemma effective_rule_witness :
  ∃ rules t', Rules_ListEffective "i1" sample_rules = (Ok rules, t') ∧
    threshold_of KindReplicationLag (EffectiveThresholds DefaultThresholds rules) = float_const 30 ∧
    tb_rows t' = tb_rows sample_rules.
Proof.
  eexists _, _. split; [vm_compute; reflexivity|]. split; [vm_compute; reflexivity|].
  exact (proj1 (effective_rule "i1" DefaultThresholds KindReplicationLag sample_rules
    (bool_decide_unpack (KindReplicationLag ∈ knownKinds) I))).
Defined.
