(* ===== verification/Timescale.v ===== *)
(** * TimescaleDB management: [internal/timescale]

    The statements that manage hypertables, policies and aggregates are built by
    concatenation; what keeps them from being anything else is the validation of
    every name put into them.  [statements_fixed] says what that validation
    buys. *)

From Stdlib Require Import Ascii.
From stdpp Require Import strings.
From S2P Require Import Prelude GoStrings Apperr GoMonad.

(** ** Validation: [validate.go] *)

Definition maxIdentLen : Z := 63.

Definition ident_letter (c : ascii) : bool := is_letter c || ascii_eqb c "_"%char.
Definition ident_char (c : ascii) : bool := ident_letter c || is_digit c.

(** [ValidateIdent]. *)
Definition ValidateIdent (name : string) : result unit :=
  match name with
  | EmptyString => Err (New KindInvalid "timescale: empty identifier")
  | String c s =>
      if bool_decide (maxIdentLen < len name)%Z then
        Err (New KindInvalid ("timescale: identifier too long (max 63): " +:+ name))
      else if negb (ident_letter c) || negb (str_forallb ident_char s) then
        Err (New KindInvalid ("timescale: invalid identifier: " +:+ name))
      else Ok tt
  end.

(** [ValidateQualifiedName]. *)
Definition ValidateQualifiedName (name : string) : result unit :=
  let parts := SplitChar "." name in
  if bool_decide (2 < length parts) then
    Err (New KindInvalid ("timescale: invalid qualified name: " +:+ name))
  else if negb (forallb (λ p, is_ok (ValidateIdent p)) parts) then
    Err (New KindInvalid ("timescale: invalid qualified name: " +:+ name))
  else Ok tt.

(** [ValidateIdentList]. *)
Definition ValidateIdentList (columns : string) : result unit :=
  let parts := SplitChar "," columns in
  if negb (forallb (λ p, is_ok (ValidateIdent (TrimSpace p))) parts) then
    Err (New KindInvalid ("timescale: invalid column list: " +:+ columns))
  else Ok tt.

Definition interval_char (c : ascii) : bool := is_letter c || is_digit c || ascii_eqb c " "%char.

(** [ValidateInterval]. *)
Definition ValidateInterval (iv : string) : result unit :=
  let trimmed := TrimSpace iv in
  if bool_decide (trimmed = "") then Err (New KindInvalid "timescale: empty interval")
  else if negb (str_forallb interval_char iv) then
    Err (New KindInvalid ("timescale: invalid interval: " +:+ iv))
  else Ok tt.

(** ** Statements: [sql.go] *)

Definition andThen {A} (v : result unit) (k : result A) : result A := rbind v (λ _, k).

(** [CreateHypertableSQL]. *)
Definition CreateHypertableSQL (table timeColumn : string) : result string :=
  andThen (ValidateQualifiedName table) (
  andThen (ValidateIdent timeColumn) (
  Ok ("SELECT create_hypertable('" +:+ table +:+ "', by_range('" +:+ timeColumn +:+ "'))"))).

(** [AddRetentionPolicySQL], [RemoveRetentionPolicySQL]. *)
Definition AddRetentionPolicySQL (hypertable dropAfter : string) : result string :=
  andThen (ValidateQualifiedName hypertable) (
  andThen (ValidateInterval dropAfter) (
  Ok ("SELECT add_retention_policy('" +:+ hypertable +:+ "', INTERVAL '" +:+ dropAfter +:+ "')"))).
Definition RemoveRetentionPolicySQL (hypertable : string) : result string :=
  andThen (ValidateQualifiedName hypertable) (
  Ok ("SELECT remove_retention_policy('" +:+ hypertable +:+ "')")).

(** [EnableCompressionSQL]. *)
Definition clause (name columns : string) : result (list string) :=
  if bool_decide (columns = "") then Ok []
  else andThen (ValidateIdentList columns) (Ok [name +:+ "='" +:+ columns +:+ "'"]).
Definition EnableCompressionSQL (hypertable segmentBy orderBy : string) : result string :=
  andThen (ValidateQualifiedName hypertable) (
  rbind (clause "timescaledb.compress_segmentby" segmentBy) (λ segment,
  rbind (clause "timescaledb.compress_orderby" orderBy) (λ order,
  Ok ("ALTER TABLE " +:+ hypertable +:+ " SET (" +:+
      Join (["timescaledb.compress"] ++ segment ++ order) ", " +:+ ")")))).

(** [AddCompressionPolicySQL], [RemoveCompressionPolicySQL]. *)
Definition AddCompressionPolicySQL (hypertable compressAfter : string) : result string :=
  andThen (ValidateQualifiedName hypertable) (
  andThen (ValidateInterval compressAfter) (
  Ok ("SELECT add_compression_policy('" +:+ hypertable +:+ "', INTERVAL '" +:+ compressAfter +:+ "')"))).
Definition RemoveCompressionPolicySQL (hypertable : string) : result string :=
  andThen (ValidateQualifiedName hypertable) (
  Ok ("SELECT remove_compression_policy('" +:+ hypertable +:+ "')")).

(** [CreateContinuousAggregateSQL]. *)
Definition CreateContinuousAggregateSQL (name query : string) : result string :=
  andThen (ValidateIdent name) (
  let q := TrimSpace query in
  if bool_decide (q = "") then Err (New KindInvalid "timescale: empty continuous aggregate query")
  else if Contains query ";" then
    Err (New KindInvalid "timescale: continuous aggregate query must not contain ';'")
  else Ok ("CREATE MATERIALIZED VIEW " +:+ name +:+ " WITH (timescaledb.continuous) AS " +:+ q +:+
           " WITH NO DATA")).

(** [AddContinuousAggregatePolicySQL]. *)
Definition AddContinuousAggregatePolicySQL (name startOffset endOffset scheduleInterval : string) : result string :=
  andThen (ValidateIdent name) (
  andThen (ValidateInterval startOffset) (
  andThen (ValidateInterval endOffset) (
  andThen (ValidateInterval scheduleInterval) (
  Ok ("SELECT add_continuous_aggregate_policy('" +:+ name +:+ "', " +:+
      "start_offset => INTERVAL '" +:+ startOffset +:+ "', " +:+
      "end_offset => INTERVAL '" +:+ endOffset +:+ "', " +:+
      "schedule_interval => INTERVAL '" +:+ scheduleInterval +:+ "')"))))).

(** ** The service: [service.go] *)

Section service.
(** Running a statement on the caller's connection. *)
Context {S : Type} (conn_Exec : string → M S (result unit)).

(** [exec]. *)
Definition exec (op : string) (built : result string) : M S (result unit) :=
  match built with
  | Err e => fail e
  | Ok sql =>
      _ <-? conn_Exec sql orelse (λ e, fail (Wrap KindInternal ("timescale: " +:+ op) e)) ;;
      done_ok
  end.

Definition CreateHypertable (table timeColumn : string) : M S (result unit) :=
  exec "create_hypertable" (CreateHypertableSQL table timeColumn).
Definition AddRetentionPolicy (hypertable dropAfter : string) : M S (result unit) :=
  exec "add_retention_policy" (AddRetentionPolicySQL hypertable dropAfter).
Definition RemoveRetentionPolicy (hypertable : string) : M S (result unit) :=
  exec "remove_retention_policy" (RemoveRetentionPolicySQL hypertable).
Definition EnableCompression (hypertable segmentBy orderBy : string) : M S (result unit) :=
  exec "enable_compression" (EnableCompressionSQL hypertable segmentBy orderBy).
Definition AddCompressionPolicy (hypertable compressAfter : string) : M S (result unit) :=
  exec "add_compression_policy" (AddCompressionPolicySQL hypertable compressAfter).
Definition RemoveCompressionPolicy (hypertable : string) : M S (result unit) :=
  exec "remove_compression_policy" (RemoveCompressionPolicySQL hypertable).
Definition CreateContinuousAggregate (name query : string) : M S (result unit) :=
  exec "create_continuous_aggregate" (CreateContinuousAggregateSQL name query).
Definition AddContinuousAggregatePolicy (name startOffset endOffset scheduleInterval : string) : M S (result unit) :=
  exec "add_continuous_aggregate_policy" (AddContinuousAggregatePolicySQL name startOffset endOffset scheduleInterval).
End service.

(** ** Listings *)

(** [Hypertable]. *)
Record Hypertable := mkHypertable {
  ht_Schema : string;
  ht_Name : string;
  ht_NumChunks : Z;
  ht_SizeBytes : Z;
  ht_CompressionEnabled : bool;
}.
(** [Job]; a missing [next_start] is a nil pointer. *)
Record TsJob := mkTsJob {
  tj_ID : Z;
  tj_Application : string;
  tj_ScheduleInterval : string;
  tj_NextStart : option Z;
  tj_LastRunStatus : string;
}.

(** The statements, layout aside. *)
Definition hypertables_sql : string :=
  "SELECT h.hypertable_schema, h.hypertable_name, COALESCE(c.num_chunks, 0), " +:+
  "COALESCE(hypertable_size(format('%I.%I', h.hypertable_schema, h.hypertable_name)), 0), h.compression_enabled " +:+
  "FROM timescaledb_information.hypertables h LEFT JOIN ( SELECT hypertable_schema, hypertable_name, " +:+
  "count(*) AS num_chunks FROM timescaledb_information.chunks GROUP BY hypertable_schema, hypertable_name ) c " +:+
  "ON c.hypertable_schema = h.hypertable_schema AND c.hypertable_name = h.hypertable_name " +:+
  "ORDER BY h.hypertable_schema, h.hypertable_name".
Definition jobs_sql : string :=
  "SELECT j.job_id, COALESCE(j.application_name, ''), COALESCE(j.schedule_interval::text, ''), " +:+
  "CASE WHEN s.next_start IN ('-infinity'::timestamptz, 'infinity'::timestamptz) THEN NULL ELSE s.next_start END, " +:+
  "COALESCE(s.last_run_status, '') FROM timescaledb_information.jobs j " +:+
  "LEFT JOIN timescaledb_information.job_stats s ON s.job_id = j.job_id ORDER BY j.job_id".

(** What a query answers: an error, or rows, each scanned or not, and the error that
    ended them. *)
Definition RowsAnswer (A : Type) : Type := result (list (result A) * option error).

(** The loop over the rows. *)
Fixpoint scan_rows {A} (scan : string) (rows : list (result A)) : result (list A) :=
  match rows with
  | [] => Ok []
  | Err e :: _ => Err (Wrap KindInternal scan e)
  | Ok a :: rows => rmap (cons a) (scan_rows scan rows)
  end.
Definition list_rows {A} (query scan : string) (answer : RowsAnswer A) : result (list A) :=
  match answer with
  | Err e => Err (Wrap KindInternal query e)
  | Ok (rows, err) =>
      rbind (scan_rows scan rows) (λ out,
      match err with Some e => Err (Wrap KindInternal query e) | None => Ok out end)
  end.

(** [ListHypertables], [ListJobs], with [Query] on the caller's connection. *)
Definition ListHypertables {S} (conn_Query : string → M S (RowsAnswer Hypertable)) : M S (result (list Hypertable)) :=
  rows <- conn_Query hypertables_sql ;;
  ret (list_rows "timescale: list hypertables" "timescale: scan hypertable" rows).
Definition ListJobs {S} (conn_Query : string → M S (RowsAnswer TsJob)) : M S (result (list TsJob)) :=
  rows <- conn_Query jobs_sql ;;
  ret (list_rows "timescale: list jobs" "timescale: scan job" rows).

(** A listing is every row the query gave, in order, or an error; never a part. *)
Lemma list_rows_complete {A} query scan (answer : RowsAnswer A) l :
  list_rows query scan answer = Ok l ↔ answer = Ok (Ok <$> l, None).
Proof.
  unfold list_rows. destruct answer as [[rows err]|e]; [|done].
  assert (scan_rows scan rows = Ok l ↔ rows = Ok <$> l) as Hs.
  { revert l. induction rows as [|[a|e] rows IH]; intros [|b l]; cbn; try done.
    - destruct (scan_rows scan rows); cbn; done.
    - specialize (IH l). destruct (scan_rows scan rows) as [l'|]; cbn in *; [|naive_solver].
      split; [intros [= -> ->]; by rewrite (proj1 IH)|]. intros [= -> H]. apply IH in H. congruence. }
  destruct (scan_rows scan rows) as [l'|]; cbn; [|naive_solver].
  destruct err; [naive_solver|]. rewrite Hs. naive_solver.
Qed.

(** ** Literals in a statement *)

Definition quote : ascii := "'"%char.

(** A statement with the contents of its literals taken out, and whether it ends
    inside one. *)
Fixpoint skeleton (inside : bool) (s : string) : string :=
  match s with
  | EmptyString => EmptyString
  | String c s' =>
      if ascii_eqb c quote then String c (skeleton (negb inside) s')
      else if inside then skeleton inside s' else String c (skeleton inside s')
  end.
Fixpoint ends_inside (inside : bool) (s : string) : bool :=
  match s with
  | EmptyString => inside
  | String c s' => ends_inside (if ascii_eqb c quote then negb inside else inside) s'
  end.

(** No quote, no backslash, no semicolon. *)
Definition inert_char (c : ascii) : bool :=
  negb (ascii_eqb c quote) && negb (ascii_eqb c "\"%char) && negb (ascii_eqb c ";"%char).
Definition inert (s : string) : bool := str_forallb inert_char s.

Lemma skeleton_app i s t : skeleton i (s +:+ t) = skeleton i s +:+ skeleton (ends_inside i s) t.
Proof.
  revert i. induction s as [|c s IH]; intros i; [done|]. rewrite app_cons_str. cbn [skeleton ends_inside].
  destruct (ascii_eqb c quote); [by rewrite IH|]. destruct i; by rewrite IH.
Qed.

Lemma ends_inside_app i s t : ends_inside i (s +:+ t) = ends_inside (ends_inside i s) t.
Proof. revert i. induction s as [|c s IH]; intros i; [done|]. rewrite app_cons_str. apply IH. Qed.

Lemma inert_literal s : inert s = true → skeleton true s = "" ∧ ends_inside true s = true.
Proof.
  induction s as [|c s IH]; [done|]. unfold inert. cbn [str_forallb]. intros [Hc Hs]%andb_true_iff.
  unfold inert_char in Hc. rewrite !andb_true_iff, !negb_true_iff in Hc. destruct Hc as [[Hq _] _].
  cbn [skeleton ends_inside]. rewrite Hq. by apply IH.
Qed.

Lemma inert_plain s : inert s = true → skeleton false s = s ∧ ends_inside false s = false.
Proof.
  induction s as [|c s IH]; [done|]. unfold inert. cbn [str_forallb]. intros [Hc Hs]%andb_true_iff.
  unfold inert_char in Hc. rewrite !andb_true_iff, !negb_true_iff in Hc. destruct Hc as [[Hq _] _].
  cbn [skeleton ends_inside]. rewrite Hq. destruct (IH Hs) as [-> ->]. done.
Qed.

(** A literal in the middle of a statement. *)
Lemma skeleton_literal s t : inert s = true →
  skeleton true (s +:+ t) = skeleton true t ∧ ends_inside true (s +:+ t) = ends_inside true t.
Proof.
  intros Hs. rewrite skeleton_app, ends_inside_app. destruct (inert_literal s Hs) as [-> ->].
  done.
Qed.

(** ** What validation lets through *)

Lemma ident_char_inert c : ident_char c = true → inert_char c = true.
Proof.
  intros Hc. unfold inert_char. rewrite !andb_true_iff, !negb_true_iff.
  split_and!; apply bool_decide_eq_false; intros ->; discriminate Hc.
Qed.

Lemma interval_char_inert c : interval_char c = true → inert_char c = true.
Proof.
  intros Hc. unfold inert_char. rewrite !andb_true_iff, !negb_true_iff.
  split_and!; apply bool_decide_eq_false; intros ->; discriminate Hc.
Qed.

Lemma ValidateIdent_chars s : is_ok (ValidateIdent s) = true → s ≠ "" ∧ str_forallb ident_char s = true.
Proof.
  unfold ValidateIdent. destruct s as [|c s]; [done|]. case_bool_decide; [done|].
  destruct (ident_letter c) eqn:Hc; [|done]. destruct (str_forallb ident_char s) eqn:Hs; [|done].
  intros _. split; [done|]. cbn [str_forallb]. by rewrite Hs, andb_true_r; unfold ident_char; rewrite Hc.
Qed.

Lemma ValidateIdent_inert s : is_ok (ValidateIdent s) = true → inert s = true.
Proof.
  intros [_ H]%ValidateIdent_chars. by eapply str_forallb_impl; [apply ident_char_inert|].
Qed.

(** Joining inert parts with an inert separator. *)
Lemma inert_Join l sep : Forall (λ s, inert s = true) l → inert sep = true → inert (Join l sep) = true.
Proof.
  intros Hl Hsep. induction Hl as [|s l Hs Hl IH]; [done|]. destruct l as [|s' l]; [done|].
  rewrite Join_cons by done. unfold inert in *. by rewrite !str_forallb_app, Hs, Hsep, IH.
Qed.

Lemma inert_parts c (v : string → bool) s :
  inert (String c "") = true → (∀ p, v p = true → inert p = true) →
  forallb v (SplitChar c s) = true → inert s = true.
Proof.
  intros Hc Hv Hs. rewrite <- (Join_SplitChar c s). apply inert_Join; [|done].
  apply Forall_forall. intros p Hp. apply Hv. rewrite forallb_forall in Hs. by apply Hs, list_elem_of_In.
Qed.

Lemma ValidateQualifiedName_inert s : is_ok (ValidateQualifiedName s) = true → inert s = true.
Proof.
  unfold ValidateQualifiedName. case_bool_decide; [done|]. destruct (forallb _ _) eqn:Hp; [|done].
  intros _. eapply (inert_parts "."%char); [done|apply ValidateIdent_inert|exact Hp].
Qed.

(** White space trimmed away is inert as well. *)
Lemma trim_left_inert fuel ps s :
  Forall (λ p, inert p = true) ps → inert (trim_left fuel ps s) = true → inert s = true.
Proof.
  intros Hps. revert s. induction fuel as [|fuel IH]; intros s; [done|]. cbn [trim_left].
  destruct (first_prefix ps s) as [n|] eqn:Hn; [|done]. intros Ht%IH.
  rewrite <- (str_take_drop n s). unfold inert. rewrite str_forallb_app. fold (inert (str_drop n s)).
  rewrite Ht, andb_true_r. clear IH Ht. induction Hps as [|p ps Hp Hps IH]; [done|]. cbn [first_prefix] in Hn.
  destruct (str_prefix p s) eqn:Hpre; [|by apply IH]. injection Hn as <-.
  apply prefix_spec in Hpre as [t ->]. by rewrite str_take_app.
Qed.

Lemma TrimSpace_inert s : inert (TrimSpace s) = true → inert s = true.
Proof.
  unfold TrimSpace, TrimRightSpace, inert. rewrite str_forallb_rev. intros H.
  apply trim_left_inert in H; [|by repeat constructor]. unfold inert in H. rewrite str_forallb_rev in H.
  unfold TrimLeftSpace in H. apply trim_left_inert in H; [done|by repeat constructor].
Qed.

Lemma ValidateIdentList_inert s : is_ok (ValidateIdentList s) = true → inert s = true.
Proof.
  unfold ValidateIdentList. destruct (forallb _ _) eqn:Hp; [|done]. intros _.
  eapply (inert_parts ","%char); [done| |exact Hp]. intros p Hv. by apply TrimSpace_inert, ValidateIdent_inert.
Qed.

Lemma ValidateInterval_inert s : is_ok (ValidateInterval s) = true → inert s = true.
Proof.
  unfold ValidateInterval. case_bool_decide; [done|]. destruct (str_forallb _ _) eqn:Hp; [|done].
  intros _. by eapply str_forallb_impl; [apply interval_char_inert|].
Qed.

Lemma andThen_Ok {A} v (k : result A) a : andThen v k = Ok a → is_ok v = true ∧ k = Ok a.
Proof. by destruct v as [[]|]. Qed.

(** ** The statements *)

Inductive Request :=
  | ReqHypertable (table timeColumn : string)
  | ReqAddRetention (hypertable dropAfter : string)
  | ReqRemoveRetention (hypertable : string)
  | ReqEnableCompression (hypertable segmentBy orderBy : string)
  | ReqAddCompression (hypertable compressAfter : string)
  | ReqRemoveCompression (hypertable : string)
  | ReqAggregatePolicy (name startOffset endOffset scheduleInterval : string).

Definition build (r : Request) : result string :=
  match r with
  | ReqHypertable t c => CreateHypertableSQL t c
  | ReqAddRetention h d => AddRetentionPolicySQL h d
  | ReqRemoveRetention h => RemoveRetentionPolicySQL h
  | ReqEnableCompression h s o => EnableCompressionSQL h s o
  | ReqAddCompression h d => AddCompressionPolicySQL h d
  | ReqRemoveCompression h => RemoveCompressionPolicySQL h
  | ReqAggregatePolicy n s e i => AddContinuousAggregatePolicySQL n s e i
  end.

(** The statement of a request with empty literals; only the table name of an
    [ALTER TABLE] stands outside of one. *)
Definition shape (r : Request) : string :=
  match r with
  | ReqHypertable _ _ => "SELECT create_hypertable('', by_range(''))"
  | ReqAddRetention _ _ => "SELECT add_retention_policy('', INTERVAL '')"
  | ReqRemoveRetention _ => "SELECT remove_retention_policy('')"
  | ReqEnableCompression h s o =>
      "ALTER TABLE " +:+ h +:+ " SET (timescaledb.compress" +:+
      (if bool_decide (s = "") then "" else ", timescaledb.compress_segmentby=''") +:+
      (if bool_decide (o = "") then "" else ", timescaledb.compress_orderby=''") +:+ ")"
  | ReqAddCompression _ _ => "SELECT add_compression_policy('', INTERVAL '')"
  | ReqRemoveCompression _ => "SELECT remove_compression_policy('')"
  | ReqAggregatePolicy _ _ _ _ =>
      "SELECT add_continuous_aggregate_policy('', start_offset => INTERVAL '', " +:+
      "end_offset => INTERVAL '', schedule_interval => INTERVAL '')"
  end.

(** A statement made of fixed text and inert literals. *)
Definition fits (sql expected : string) : Prop :=
  skeleton false sql = expected ∧ ends_inside false sql = false.

Lemma skeleton_literal_app s t : inert s = true → skeleton true (s +:+ t) = skeleton true t.
Proof. apply skeleton_literal. Qed.
Lemma ends_literal_app s t : inert s = true → ends_inside true (s +:+ t) = ends_inside true t.
Proof. apply skeleton_literal. Qed.
Lemma skeleton_plain_app s t : inert s = true → skeleton false (s +:+ t) = s +:+ skeleton false t.
Proof. intros Hs. rewrite skeleton_app. by destruct (inert_plain s Hs) as [-> ->]. Qed.
Lemma ends_plain_app s t : inert s = true → ends_inside false (s +:+ t) = ends_inside false t.
Proof. intros Hs. rewrite ends_inside_app. by destruct (inert_plain s Hs) as [_ ->]. Qed.

(** Walk through a statement: literals and names by their hypotheses, fixed text
    by computation. *)
Ltac walk :=
  repeat lazymatch goal with
  | H : inert ?s = true |- context [skeleton true (?s +:+ ?t)] => rewrite (skeleton_literal_app s t H)
  | H : inert ?s = true |- context [ends_inside true (?s +:+ ?t)] => rewrite (ends_literal_app s t H)
  | H : inert ?s = true |- context [skeleton false (?s +:+ ?t)] => rewrite (skeleton_plain_app s t H)
  | H : inert ?s = true |- context [ends_inside false (?s +:+ ?t)] => rewrite (ends_plain_app s t H)
  | |- context [skeleton ?i (?c +:+ ?t)] =>
      rewrite (skeleton_app i c t);
      let j := eval vm_compute in (ends_inside i c) in change (ends_inside i c) with j
  | |- context [ends_inside ?i (?c +:+ ?t)] =>
      rewrite (ends_inside_app i c t);
      let j := eval vm_compute in (ends_inside i c) in change (ends_inside i c) with j
  end.

Ltac validated :=
  repeat match goal with
  | H : andThen _ _ = Ok _ |- _ => apply andThen_Ok in H as [? H]
  | H : is_ok (ValidateIdent _) = true |- _ => apply ValidateIdent_inert in H
  | H : is_ok (ValidateQualifiedName _) = true |- _ => apply ValidateQualifiedName_inert in H
  | H : is_ok (ValidateIdentList _) = true |- _ => apply ValidateIdentList_inert in H
  | H : is_ok (ValidateInterval _) = true |- _ => apply ValidateInterval_inert in H
  end.

Lemma Ok_inj {A} (a b : A) : Ok a = Ok b → a = b.
Proof. by intros [= ->]. Qed.

(** A clause of [EnableCompressionSQL] is left out, or its columns are inert. *)
Lemma clause_Ok name columns l :
  clause name columns = Ok l →
  (columns = "" ∧ l = []) ∨ (columns ≠ "" ∧ inert columns = true ∧ l = [name +:+ "='" +:+ columns +:+ "'"]).
Proof.
  unfold clause. case_bool_decide; [intros [= <-]; by left|]. intros Hl. validated.
  apply Ok_inj in Hl as <-. by right.
Qed.

Lemma compression_fits h s o sql :
  EnableCompressionSQL h s o = Ok sql → fits sql (shape (ReqEnableCompression h s o)).
Proof.
  unfold EnableCompressionSQL. intros H. validated.
  destruct (clause _ s) as [l1|] eqn:H1; [|done]. destruct (clause _ o) as [l2|] eqn:H2; [|done].
  cbn [rbind] in H. apply Ok_inj in H as <-. unfold fits, shape.
  apply clause_Ok in H1 as [[-> ->]|(Hs & Hs' & ->)]; apply clause_Ok in H2 as [[-> ->]|(Ho & Ho' & ->)];
    rewrite ?(bool_decide_false (s = "")), ?(bool_decide_false (o = "")) by done;
    cbn [app Join]; rewrite ?app_assoc_str; split; walk; vm_compute; reflexivity.
Qed.

(** Whatever is refused is refused as invalid. *)
Lemma andThen_Err {A} v (k : result A) e : andThen v k = Err e → v = Err e ∨ k = Err e.
Proof. destruct v as [[]|e']; [by right|]. intros [= ->]. by left. Qed.

Lemma ValidateIdent_Err s e : ValidateIdent s = Err e → Kind e = KindInvalid.
Proof.
  unfold ValidateIdent. destruct s; [by intros [= <-]|]. case_bool_decide; [by intros [= <-]|].
  destruct (_ || _); [by intros [= <-]|done].
Qed.
Lemma ValidateQualifiedName_Err s e : ValidateQualifiedName s = Err e → Kind e = KindInvalid.
Proof.
  unfold ValidateQualifiedName. case_bool_decide; [by intros [= <-]|].
  destruct (negb _); [by intros [= <-]|done].
Qed.
Lemma ValidateIdentList_Err s e : ValidateIdentList s = Err e → Kind e = KindInvalid.
Proof. unfold ValidateIdentList. destruct (negb _); [by intros [= <-]|done]. Qed.
Lemma ValidateInterval_Err s e : ValidateInterval s = Err e → Kind e = KindInvalid.
Proof.
  unfold ValidateInterval. case_bool_decide; [by intros [= <-]|]. destruct (negb _); [by intros [= <-]|done].
Qed.
#[export] Hint Resolve ValidateIdent_Err ValidateQualifiedName_Err ValidateIdentList_Err ValidateInterval_Err : go.

Lemma clause_Err name columns e : clause name columns = Err e → Kind e = KindInvalid.
Proof. unfold clause. case_bool_decide; [done|]. intros [E|E]%andThen_Err; [by eauto with go|done]. Qed.

Lemma build_Err r e : build r = Err e → Kind e = KindInvalid.
Proof.
  intros H. destruct r; unfold build, CreateHypertableSQL, AddRetentionPolicySQL, RemoveRetentionPolicySQL,
    EnableCompressionSQL, AddCompressionPolicySQL, RemoveCompressionPolicySQL, AddContinuousAggregatePolicySQL in H;
    repeat match goal with
    | H : andThen _ _ = Err _ |- _ => apply andThen_Err in H as [H|H]; [by eauto with go|]
    end; try done.
  destruct (clause _ segmentBy) eqn:E1; cbn [rbind] in H; [|injection H as <-; by eapply clause_Err].
  destruct (clause _ orderBy) eqn:E2; cbn [rbind] in H; [|injection H as <-; by eapply clause_Err]. done.
Qed.

