(* ===== verification/Health.v ===== *)
(** * Health of instances: [internal/health]

    The check of one instance, the table of the latest reports, and the periodic
    pass over the running instances ([runHealthChecks] of the API command).
    Times are Unix nanoseconds, durations nanoseconds. *)

From Stdlib Require Import Ascii.
From stdpp Require Import gmap strings.
From S2P Require Import Prelude GoStrings Apperr GoMonad PgBackRest Instances Runtime DockerFake Stores MetaDB Tables Provision Samples Backup BackupSafety.

(** ** Data *)

(** [Report]. *)
Record Report := mkReport {
  rp_InstanceID : string;
  rp_ArchivingOK : bool;
  rp_HasBackup : bool;
  rp_LastBackupAge : Z;
  rp_WALBytes : Z;
  rp_DrillRan : bool;
  rp_DrillOK : bool;
  rp_Issues : list string;
  rp_CheckedAt : Z;
}.

(** [Report.Healthy]. *)
Definition Report_Healthy (r : Report) : bool := bool_decide (length (rp_Issues r) = 0).

(** [Thresholds] and [DefaultThresholds]. *)
Record HealthThresholds := mkHealthThresholds {
  ht_MaxBackupAge : Z;
  ht_MaxWALBytes : Z;
}.
Definition DefaultHealthThresholds : HealthThresholds :=
  mkHealthThresholds (25 * 60 * Minute) (2 * 2 ^ 30).

(** ** The check *)

(** [parseDuBytes]. *)
Definition parseDuBytes (out : string) : Z :=
  match Fields (TrimSpace out) with
  | [] => 0%Z
  | f :: _ =>
      match ParseInt64 f with
      | NumRange => if HasPrefix f "-" then 0%Z else max_int64
      | NumSyntax => 0%Z
      | NumOk n => if bool_decide (n < 0)%Z then 0%Z else n
      end
  end.

(** [d.Round(time.Minute).String()] for a duration that is not negative. *)
Definition round_minutes (d : Z) : Z := ((d + Minute / 2) / Minute)%Z.
Definition minutes_String (n : Z) : string :=
  if bool_decide (n = 0)%Z then "0s"
  else if bool_decide (n < 60)%Z then itoa n +:+ "m0s"
  else itoa (n / 60) +:+ "h" +:+ itoa (n mod 60) +:+ "m0s".

(** The newest [StoppedAt] after the zero time. *)
Definition newest_stop (backups : list BackupRow) : Z :=
  foldl (λ newest b, if bool_decide (newest < bk_StoppedAt b)%Z then bk_StoppedAt b else newest) zeroTime backups.

Section check.
Context {R D : Type} {RT : ContainerRuntime R} {PR : Process R} {IS : InstanceStore D} {CT : catalog D}.
Notation W := (R * D)%type.
Context (th : HealthThresholds).

(** The part of a report on backups: whether there are any, the age of the newest
    one that completed, and what is wrong. *)
Definition backup_part (now : Z) (backups : list BackupRow) : bool * Z * list string :=
  if bool_decide (length backups = 0) then (false, 0%Z, ["no backups exist"])
  else
    let newest := newest_stop backups in
    if bool_decide (newest = zeroTime) then (true, 0%Z, ["no completed backup yet"])
    else
      let age := (now - newest)%Z in
      (true, age,
       if bool_decide (ht_MaxBackupAge th < age)%Z
       then ["last backup is " +:+ minutes_String (round_minutes age) +:+ " old"] else []).

(** The part on [pg_wal]. *)
Definition wal_part (du : result ExecResult) : Z * list string :=
  match du with
  | Ok res =>
      if bool_decide (er_ExitCode res = 0)%Z then
        let n := parseDuBytes (er_Stdout res) in
        (n, if bool_decide (0 < ht_MaxWALBytes th)%Z && bool_decide (ht_MaxWALBytes th < n)%Z
            then ["pg_wal is large; archiving may be stalled"] else [])
      else (0%Z, ["pg_wal probe failed"])
  | Err _ => (0%Z, ["pg_wal probe failed"])
  end.

Definition exit_ok (r : result ExecResult) : bool :=
  match r with Ok res => bool_decide (er_ExitCode res = 0)%Z | Err _ => false end.

(** [Check]; the clock is read for the report, and again for the age. *)
Definition HealthCheck (ctx : Context) (instanceID : string) : M W (result Report) :=
  inst <-? repo (repo_Get ctx instanceID) ;;
  checkedAt <- rt now ;;
  archive <- rt (Exec ctx (inst_ContainerID inst) (asPostgres (CheckCmd (inst_Stanza inst) confPath))) ;;
  let archiving := exit_ok archive in
  let issues1 := if archiving then [] else ["WAL archiving check is failing"] in
  backups <-? repo (cat_List ctx instanceID) ;;
  readAt <- (if bool_decide (length backups = 0) || bool_decide (newest_stop backups = zeroTime)
             then ret checkedAt else rt now) ;;
  let '(has, age, issues2) := backup_part readAt backups in
  du <- rt (Exec ctx (inst_ContainerID inst) ["du"; "-sb"; pgDataPath +:+ "/pg_wal"]) ;;
  let '(bytes, issues3) := wal_part du in
  ok (mkReport instanceID archiving has age bytes false false (issues1 ++ issues2 ++ issues3) checkedAt).
End check.

(** ** The table of reports: [store.go] *)

Notation HealthTable := (Table string Report).

(** A report as it is read back: the age is kept in whole seconds. *)
Definition stored (r : Report) : Report :=
  mkReport (rp_InstanceID r) (rp_ArchivingOK r) (rp_HasBackup r) (Z.quot (rp_LastBackupAge r) Second * Second)
    (rp_WALBytes r) (rp_DrillRan r) (rp_DrillOK r) (rp_Issues r) (rp_CheckedAt r).

(** [Upsert]. *)
Definition Health_Upsert (r : Report) : M HealthTable (result unit) :=
  _ <-? tstatement (λ t, Ok (tt, <[rp_InstanceID r := stored r]> (tb_rows t)))
    orelse (λ e, fail (Wrap KindInternal "health: upsert" e)) ;;
  done_ok.

(** [UpdateDrill]: a new row has the defaults of the schema. *)
Definition set_drill (passed : bool) (r : Report) : Report :=
  mkReport (rp_InstanceID r) (rp_ArchivingOK r) (rp_HasBackup r) (rp_LastBackupAge r) (rp_WALBytes r)
    true passed (rp_Issues r) (rp_CheckedAt r).
Definition UpdateDrill (instanceID : string) (passed : bool) : M HealthTable (result unit) :=
  _ <-? tstatement (λ t,
      let old := default (mkReport instanceID false false 0 0 false false [] (tb_now t)) (tb_rows t !! instanceID) in
      Ok (tt, <[instanceID := set_drill passed old]> (tb_rows t)))
    orelse (λ e, fail (Wrap KindInternal "health: update drill" e)) ;;
  done_ok.

(** [List]. *)
Definition Health_List : M HealthTable (result (list Report)) :=
  l <-? tselect (λ rows, (map_to_list rows).*2)
    orelse (λ e, fail (Wrap KindInternal "health: list" e)) ;; ok l.

(** ** The periodic pass: [runHealthChecks] *)

Section pass.
Context {R D : Type} {RT : ContainerRuntime R} {PR : Process R} {IS : InstanceStore D} {CT : catalog D}.
Context (th : HealthThresholds).
Notation W := (R * D)%type.

Definition runHealthCheckOne (ctx : Context) (inst : Inst) : M (W * HealthTable) unit :=
  if bool_decide (inst_Status inst ≠ StatusRunning) then ret tt else
  report <- on_fst (HealthCheck th ctx (inst_ID inst)) ;;
  match report with
  | Err _ => ret tt
  | Ok report => discard (on_snd (Health_Upsert report))
  end.
Definition runHealthChecks (ctx : Context) : M (W * HealthTable) (result unit) :=
  instances <-? on_fst (repo (repo_List ctx)) ;;
  _ <- for_each instances tt (λ _ inst, runHealthCheckOne ctx inst) ;;
  done_ok.
End pass.

(** ** What a report says *)

Lemma newest_stop_spec backups :
  (zeroTime ≤ newest_stop backups)%Z ∧ (∀ b, b ∈ backups → bk_StoppedAt b ≤ newest_stop backups)%Z ∧
  (newest_stop backups = zeroTime ∨ ∃ b, b ∈ backups ∧ bk_StoppedAt b = newest_stop backups).
Proof.
  unfold newest_stop. induction backups as [|b l IH] using rev_ind.
  { split_and!; [done|by intros b ?%elem_of_nil|by left]. }
  rewrite foldl_snoc. destruct IH as (H1 & H2 & H3). case_bool_decide as Hlt; split_and!.
  - lia.
  - intros b' [Hb|Hb%list_elem_of_singleton]%elem_of_app; [|by subst]. specialize (H2 _ Hb). lia.
  - right. exists b. split; [set_solver|done].
  - done.
  - intros b' [Hb|Hb%list_elem_of_singleton]%elem_of_app; [by apply H2|subst; lia].
  - destruct H3 as [H3|(b' & Hb' & H3)]; [by left|right]. exists b'. split; [set_solver|done].
Qed.

(** The backups are fresh: one completed, and the newest is not too old. *)
Definition fresh (th : HealthThresholds) (now : Z) (backups : list BackupRow) : Prop :=
  ∃ b, b ∈ backups ∧ (zeroTime < bk_StoppedAt b)%Z ∧ (now - bk_StoppedAt b ≤ ht_MaxBackupAge th)%Z.

Lemma backup_part_fresh th now backups : (backup_part th now backups).2 = [] ↔ fresh th now backups.
Proof.
  unfold backup_part, fresh. destruct (newest_stop_spec backups) as (H1 & H2 & H3).
  case_bool_decide as Hl.
  { apply length_zero_iff_nil in Hl as ->. cbn. split; [done|]. by intros (b & ?%elem_of_nil & _). }
  case_bool_decide as Hz; cbn [snd].
  { split; [done|]. intros (b & Hb & Hpos & _). specialize (H2 _ Hb). lia. }
  destruct H3 as [?|(b & Hb & Hbn)]; [done|]. case_bool_decide as Hage.
  - split; [done|]. intros (b' & Hb' & _ & Ha). specialize (H2 _ Hb'). lia.
  - split; [|done]. intros _. exists b. split_and!; [done|lia|lia].
Qed.

Lemma app_nil_iff {A} (l1 l2 : list A) : l1 ++ l2 = [] ↔ l1 = [] ∧ l2 = [].
Proof. split; [apply app_eq_nil|by intros [-> ->]]. Qed.

(** The output of [du] that a report takes for too much. *)
Definition wal_fine (th : HealthThresholds) (du : result ExecResult) : Prop :=
  match du with
  | Ok res => er_ExitCode res = 0%Z ∧
              ((ht_MaxWALBytes th ≤ 0)%Z ∨ (parseDuBytes (er_Stdout res) ≤ ht_MaxWALBytes th)%Z)
  | Err _ => False
  end.

Lemma wal_part_fine th du : (wal_part th du).2 = [] ↔ wal_fine th du.
Proof.
  unfold wal_part, wal_fine. destruct du as [res|e]; [|by cbn].
  case_bool_decide as Hx; cbn [snd]; [|by split; [|intros []]].
  repeat case_bool_decide; cbn [andb]; (split; [intros E; try discriminate E|intros [_ HH]]).
  all: first [reflexivity | exfalso; lia | split; [assumption|lia]].
Qed.

Lemma issues_nil th now archiving backups du :
  (if archiving : bool then [] else ["WAL archiving check is failing"]) ++
    (backup_part th now backups).2 ++ (wal_part th du).2 = [] ↔
  archiving = true ∧ fresh th now backups ∧ wal_fine th du.
Proof.
  rewrite !app_nil_iff, backup_part_fresh, wal_part_fine. destruct archiving; intuition done.
Qed.

Section verdict.
Context {R D : Type} {RT : ContainerRuntime R} {PR : Process R} {IS : InstanceStore D} {CT : catalog D}.
Notation W := (R * D)%type.

(** What the world answers to a check, call by call. *)
Inductive answered (ctx : Context) (instanceID : string) (s : W) :
    result ExecResult → list BackupRow → Z → result ExecResult → Prop :=
  | Answers inst d1 d2 t0 w1 w2 w3 archive backups readAt du :
      repo_Get ctx instanceID s.2 = (Ok inst, d1) →
      now s.1 = (t0, w1) →
      Exec ctx (inst_ContainerID inst) (asPostgres (CheckCmd (inst_Stanza inst) confPath)) w1 = (archive, w2) →
      cat_List ctx instanceID d1 = (Ok backups, d2) →
      (now w2 = (readAt, w3) ∨ (readAt = t0 ∧ w3 = w2 ∧ ¬ ∃ b, b ∈ backups ∧ (zeroTime < bk_StoppedAt b)%Z)) →
      (Exec ctx (inst_ContainerID inst) ["du"; "-sb"; pgDataPath +:+ "/pg_wal"] w3).1 = du →
      answered ctx instanceID s archive backups readAt du.

Lemma HealthCheck_report th ctx instanceID (s : W) r s' :
  HealthCheck th ctx instanceID s = (Ok r, s') →
  ∃ archive backups readAt du, answered ctx instanceID s archive backups readAt du ∧
    (Report_Healthy r = true ↔ exit_ok archive = true ∧ fresh th readAt backups ∧ wal_fine th du) ∧
    rp_InstanceID r = instanceID ∧ rp_ArchivingOK r = exit_ok archive ∧ rp_DrillRan r = false.
Proof.
  intros H.
  assert (Hwp : wp (HealthCheck th ctx instanceID) (λ r' _, r' = Ok r) s) by (unfold wp; by rewrite H).
  clear H. revert Hwp. unfold HealthCheck.
  intros Hwp%wp_bind_inv. unfold wp at 1, repo, on_snd in Hwp.
  destruct (repo_Get ctx instanceID s.2) as [[inst|e] d1] eqn:Hg; cbn [fst snd] in Hwp; [|done].
  apply wp_bind_inv in Hwp. unfold wp at 1, rt, on_fst in Hwp. cbn [fst snd] in Hwp.
  destruct (now s.1) as [t0 w1] eqn:Hn. cbn [fst snd] in Hwp.
  apply wp_bind_inv in Hwp. unfold wp at 1 in Hwp. cbn [fst snd] in Hwp.
  destruct (Exec ctx _ (asPostgres _) w1) as [archive w2] eqn:He. cbn [fst snd] in Hwp.
  apply wp_bind_inv in Hwp. unfold wp at 1 in Hwp. cbn [fst snd] in Hwp.
  destruct (cat_List ctx instanceID d1) as [[backups|e] d2] eqn:Hl; cbn [fst snd] in Hwp; [|done].
  apply wp_bind_inv in Hwp.
  assert (Hend : ∀ readAt w3,
    wp (let '(has, age, issues2) := backup_part th readAt backups in
        du <- on_fst (Exec ctx (inst_ContainerID inst) ["du"; "-sb"; pgDataPath +:+ "/pg_wal"]) ;;
        let '(bytes, issues3) := wal_part th du in
        ok (mkReport instanceID (exit_ok archive) has age bytes false false
              ((if exit_ok archive then [] else ["WAL archiving check is failing"]) ++ issues2 ++ issues3) t0))
       (λ r' _, r' = Ok r) (w3, d2) →
    ∀ du, (Exec ctx (inst_ContainerID inst) ["du"; "-sb"; pgDataPath +:+ "/pg_wal"] w3).1 = du →
    (Report_Healthy r = true ↔ exit_ok archive = true ∧ fresh th readAt backups ∧ wal_fine th du) ∧
    rp_InstanceID r = instanceID ∧ rp_ArchivingOK r = exit_ok archive ∧ rp_DrillRan r = false).
  { intros readAt w3. pose proof (issues_nil th readAt (exit_ok archive) backups) as Hi.
    destruct (backup_part th readAt backups) as [[has age] issues2]. intros Hr%wp_bind_inv du Hdu.
    unfold wp at 1, on_fst in Hr. cbn [fst snd] in Hr.
    destruct (Exec ctx _ ["du"; _; _] w3) as [du' w4]. cbn [fst snd] in Hr, Hdu. subst du'.
    specialize (Hi du). destruct (wal_part th du) as [bytes issues3]. unfold wp in Hr. cbn [fst ok ret] in Hr.
    injection Hr as <-. unfold Report_Healthy. cbn [rp_Issues rp_InstanceID rp_ArchivingOK rp_DrillRan].
    rewrite bool_decide_eq_true, length_zero_iff_nil, <- Hi. by split_and!. }
  destruct (bool_decide (length backups = 0) || bool_decide (newest_stop backups = zeroTime)) eqn:Hc.
  - unfold wp at 1 in Hwp. cbn [fst snd ret] in Hwp. eexists _, _, _, _. split; [|eapply Hend; [exact Hwp|reflexivity]].
    eapply Answers; [exact Hg|exact Hn|exact He|exact Hl| |reflexivity].
    right. split_and!; [done|done|]. intros (b & Hb & Hpos). apply orb_true_iff in Hc as [Hc|Hc].
    + apply bool_decide_eq_true, length_zero_iff_nil in Hc as ->. by apply elem_of_nil in Hb.
    + apply bool_decide_eq_true in Hc. destruct (newest_stop_spec backups) as (_ & H2 & _).
      specialize (H2 b Hb). lia.
  - unfold wp at 1 in Hwp. cbn [fst snd] in Hwp. destruct (now w2) as [readAt w3] eqn:Hn2. cbn [fst snd] in Hwp.
    eexists _, _, _, _. split; [|eapply Hend; [exact Hwp|reflexivity]].
    eapply Answers; [exact Hg|exact Hn|exact He|exact Hl|left; exact Hn2|reflexivity].
Qed.

(** A check that returns a report calls the instance healthy
    exactly when pgBackRest's archiving check passed, some backup of the catalog
    completed and the newest of those is within the age limit at the time it is
    read, and the size of [pg_wal] could be measured and is within its limit.  A
    probe that fails, or a backup that never completed, is never taken for
    health. *)
Theorem health_verdict th ctx instanceID (s : W) r s' :
  HealthCheck th ctx instanceID s = (Ok r, s') →
  ∃ archive backups readAt du, answered ctx instanceID s archive backups readAt du ∧
    (Report_Healthy r = true ↔ exit_ok archive = true ∧ fresh th readAt backups ∧ wal_fine th du) ∧
    rp_InstanceID r = instanceID ∧ rp_ArchivingOK r = exit_ok archive.
Proof.
  intros H. destruct (HealthCheck_report th ctx instanceID s r s' H) as (a & b & n & du & Ha & Hh & Hi & Hok & _).
  exists a, b, n, du. by split_and!.
Qed.
End verdict.

(** ** The drill's outcome does not survive *)

(** A periodic check replaces the whole report: after a restore drill was
    recorded for an instance, the next check that stores its report says again
    that no drill ran. *)
Theorem check_forgets_drill {R D} {RT : ContainerRuntime R} {PR : Process R} {IS : InstanceStore D}
    {CT : catalog D} th ctx inst (s : R * D) (t1 : HealthTable) r w' :
  inst_Status inst = StatusRunning → HealthCheck th ctx (inst_ID inst) s = (Ok r, w') →
  env_fault (tb_env t1) (tb_qn t1 + 1) = None →
  (rp_DrillRan <$> tb_rows t1 !! inst_ID inst) = Some true →
  rp_DrillRan <$> tb_rows (runHealthCheckOne th ctx inst (s, t1)).2.2 !! inst_ID inst = Some false.
Proof.
  intros Hrun Hc Hf _. destruct (HealthCheck_report th ctx (inst_ID inst) s r w' Hc)
    as (_ & _ & _ & _ & _ & _ & Hid & _ & Hdrill).
  unfold runHealthCheckOne. rewrite bool_decide_false by (by intros []).
  unfold bind at 1, on_fst. cbn [fst snd]. rewrite Hc. cbn [fst snd].
  unfold discard, bind, on_snd, Health_Upsert, try_or, bind, tstatement, tb_next. cbn [fst snd tb_env tb_qn].
  rewrite Hf. unfold done_ok, ok, ret. cbn. rewrite Hid, lookup_insert_eq. cbn. by rewrite Hdrill.
Qed.

(** ** A concrete check *)

(** Every command succeeds and prints [1]; the catalog holds one backup that
    stopped at second 2; the clock stands at 0. *)
Definition sample_catalog1 : CatTable :=
  mkTable sample_env 0 {[("id-1", "20240101F") :=
    row_of "b-1" "id-1" (backup_of_raw (mkRawBackup "20240101F" "full" 1 2 0 0 0 0 "" "" [] false ∅))]}.
Definition sample_check :=
  @HealthCheck _ _ (fake_runtime sample_hooks_ok) fake_process (@store_beside DBState CatTable sample_instances)
    (@catalog_beside DBState CatTable cat_table) DefaultHealthThresholds CallerCtx "id-1"
    (sample_running.1, (sample_running.2, sample_catalog1)).

Lemma sample_check_healthy : rmap Report_Healthy sample_check.1 = Ok true.
Proof. vm_compute. reflexivity. Qed.

Lemma health_verdict_witness :
  ∃ r, sample_check.1 = Ok r ∧ Report_Healthy r = true ∧
    ∃ archive backups readAt du,
      exit_ok archive = true ∧ fresh DefaultHealthThresholds readAt backups ∧ wal_fine DefaultHealthThresholds du.
Proof.
  pose proof sample_check_healthy as Hh. unfold sample_check in *.
  destruct (@HealthCheck _ _ _ _ _ _ _ _ _ _) as [[r|e] s'] eqn:E; [|discriminate Hh].
  cbn [fst rmap] in *. injection Hh as Hh. exists r. split; [reflexivity|]. split; [exact Hh|].
  destruct (@health_verdict _ _ _ _ _ _ _ _ _ _ _ _ E) as (a & b & n & du & _ & Hv & _).
  exists a, b, n, du. apply Hv. exact Hh.
Defined.
