(* ===== verification/Hub.v ===== *)
(** * The event hub: [internal/ws/hub.go]

    A hub fans events out to the channels of its subscribers.  Publishing holds
    the hub's mutex, cancelling a subscription takes it only for removing the
    channel and closes the channel afterwards, so the two can interleave: the
    hub is a transition system whose steps are the critical sections.  A send on
    a closed channel and a second close are panics. *)

From stdpp Require Import gmap strings relations.
From S2P Require Import Prelude GoStrings.

(** ** State *)

(** [Event]. *)
Record HubEvent := mkHubEvent {
  he_InstanceID : string;
  he_Step : string;
  he_Detail : string;
}.

Definition subBuffer : nat := 64.

(** How far the [once] of a subscription's cancel function has come. *)
Inductive Once := NotRun | Removed | Done.

(** A channel: its buffer, whether it is a key of [subs], whether it is closed,
    and the events its reader has received. *)
Record Chan := mkChan {
  ch_buf : list HubEvent;
  ch_subscribed : bool;
  ch_closed : bool;
  ch_once : Once;
  ch_got : list HubEvent;
}.

(** The channels made so far, and every event published. *)
Record Hub := mkHub {
  hub_chans : gmap nat Chan;
  hub_log : list HubEvent;
}.

(** [NewHub]. *)
Definition NewHub : Hub := mkHub ∅ [].

(** ** Operations; [None] is a panic *)

(** [Subscribe], which makes the channel [c]. *)
Definition Subscribe (c : nat) (h : Hub) : Hub :=
  mkHub (<[c := mkChan [] true false NotRun []]> (hub_chans h)) (hub_log h).

(** The two halves of the function [once] runs: under the mutex the channel is
    deleted from [subs], then it is closed. *)
Definition cancel_remove (c : nat) (h : Hub) : Hub :=
  mkHub (alter (λ ch, mkChan (ch_buf ch) false (ch_closed ch) Removed (ch_got ch)) c (hub_chans h)) (hub_log h).
Definition cancel_close (c : nat) (h : Hub) : option Hub :=
  match hub_chans h !! c with
  | Some ch =>
      if ch_closed ch then None
      else Some (mkHub (<[c := mkChan (ch_buf ch) (ch_subscribed ch) true Done (ch_got ch)]> (hub_chans h))
                   (hub_log h))
  | None => Some h
  end.

(** [Publish]: a [select] with a default for every channel of [subs]. *)
Definition offer (ev : HubEvent) (ch : Chan) : Chan :=
  if ch_subscribed ch && bool_decide (length (ch_buf ch) < subBuffer)
  then mkChan (ch_buf ch ++ [ev]) (ch_subscribed ch) (ch_closed ch) (ch_once ch) (ch_got ch)
  else ch.
Definition Publish (ev : HubEvent) (h : Hub) : option Hub :=
  if bool_decide (map_Exists (λ _ ch, ch_subscribed ch = true ∧ ch_closed ch = true) (hub_chans h))
  then None
  else Some (mkHub (offer ev <$> hub_chans h) (hub_log h ++ [ev])).

(** The reader of a channel takes an event out of it. *)
Definition receive (c : nat) (h : Hub) : Hub :=
  mkHub (alter (λ ch, match ch_buf ch with
                      | [] => ch
                      | ev :: buf => mkChan buf (ch_subscribed ch) (ch_closed ch) (ch_once ch) (ch_got ch ++ [ev])
                      end) c (hub_chans h)) (hub_log h).

(** ** Steps *)

Inductive step (h : Hub) : option Hub → Prop :=
  | StepSubscribe c : hub_chans h !! c = None → step h (Some (Subscribe c h))
  | StepRemove c ch : hub_chans h !! c = Some ch → ch_once ch = NotRun → step h (Some (cancel_remove c h))
  | StepClose c ch : hub_chans h !! c = Some ch → ch_once ch = Removed → step h (cancel_close c h)
  | StepPublish ev : step h (Publish ev h)
  | StepReceive c : step h (Some (receive c h)).

Definition moves (h h' : Hub) : Prop := step h (Some h').
Definition reachable (h : Hub) : Prop := rtc moves NewHub h.

(** ** The invariant *)

Definition chan_ok (log : list HubEvent) (ch : Chan) : Prop :=
  (ch_subscribed ch = true ↔ ch_once ch = NotRun) ∧ (ch_closed ch = true ↔ ch_once ch = Done) ∧
  length (ch_buf ch) ≤ subBuffer ∧ sublist (ch_got ch ++ ch_buf ch) log.
Definition hub_ok (h : Hub) : Prop := map_Forall (λ _ ch, chan_ok (hub_log h) ch) (hub_chans h).

Lemma chan_ok_offer log ev ch : chan_ok log ch → chan_ok (log ++ [ev]) (offer ev ch).
Proof.
  intros (H1 & H2 & H3 & H4). unfold offer.
  destruct (ch_subscribed ch && _) eqn:Hs.
  - apply andb_true_iff in Hs as [_ Hl%bool_decide_eq_true]. split_and!; cbn; try done.
    + rewrite length_app. cbn. lia.
    + rewrite app_assoc. by apply sublist_app.
  - split_and!; [done|done|done|]. by apply sublist_inserts_r.
Qed.

(** Every step of a hub in order gives a hub in order, and no panic. *)
Lemma step_ok h o : hub_ok h → step h o → ∃ h', o = Some h' ∧ hub_ok h'.
Proof.
  intros Hok Hstep. destruct Hstep as [c Hc|c ch Hc Ho|c ch Hc Ho|ev|c].
  - eexists. split; [done|]. apply map_Forall_insert_2; [|done]. split_and!; cbn; [done|done|unfold subBuffer; lia|].
    apply sublist_nil_l.
  - eexists. split; [done|]. intros c' ch'. cbn. rewrite lookup_alter_Some.
    intros [(<- & ch0 & H0 & ->)|[_ H0]]; [|by eapply Hok].
    destruct (Hok _ _ H0) as (H1 & H2 & H3 & H4). rewrite Hc in H0. injection H0 as <-.
    split_and!; cbn; [done| |done|done]. rewrite H2, Ho. done.
  - unfold cancel_close. rewrite Hc. destruct (Hok _ _ Hc) as (H1 & H2 & H3 & H4).
    assert (ch_closed ch = false) as -> by (apply not_true_iff_false; rewrite H2, Ho; discriminate).
    eexists. split; [done|]. apply map_Forall_insert_2; [|done]. split_and!; cbn; [|done|done|done].
    rewrite H1, Ho. done.
  - unfold Publish. rewrite bool_decide_false.
    { eexists. split; [done|]. intros c ch. cbn. rewrite lookup_fmap, fmap_Some. intros (ch0 & H0 & ->).
      by eapply chan_ok_offer, Hok. }
    intros (c & ch & Hc & Hs & Hcl). destruct (Hok _ _ Hc) as (H1 & H2 & _).
    apply H1 in Hs. apply H2 in Hcl. congruence.
  - eexists. split; [done|]. intros c' ch'. cbn. rewrite lookup_alter_Some.
    intros [(<- & ch0 & H0 & ->)|[_ H0]]; [|by eapply Hok].
    destruct (Hok _ _ H0) as (H1 & H2 & H3 & H4). destruct (ch_buf ch0) as [|ev buf] eqn:Hb.
    { split_and!; [done|done|by rewrite Hb|by rewrite Hb]. }
    split_and!; cbn in *; [done|done|lia|]. by rewrite <- app_assoc.
Qed.

(** C20: however subscribing, cancelling, publishing and receiving
    interleave, no publication sends on a closed channel and no channel is
    closed twice; no buffer grows past its capacity; and what a subscriber has received, followed by what
    is waiting for it, is in order a part of what was published. *)
Theorem hub_never_panics h o :
  reachable h → step h o →
  (∃ h', o = Some h') ∧
  ∀ c ch, hub_chans h !! c = Some ch →
    length (ch_buf ch) ≤ subBuffer ∧ sublist (ch_got ch ++ ch_buf ch) (hub_log h).
Proof.
  intros Hr Hs.
  assert (Hok : hub_ok h).
  { apply (rtc_ind_r (R := moves) (λ h, hub_ok h) NewHub); [by apply map_Forall_empty| |done].
    intros h1 h2 _ Hstep Hh1. by destruct (step_ok _ _ Hh1 Hstep) as (h' & [= <-] & ?). }
  split; [by destruct (step_ok _ _ Hok Hs) as (h' & -> & _); eexists|].
  intros c ch Hc. by destruct (Hok _ _ Hc) as (_ & _ & ? & ?).
Qed.

(** Two subscribers, one of which is being cancelled while an event is
    published. *)
Definition sample_event : HubEvent := mkHubEvent "inst-1" "ready" "ok".
Definition sample_hub : Hub := cancel_remove 1 (Subscribe 1 (Subscribe 0 NewHub)).

Lemma hub_never_panics_witness :
  (∃ h', Publish sample_event sample_hub = Some h') ∧
  ∀ c ch, hub_chans sample_hub !! c = Some ch →
    length (ch_buf ch) ≤ subBuffer ∧ sublist (ch_got ch ++ ch_buf ch) (hub_log sample_hub).
Proof.
  apply (hub_never_panics sample_hub (Publish sample_event sample_hub)); [|apply StepPublish].
  eapply rtc_l; [apply (StepSubscribe NewHub 0); reflexivity|].
  eapply rtc_l; [apply (StepSubscribe _ 1); reflexivity|].
  apply rtc_once. by apply (StepRemove _ 1 (mkChan [] true false NotRun [])).
Defined.
