(* ===== verification/Secrets.v ===== *)
(** * Secrets at rest: [internal/secrets]

    Envelope encryption: a secret is sealed under a fresh data key, the data key
    under the key-encryption key.  AES-GCM is an argument ([GCM]), with what the
    package relies on as its laws; an [Open] with a nonce of the wrong length is
    a panic.  The JSON form of a sealed secret is an argument too. *)

From stdpp Require Import gmap strings.
From S2P Require Import Prelude GoStrings Apperr GoMonad PgConfig Instances Stores MetaDB Samples.

(** ** Data *)

Definition CurrentKeyVersion : Z := 1.
Definition keyLen : nat := 32.

(** [Sealed]. *)
Record Sealed := mkSealed {
  sl_Ciphertext : string;
  sl_Nonce : string;
  sl_EncryptedDEK : string;
  sl_DEKNonce : string;
  sl_KeyVersion : Z;
}.

(** AES-256-GCM with a 32-byte key: sealing, and opening with a nonce of the
    right length, which fails when the text was not sealed with this key and
    nonce. *)
Class GCM := {
  gcm_NonceSize : nat;
  gcm_Seal : string → string → string → string;
  gcm_Open : string → string → string → result string;
}.

(** [rand.Read] into a buffer of that length. *)
Class Rand (S : Type) := {
  rand_Read : nat → M S (result string);
}.

(** What a function that may panic returns. *)
Inductive Outcome (A : Type) :=
  | Return (r : result A)
  | Panic.
Arguments Return {A} r.
Arguments Panic {A}.

(** ** Operations *)

Section cipher.
Context {G : GCM} {S : Type} {RD : Rand S}.

(** [newGCM]: the key of the cipher it makes. *)
Definition newGCM (key : string) : result string :=
  if bool_decide (String.length key ≠ keyLen) then Err (Errorf "key must be 32 bytes") else Ok key.

(** [New]. *)
Definition NewCipher (kek : string) : result string :=
  match newGCM kek with
  | Err e => Err (Errorf_w ("secrets: invalid KEK: " +:+ Error e) e)
  | Ok k => Ok k
  end.

(** [seal]. *)
Definition seal (key plaintext : string) : M S (result (string * string)) :=
  nonce <-? rand_Read gcm_NonceSize
    orelse (λ e, fail (Errorf_w ("secrets: generate nonce: " +:+ Error e) e)) ;;
  ok (nonce, gcm_Seal key nonce plaintext).

(** [Encrypt], of the cipher with the key [kek]. *)
Definition Encrypt (kek plaintext : string) : M S (result Sealed) :=
  dek <-? rand_Read keyLen
    orelse (λ e, fail (Errorf_w ("secrets: generate DEK: " +:+ Error e) e)) ;;
  dekGCM <-? lift_r (newGCM dek) ;;
  data <-? seal dekGCM plaintext ;;
  let '(dataNonce, ciphertext) := data in
  wrapped <-? seal kek dek ;;
  let '(dekNonce, wrappedDEK) := wrapped in
  ok (mkSealed ciphertext dataNonce wrappedDEK dekNonce CurrentKeyVersion).

(** [gcm.Open]: a panic unless the nonce has the right length. *)
Definition open_or_panic (key nonce ciphertext : string) (wrap : error → error) : Outcome string :=
  if bool_decide (String.length nonce ≠ gcm_NonceSize) then Panic
  else Return (match gcm_Open key nonce ciphertext with Ok p => Ok p | Err e => Err (wrap e) end).

(** [Decrypt]. *)
Definition Decrypt (kek : string) (s : Sealed) : Outcome string :=
  if bool_decide (String.length (sl_DEKNonce s) ≠ gcm_NonceSize) then
    Return (Err (Errorf "secrets: malformed sealed secret (DEK nonce length)"))
  else
  match open_or_panic kek (sl_DEKNonce s) (sl_EncryptedDEK s)
          (λ e, Errorf_w ("secrets: unwrap DEK: " +:+ Error e) e) with
  | Panic => Panic
  | Return (Err e) => Return (Err e)
  | Return (Ok dek) =>
      match newGCM dek with
      | Err e => Return (Err e)
      | Ok dekGCM =>
          if bool_decide (String.length (sl_Nonce s) ≠ gcm_NonceSize) then
            Return (Err (Errorf "secrets: malformed sealed secret (data nonce length)"))
          else open_or_panic dekGCM (sl_Nonce s) (sl_Ciphertext s)
                 (λ e, Errorf_w ("secrets: decrypt: " +:+ Error e) e)
      end
  end.
End cipher.

(** The laws of AES-GCM and of the random source the package relies on: what was
    sealed opens, and a read fills the buffer. *)
Class GCMLaws `{GCM} := {
  gcm_open_seal key nonce p : gcm_Open key nonce (gcm_Seal key nonce p) = Ok p;
}.
Class RandLaws (S : Type) `{Rand S} := {
  rand_length n s : wp (rand_Read n) (λ r _, match r with Ok b => String.length b = n | Err _ => True end) s;
}.

(** ** What it guarantees *)

Section guarantees.
Context {G : GCM} {GL : GCMLaws} {S : Type} {RD : Rand S} {RL : RandLaws S}.
Implicit Types (s : S).

Lemma wp_seal key p s (Q : result (string * string) → S → Prop) :
  (∀ e s', Q (Err e) s') →
  (∀ nonce s', String.length nonce = gcm_NonceSize → Q (Ok (nonce, gcm_Seal key nonce p)) s') →
  wp (seal key p) Q s.
Proof.
  intros He Ho. unfold seal. apply wp_try_or. eapply wp_mono; [apply rand_length|].
  intros [nonce|e] s' Hn; [by apply wp_ret, Ho|by apply wp_ret, He].
Qed.

Lemma open_seal key nonce p wrap :
  String.length nonce = gcm_NonceSize → open_or_panic key nonce (gcm_Seal key nonce p) wrap = Return (Ok p).
Proof. intros Hn. unfold open_or_panic. rewrite bool_decide_false by (by intros []). by rewrite gcm_open_seal. Qed.

Lemma Encrypt_opens kek plaintext s :
  wp (Encrypt kek plaintext) (λ r _,
    match r with
    | Ok sealed => Decrypt kek sealed = Return (Ok plaintext) ∧ sl_KeyVersion sealed = CurrentKeyVersion
    | Err _ => True
    end) s.
Proof.
  unfold Encrypt. apply wp_try_or. eapply wp_mono; [apply rand_length|].
  intros [dek|e] s1 Hdek; [|by apply wp_ret]. apply wp_try, wp_ret. unfold newGCM at 1.
  rewrite bool_decide_false by (by intros []). apply wp_try, wp_seal; [done|]. intros n1 s2 Hn1.
  apply wp_try, wp_seal; [done|]. intros n2 s3 Hn2. apply wp_ret. split; [|done].
  unfold Decrypt. cbn [sl_DEKNonce sl_EncryptedDEK sl_Nonce sl_Ciphertext].
  rewrite bool_decide_false by (by intros []). rewrite open_seal by done. unfold newGCM.
  rewrite !bool_decide_false by (by intros []). by apply open_seal.
Qed.

(** C37: what [Encrypt] seals, [Decrypt] with the same key gives
    back, whatever random bytes were drawn; and [Decrypt] never panics: any sealed
    value, however its nonces were truncated, gives a result. *)
Theorem secret_roundtrip kek plaintext s :
  wp (Encrypt kek plaintext) (λ r _,
    match r with
    | Ok sealed => Decrypt kek sealed = Return (Ok plaintext) ∧ sl_KeyVersion sealed = CurrentKeyVersion
    | Err _ => True
    end) s ∧
  ∀ sealed, ∃ r, Decrypt kek sealed = Return r.
Proof.
  split; [apply Encrypt_opens|]. intros sealed. unfold Decrypt, open_or_panic. case_bool_decide as H1; [by eexists|].
  destruct (gcm_Open kek _ _) as [dek|e]; [|by eexists]. destruct (newGCM dek) as [k|e]; [|by eexists].
  case_bool_decide as H2; by eexists.
Qed.
End guarantees.

(** ** Stored passwords *)

(** [encoding/json] on the wire form of a sealed secret, and its law: what was
    marshalled is read back. *)
Class SealedJSON := {
  json_Marshal : Sealed → result string;
  json_Unmarshal : string → result Sealed;
}.
Class SealedJSONLaws `{SealedJSON} := {
  json_roundtrip sealed blob : json_Marshal sealed = Ok blob → json_Unmarshal blob = Ok sealed;
}.

Section codec.
Context {G : GCM} {S : Type} {RD : Rand S} {J : SealedJSON}.

(** [Marshal]. *)
Definition Marshal (s : Sealed) : result string := json_Marshal s.

(** [Unmarshal]. *)
Definition Unmarshal (data : string) : result Sealed :=
  match json_Unmarshal data with
  | Err e => Err (Errorf_w ("secrets: unmarshal sealed: " +:+ Error e) e)
  | Ok s => Ok s
  end.

(** What [Repository.Create] stores for a password: sealed with the randomness of
    that moment, then marshalled. *)
Definition seal_with (kek : string) (entropy : Z → S) (n : Z) (p : string) : result string :=
  match (Encrypt kek p (entropy n)).1 with
  | Err e => Err (Wrap KindInternal "instance: encrypt password" e)
  | Ok sealed =>
      match Marshal sealed with
      | Err e => Err (Wrap KindInternal "instance: marshal secret" e)
      | Ok blob => Ok blob
      end
  end.

Lemma Decrypt_returns kek sealed : { r | Decrypt kek sealed = Return r }.
Proof.
  unfold Decrypt, open_or_panic. case_bool_decide as H1; [by eexists|].
  destruct (gcm_Open kek _ _) as [dek|e]; [|by eexists]. destruct (newGCM dek) as [k|e]; [|by eexists].
  case_bool_decide as H2; by eexists.
Defined.

(** What [Repository.Password] makes of the stored blob; the opening returns. *)
Definition open_with (kek : string) (blob : string) : result string :=
  match Unmarshal blob with
  | Err e => Err (Wrap KindInternal "instance: unmarshal secret" e)
  | Ok sealed =>
      match proj1_sig (Decrypt_returns kek sealed) with
      | Err e => Err (Wrap KindInternal "instance: decrypt secret" e)
      | Ok plain => Ok plain
      end
  end.
End codec.

Section stored.
Context {G : GCM} {GL : GCMLaws} {S : Type} {RD : Rand S} {RL : RandLaws S} {J : SealedJSON} {JL : SealedJSONLaws}.

Lemma open_sealed kek entropy n p blob :
  seal_with kek entropy n p = Ok blob → open_with kek blob = Ok p.
Proof.
  unfold seal_with, open_with, Unmarshal, Marshal. pose proof (Encrypt_opens kek p (entropy n)) as H. unfold wp in H.
  destruct (Encrypt kek p (entropy n)) as [[sealed|e] s']; cbn [fst]; [|done]. destruct (json_Marshal sealed) as [b|] eqn:Hj; [|done]. intros [= <-].
  rewrite (json_roundtrip _ _ Hj). destruct (Decrypt_returns kek sealed) as [r Hr]. cbn.
  destruct H as [H _]. rewrite Hr in H. by injection H as ->.
Qed.

(** The superuser password an instance was created with,
    sealed under the key with whatever random bytes and stored as JSON, is what
    [Password] reads back, unless the database fails. *)
Theorem stored_password kek entropy n (db : DB) i db1 :
  Repository_Create (seal_with kek entropy) n db = (Ok i, db1) →
  match (Repository_Password (open_with kek) (inst_ID i) db1).1 with
  | Ok p => p = ni_Password n
  | Err e => Kind e = KindInternal ∧ env_fault (db_env db1) (db_qn (db_next db1)) ≠ None
  end.
Proof.
  unfold Repository_Create, try, try_or, bind, lift_r, ret.
  destruct (NewInstance_Validate n) as [[]|]; [|done].
  destruct (seal_with _ _ (db_qn db) (ni_Password (applyDefaults n))) as [blob|e] eqn:Hs; [|done].
  unfold statement. destruct (env_fault _ _); [by destruct (is_unique e)|].
  unfold insert_row. destruct (db_instances (db_next db) !! _); [done|].
  destruct (row_error _ _) as [e|]; [by destruct (is_unique e)|].
  unfold ok, ret. cbn [fst snd]. intros [= <- <-].
  unfold Repository_Password, try_or, bind, statement. cbn [fst snd inst_ID].
  match goal with |- context [env_fault ?a ?b] => destruct (env_fault a b) eqn:Hf end.
  { split; [done|]. intros E. discriminate (eq_trans (eq_sym Hf) E). }
  cbn [put_row db_set_instances db_instances db_next fst snd inst_ID]. rewrite lookup_insert_eq. cbn [fmap option_fmap option_map snd].
  rewrite (open_sealed _ _ _ _ _ Hs). cbn. by destruct n.
Qed.
End stored.

(** A cipher that writes the key and the nonce in front of the text, and a source
    of zeros. *)
#[local] Instance sample_gcm : GCM := {|
  gcm_NonceSize := 12;
  gcm_Seal key nonce p := key +:+ nonce +:+ p;
  gcm_Open key nonce c :=
    if HasPrefix c (key +:+ nonce) then Ok (str_drop (String.length (key +:+ nonce)) c)
    else Err (Errorf "cipher: message authentication failed");
|}.
#[local] Instance sample_gcm_laws : GCMLaws.
Proof.
  split. intros key nonce p. cbn [gcm_Open gcm_Seal sample_gcm].
  unfold HasPrefix. by rewrite <- app_assoc_str, prefix_app, str_drop_app.
Qed.

Fixpoint zeros (n : nat) : string := match n with O => "" | S n => "0" +:+ zeros n end.
Lemma zeros_length n : String.length (zeros n) = n.
Proof. induction n as [|n IH]; [done|]. cbn [zeros]. by rewrite length_app_str, IH. Qed.
#[local] Instance sample_rand : Rand unit := {| rand_Read n := ok (zeros n) |}.
#[local] Instance sample_rand_laws : RandLaws unit.
Proof. split. intros n s. apply wp_ret. apply zeros_length. Qed.

Lemma secret_roundtrip_witness :
  ∃ sealed, (Encrypt (zeros 32) "hunter2" tt).1 = Ok sealed ∧ Decrypt (zeros 32) sealed = Return (Ok "hunter2").
Proof.
  pose proof (secret_roundtrip (zeros 32) "hunter2" tt) as [H _]. unfold wp in H.
  destruct (Encrypt (zeros 32) "hunter2" tt) as [[sealed|e] s'] eqn:E; [|exfalso; revert E; vm_compute; discriminate].
  exists sealed. split; [reflexivity|exact (proj1 H)].
Defined.

(** A form for the values this source of zeros gives: only the text varies. *)
Definition zeros_sealed (ciphertext : string) : Sealed :=
  mkSealed ciphertext (zeros 12) (zeros 32 +:+ zeros 12 +:+ zeros 32) (zeros 12) CurrentKeyVersion.
#[local] Instance Sealed_eq_dec : EqDecision Sealed.
Proof. solve_decision. Defined.
#[local] Instance sample_json : SealedJSON := {|
  json_Marshal s :=
    if decide (s = zeros_sealed (sl_Ciphertext s)) then Ok (sl_Ciphertext s)
    else Err (Errorf "json: not a value of this source");
  json_Unmarshal b := Ok (zeros_sealed b);
|}.
#[local] Instance sample_json_laws : SealedJSONLaws.
Proof. split. intros s b. cbn. destruct (decide _) as [E|]; [|done]. intros [= <-]. by rewrite <- E. Qed.

(** An instance created on the empty database, its password sealed. *)
Lemma stored_password_witness :
  ∃ i db1, Repository_Create (seal_with (zeros 32) (λ _, tt)) (sample_new "orders" "" "") (emptyDB sample_env) = (Ok i, db1) ∧
    (Repository_Password (open_with (zeros 32)) (inst_ID i) db1).1 = Ok "secret-password".
Proof.
  destruct (Repository_Create (seal_with (zeros 32) (λ _, tt)) (sample_new "orders" "" "") (emptyDB sample_env)) as [[i|e] db1] eqn:E;
    [|exfalso; revert E; vm_compute; discriminate].
  exists i, db1. split; [reflexivity|]. assert (env_fault (db_env db1) (db_qn (db_next db1)) = None) as Hf.
  { change db1 with (Ok i, db1).2. rewrite <- E. vm_compute. reflexivity. }
  pose proof (stored_password (zeros 32) (λ _, tt) (sample_new "orders" "" "") (emptyDB sample_env) i db1 E) as H.
  destruct (Repository_Password (open_with (zeros 32)) (inst_ID i) db1).1 as [p|e]; [by rewrite H|].
  destruct H as [_ []]. exact Hf.
Defined.
