(* ===== verification/Scheduler.v ===== *)
(** * The job scheduler: [internal/scheduler]

    One goroutine per job, started and stopped together.  [Start] and [Stop] are
    short critical sections with unlocked code in between, so the scheduler is a
    transition system: its state is the fields of the struct, the goroutines of
    the jobs and the calls in progress, and a step is one critical section, one
    goroutine launched, one tick, one run that ends, or one goroutine that sees
    its context cancelled.  [scheduler_serial] says what holds when calls of
    [Start] and [Stop] do not overlap, [stop_terminates] that a [Stop] ends, and
    [overlapping_calls_orphan] that a [Stop] that overlaps a [Start] can leave
    goroutines nobody can stop. *)

From stdpp Require Import gmap list.
From S2P Require Import Prelude GoStrings Apperr GoMonad.

(** ** Data *)

(** [job]; what a run does is the environment's. *)
Record SchedJob := mkJob { sj_name : string; sj_interval : Z }.
#[export] Instance SchedJob_eq_dec : EqDecision SchedJob.
Proof. solve_decision. Defined.

(** A goroutine of [loop]: the [Start] whose context it has, its job, and whether
    it is in the middle of a run. *)
Record Loop := mkLoop { lp_batch : nat; lp_job : SchedJob; lp_running : bool }.

(** A call in progress: [Start] after its critical section with the jobs it still
    has to launch; [Stop] before reading [cancel], with the function it read,
    waiting for the goroutines, and about to clear [cancel]. *)
Inductive SchedCall :=
  | Starting (b : nat) (todo : list SchedJob)
  | StopRead
  | StopCancel (cancel : option nat)
  | StopWait
  | StopClear.

(** [Scheduler]: the registered jobs and [cancel], the context it cancels named by
    the [Start] that made it; the contexts cancelled, whether the caller's
    context is, the goroutines, the calls in progress, and what [onError] got. *)
Record Scheduler := mkScheduler {
  sc_jobs : list SchedJob;
  sc_cancel : option nat;
  sc_next : nat;
  sc_cancelled : gset nat;
  sc_parent : bool;
  sc_loops : list Loop;
  sc_calls : list SchedCall;
  sc_errors : list (string * string);
}.

(** [New]. *)
Definition NewScheduler : Scheduler := mkScheduler [] None 0 ∅ false [] [] [].

Definition set_loops (loops : list Loop) (s : Scheduler) : Scheduler :=
  mkScheduler (sc_jobs s) (sc_cancel s) (sc_next s) (sc_cancelled s) (sc_parent s) loops (sc_calls s) (sc_errors s).
Definition set_calls (calls : list SchedCall) (s : Scheduler) : Scheduler :=
  mkScheduler (sc_jobs s) (sc_cancel s) (sc_next s) (sc_cancelled s) (sc_parent s) (sc_loops s) calls (sc_errors s).
Definition set_cancel (c : option nat) (s : Scheduler) : Scheduler :=
  mkScheduler (sc_jobs s) c (sc_next s) (sc_cancelled s) (sc_parent s) (sc_loops s) (sc_calls s) (sc_errors s).

(** Is the context of a [Start] done? *)
Definition ctx_done (s : Scheduler) (b : nat) : bool := sc_parent s || bool_decide (b ∈ sc_cancelled s).

(** ** Operations *)

(** [Register]. *)
Definition Register (j : SchedJob) (s : Scheduler) : Scheduler :=
  mkScheduler (sc_jobs s ++ [j]) (sc_cancel s) (sc_next s) (sc_cancelled s) (sc_parent s) (sc_loops s) (sc_calls s)
    (sc_errors s).

(** The critical section of [Start]: nothing when [cancel] is set, otherwise the
    call goes on to launch the jobs of this moment. *)
Definition Sched_Start (s : Scheduler) : Scheduler :=
  match sc_cancel s with
  | Some _ => s
  | None =>
      let b := sc_next s in
      mkScheduler (sc_jobs s) (Some b) (S b) (sc_cancelled s) (sc_parent s) (sc_loops s)
        (Starting b (sc_jobs s) :: sc_calls s) (sc_errors s)
  end.

(** [go s.loop(ctx, j)]. *)
Definition launch (b : nat) (j : SchedJob) (s : Scheduler) : Scheduler :=
  set_loops (mkLoop b j false :: sc_loops s) s.

(** [cancel()]. *)
Definition cancel_ctx (c : option nat) (s : Scheduler) : Scheduler :=
  mkScheduler (sc_jobs s) (sc_cancel s) (sc_next s)
    (match c with Some b => {[ b ]} ∪ sc_cancelled s | None => sc_cancelled s end)
    (sc_parent s) (sc_loops s) (sc_calls s) (sc_errors s).

(** What a run of a job does; [runOnce] turns a panic into an error. *)
Inductive JobRun := RunOk | RunErr (e : error) | RunPanic (value : string).
Definition runOnce (j : SchedJob) (r : JobRun) : result unit :=
  match r with
  | RunOk => Ok tt
  | RunErr e => Err e
  | RunPanic v => Err (Errorf ("job " +:+ Quote (sj_name j) +:+ " panicked: " +:+ v))
  end.

(** The end of a run in [loop]: an error goes to the handler, the goroutine waits
    again. *)
Definition run_ends (j : SchedJob) (r : JobRun) (s : Scheduler) : Scheduler :=
  mkScheduler (sc_jobs s) (sc_cancel s) (sc_next s) (sc_cancelled s) (sc_parent s) (sc_loops s) (sc_calls s)
    (match runOnce j r with Ok _ => sc_errors s | Err e => sc_errors s ++ [(sj_name j, Error e)] end).

(** ** Steps *)

(** A step of a call in progress or of a goroutine that moves towards its end. *)
Inductive work_step (s : Scheduler) : Scheduler → Prop :=
  | work_launch b j todo pre post :
      sc_calls s = pre ++ Starting b (j :: todo) :: post →
      work_step s (launch b j (set_calls (pre ++ Starting b todo :: post) s))
  | work_started b pre post :
      sc_calls s = pre ++ Starting b [] :: post → work_step s (set_calls (pre ++ post) s)
  | work_read pre post :
      sc_calls s = pre ++ StopRead :: post →
      work_step s (set_calls (pre ++ StopCancel (sc_cancel s) :: post) s)
  | work_cancel c pre post :
      sc_calls s = pre ++ StopCancel c :: post →
      work_step s (cancel_ctx c (set_calls (pre ++ StopWait :: post) s))
  | work_waited pre post :
      sc_calls s = pre ++ StopWait :: post → sc_loops s = [] →
      work_step s (set_calls (pre ++ StopClear :: post) s)
  | work_clear pre post :
      sc_calls s = pre ++ StopClear :: post →
      work_step s (set_cancel None (set_calls (pre ++ post) s))
  | work_run_ends b j r pre post :
      sc_loops s = pre ++ mkLoop b j true :: post →
      work_step s (run_ends j r (set_loops (pre ++ mkLoop b j false :: post) s))
  | work_exit b j pre post :
      sc_loops s = pre ++ mkLoop b j false :: post → ctx_done s b = true →
      work_step s (set_loops (pre ++ post) s).

(** A step of the world outside: a registration, a call, a tick, the end of the
    caller's context.  [serial] allows a call only when none is in progress. *)
Inductive outside_step (serial : bool) (s : Scheduler) : Scheduler → Prop :=
  | out_register j : outside_step serial s (Register j s)
  | out_start : (serial = true → sc_calls s = []) → outside_step serial s (Sched_Start s)
  | out_stop : (serial = true → sc_calls s = []) → outside_step serial s (set_calls (StopRead :: sc_calls s) s)
  | out_tick b j pre post :
      sc_loops s = pre ++ mkLoop b j false :: post →
      outside_step serial s (set_loops (pre ++ mkLoop b j true :: post) s)
  | out_parent :
      outside_step serial s (mkScheduler (sc_jobs s) (sc_cancel s) (sc_next s) (sc_cancelled s) true (sc_loops s)
        (sc_calls s) (sc_errors s)).

Definition sched_step (serial : bool) (s s' : Scheduler) : Prop := work_step s s' ∨ outside_step serial s s'.
Definition sched_reachable (serial : bool) (s : Scheduler) : Prop := rtc (sched_step serial) NewScheduler s.

(** ** Calls that do not overlap *)

(** What holds of each call in progress. *)
Definition call_ok (s : Scheduler) (c : SchedCall) : Prop :=
  match c with
  | Starting b todo => sc_cancel s = Some b ∧ (todo ++ (lp_job <$> sc_loops s)) ⊆+ sc_jobs s
  | StopRead => True
  | StopCancel c => c = sc_cancel s
  | StopWait => ∀ b, sc_cancel s = Some b → ctx_done s b = true
  | StopClear => sc_loops s = []
  end.

Record serial_ok (s : Scheduler) : Prop := {
  ser_one : length (sc_calls s) ≤ 1;
  ser_calls : Forall (call_ok s) (sc_calls s);
  ser_owned : Forall (λ l, sc_cancel s = Some (lp_batch l)) (sc_loops s);
  ser_jobs : (lp_job <$> sc_loops s) ⊆+ sc_jobs s;
}.

(** A call in the list of at most one call. *)
Lemma only_call {A} (l pre post : list A) x :
  length l ≤ 1 → l = pre ++ x :: post → l = [x] ∧ pre = [] ∧ post = [].
Proof.
  intros Hl ->. rewrite length_app in Hl. cbn in Hl.
  destruct pre; [|cbn in Hl; lia]. destruct post; [done|cbn in Hl; lia].
Qed.

(** A call stays in order when goroutines end, jobs are added and contexts are
    cancelled. *)
Lemma call_ok_mono s s' c :
  sc_cancel s' = sc_cancel s → sc_jobs s ⊆+ sc_jobs s' →
  (lp_job <$> sc_loops s') ⊆+ (lp_job <$> sc_loops s) →
  (∀ b, ctx_done s b = true → ctx_done s' b = true) →
  call_ok s c → call_ok s' c.
Proof.
  intros Hc Hj Hl Hd. destruct c as [b todo| |c| |]; cbn; rewrite ?Hc; try done.
  - intros [Hb Hs]. split; [done|]. etrans; [|exact Hj]. etrans; [|exact Hs]. by apply submseteq_skips_l.
  - intros H b Hb. by apply Hd, H.
  - intros H. rewrite H in Hl. apply submseteq_nil_r, fmap_nil_inv in Hl. done.
Qed.

Lemma serial_ok_mono s s' :
  serial_ok s → sc_calls s' = sc_calls s → sc_cancel s' = sc_cancel s → sc_jobs s ⊆+ sc_jobs s' →
  (lp_job <$> sc_loops s') ⊆+ (lp_job <$> sc_loops s) →
  Forall (λ l, sc_cancel s = Some (lp_batch l)) (sc_loops s') →
  (∀ b, ctx_done s b = true → ctx_done s' b = true) → serial_ok s'.
Proof.
  intros [H1 Hc Ho Hj] Ecalls Ecancel Hjobs Hl Ho' Hd. split.
  - by rewrite Ecalls.
  - rewrite Ecalls. eapply Forall_impl; [exact Hc|]. intros c. by apply call_ok_mono.
  - by rewrite Ecancel.
  - etrans; [exact Hl|]. by etrans.
Qed.

(** One goroutine starts or ends a run. *)
Lemma serial_ok_flip s s' b j r r' pre post :
  serial_ok s → sc_loops s = pre ++ mkLoop b j r :: post →
  sc_loops s' = pre ++ mkLoop b j r' :: post →
  sc_calls s' = sc_calls s → sc_cancel s' = sc_cancel s → sc_jobs s' = sc_jobs s →
  (∀ b, ctx_done s b = true → ctx_done s' b = true) → serial_ok s'.
Proof.
  intros Hok El El' Ecalls Ecancel Ejobs Hd. apply (serial_ok_mono s); try done.
  - by rewrite Ejobs.
  - by rewrite El, El', !fmap_app.
  - pose proof (ser_owned _ Hok) as Ho. rewrite El in Ho. rewrite El'.
    apply Forall_app in Ho as [Hp [Hb Hq]%Forall_cons]. apply Forall_app. by split; [|constructor].
Qed.

Lemma work_step_ok s s' : serial_ok s → work_step s s' → serial_ok s'.
Proof.
  intros Hok Hs. pose proof Hok as [H1 Hc Ho Hj].
  destruct Hs as [b j todo pre post E|b pre post E|pre post E|c pre post E|pre post E El|pre post E
    |b j r pre post E|b j pre post E Hd].
  1-6: destruct (only_call _ _ _ _ H1 E) as (E1 & -> & ->); rewrite E1, Forall_singleton in Hc; cbn in Hc.
  - destruct Hc as [Hb Hsub]. split; cbn; [lia| |by constructor|].
    + apply Forall_singleton. cbn. split; [done|]. by rewrite <- Permutation_middle.
    + etrans; [|exact Hsub]. apply submseteq_skip, submseteq_inserts_l. done.
  - split; cbn; [lia|constructor|done..].
  - split; cbn; [lia|by apply Forall_singleton|done..].
  - split; cbn; [lia| |done..]. apply Forall_singleton. intros b Hb. cbn in Hb. rewrite Hc, Hb.
    unfold ctx_done. cbn. apply orb_true_iff. right. apply bool_decide_eq_true. set_solver.
  - split; cbn; [lia|by apply Forall_singleton|done..].
  - split; cbn; [lia|constructor| |done]. by rewrite Hc.
  - by apply (serial_ok_flip s _ b j true false pre post).
  - apply (serial_ok_mono s); try done; cbn.
    + rewrite E, !fmap_app. apply submseteq_skips_l. by apply submseteq_cons.
    + rewrite E in Ho. apply Forall_app in Ho as [Hp [_ Hq]%Forall_cons]. by apply Forall_app.
Qed.

Lemma outside_step_ok s s' : serial_ok s → outside_step true s s' → serial_ok s'.
Proof.
  intros Hok Hs. pose proof Hok as [H1 Hc Ho Hj]. destruct Hs as [j|E|E|b j pre post E|].
  - apply (serial_ok_mono s); try done; cbn. by apply submseteq_inserts_r.
  - unfold Sched_Start. destruct (sc_cancel s) eqn:Ec; [done|]. assert (sc_loops s = []) as El.
    { destruct (sc_loops s) as [|l ls]; [done|]. by apply Forall_cons in Ho as [H _]. }
    specialize (E eq_refl). split; cbn; rewrite ?E, ?El; cbn; [lia| |constructor|apply submseteq_nil_l].
    apply Forall_singleton. cbn. by rewrite app_nil_r.
  - specialize (E eq_refl). split; cbn; rewrite ?E; [cbn; lia|by apply Forall_singleton|done..].
  - by apply (serial_ok_flip s _ b j false true pre post).
  - by apply (serial_ok_mono s).
Qed.

Lemma serial_reachable_ok s : sched_reachable true s → serial_ok s.
Proof.
  intros Hr. apply (rtc_ind_r (R := sched_step true) (λ s, serial_ok s) NewScheduler); [| |done].
  - split; cbn; [lia|constructor|constructor|done].
  - intros s1 s2 _ [Hs|Hs] H1; [by eapply work_step_ok|by eapply outside_step_ok].
Qed.

(** C21: when calls of [Start] and [Stop] do not overlap, then however
    they, ticks, runs and registrations follow each other, no goroutine is
    orphaned (each has the context that [cancel] cancels), no registered job has
    more goroutines than registrations, and once [Stop] has returned there are
    none. *)
Theorem scheduler_serial s :
  sched_reachable true s →
  (∀ l, l ∈ sc_loops s → sc_cancel s = Some (lp_batch l)) ∧
  (lp_job <$> sc_loops s) ⊆+ sc_jobs s ∧
  (sc_cancel s = None → sc_loops s = []).
Proof.
  intros Hr. destruct (serial_reachable_ok s Hr) as [_ _ Ho Hj]. split_and!; [|done|].
  - by apply Forall_forall.
  - intros Hc. destruct (sc_loops s) as [|l ls]; [done|]. apply Forall_cons in Ho as [H _]. congruence.
Qed.

(** ** Stopping ends *)

Definition call_size (c : SchedCall) : nat :=
  match c with
  | Starting _ todo => 1 + 2 * length todo
  | StopRead => 4
  | StopCancel _ => 3
  | StopWait => 2
  | StopClear => 1
  end.
Definition loop_size (l : Loop) : nat := if lp_running l then 2 else 1.

(** What the calls in progress and the goroutines still have to do. *)
Definition left_to_do (s : Scheduler) : nat :=
  sum_list_with call_size (sc_calls s) + sum_list_with loop_size (sc_loops s).

Lemma work_step_decreases s s' : work_step s s' → left_to_do s' < left_to_do s.
Proof.
  intros Hs. destruct Hs as [b j todo pre post E|b pre post E|pre post E|c pre post E|pre post E El|pre post E
    |b j r pre post E|b j pre post E Hd]; unfold left_to_do; cbn;
    rewrite E; rewrite !sum_list_with_app; cbn; lia.
Qed.

(** A call in progress can go on, or a goroutine can, unless it waits for a tick
    while no one stops it. *)
Lemma work_step_enabled s :
  serial_ok s → sc_calls s ≠ [] → ∃ s', work_step s s'.
Proof.
  intros [H1 Hc Ho Hj] Hne. destruct (sc_calls s) as [|c [|]] eqn:E; [done| |cbn in H1; lia].
  rewrite Forall_singleton in Hc. destruct c as [b [|j todo]| |c| |].
  - eexists. by apply (work_started s b [] []).
  - eexists. by apply (work_launch s b j todo [] []).
  - eexists. by apply (work_read s [] []).
  - eexists. by apply (work_cancel s c [] []).
  - destruct (sc_loops s) as [|[b j []] ls] eqn:El; cbn in Hc.
    + eexists. by apply (work_waited s [] []).
    + eexists. by apply (work_run_ends s b j RunOk [] ls).
    + eexists. apply (work_exit s b j [] ls); [done|]. apply Hc. by apply Forall_cons in Ho as [Hb _].
  - eexists. by apply (work_clear s [] []).
Qed.

(** C38: a call in progress ends: some step of it or of a goroutine can
    always be taken, and every such step leaves less to do, so only ticks can
    keep a [Stop] waiting; when the ticks cease, the calls are over after at most
    [left_to_do] steps, and the goroutines of a stopped scheduler are gone. *)
Theorem stop_terminates s :
  sched_reachable true s →
  (∀ s', work_step s s' → left_to_do s' < left_to_do s) ∧
  (sc_calls s ≠ [] → ∃ s', work_step s s') ∧
  ∃ n s', n ≤ left_to_do s ∧ nsteps work_step n s s' ∧ sc_calls s' = [] ∧
    (sc_cancel s' = None → sc_loops s' = []).
Proof.
  intros Hr%serial_reachable_ok. split; [apply work_step_decreases|]. split; [by apply work_step_enabled|].
  remember (left_to_do s) as k eqn:Ek. assert (left_to_do s ≤ k) as Hk by lia. clear Ek.
  revert s Hr Hk. induction k as [|k IH]; intros s Hok Hk;
    (destruct (decide (length (sc_calls s) = 0)) as [Hc%nil_length_inv|Hc];
     [exists 0, s; split_and!; [lia|constructor|done|];
      intros Hn; destruct (sc_loops s) as [|l ls] eqn:El; [done|];
      pose proof (ser_owned _ Hok) as Ho; rewrite El in Ho; apply Forall_cons in Ho as [Ho _]; congruence|]).
  all: destruct (work_step_enabled s Hok) as [s1 Hs1]; [by intros E; rewrite E in Hc|];
    pose proof (work_step_decreases _ _ Hs1).
  { lia. }
  destruct (IH s1) as (n & s' & Hn & Hs' & ?); [by eapply work_step_ok|lia|].
  exists (S n), s'. split; [lia|]. split; [by econstructor|done].
Qed.

(** ** Calls that overlap *)

(** A [Stop] that reads [cancel] before a [Start] sets it, and clears it after:
    the goroutines of that [Start] run on with a context no one can cancel. *)
Theorem overlapping_calls_orphan :
  ∃ s, sched_reachable false s ∧ sc_calls s = [] ∧ sc_cancel s = None ∧
    ∃ l, sc_loops s = [l] ∧ ctx_done s (lp_batch l) = false.
Proof.
  pose (j := mkJob "reconcile" 30).
  eexists. split; [|split; [|split; [|eexists; split]]].
  - eapply rtc_l; [right; apply (out_register false _ j)|].
    eapply rtc_l; [right; apply (out_stop false); done|].
    eapply rtc_l; [left; apply (work_read _ [] []); reflexivity|].
    eapply rtc_l; [right; apply (out_start false); done|]. cbn.
    eapply rtc_l; [left; apply (work_cancel _ None [Starting 0 [j]] []); reflexivity|].
    eapply rtc_l; [left; apply (work_waited _ [Starting 0 [j]] []); reflexivity|].
    eapply rtc_l; [left; apply (work_clear _ [Starting 0 [j]] []); reflexivity|].
    eapply rtc_l; [left; apply (work_launch _ 0 j [] [] []); reflexivity|].
    eapply rtc_l; [left; apply (work_started _ 0 [] []); reflexivity|].
    apply rtc_refl.
  - reflexivity.
  - reflexivity.
  - reflexivity.
  - reflexivity.
Qed.

(** A scheduler that was started with one job and is being stopped in the middle
    of a run. *)
Definition sample_job : SchedJob := mkJob "reconcile" 30.
Definition sample_stopping : Scheduler :=
  mkScheduler [sample_job] (Some 0) 1 {[ 0 ]} false [mkLoop 0 sample_job true] [StopWait] [].
Lemma sample_stopping_reachable : sched_reachable true sample_stopping.
Proof.
  eapply rtc_l; [right; apply (out_register true _ sample_job)|].
  eapply rtc_l; [right; apply (out_start true); done|]. cbn.
  eapply rtc_l; [left; apply (work_launch _ 0 sample_job [] [] []); reflexivity|].
  eapply rtc_l; [left; apply (work_started _ 0 [] []); reflexivity|].
  eapply rtc_l; [right; apply (out_tick true _ 0 sample_job [] []); reflexivity|].
  eapply rtc_l; [right; apply (out_stop true); done|].
  eapply rtc_l; [left; apply (work_read _ [] []); reflexivity|].
  eapply rtc_l; [left; apply (work_cancel _ (Some 0) [] []); reflexivity|].
  apply rtc_refl.
Qed.

Lemma scheduler_serial_witness :
  (∀ l, l ∈ sc_loops sample_stopping → sc_cancel sample_stopping = Some (lp_batch l)) ∧
  [sample_job] ⊆+ [sample_job] ∧ (sc_cancel sample_stopping = None → sc_loops sample_stopping = []).
Proof. exact (scheduler_serial sample_stopping sample_stopping_reachable). Defined.

Lemma stop_terminates_witness :
  ∃ n s', n ≤ 4 ∧ nsteps work_step n sample_stopping s' ∧ sc_calls s' = [] ∧
    (sc_cancel s' = None → sc_loops s' = []).
Proof. exact (proj2 (proj2 (stop_terminates sample_stopping sample_stopping_reachable))). Defined.
