(* ===== verification/MetaBackup.v ===== *)
(** * Backups of the meta database: [internal/metabackup]

    Dumps of the control plane's own database in the object store: taking one,
    listing them, keeping the newest, and restoring one.  [pg_dump] and
    [pg_restore] are programs run through [OsExec]; parsing a URL is the library's
    and an argument.  [prune_keeps_newest] is what pruning guarantees. *)

From Stdlib Require Import Ascii Strings.String.
From stdpp Require Import gmap sorting strings.
From S2P Require Import Prelude GoStrings Apperr GoMonad GoTime OsExec ObjectStore.

(** ** Data *)

(** [Service]: its store; the prefix is the one [New] sets. *)
Definition meta_prefix : string := "meta-backups/".

(** [stampKey], of the time [now] and the random bytes drawn. *)
Definition stampKey (now : Z) (rand : result string) : string :=
  meta_prefix +:+ "pgfleet-meta-" +:+ format_stamp now +:+ "-" +:+ uniqueSuffix rand +:+ ".dump".

(** [redactPW]. *)
Definition redactPW (s pw : string) : string :=
  if bool_decide (pw = "") then s else ReplaceAll s pw "****".

(** ** Operations *)

Section operations.
Context {S : Type} {C : S3Client S} {X : OsExec S}.
(** [url.Parse] as [splitDSNPassword] uses it: the user and the password of the
    URL if it has any, and its text with the user alone. *)
Context (url_user : string → option (string * option string * (string → string))).

(** [splitDSNPassword]. *)
Definition splitDSNPassword (dsn : string) : string * string :=
  match url_user dsn with
  | None => (dsn, "")
  | Some (_, None, _) => (dsn, "")
  | Some (user, Some pw, with_user) => (with_user user, pw)
  end.

(** [withPGPassword]. *)
Definition meta_withPGPassword (pw : string) : list string :=
  if bool_decide (pw = "") then os_Environ else os_Environ ++ ["PGPASSWORD=" +:+ pw].

(** [Backup]. *)
Definition MetaBackup (store : S3Config) (now : Z) (rand : result string) (dsn : string) : M S (result string) :=
  let '(clean, pw) := splitDSNPassword dsn in
  r <- exec_Run (mkCmd "pg_dump" ["--format=custom"; "--dbname=" +:+ clean] (meta_withPGPassword pw) "") ;;
  match cr_Err r with
  | Some e =>
      fail (Wrap KindInternal ("metabackup: pg_dump failed: " +:+ redactPW (TrimSpace (cr_Stderr r)) pw) e)
  | None =>
      let key := stampKey now rand in
      _ <-? PutObject store key (cr_Stdout r) ;;
      ok key
  end.

(** [List]. *)
Definition MetaList (store : S3Config) : M S (result (list string)) :=
  keys <-? ListObjects store meta_prefix ;;
  ok (sort_strings keys).

(** [Prune]. *)
Definition Prune (store : S3Config) (keep : Z) : M S (result unit) :=
  if bool_decide (keep ≤ 0)%Z then done_ok else
  keys <-? MetaList store ;;
  if bool_decide (Z.of_nat (length keys) ≤ keep)%Z then done_ok else
  for_each_e (take (length keys - Z.to_nat keep) keys) tt (λ _ key, DeleteObject store key).

(** [Restore]. *)
Definition MetaRestore (store : S3Config) (dsn key : string) : M S (result unit) :=
  data <-? GetObject store key ;;
  let '(clean, pw) := splitDSNPassword dsn in
  r <- exec_Run (mkCmd "pg_restore" ["--clean"; "--if-exists"; "--no-owner"; "--dbname=" +:+ clean]
                   (meta_withPGPassword pw) data) ;;
  match cr_Err r with
  | Some e =>
      fail (Wrap KindInternal ("metabackup: pg_restore failed: " +:+ redactPW (TrimSpace (cr_Stderr r)) pw) e)
  | None => done_ok
  end.
End operations.

(** ** Pruning *)

(** The key of a dump taken at [t]. *)
Definition dump_at (t : Z) (key : string) : Prop :=
  four_digit_year t ∧ ∃ rand, key = stampKey t rand.

(** The order of the keys is the order of the seconds. *)
Lemma stampKey_le t r t' r' :
  four_digit_year t → four_digit_year t' → String.le (stampKey t r) (stampKey t' r') →
  (seconds_of t ≤ seconds_of t')%Z.
Proof.
  intros Ht Ht' Hle. destruct (decide (seconds_of t ≤ seconds_of t')%Z) as [|Hgt]; [done|exfalso].
  pose proof (format_stamp_lt t' t Ht' Ht ltac:(lia)) as Hlt.
  assert (String.compare (stampKey t' r') (stampKey t r) = Lt) as Hc.
  { unfold stampKey. rewrite !compare_app_l. apply compare_app_r; [|done]. by rewrite !fixed_year_length. }
  unfold String.le in Hle. apply Is_true_true in Hle. unfold String.leb in Hle.
  rewrite String.compare_antisym, Hc in Hle. done.
Qed.

Section prune.
Context {S : Type} {C : S3Client S} {L : S3Laws S}.

(** What deleting the first keys of a list leaves, when it stops anywhere. *)
Definition without (done : list string) (m : gmap string string) : gmap string string :=
  filter (λ kv, kv.1 ∉ done) m.

Lemma without_nil m : without [] m = m.
Proof. apply map_filter_id. intros k v _. apply not_elem_of_nil. Qed.

Lemma without_snoc done k m : delete k (without done m) = without (done ++ [k]) m.
Proof.
  apply map_eq. intros j. apply option_eq. intros v. unfold without.
  rewrite lookup_delete_Some, !map_lookup_filter_Some. cbn. rewrite not_elem_of_app, list_elem_of_singleton. naive_solver.
Qed.

Lemma wp_delete_all store keys (Q : result unit → S → Prop) s :
  (∀ e i s', i ≤ length keys → objects s' = without (take i keys) (objects s) → Q (Err e) s') →
  (∀ s', objects s' = without keys (objects s) → Q (Ok tt) s') →
  wp (for_each_e keys tt (λ _ key, DeleteObject store key)) Q s.
Proof.
  intros He Ho.
  apply (wp_for_each_e (λ todo _ s', ∃ done, keys = done ++ todo ∧ objects s' = without done (objects s))).
  - exists []. by rewrite without_nil.
  - intros k todo _ s1 (done & Hk & H1). apply wp_DeleteObject.
    + intros e s' [H|H]; rewrite H1 in H.
      * apply (He e (length done)); [rewrite Hk, length_app; lia|]. by rewrite Hk, take_app_length.
      * apply (He e (length (done ++ [k]))); [rewrite Hk, !length_app; cbn; lia|].
        replace keys with ((done ++ [k]) ++ todo) by (rewrite Hk; by rewrite <- app_assoc).
        by rewrite take_app_length, <- without_snoc.
    + intros s' H. rewrite H1 in H. exists (done ++ [k]). by rewrite Hk, <- app_assoc, <- without_snoc.
  - intros [] s1 (done & Hk & H1). apply Ho. rewrite app_nil_r in Hk. by subst.
Qed.

(** The dumps there are. *)
Definition dumps (m : gmap string string) : gset string :=
  filter (λ k, HasPrefix k meta_prefix = true) (dom m).

Lemma elem_of_dumps m k : k ∈ dumps m ↔ is_Some (m !! k) ∧ HasPrefix k meta_prefix = true.
Proof. unfold dumps. rewrite elem_of_filter, elem_of_dom. naive_solver. Qed.

Lemma lookup_without_is_Some done m k : is_Some (without done m !! k) ↔ is_Some (m !! k) ∧ k ∉ done.
Proof.
  unfold without. split.
  - intros [v Hv]. apply map_lookup_filter_Some in Hv as [Hv Hk]. by split; [eexists|].
  - intros [[v Hv] Hk]. exists v. by apply map_lookup_filter_Some.
Qed.

Lemma dumps_list m l :
  NoDup l → (∀ k, k ∈ l ↔ is_Some (m !! k) ∧ HasPrefix k meta_prefix = true) →
  dumps m = list_to_set l ∧ size (dumps m) = length l.
Proof.
  intros Hnd Hl. assert (dumps m = list_to_set l) as E.
  { apply set_eq. intros k. by rewrite elem_of_dumps, elem_of_list_to_set, Hl. }
  split; [done|]. rewrite E. by apply size_list_to_set.
Qed.

(** What [Prune] leaves when it deletes the first [i] dumps of the sorted list. *)
Definition pruned (keep : Z) (ok : bool) (m m' : gmap string string) : Prop :=
  m' ⊆ m ∧ (∀ k, HasPrefix k meta_prefix = false → m' !! k = m !! k) ∧
  (∀ k t k' t', k ∈ dumps m → k ∉ dumps m' → k' ∈ dumps m' → dump_at t k → dump_at t' k' →
     (seconds_of t ≤ seconds_of t')%Z) ∧
  ((keep ≤ 0)%Z → m' = m) ∧ ((0 < keep)%Z → Z.min keep (Z.of_nat (size (dumps m))) ≤ Z.of_nat (size (dumps m')))%Z ∧
  (ok = true → (0 < keep)%Z → Z.of_nat (size (dumps m')) ≤ keep)%Z.

Lemma pruned_none keep ok m :
  (ok = true → (0 < keep)%Z → Z.of_nat (size (dumps m)) ≤ keep)%Z → pruned keep ok m m.
Proof. intros H. split_and!; try done. lia. Qed.

Lemma pruned_some keep ok m l i :
  (0 < keep)%Z → NoDup l → StronglySorted String.le l →
  (∀ k, k ∈ l ↔ is_Some (m !! k) ∧ HasPrefix k meta_prefix = true) →
  i ≤ length l - Z.to_nat keep → (ok = true → i = length l - Z.to_nat keep) →
  pruned keep ok m (without (take i l) m).
Proof.
  intros Hkeep Hnd Hsort Hl Hi Hok. destruct (dumps_list m l Hnd Hl) as [Hd Hsize].
  assert (NoDup (take i l ++ drop i l)) as Hnd2 by by rewrite take_drop.
  apply NoDup_app in Hnd2 as (_ & Hdisj & Hnd2).
  assert (∀ k, k ∈ drop i l ↔ is_Some (without (take i l) m !! k) ∧ HasPrefix k meta_prefix = true) as Hl'.
  { intros k. rewrite lookup_without_is_Some.
    assert (k ∈ l ↔ k ∈ take i l ∨ k ∈ drop i l) as Hk by (rewrite <- elem_of_app, take_drop; done).
    rewrite Hl in Hk. specialize (Hdisj k). naive_solver. }
  destruct (dumps_list _ _ Hnd2 Hl') as [Hd' Hsize']. rewrite length_drop in Hsize'.
  split_and!; [apply map_filter_subseteq| | |lia|lia|intros ->%Hok; lia].
  - intros k Hk. apply option_eq. intros v. unfold without. rewrite map_lookup_filter_Some. cbn. split; [by intros [? _]|].
    intros Hv. split; [done|]. intros Hin. assert (k ∈ l) as Hkl.
    { rewrite <- (take_drop i l). apply elem_of_app. by left. }
    apply Hl in Hkl as [_ Hp]. congruence.
  - intros k t k' t' Hk Hnk Hk' (Ht & r & ->) (Ht' & r' & ->). apply (stampKey_le t r t' r' Ht Ht').
    rewrite Hd, elem_of_list_to_set in Hk. rewrite Hd', elem_of_list_to_set in Hnk, Hk'.
    rewrite <- (take_drop i l) in Hk, Hsort. apply elem_of_app in Hk as [Hk|]; [|done].
    by eapply StronglySorted_app_1_elem_of.
Qed.

(** Pruning removes dumps only, never a dump taken after one
    that stays, and never goes below the number to keep; this holds also when
    listing or a deletion fails, or has its effect and fails.  When it succeeds
    exactly the newest [keep] are left. *)
Theorem prune_keeps_newest store keep s :
  wp (Prune store keep) (λ r s', pruned keep (is_ok r) (objects s) (objects s')) s.
Proof.
  unfold Prune. case_bool_decide as Hk; [by apply wp_ret, pruned_none; intros; lia|].
  apply wp_try. unfold MetaList. apply wp_try, wp_ListObjects.
  - intros e s' H. rewrite H. by apply pruned_none.
  - intros keys s1 H1 Hnd Hkeys. apply wp_ret.
    assert (∀ k, k ∈ sort_strings keys ↔ is_Some (objects s !! k) ∧ HasPrefix k meta_prefix = true) as Hl
      by (intros k; by rewrite sort_strings_perm).
    assert (NoDup (sort_strings keys)) as Hnd' by by rewrite sort_strings_perm.
    pose proof (sort_strings_sorted keys) as Hsort. set (l := sort_strings keys) in *. case_bool_decide as Hn.
    + apply wp_ret. rewrite H1. apply pruned_none. destruct (dumps_list _ _ Hnd' Hl) as [_ ->]. lia.
    + apply wp_delete_all; rewrite H1.
      * intros e i s' Hi Hs'. rewrite Hs', take_take. apply pruned_some; try done; [lia|]. rewrite length_take in Hi. lia.
      * intros s' Hs'. rewrite Hs'. apply pruned_some; try done. lia.
Qed.
End prune.

(** Three dumps in memory, two of them to keep. *)
Definition sample_dumps : gmap string string :=
  list_to_map [(stampKey 0 (Ok "aaaaaa"), "first"); (stampKey 1709210096000000000 (Ok "aaaaaa"), "third");
               (stampKey 951782399000000000 (Ok "zzzzzz"), "second"); ("other", "kept")].
Example prune_sample :
  map_to_list (Prune (mkS3Config "minio:9000" "" "key" "secret" "bucket" false false) 2 sample_dumps).2 ≡ₚ
  [(stampKey 1709210096000000000 (Ok "aaaaaa"), "third"); (stampKey 951782399000000000 (Ok "zzzzzz"), "second");
   ("other", "kept")].
Proof. apply (bool_decide_unpack _). vm_compute. reflexivity. Qed.

Definition sample_store : S3Config := mkS3Config "minio:9000" "" "key" "secret" "bucket" false false.
Lemma prune_keeps_newest_witness :
  pruned 2 true sample_dumps (Prune sample_store 2 sample_dumps).2.
Proof.
  pose proof (prune_keeps_newest sample_store 2 sample_dumps) as H.
  assert (is_ok (Prune sample_store 2 sample_dumps).1 = true) as E by (vm_compute; reflexivity).
  revert H E. unfold wp. destruct (Prune sample_store 2 sample_dumps) as [r s']. intros H E.
  cbn [fst snd] in *. rewrite E in H. exact H.
Defined.
