(* ===== verification/RemoteBackup.v ===== *)
(** * Remote backups: [internal/remotebackup]

    Capturing a dump of a database PgFleet does not manage and restoring it into
    a fresh target.  The dump tools are programs run through [OsExec], the dumps
    are in the object store, their catalog and the sealed connections are two
    tables.  The properties are in [RemoteSafety]. *)

From Stdlib Require Import Ascii.
From stdpp Require Import gmap sorting strings.
From S2P Require Import Prelude GoStrings Apperr GoMonad NetIP GoTime OsExec ObjectStore MetaDB Tables.

(** ** Connections *)

Definition defaultPrefix : string := "remote-dumps/".
Definition redactMask : string := "[REDACTED]".
Definition defaultPort : Z := 5432.
Definition validSSLModes : list string := ["disable"; "allow"; "prefer"; "require"; "verify-ca"; "verify-full"].

(** [RemoteConn]. *)
Record RemoteConn := mkConn {
  rc_Host : string;
  rc_Port : Z;
  rc_User : string;
  rc_Password : string;
  rc_DBName : string;
  rc_SSLMode : string;
}.

(** [applyDefaults]. *)
Definition conn_applyDefaults (c : RemoteConn) : RemoteConn :=
  mkConn (rc_Host c) (if bool_decide (rc_Port c = 0)%Z then defaultPort else rc_Port c) (rc_User c) (rc_Password c)
    (rc_DBName c) (if bool_decide (rc_SSLMode c = "") then "prefer" else rc_SSLMode c).

(** [Validate]. *)
Definition RemoteConn_Validate (c : RemoteConn) : result unit :=
  if bool_decide (TrimSpace (rc_Host c) = "") then Err (New KindInvalid "remotebackup: host is required")
  else if bool_decide (TrimSpace (rc_User c) = "") then Err (New KindInvalid "remotebackup: user is required")
  else if bool_decide (TrimSpace (rc_DBName c) = "") then Err (New KindInvalid "remotebackup: dbname is required")
  else if bool_decide (rc_Port c < 0)%Z || bool_decide (65535 < rc_Port c)%Z then
    Err (New KindInvalid "remotebackup: port must be between 0 and 65535")
  else if bool_decide (rc_SSLMode c ≠ "") && negb (bool_decide (rc_SSLMode c ∈ validSSLModes)) then
    Err (New KindInvalid ("remotebackup: invalid sslmode " +:+ Quote (rc_SSLMode c)))
  else
  match ParseIP (TrimSpace (rc_Host c)) with
  | Some ip =>
      if IsLinkLocalUnicast ip || IsLinkLocalMulticast ip || bool_decide (ip = metadata_v4) || bool_decide (ip = metadata_v6)
      then Err (New KindInvalid "remotebackup: host is a blocked link-local/metadata address")
      else Ok tt
  | None => Ok tt
  end.

(** [dsnEscape]. *)
Definition dsnEscape (v : string) : string :=
  let needsQuote := bool_decide (v = "") || ContainsAny v (" '\" +:+ tab +:+ nl) in
  let v := ReplaceAll v "\" "\\" in
  let v := ReplaceAll v "'" "\'" in
  if needsQuote then "'" +:+ v +:+ "'" else v.

(** [DSN]. *)
Definition RemoteConn_DSN (c : RemoteConn) : string :=
  let c := conn_applyDefaults c in
  Join ["host=" +:+ dsnEscape (rc_Host c); "port=" +:+ itoa (rc_Port c); "user=" +:+ dsnEscape (rc_User c);
        "dbname=" +:+ dsnEscape (rc_DBName c); "sslmode=" +:+ dsnEscape (rc_SSLMode c)] " ".

(** [redactHost]. *)
Definition redactHost (host : string) : string :=
  let host := TrimSpace host in
  if bool_decide (host = "") then redactMask
  else match LastIndexByte host "." with
       | Some i => if bool_decide (i < String.length host - 1) then redactMask +:+ str_drop i host else redactMask
       | None => redactMask
       end.

(** [Redact]. *)
Definition RemoteRedact (s secret : string) : string :=
  if bool_decide (secret = "") then s else ReplaceAll s secret redactMask.

(** ** Versions *)

(** [pgVersionRe], matched at the front and at the leftmost place. *)
Definition re_space (c : ascii) : bool := byte_in 9 10 c || byte_in 12 13 c || ascii_eqb c " ".
Fixpoint skip_re_space (s : string) : string :=
  match s with String c s' => if re_space c then skip_re_space s' else s | "" => "" end.
Definition version_here (s : string) : option string :=
  if HasPrefix s "(PostgreSQL)" then
    let rest := str_drop 12 s in
    let digits := take_digits (skip_re_space rest) in
    if bool_decide (skip_re_space rest = rest) || bool_decide (digits = "") then None else Some digits
  else None.
Fixpoint find_version (s : string) : option string :=
  match version_here s with
  | Some d => Some d
  | None => match s with String _ s' => find_version s' | "" => None end
  end.

(** [ParsePgDumpMajor]. *)
Definition ParsePgDumpMajor (out : string) : option Z :=
  match find_version out with
  | None => None
  | Some digits =>
      match ParseInt64 digits with
      | NumOk n => if bool_decide (n ≤ 0)%Z then None else Some n
      | _ => None
      end
  end.

(** [serverMajorFromVersionNum]. *)
Definition serverMajorFromVersionNum (num : Z) : Z := Z.quot num 10000.

(** [CheckVersionSkew]. *)
Definition CheckVersionSkew (dumpMajor serverMajor : Z) : result unit :=
  if bool_decide (dumpMajor < serverMajor)%Z then
    Err (New KindInvalid ("remotebackup: pg_dump major version " +:+ itoa dumpMajor +:+
      " is older than the remote server major version " +:+ itoa serverMajor +:+
      "; pg_dump must be >= the server. Upgrade the control-plane Postgres client tools."))
  else Ok tt.

(** [catalogKey], of the time and the random bytes drawn. *)
Definition catalogKey (now : Z) (rand : result string) : string :=
  defaultPrefix +:+ "remote-" +:+ format_stamp now +:+ "-" +:+ uniqueSuffix rand +:+ ".dump".

(** ** Command lines *)

(** [buildDumpArgs], [buildRestoreArgs]. *)
Definition buildDumpArgs (c : RemoteConn) : list string :=
  let c := conn_applyDefaults c in
  ["--format=custom"; "--no-owner"; "--no-privileges"; "--host=" +:+ rc_Host c; "--port=" +:+ itoa (rc_Port c);
   "--username=" +:+ rc_User c; "--no-password"; "--dbname=" +:+ rc_DBName c].
Definition buildRestoreArgs (user dbname host : string) (port : Z) : list string :=
  let port := if bool_decide (port = 0)%Z then defaultPort else port in
  ["--no-owner"; "--no-privileges"; "--host=" +:+ host; "--port=" +:+ itoa port; "--username=" +:+ user;
   "--no-password"; "--dbname=" +:+ dbname].

(** ** The catalog *)

(** [CatalogEntry]. *)
Record DumpEntry := mkDump {
  rd_ID : string;
  rd_ObjectKey : string;
  rd_SourceHost : string;
  rd_SourceDB : string;
  rd_ServerMaj : Z;
  rd_Size : Z;
  rd_CreatedAt : Z;
}.

(** [String]. *)
Definition DumpEntry_String (e : DumpEntry) : string :=
  "remote-dump id=" +:+ rd_ID e +:+ " key=" +:+ rd_ObjectKey e +:+ " host=" +:+ rd_SourceHost e +:+
  " db=" +:+ rd_SourceDB e +:+ " server_major=" +:+ itoa (rd_ServerMaj e) +:+ " size=" +:+ itoa (rd_Size e).

Notation DumpTable := (Table string DumpEntry).

(** [Repository.Save]; the object key is unique. *)
Definition Dumps_Save (e : DumpEntry) : M DumpTable (result DumpEntry) :=
  tstatement (λ t,
    let e' := mkDump (tb_uuid t) (rd_ObjectKey e) (rd_SourceHost e) (rd_SourceDB e) (rd_ServerMaj e) (rd_Size e) (tb_now t) in
    if negb (bool_decide (tb_rows t !! rd_ID e' = None)) ||
       negb (bool_decide (map_Forall (λ _ d, rd_ObjectKey d ≠ rd_ObjectKey e) (tb_rows t))) then Err uniqueViolation
    else Ok (e', <[rd_ID e' := e']> (tb_rows t))).

(** [Repository.Get]. *)
Definition Dumps_Get (id : string) : M DumpTable (result DumpEntry) :=
  o <-? tselect (λ rows, rows !! id) ;;
  match o with
  | None => fail (New KindNotFound "remotebackup: dump not found")
  | Some e => ok e
  end.

(** [ORDER BY created_at DESC, id DESC]. *)
Definition dump_newest (a b : DumpEntry) : Prop :=
  (rd_CreatedAt b < rd_CreatedAt a)%Z ∨ (rd_CreatedAt b = rd_CreatedAt a ∧ String.le (rd_ID b) (rd_ID a)).
#[export] Instance dump_newest_dec : RelDecision dump_newest.
Proof. intros a b. unfold dump_newest. apply _. Defined.

(** [Repository.List]. *)
Definition Dumps_List : M DumpTable (result (list DumpEntry)) :=
  l <-? tselect (λ rows, merge_sort dump_newest (map_to_list rows).*2)
    orelse (λ e, fail (Wrap KindInternal "remotebackup: list dumps" e)) ;;
  ok l.

(** A row of [remote_source_secrets], under the id of its dump: the connection
    without its password, and the sealed password. *)
Notation SourceTable := (Table string (RemoteConn * string)).

Section sources.
(** Sealing and opening as the repository does them, with the errors as it wraps
    them; [None] is a repository without a cipher. *)
Context (cipher : option ((Z → string → result string) * (string → result string))).

(** [SaveSource]. *)
Definition SaveSource (dumpID : string) (c : RemoteConn) : M SourceTable (result unit) :=
  match cipher with
  | None => fail (New KindInternal "remotebackup: no cipher configured")
  | Some (seal_secret, _) => λ t,
      let c := conn_applyDefaults c in
      match seal_secret (tb_qn t) (rc_Password c) with
      | Err e => (Err e, t)
      | Ok blob =>
          (_ <-? tstatement (λ t,
               Ok (tt, <[dumpID := (mkConn (rc_Host c) (rc_Port c) (rc_User c) "" (rc_DBName c) (rc_SSLMode c), blob)]>
                         (tb_rows t)))
             orelse (λ e, fail (Wrap KindInternal "remotebackup: save source secret" e)) ;;
           done_ok) t
      end
  end.

(** [Source]. *)
Definition Source (dumpID : string) : M SourceTable (result RemoteConn) :=
  match cipher with
  | None => fail (New KindInternal "remotebackup: no cipher configured")
  | Some (_, open_secret) =>
      row <-? tselect (λ rows, rows !! dumpID)
        orelse (λ e, fail (Wrap KindInternal "remotebackup: read source" e)) ;;
      match row with
      | None => fail (New KindNotFound "remotebackup: source not found")
      | Some (c, blob) =>
          match open_secret blob with
          | Err e => fail e
          | Ok plain => ok (mkConn (rc_Host c) (rc_Port c) (rc_User c) plain (rc_DBName c) (rc_SSLMode c))
          end
      end
  end.
End sources.

(** ** The service *)

(** The collaborators of [Service] that are fields: running the dump and restore
    tools and asking for the versions. *)
Class RemoteTools (S : Type) := {
  rt_runCapture : RemoteConn → M S (result string);
  rt_serverMajor : RemoteConn → M S (result Z);
  rt_dumpMajor : M S (result Z);
  rt_runRestore : string → string → M S (result unit);
}.

(** [redactErr]. *)
Definition redactErr (c : RemoteConn) (msg : string) (cause : error) : error :=
  let safeMsg := RemoteRedact msg (rc_Password c) in
  let safeCause := New (Kind cause) (RemoteRedact (Error cause) (rc_Password c)) in
  Wrap (Kind cause) safeMsg safeCause.

Section service.
Context {S : Type} {C : S3Client S} {T : RemoteTools S}.
Context (store : S3Config).
Notation W := (S * DumpTable)%type.

(** [Capture], of the times of its two readings of the clock and the random bytes
    drawn for the key. *)
Definition Capture (now now' : Z) (rand : result string) (c : RemoteConn) : M W (result DumpEntry) :=
  _ <-? lift_r (RemoteConn_Validate c) ;;
  let c := conn_applyDefaults c in
  srvMaj <-? on_fst (rt_serverMajor c)
    orelse (λ e, fail (redactErr c "remotebackup: probe remote server version" e)) ;;
  dMaj <-? on_fst rt_dumpMajor
    orelse (λ e, fail (redactErr c "remotebackup: probe pg_dump version" e)) ;;
  _ <-? lift_r (CheckVersionSkew dMaj srvMaj) ;;
  data <-? on_fst (rt_runCapture c)
    orelse (λ e, fail (redactErr c "remotebackup: pg_dump failed" e)) ;;
  if bool_decide (data = "") then fail (New KindInternal "remotebackup: pg_dump produced no output") else
  let key := catalogKey now rand in
  _ <-? on_fst (PutObject store key data)
    orelse (λ e, fail (redactErr c "remotebackup: store dump" e)) ;;
  let entry := mkDump "" key (redactHost (rc_Host c)) (rc_DBName c) srvMaj (len data) now' in
  saved <-? on_snd (Dumps_Save entry)
    orelse (λ e, fail (redactErr c "remotebackup: catalog dump" e)) ;;
  ok saved.

(** [List], [GetEntry]. *)
Definition Remote_List : M W (result (list DumpEntry)) := on_snd Dumps_List.
Definition GetEntry (id : string) : M W (result DumpEntry) := on_snd (Dumps_Get id).

(** [Fetch]. *)
Definition Fetch (id : string) : M W (result (DumpEntry * string)) :=
  e <-? on_snd (Dumps_Get id) ;;
  data <-? on_fst (GetObject store (rd_ObjectKey e)) ;;
  ok (e, data).

(** [RestoreInto]. *)
Definition RestoreInto (dumpID targetDSN : string) : M W (result unit) :=
  ed <-? Fetch dumpID ;;
  on_fst (rt_runRestore ed.2 targetDSN).
End service.

(** ** The tools of production *)

Section tools.
Context {S : Type} {X : OsExec S}.

(** [withPGPassword]. *)
Definition withPGPassword (password : string) : list string :=
  if bool_decide (password ≠ "") then os_Environ ++ ["PGPASSWORD=" +:+ password] else os_Environ.

(** [realServerMajor]. *)
Definition realServerMajor (c : RemoteConn) : M S (result Z) :=
  r <- exec_Run (mkCmd "psql"
         ["--host=" +:+ rc_Host c; "--port=" +:+ itoa (rc_Port c); "--username=" +:+ rc_User c;
          "--dbname=" +:+ rc_DBName c; "--no-password"; "-tAX"; "-c"; "SHOW server_version_num"]
         (withPGPassword (rc_Password c)) "") ;;
  match cr_Err r with
  | Some _ => fail (New KindInternal ("psql server_version probe: " +:+ TrimSpace (cr_Stderr r)))
  | None =>
      match ParseInt64 (TrimSpace (cr_Stdout r)) with
      | NumOk num =>
          if bool_decide (num ≤ 0)%Z then fail (New KindInternal "could not parse server_version_num")
          else ok (serverMajorFromVersionNum num)
      | _ => fail (New KindInternal "could not parse server_version_num")
      end
  end.

(** [realDumpMajor]. *)
Definition realDumpMajor : M S (result Z) :=
  r <- exec_Run (mkCmd "pg_dump" ["--version"] os_Environ "") ;;
  match cr_Err r with
  | Some e => fail (Wrap KindInternal "pg_dump --version (is it installed?)" e)
  | None =>
      match ParsePgDumpMajor (cr_Stdout r) with
      | None => fail (New KindInternal "could not parse pg_dump version")
      | Some maj => ok maj
      end
  end.

(** [realCapture]. *)
Definition realCapture (c : RemoteConn) : M S (result string) :=
  r <- exec_Run (mkCmd "pg_dump" (buildDumpArgs c) (withPGPassword (rc_Password c)) "") ;;
  match cr_Err r with
  | Some _ => fail (New KindInternal ("pg_dump: " +:+ TrimSpace (cr_Stderr r)))
  | None => ok (cr_Stdout r)
  end.

(** [realRestore]; [parse] is [pgconn.ParseConfig]: user, password, host, port and
    database of a DSN. *)
Definition realRestore (parse : string → result (string * string * string * Z * string)) (data targetDSN : string) :
    M S (result unit) :=
  cfg <-? lift_r (parse targetDSN)
    orelse (λ e, fail (Wrap KindInternal "remotebackup: parse target dsn" e)) ;;
  let '(user, password, host, port, database) := cfg in
  r <- exec_Run (mkCmd "pg_restore" (buildRestoreArgs user database host port) (withPGPassword password) data) ;;
  match cr_Err r with
  | Some _ =>
      let msg := RemoteRedact (TrimSpace (cr_Stderr r)) password in
      fail (New KindInternal ("remotebackup: pg_restore failed: " +:+ msg))
  | None => done_ok
  end.

Definition real_tools (parse : string → result (string * string * string * Z * string)) : RemoteTools S := {|
  rt_runCapture := realCapture;
  rt_serverMajor := realServerMajor;
  rt_dumpMajor := realDumpMajor;
  rt_runRestore := realRestore parse;
|}.
End tools.

Example versions :
  (ParsePgDumpMajor "pg_dump (PostgreSQL) 16.2", ParsePgDumpMajor "pg_dump (PostgreSQL)  17rc1", ParsePgDumpMajor "(PostgreSQL)16",
   ParsePgDumpMajor "(PostgreSQL) x (PostgreSQL) 9.6") = (Some 16, Some 17, None, Some 9)%Z.
Proof. reflexivity. Qed.
Example redacted_hosts :
  (redactHost " db.example.com ", redactHost "localhost", redactHost "host.", redactHost "") =
  ("[REDACTED].com", "[REDACTED]", "[REDACTED]", "[REDACTED]").
Proof. reflexivity. Qed.
