(* ===== verification/RemoteSafety.v ===== *)
(** * What remote backups guarantee

    A captured dump is what is fetched later ([capture_fetches]); no text of a
    collaborator that fails carries the password out ([capture_redacts]); a
    connection that passes validation is not to the link-local range
    ([validated_conn]).  The mode of TLS the operator asks for, though validated,
    is never given to the tools ([sslmode_ignored]). *)

From Stdlib Require Import Ascii.
From stdpp Require Import gmap sorting strings.
From S2P Require Import Prelude GoStrings Apperr GoMonad NetIP GoTime OsExec ObjectStore MetaDB Tables RemoteBackup.

(** ** Redaction *)

(** No byte of [s] is one of [t]. *)
Definition disjoint_from (t s : string) : bool := str_forallb (λ c, negb (str_elem c t)) s.

Lemma disjoint_from_app t1 t2 s :
  disjoint_from (t1 +:+ t2) s = true → disjoint_from t1 s = true ∧ disjoint_from t2 s = true.
Proof.
  unfold disjoint_from. intros H. split; (eapply str_forallb_impl; [|exact H]); intros c;
    rewrite !negb_true_iff, !str_elem_forallb, !negb_false_iff, str_forallb_app, andb_true_iff; by intros [].
Qed.

Lemma disjoint_from_cons d t c s :
  disjoint_from (String d t) (String c s) = true → c ≠ d ∧ disjoint_from (String d t) s = true.
Proof.
  unfold disjoint_from. cbn [str_forallb]. rewrite andb_true_iff. intros [Hc Hs]. split; [|done].
  intros ->. cbn in Hc. by rewrite ascii_eqb_refl in Hc.
Qed.

(** A text without the bytes of [sep] at the front of [a +:+ sep +:+ b] is at the
    front of [a]. *)
Lemma prefix_before p a sep b :
  sep ≠ "" → disjoint_from sep p = true → str_prefix p (a +:+ sep +:+ b) = true → str_prefix p a = true.
Proof.
  intros Hsep. revert p. induction a as [|c a IH]; intros p Hd Hp.
  - destruct p as [|x p]; [done|]. destruct sep as [|d sep]; [done|]. rewrite app_nil_l_str, app_cons_str in Hp.
    cbn [str_prefix] in Hp. apply andb_true_iff in Hp as [Hx%bool_decide_eq_true _].
    apply disjoint_from_cons in Hd as [Hne _]. done.
  - destruct p as [|x p]; [done|]. rewrite app_cons_str in Hp. cbn [str_prefix] in *.
    apply andb_true_iff in Hp as [-> Hp]. destruct sep as [|d sep]; [done|].
    apply disjoint_from_cons in Hd as [_ Hd]. by apply IH.
Qed.

Lemma Contains_cons c s sub :
  Contains (String c s) sub = false ↔ str_prefix sub (String c s) = false ∧ Contains s sub = false.
Proof.
  unfold Contains. rewrite !bool_decide_eq_false.
  change (Index (String c s) sub) with (if str_prefix sub (String c s) then Some 0 else S <$> Index s sub).
  destruct (str_prefix sub (String c s)).
  - split; [intros H; destruct H; by eexists|by intros []].
  - rewrite fmap_is_Some. naive_solver.
Qed.

Lemma Contains_empty sub : sub ≠ "" → Contains "" sub = false.
Proof. by destruct sub. Qed.

(** Neither side of a separator contains the text: nor does the whole. *)
Lemma Contains_sep a sep b sub :
  sub ≠ "" → sep ≠ "" → disjoint_from sep sub = true →
  Contains a sub = false → Contains b sub = false → Contains (a +:+ sep +:+ b) sub = false.
Proof.
  intros Hsub Hsep Hd Ha Hb. induction a as [|c a IH].
  - clear Ha. rewrite app_nil_l_str.
    assert (∀ n, (∃ m, sep = m +:+ n) → Contains (n +:+ b) sub = false) as H; [|by apply H; exists ""].
    intros n. induction n as [|x n IH]; [done|]. intros [m Hm]. rewrite app_cons_str. apply Contains_cons. split.
    + destruct sub as [|y sub]; [done|]. cbn [str_prefix]. apply andb_false_iff. left. apply bool_decide_eq_false.
      intros ->. unfold disjoint_from in Hd. cbn [str_forallb] in Hd. apply andb_true_iff in Hd as [Hd _].
      apply negb_true_iff in Hd. rewrite str_elem_forallb, Hm, str_forallb_app in Hd. cbn in Hd.
      rewrite ascii_eqb_refl in Hd. cbn in Hd. by rewrite andb_false_r in Hd.
    + apply IH. exists (m +:+ String x ""). rewrite Hm, app_assoc_str. reflexivity.
  - rewrite app_cons_str. apply Contains_cons in Ha as [Hp Ha]. apply Contains_cons. split; [|by apply IH].
    apply not_true_iff_false. intros H. rewrite <- app_cons_str in H. apply prefix_before in H; [congruence|done..].
Qed.

(** What is at the front of the replaced text without the bytes of the mask was
    there before. *)
Lemma prefix_replaced secret new s p k :
  new ≠ "" → disjoint_from new p = true →
  str_prefix p (replace_go k s secret new) = true → str_prefix p (str_drop k s) = true.
Proof.
  intros Hnew. revert p k. induction s as [|c s IH]; intros p k Hd Hp.
  - destruct p as [|x p]; [apply prefix_nil|]. by destruct k.
  - destruct k as [|k]; cbn [replace_go] in Hp; [|cbn [str_drop]; by apply IH].
    destruct (str_prefix secret (String c s)).
    + apply (prefix_before p "") in Hp; [|done..]. destruct p; [apply prefix_nil|done].
    + destruct p as [|x p]; [done|]. cbn [str_drop str_prefix] in *. apply andb_true_iff in Hp as [-> Hp].
      specialize (IH p 0). replace (str_drop 0 s) with s in IH by by destruct s. apply IH; [|done].
      destruct new as [|d n]; [done|]. by apply disjoint_from_cons in Hd as [_ Hd].
Qed.

Lemma replaced_clean secret new s k :
  secret ≠ "" → new ≠ "" → disjoint_from new secret = true →
  Contains (replace_go k s secret new) secret = false.
Proof.
  intros Hs Hn Hd. revert k. induction s as [|c s IH]; intros k; [by apply Contains_empty|].
  destruct k as [|k]; cbn [replace_go]; [|apply IH].
  destruct (str_prefix secret (String c s)) eqn:Hp.
  - apply (Contains_sep ""); try done. by apply Contains_empty.
  - apply Contains_cons. split; [|apply IH]. apply not_true_iff_false. intros H. clear IH.
    assert (∀ x q, secret = String x q → str_prefix (String x q) (String c (replace_go 0 s secret new)) = true →
      str_prefix (String x q) (String c s) = true) as Hq.
    { intros x q Eq. cbn [str_prefix]. rewrite !andb_true_iff. intros [Hx Hq]. split; [done|].
      apply prefix_replaced in Hq; [by destruct s|done|]. rewrite Eq in Hd.
      destruct new as [|d n]; [done|]. by apply disjoint_from_cons in Hd as [_ Hd]. }
    destruct secret as [|x q]; [done|]. specialize (Hq x q eq_refl H). congruence.
Qed.

Lemma RemoteRedact_clean s secret :
  secret ≠ "" → disjoint_from redactMask secret = true → Contains (RemoteRedact s secret) secret = false.
Proof. intros Hs Hd. unfold RemoteRedact. rewrite bool_decide_false by done. by apply replaced_clean. Qed.

(** An error of a collaborator, as the service gives it on, without the password
    and of the same kind. *)
Lemma redactErr_clean c msg cause :
  rc_Password c ≠ "" → disjoint_from (redactMask +:+ ": ") (rc_Password c) = true →
  Contains (Error (redactErr c msg cause)) (rc_Password c) = false ∧ Kind (redactErr c msg cause) = Kind cause.
Proof.
  intros Hne Hd. apply disjoint_from_app in Hd as [Hm Hs]. split; [|done]. unfold redactErr. cbn [Error Wrap New].
  by apply Contains_sep; [..|apply RemoteRedact_clean|apply RemoteRedact_clean].
Qed.

(** ** Capturing *)

(** Running the tools leaves the bucket alone. *)
Class RemoteToolsLaws (S : Type) `{S3Laws S} `{!RemoteTools S} := {
  rt_runCapture_law c s : wp (rt_runCapture c) (λ _ s', objects s' = objects s) s;
  rt_serverMajor_law c s : wp (rt_serverMajor c) (λ _ s', objects s' = objects s) s;
  rt_dumpMajor_law s : wp rt_dumpMajor (λ _ s', objects s' = objects s) s;
}.

Section capture.
Context {S : Type} {C : S3Client S} {L : S3Laws S} {T : RemoteTools S} {TL : RemoteToolsLaws S}.
Context (store : S3Config).
Implicit Types (s : S * DumpTable).

Lemma wp_Dumps_Save e (t : DumpTable) (Q : result DumpEntry → DumpTable → Prop) :
  (∀ err t', tb_rows t' = tb_rows t → Q (Err err) t') →
  (∀ e' t', tb_rows t !! rd_ID e' = None → tb_rows t' = <[rd_ID e' := e']> (tb_rows t) →
     map_Forall (λ _ d, rd_ObjectKey d ≠ rd_ObjectKey e') (tb_rows t) →
     rd_ObjectKey e' = rd_ObjectKey e → rd_SourceHost e' = rd_SourceHost e → rd_SourceDB e' = rd_SourceDB e →
     rd_ServerMaj e' = rd_ServerMaj e → rd_Size e' = rd_Size e → Q (Ok e') t') →
  wp (Dumps_Save e) Q t.
Proof.
  intros He Ho. apply wp_tstatement; [done|]. intros e' rows t' t'' Ht Hb Ht''. cbn zeta in Hb.
  destruct (negb _ || negb _) eqn:Hc in Hb; [done|]. injection Hb as <- <-.
  apply orb_false_iff in Hc as [Hn Hf]. apply negb_false_iff, bool_decide_eq_true in Hn, Hf.
  rewrite Ht in *. by apply Ho.
Qed.

(** What [Capture] comes to: an error and at most one object more, or an entry of
    the catalog whose object is the dump. *)
Definition dump_captured (c : RemoteConn) (key : string) s (r : result DumpEntry) s' : Prop :=
  match r with
  | Err e =>
      tb_rows s'.2 = tb_rows s.2 ∧
      (objects s'.1 = objects s.1 ∨ ∃ data, objects s'.1 = <[key := data]> (objects s.1)) ∧
      (RemoteConn_Validate c = Err e ∨ (∃ dump server, CheckVersionSkew dump server = Err e) ∨
       e = New KindInternal "remotebackup: pg_dump produced no output" ∨
       ∃ msg cause, e = redactErr (conn_applyDefaults c) msg cause)
  | Ok e => ∃ data, data ≠ "" ∧ rd_Size e = len data ∧ rd_ObjectKey e = key ∧
      objects s'.1 = <[key := data]> (objects s.1) ∧
      tb_rows s.2 !! rd_ID e = None ∧ tb_rows s'.2 = <[rd_ID e := e]> (tb_rows s.2) ∧
      map_Forall (λ _ d, rd_ObjectKey d ≠ key) (tb_rows s.2) ∧
      rd_SourceHost e = redactHost (rc_Host c) ∧ rd_SourceDB e = rc_DBName c
  end.

Lemma Capture_run now now' rand c s :
  wp (Capture store now now' rand c) (dump_captured c (catalogKey now rand) s) s.
Proof.
  unfold Capture. apply wp_try, wp_ret. destruct (RemoteConn_Validate c) as [[]|e] eqn:Hv;
    [|split_and!; [done|by left|by left]].
  set (d := conn_applyDefaults c).
  assert (∀ msg cause (s1 : S), objects s1 = objects s.1 →
    dump_captured c (catalogKey now rand) s (Err (redactErr d msg cause)) (s1, s.2)) as Herr.
  { intros msg cause s1 H1. split_and!; [done|by left|do 3 right; by eexists _, _]. }
  apply wp_try_or, wp_on_fst. eapply wp_mono; [apply rt_serverMajor_law|].
  intros [srv|e] s1 H1; [|by apply wp_ret, Herr].
  apply wp_try_or, wp_on_fst. eapply wp_mono; [apply rt_dumpMajor_law|]. cbn [fst]. rewrite H1.
  intros [dm|e] s2 H2; [|by apply wp_ret, Herr].
  apply wp_try, wp_ret. destruct (CheckVersionSkew dm srv) as [[]|e] eqn:Hk;
    [|split_and!; [done|by left|right; left; by eexists _, _]].
  apply wp_try_or, wp_on_fst. eapply wp_mono; [apply rt_runCapture_law|]. cbn [fst]. rewrite H2.
  intros [data|e] s3 H3; [|by apply wp_ret, Herr].
  case_bool_decide as Hd; [apply wp_ret; split_and!; [done|by left|do 2 right; by left]|].
  apply wp_try_or, wp_on_fst, wp_PutObject; cbn [fst snd]; rewrite H3.
  { intros e s4 H4. apply wp_ret. split_and!; [done| |do 3 right; by eexists _, _].
    destruct H4; [by left|right; by exists data]. }
  intros s4 H4. apply wp_try_or, wp_on_snd, wp_Dumps_Save; cbn [fst snd].
  - intros e t Ht. apply wp_ret. split_and!; [done|right; by exists data|do 3 right; by eexists _, _].
  - intros e t Hn Ht Hf Hkey Hh Hdb _ Hsz. apply wp_ret. exists data. rewrite Hkey in Hf. by split_and!.
Qed.

(** A capture that succeeds has stored the dump under a new key and
    catalogued it, with the source's host masked, its size, and nothing else
    changed; fetching the entry gives that dump or an error of the database or of
    the store, never other bytes.  A capture that fails catalogues nothing. *)
Theorem capture_fetches now now' rand c s :
  wp (Capture store now now' rand c) (λ r s',
    match r with
    | Err _ => tb_rows s'.2 = tb_rows s.2
    | Ok e =>
        ∃ data, data ≠ "" ∧ rd_Size e = len data ∧
          objects s'.1 = <[rd_ObjectKey e := data]> (objects s.1) ∧
          tb_rows s'.2 = <[rd_ID e := e]> (tb_rows s.2) ∧ tb_rows s.2 !! rd_ID e = None ∧
          map_Forall (λ _ d, rd_ObjectKey d ≠ rd_ObjectKey e) (tb_rows s.2) ∧
          rd_SourceHost e = redactHost (rc_Host c) ∧
          wp (Fetch store (rd_ID e)) (λ r' _, match r' with Ok ed => ed = (e, data) | Err _ => True end) s'
    end) s.
Proof.
  eapply wp_mono; [apply Capture_run|]. intros [e|e] s' H; [|by destruct H as [H _]].
  destruct H as (data & Hne & Hsz & Hkey & Ho & Hn & Ht & Hf & Hh & _). exists data. rewrite Hkey. split_and!; try done.
  unfold Fetch. apply wp_try, wp_on_snd. unfold Dumps_Get. apply wp_try, wp_tselect; [done|].
  intros t Ht'. rewrite Ht, lookup_insert_eq. apply wp_ret. cbn [fst snd].
  apply wp_try, wp_on_fst, wp_GetObject; [done|]. intros d s1 _ Hd. apply wp_ret. cbn [fst] in Hd.
  rewrite Ho, Hkey, lookup_insert_eq in Hd. by injection Hd as ->.
Qed.

(** When the remote password shares no byte with the mask and the
    separator of error texts, no error that a collaborator caused contains it,
    whatever the collaborator's own error said (the outputs of [psql] and
    [pg_dump], the object store, the catalog), and the error keeps its kind. *)
Theorem capture_redacts now now' rand c s :
  rc_Password c ≠ "" → disjoint_from (redactMask +:+ ": ") (rc_Password c) = true →
  wp (Capture store now now' rand c) (λ r _,
    match r with
    | Ok _ => True
    | Err e =>
        RemoteConn_Validate c = Err e ∨ (∃ dump server, CheckVersionSkew dump server = Err e) ∨
        e = New KindInternal "remotebackup: pg_dump produced no output" ∨
        (Contains (Error e) (rc_Password c) = false ∧
         ∃ msg cause, e = redactErr (conn_applyDefaults c) msg cause ∧ Kind e = Kind cause)
    end) s.
Proof.
  intros Hne Hd. eapply wp_mono; [apply Capture_run|]. intros [e|e] s' H; [done|].
  destruct H as (_ & _ & [H|[H|[H|(msg & cause & ->)]]]); [by left|by right; left|by do 2 right; left|].
  do 3 right. destruct (redactErr_clean (conn_applyDefaults c) msg cause Hne Hd) as [Hc Hk].
  split; [done|by eexists _, _].
Qed.
End capture.

(** ** Connections *)

(** A connection that passes validation has a host, a user and a
    database, a port of sixteen bits and a mode libpq knows; and its host is no
    address of 169.254.0.0/16 in dotted form. *)
Theorem validated_conn c :
  RemoteConn_Validate c = Ok tt →
  TrimSpace (rc_Host c) ≠ "" ∧ TrimSpace (rc_User c) ≠ "" ∧ TrimSpace (rc_DBName c) ≠ "" ∧
  (0 ≤ rc_Port c ≤ 65535)%Z ∧ (rc_SSLMode c = "" ∨ rc_SSLMode c ∈ validSSLModes) ∧
  ∀ x y, (0 ≤ x ≤ 255)%Z → (0 ≤ y ≤ 255)%Z → TrimSpace (rc_Host c) ≠ v4_text 169 254 x y.
Proof.
  unfold RemoteConn_Validate. repeat (case_bool_decide; [done|]).
  destruct (bool_decide (rc_SSLMode c ≠ "") && _) eqn:Hs; [done|]. intros Hip.
  split_and!; try done; try lia.
  - apply andb_false_iff in Hs as [Hs%bool_decide_eq_false|Hs].
    + left. by destruct (decide (rc_SSLMode c = "")).
    + right. by apply negb_false_iff, bool_decide_eq_true in Hs.
  - intros x y Hx Hy Hh. rewrite Hh, ParseIP_v4 in Hip by lia. done.
Qed.

(** The commands that probe and dump a source are the same for every TLS mode:
    neither its arguments nor its environment carry it. *)
Theorem sslmode_ignored {S : Type} {X : OsExec S} c mode :
  let c' := mkConn (rc_Host c) (rc_Port c) (rc_User c) (rc_Password c) (rc_DBName c) mode in
  realCapture (S := S) c' = realCapture c ∧ realServerMajor (S := S) c' = realServerMajor c.
Proof. done. Qed.

(** ** A concrete capture *)

(** Tools that dump the name of the database, and one whose dump fails with the
    password in its error. *)
Definition sample_tools (dump : RemoteConn → result string) : RemoteTools (gmap string string) := {|
  rt_runCapture c := ret (dump c);
  rt_serverMajor _ := ok 16%Z;
  rt_dumpMajor := ok 16%Z;
  rt_runRestore _ _ := done_ok;
|}.
#[local] Instance sample_tools_laws dump :
  @RemoteToolsLaws (gmap string string) memory_bucket memory_bucket_laws (sample_tools dump).
Proof. split; intros; by apply wp_ret. Qed.

Definition dump_ok : RemoteConn → result string := λ c, Ok ("dump of " +:+ rc_DBName c).
Definition dump_leaks : RemoteConn → result string := λ c,
  Err (Errorf ("connection to server failed: password " +:+ rc_Password c +:+ " rejected")).
Definition sample_bucket : S3Config := mkS3Config "minio:9000" "" "key" "secret" "bucket" false false.
Definition sample_conn : RemoteConn := mkConn "db.example.com" 0 "admin" "hunter2" "shop" "".
Definition sample_remote : gmap string string * DumpTable :=
  (∅, mkTable (mkEnv (λ _, None) (λ n, "id-" +:+ itoa n) (λ n, n)) 0 ∅).

Lemma capture_fetches_witness :
  ∃ e s', Capture (T := sample_tools dump_ok) sample_bucket 0 0 (Ok "abcdef") sample_conn sample_remote = (Ok e, s') ∧
    rd_SourceHost e = "[REDACTED].com" ∧
    wp (Fetch sample_bucket (rd_ID e))
      (λ r' _, match r' with Ok ed => ed.1 = e ∧ rd_Size e = len ed.2 | Err _ => True end) s'.
Proof.
  pose proof (capture_fetches (T := sample_tools dump_ok) sample_bucket 0 0 (Ok "abcdef") sample_conn sample_remote) as H.
  assert (is_ok (Capture (T := sample_tools dump_ok) sample_bucket 0 0 (Ok "abcdef") sample_conn sample_remote).1 = true)
    as E by (vm_compute; reflexivity).
  revert H E. unfold wp at 1. destruct (Capture _ _ _ _ _ _) as [[e|e] s']; intros H E; [|discriminate E].
  destruct H as (data & _ & Hsz & _ & _ & _ & _ & Hh & Hf). exists e, s'. split; [reflexivity|].
  split; [rewrite Hh; reflexivity|]. eapply wp_mono; [exact Hf|]. intros [ed|err] s2 Hed; [|exact I].
  subst ed. split; [reflexivity|exact Hsz].
Defined.

Definition sample_leak : error :=
  redactErr (conn_applyDefaults sample_conn) "remotebackup: pg_dump failed" (match dump_leaks sample_conn with Err e => e | Ok _ => Errorf "" end).
Example sample_leak_text :
  Error sample_leak =
  "remotebackup: pg_dump failed: connection to server failed: password [REDACTED] rejected".
Proof. reflexivity. Qed.

Lemma capture_redacts_witness :
  (Capture (T := sample_tools dump_leaks) sample_bucket 0 0 (Ok "abcdef") sample_conn sample_remote).1 = Err sample_leak ∧
    Contains (Error sample_leak) "hunter2" = false.
Proof.
  pose proof (capture_redacts (T := sample_tools dump_leaks) sample_bucket 0 0 (Ok "abcdef") sample_conn sample_remote) as H.
  specialize (H ltac:(discriminate) ltac:(vm_compute; reflexivity)).
  assert ((Capture (T := sample_tools dump_leaks) sample_bucket 0 0 (Ok "abcdef") sample_conn sample_remote).1 = Err sample_leak)
    as E by (vm_compute; reflexivity).
  split; [exact E|]. revert H E. unfold wp. destruct (Capture _ _ _ _ _ _) as [r s']. intros H E. cbn [fst] in E. subst r.
  destruct H as [H|[(d & v & H)|[H|[H _]]]]; [vm_compute in H; discriminate H| |discriminate H|exact H].
  unfold CheckVersionSkew in H. destruct (bool_decide _) in H; discriminate H.
Defined.

Lemma validated_conn_witness : ∀ x y, (0 ≤ x ≤ 255)%Z → (0 ≤ y ≤ 255)%Z → "db.example.com" ≠ v4_text 169 254 x y.
Proof.
  assert (RemoteConn_Validate sample_conn = Ok tt) as E by (vm_compute; reflexivity).
  exact (proj2 (proj2 (proj2 (proj2 (proj2 (validated_conn sample_conn E)))))).
Defined.
Example link_local_refused :
  is_ok (RemoteConn_Validate (mkConn "169.254.169.254" 0 "u" "p" "d" "")) = false ∧
  is_ok (RemoteConn_Validate (mkConn "10.0.0.1" 0 "u" "p" "d" "")) = true.
Proof. by split. Qed.
