(* ===== verification/AuditLog.v ===== *)
(** * The audit log and what the handlers share: [internal/audit], [internal/api]

    The append-only table of what was done by whom; the strict decoding of a
    request body ([decodeJSON]) over the outcomes of [encoding/json]; and the
    best-effort recording of an action ([recordAudit]). *)

From stdpp Require Import gmap sorting.
From S2P Require Import Prelude GoStrings Apperr GoMonad MetaDB Tables Auth.

(** ** Data *)

(** [Entry]; the values of the metadata are kept as text. *)
Record Entry := mkEntry {
  ae_ID : string;
  ae_Actor : string;
  ae_Action : string;
  ae_Target : string;
  ae_Metadata : gmap string string;
  ae_CreatedAt : Z;
}.

(** [Entry.Validate]. *)
Definition Entry_Validate (actor action : string) : result unit :=
  if bool_decide (TrimSpace actor = "") then Err (New KindInvalid "audit: actor is required")
  else if bool_decide (TrimSpace action = "") then Err (New KindInvalid "audit: action is required")
  else Ok tt.

(** ** The recorder *)

Notation AuditTable := (Table string Entry).

(** [Record]; a [nil] map is the empty one. *)
Definition Audit_Record (actor action target : string) (metadata : gmap string string) :
    M AuditTable (result unit) :=
  _ <-? lift_r (Entry_Validate actor action) ;;
  _ <-? tstatement (λ t,
      let e := mkEntry (tb_uuid t) actor action target metadata (tb_now t) in
      match tb_rows t !! ae_ID e with
      | Some _ => Err uniqueViolation
      | None => Ok (tt, <[ae_ID e := e]> (tb_rows t))
      end)
    orelse (λ e, fail (Wrap KindInternal "audit: record" e)) ;;
  done_ok.

(** [ORDER BY created_at DESC, id DESC]. *)
Definition entry_newest (a b : Entry) : Prop :=
  (ae_CreatedAt b < ae_CreatedAt a)%Z ∨
  (ae_CreatedAt b = ae_CreatedAt a ∧ String.le (ae_ID b) (ae_ID a)).
#[export] Instance entry_newest_dec : RelDecision entry_newest.
Proof. intros a b. unfold entry_newest. apply _. Defined.

(** [List]. *)
Definition Audit_List (limit : Z) : M AuditTable (result (list Entry)) :=
  let limit := if bool_decide (limit ≤ 0)%Z then 100%Z else limit in
  entries <-? tselect (λ rows, take (Z.to_nat limit) (merge_sort entry_newest (map_to_list rows).*2))
    orelse (λ e, fail (Wrap KindInternal "audit: list" e)) ;;
  ok entries.

(** ** What the handlers share *)

(** [decodeJSON]: the outcome of decoding the first value of the body, unknown
    fields refused and its size bounded, and whether the body ends after it. *)
Definition decodeJSON {A} (first : result A) (eof : bool) : result A :=
  match first with
  | Err e => Err (Wrap KindInvalid "invalid request body" e)
  | Ok v => if eof then Ok v else Err (New KindInvalid "invalid request body: unexpected trailing data")
  end.

(** [recordAudit], of a request with these claims; the recorder may be nil. *)
Definition recordAudit (rec : bool) (claims : option Claims) (action target : string) : M AuditTable unit :=
  when rec (
    let actor := match claims with
                 | Some c => if bool_decide (clm_Email c ≠ "") then clm_Email c else "system"
                 | None => "system"
                 end in
    discard (Audit_Record actor action target ∅)).

(** ** Reading the log: [api/audit.go] *)

Definition auditDefaultLimit : Z := 100.
Definition auditMaxLimit : Z := 500.

(** [parseAuditLimit]. *)
Definition parseAuditLimit (raw : string) : Z :=
  match ParseInt64 raw with
  | NumOk n => if bool_decide (n ≤ 0)%Z then auditDefaultLimit
               else if bool_decide (auditMaxLimit < n)%Z then auditMaxLimit else n
  | _ => auditDefaultLimit
  end.

(** [AuditHandler.List]: the entries it answers with. *)
Definition AuditHandler_List (raw : string) : M AuditTable (result (list Entry)) :=
  Audit_List (parseAuditLimit raw).

Lemma AuditHandler_List_bounded raw (t : AuditTable) :
  wp (AuditHandler_List raw) (λ r t', tb_rows t' = tb_rows t ∧
    match r with Ok l => (Z.of_nat (length l) ≤ auditMaxLimit)%Z | Err _ => True end) t.
Proof.
  assert (0 < parseAuditLimit raw ≤ auditMaxLimit)%Z as Hl.
  { unfold parseAuditLimit, auditMaxLimit, auditDefaultLimit.
    destruct (ParseInt64 raw) as [n| |]; [|lia..]. repeat case_bool_decide; lia. }
  unfold AuditHandler_List, Audit_List. rewrite bool_decide_false by lia.
  apply wp_try_or, wp_tselect; intros; apply wp_ret; split; [done..|].
  rewrite length_take. lia.
Qed.

(** ** The log is append-only *)

Lemma Audit_Record_appends actor action target metadata (t : AuditTable) :
  wp (Audit_Record actor action target metadata) (λ r t', tb_rows t ⊆ tb_rows t' ∧
    match r with
    | Ok _ => ∃ e, tb_rows t' = <[ae_ID e := e]> (tb_rows t) ∧ tb_rows t !! ae_ID e = None ∧
                   ae_Actor e = actor ∧ ae_Action e = action ∧ ae_Target e = target
    | Err _ => tb_rows t' = tb_rows t
    end) t.
Proof.
  unfold Audit_Record. apply wp_try. unfold lift_r. apply wp_ret.
  destruct (Entry_Validate actor action) as [[]|e]; [|by split].
  apply wp_try_or, wp_tstatement; [intros e t' H; apply wp_ret; rewrite H; by split|].
  intros [] rows t' t'' Ht' Hb Ht''. cbn in Hb. destruct (tb_rows t' !! tb_uuid t') eqn:Hn; [done|].
  injection Hb as <-. apply wp_ret. rewrite Ht'', Ht' in *. split; [by apply insert_subseteq|].
  exists (mkEntry (tb_uuid t') actor action target metadata (tb_now t')). by split_and!.
Qed.

Lemma recordAudit_appends rec claims action target (t : AuditTable) :
  wp (recordAudit rec claims action target) (λ _ t', tb_rows t ⊆ tb_rows t') t.
Proof.
  unfold recordAudit. apply wp_when; [|done]. intros _. apply wp_discard.
  eapply wp_mono; [apply Audit_Record_appends|]. by intros r t' [H _].
Qed.
