(* ===== verification/Users.v ===== *)
(** * User accounts: [internal/user], [internal/bootstrap]

    The table of the accounts with its constraints (the role check and the unique
    index on [lower(email)]), the repository over it, and the seeding of the first
    administrator.  PostgreSQL's [lower] depends on the locale of the database and
    is an argument. *)

From stdpp Require Import gmap sorting.
From S2P Require Import Prelude GoStrings Apperr GoMonad MetaDB Tables Auth AuthFacts.

(** ** Data *)

(** [User]. *)
Record User := mkUser {
  usr_ID : string;
  usr_Email : string;
  usr_PasswordHash : string;
  usr_Role : string;
  usr_Disabled : bool;
  usr_CreatedAt : Z;
  usr_UpdatedAt : Z;
}.

(** [NewUser]. *)
Record NewUser := mkNewUser {
  nu_Email : string;
  nu_PasswordHash : string;
  nu_Role : string;
}.

(** [NewUser.Validate]. *)
Definition NewUser_Validate (n : NewUser) : result unit :=
  if bool_decide (TrimSpace (nu_Email n) = "") then Err (New KindInvalid "user: email is required")
  else if bool_decide (nu_PasswordHash n = "") then Err (New KindInvalid "user: password hash is required")
  else if negb (Role_Valid (nu_Role n)) then Err (New KindInvalid "user: invalid role")
  else Ok tt.

(** [NormalizeEmail]. *)
Definition NormalizeEmail (email : string) : string := ToLower (TrimSpace email).

(** ** The repository: [user/repo.go] *)

Notation UserTable := (Table string User).

Section repository.
(** PostgreSQL's [lower]. *)
Context (lower : string → string).

(** [Create]. *)
Definition Users_Create (n : NewUser) : M UserTable (result User) :=
  _ <-? lift_r (NewUser_Validate n) ;;
  let email := NormalizeEmail (nu_Email n) in
  u <-? tstatement (λ t,
      let u := mkUser (tb_uuid t) email (nu_PasswordHash n) (nu_Role n) false (tb_now t) (tb_now t) in
      if negb (bool_decide (usr_Role u ∈ [RoleAdmin; RoleOperator; RoleViewer])) then Err checkViolation
      else if negb (bool_decide (tb_rows t !! usr_ID u = None)) then Err uniqueViolation
      else if negb (bool_decide (map_Forall (λ _ v, lower (usr_Email v) ≠ lower email) (tb_rows t)))
      then Err uniqueViolation
      else Ok (u, <[usr_ID u := u]> (tb_rows t)))
    orelse (λ e,
      if is_unique e then fail (Wrap KindConflict "user: email already exists" e)
      else fail (Wrap KindInternal "user: create" e)) ;;
  ok u.

(** [scanOne], of the rows a query selects. *)
Definition Users_scanOne (sel : gmap string User → list User) : M UserTable (result User) :=
  rows <-? tselect sel orelse (λ e, fail (Wrap KindInternal "user: query" e)) ;;
  match rows with
  | [] => fail (New KindNotFound "user: not found")
  | u :: _ => ok u
  end.

(** [GetByEmail], [GetByID]. *)
Definition Users_GetByEmail (email : string) : M UserTable (result User) :=
  Users_scanOne (λ rows,
    filter (λ u, lower (usr_Email u) = lower (NormalizeEmail email)) (map_to_list rows).*2).
Definition Users_GetByID (id : string) : M UserTable (result User) :=
  Users_scanOne (λ rows, from_option (λ u, [u]) [] (rows !! id)).

(** [ORDER BY created_at ASC, id ASC]. *)
Definition user_oldest (a b : User) : Prop :=
  (usr_CreatedAt a < usr_CreatedAt b)%Z ∨
  (usr_CreatedAt a = usr_CreatedAt b ∧ String.le (usr_ID a) (usr_ID b)).
#[export] Instance user_oldest_dec : RelDecision user_oldest.
Proof. intros a b. unfold user_oldest. apply _. Defined.

(** [List]. *)
Definition Users_List : M UserTable (result (list User)) :=
  users <-? tselect (λ rows, merge_sort user_oldest (map_to_list rows).*2)
    orelse (λ e, fail (Wrap KindInternal "user: list" e)) ;;
  ok users.

(** [exec]: an update of the row [id], with the time of the statement. *)
Definition Users_exec (id : string) (upd : Z → User → User) : M UserTable (result unit) :=
  affected <-? tstatement (λ t,
      match tb_rows t !! id with
      | None => Ok (0%Z, tb_rows t)
      | Some u => Ok (1%Z, <[id := upd (tb_now t) u]> (tb_rows t))
      end)
    orelse (λ e, fail (Wrap KindInternal "user: exec" e)) ;;
  if bool_decide (affected = 0)%Z then fail (New KindNotFound "user: not found") else done_ok.

(** [SetDisabled], [UpdatePasswordHash]. *)
Definition usr_set_Disabled (disabled : bool) (now : Z) (u : User) : User :=
  mkUser (usr_ID u) (usr_Email u) (usr_PasswordHash u) (usr_Role u) disabled (usr_CreatedAt u) now.
Definition Users_SetDisabled (id : string) (disabled : bool) : M UserTable (result unit) :=
  Users_exec id (usr_set_Disabled disabled).
Definition usr_set_PasswordHash (hash : string) (now : Z) (u : User) : User :=
  mkUser (usr_ID u) (usr_Email u) hash (usr_Role u) (usr_Disabled u) (usr_CreatedAt u) now.
Definition Users_UpdatePasswordHash (id hash : string) : M UserTable (result unit) :=
  Users_exec id (usr_set_PasswordHash hash).
End repository.

(** ** Seeding the first administrator: [bootstrap.EnsureAdmin] *)

Section bootstrap.
Context (lower : string → string).
Context (IDKey : string → string → Z → Z → Z → Z → string).

(** [EnsureAdmin], given what [rand.Read] fills the salt with. *)
Definition EnsureAdmin (rand : result string) (email password : string) : M UserTable (result bool) :=
  if bool_decide (email = "") || bool_decide (password = "") then ok false else
  existing <-? Users_List orelse (λ e, fail (Errorf_w ("bootstrap: list users: " +:+ Error e) e)) ;;
  if bool_decide (0 < length existing) then ok false else
  hash <-? lift_r (HashPassword IDKey rand password)
    orelse (λ e, fail (Errorf_w ("bootstrap: hash password: " +:+ Error e) e)) ;;
  _ <-? Users_Create lower (mkNewUser email hash RoleAdmin)
    orelse (λ e, fail (Errorf_w ("bootstrap: create admin: " +:+ Error e) e)) ;;
  ok true.
End bootstrap.

(** ** The table *)

(** The rows are under their ids, their roles are valid, and no two of them have
    the same e-mail address up to case. *)
Record users_wf (lower : string → string) (rows : gmap string User) : Prop := {
  users_keys id u : rows !! id = Some u → usr_ID u = id;
  users_roles id u : rows !! id = Some u → Role_Valid (usr_Role u) = true;
  users_emails id u id' u' : rows !! id = Some u → rows !! id' = Some u' →
    lower (usr_Email u) = lower (usr_Email u') → id = id';
}.

Section table_lemmas.
Context (lower : string → string).
Implicit Types (t : UserTable) (rows : gmap string User).

Lemma users_wf_empty : users_wf lower ∅.
Proof. split; intros *; by rewrite lookup_empty. Qed.

(** What [Create] does to the rows: it adds a fresh one, or nothing. *)
Lemma wp_Users_Create n t (Q : result User → UserTable → Prop) :
  (∀ e t', tb_rows t' = tb_rows t → Q (Err e) t') →
  (∀ u t', NewUser_Validate n = Ok tt → tb_rows t !! usr_ID u = None →
     tb_rows t' = <[usr_ID u := u]> (tb_rows t) →
     usr_Email u = NormalizeEmail (nu_Email n) → usr_PasswordHash u = nu_PasswordHash n →
     usr_Role u = nu_Role n → usr_Disabled u = false →
     map_Forall (λ _ v, lower (usr_Email v) ≠ lower (usr_Email u)) (tb_rows t) → Q (Ok u) t') →
  wp (Users_Create lower n) Q t.
Proof.
  intros He Ho. unfold Users_Create. apply wp_try, wp_ret.
  destruct (NewUser_Validate n) as [[]|e] eqn:Hv; [|by apply He].
  apply wp_try_or, wp_tstatement.
  - intros e t' Ht. destruct (is_unique e); by apply wp_ret, He.
  - intros u rows t' t'' Ht Hb Ht''. cbn zeta in Hb.
    destruct (negb _) eqn:Hr in Hb; [done|]. destruct (negb _) eqn:Hn in Hb; [done|].
    destruct (negb _) eqn:Hm in Hb; [done|]. injection Hb as <- <-.
    apply negb_false_iff, bool_decide_eq_true in Hn, Hm. rewrite Ht in *. by apply wp_ret, Ho.
Qed.

Lemma wp_Users_scanOne sel t (Q : result User → UserTable → Prop) :
  (∀ e t', tb_rows t' = tb_rows t → Q (Err e) t') →
  (∀ u t', tb_rows t' = tb_rows t → head (sel (tb_rows t)) = Some u → Q (Ok u) t') →
  wp (Users_scanOne sel) Q t.
Proof.
  intros He Ho. unfold Users_scanOne.
  apply wp_try_or, wp_tselect; [intros; by apply wp_ret, He|]. intros t' Ht.
  destruct (sel (tb_rows t)) as [|u l] eqn:E; apply wp_ret; [by apply He|apply Ho; [done|done]].
Qed.

Lemma wp_Users_GetByEmail email t (Q : result User → UserTable → Prop) :
  (∀ e t', tb_rows t' = tb_rows t → Q (Err e) t') →
  (∀ id u t', tb_rows t' = tb_rows t → tb_rows t !! id = Some u →
     lower (usr_Email u) = lower (NormalizeEmail email) → Q (Ok u) t') →
  wp (Users_GetByEmail lower email) Q t.
Proof.
  intros He Ho. apply wp_Users_scanOne; [done|]. intros u t' Ht Hu.
  apply head_Some_elem_of, list_elem_of_filter in Hu as [Hl Hu].
  apply list_elem_of_fmap in Hu as ([id v] & -> & Hu). apply elem_of_map_to_list in Hu. by eapply Ho.
Qed.

Lemma wp_Users_List t (Q : result (list User) → UserTable → Prop) :
  (∀ e t', tb_rows t' = tb_rows t → Q (Err e) t') →
  (∀ l t', tb_rows t' = tb_rows t → l ≡ₚ (map_to_list (tb_rows t)).*2 → Q (Ok l) t') →
  wp Users_List Q t.
Proof.
  intros He Ho. unfold Users_List. apply wp_try_or, wp_tselect; intros; apply wp_ret; [by apply He|].
  apply Ho; [done|]. apply merge_sort_Permutation.
Qed.

Lemma wp_Users_exec id upd t (Q : result unit → UserTable → Prop) :
  (∀ e t', tb_rows t' = tb_rows t → Q (Err e) t') →
  (∀ u now t', tb_rows t !! id = Some u → tb_rows t' = <[id := upd now u]> (tb_rows t) → Q (Ok tt) t') →
  wp (Users_exec id upd) Q t.
Proof.
  intros He Ho. unfold Users_exec.
  apply wp_try_or, wp_tstatement; [intros; by apply wp_ret, He|].
  intros n rows t' t'' Ht Hb Ht''. rewrite Ht in Hb. destruct (tb_rows t !! id) as [u|] eqn:Hu.
  - injection Hb as <- <-. rewrite bool_decide_false by done. apply wp_ret. by eapply Ho.
  - injection Hb as <- <-. rewrite bool_decide_true by done. by apply wp_ret, He.
Qed.

(** An update of a row that leaves its id, its role and its address alone. *)
Lemma users_wf_update rows id u u' :
  users_wf lower rows → rows !! id = Some u →
  usr_ID u' = usr_ID u → usr_Role u' = usr_Role u → usr_Email u' = usr_Email u →
  users_wf lower (<[id := u']> rows).
Proof.
  intros [Hk Hr He] Hu Hi Hro Hem.
  assert (∀ j v, <[id := u']> rows !! j = Some v → ∃ w, rows !! j = Some w ∧
    usr_ID v = usr_ID w ∧ usr_Role v = usr_Role w ∧ usr_Email v = usr_Email w) as Hold.
  { intros j v. rewrite lookup_insert_Some. intros [[<- <-]|[_ Hj]]; eauto. }
  split.
  - intros j v (w & Hw & -> & _)%Hold. eauto.
  - intros j v (w & Hw & _ & -> & _)%Hold. eauto.
  - intros j v j' v' (w & Hw & _ & _ & ->)%Hold (w' & Hw' & _ & _ & ->)%Hold. eauto.
Qed.

Lemma users_wf_create rows u :
  users_wf lower rows → rows !! usr_ID u = None → Role_Valid (usr_Role u) = true →
  map_Forall (λ _ v, lower (usr_Email v) ≠ lower (usr_Email u)) rows →
  users_wf lower (<[usr_ID u := u]> rows).
Proof.
  intros [Hk Hr He] Hn Hro Hf. split.
  - intros j v. rewrite lookup_insert_Some. intros [[<- <-]|[_ Hj]]; eauto.
  - intros j v. rewrite lookup_insert_Some. intros [[<- <-]|[_ Hj]]; eauto.
  - intros j v j' v' Hj Hj' E. apply lookup_insert_Some in Hj as [[<- <-]|[Hne Hj]];
      apply lookup_insert_Some in Hj' as [[<- <-]|[Hne' Hj']]; eauto.
    + by destruct (Hf _ _ Hj').
    + by destruct (Hf _ _ Hj).
Qed.
End table_lemmas.
