(* ===== verification/UsersApi.v ===== *)
(** * Accounts and sessions over HTTP: [internal/api/auth.go], [users.go], [sso.go]

    Logging in with a password or through a trusted proxy, and managing accounts.
    A handler is a function of the request's decoded parts (its body, its claims,
    its headers, the path parameter) on the two tables it touches, the accounts
    and the audit log; an [Err] is what it hands to [respondError].  The random
    bytes a handler draws and the time are arguments.  Each handler runs alone
    here, except for [Disable], whose check and update are also two steps of a
    concurrent system. *)

From Stdlib Require Import Ascii.
From stdpp Require Import gmap sorting strings.
From S2P Require Import Prelude GoStrings Apperr GoMonad OsExec MetaDB Tables Auth AuditLog Users.

(** ** Data *)

Notation ApiWorld := (UserTable * AuditTable)%type.

(** [userPayload], and what a handler answers with. *)
Record userPayload := mkPayload { pl_ID : string; pl_Email : string; pl_Role : string }.
Definition toPayload (u : User) : userPayload := mkPayload (usr_ID u) (usr_Email u) (usr_Role u).
Inductive Body :=
  | BToken (token : string) (u : userPayload)
  | BCreated (u : userPayload)
  | BUsers (us : list userPayload)
  | BNoContent.

(** [loginRequest], [createUserRequest]. *)
Record loginRequest := mkLogin { lr_Email : string; lr_Password : string }.
Record createUserRequest := mkCreateUser { cu_Email : string; cu_Password : string; cu_Role : string }.

(** [SSOConfig]. *)
Record SSOConfig := mkSSO {
  sso_EmailHeader : string;
  sso_GroupsHeader : string;
  sso_AutoProvision : bool;
  sso_AdminGroup : string;
  sso_OperatorGroup : string;
  sso_SharedSecret : string;
}.

Definition minPasswordLen : Z := 8.
Definition ssoSecretHeader : string := "X-Pgfleet-Sso-Secret".

(** [strings.FieldsFunc], for separators that are single bytes. *)
Fixpoint fields_go (sep : ascii → bool) (s cur : string) : list string :=
  match s with
  | "" => if bool_decide (cur = "") then [] else [cur]
  | String c s' =>
      if sep c then (if bool_decide (cur = "") then [] else [cur]) ++ fields_go sep s' ""
      else fields_go sep s' (cur +:+ String c "")
  end.
Definition FieldsFunc (s : string) (sep : ascii → bool) : list string := fields_go sep s "".

(** ** Single sign-on configuration *)

(** [Enabled], [adminGroup], [operatorGroup]. *)
Definition SSO_Enabled (c : SSOConfig) : bool := bool_decide (TrimSpace (sso_EmailHeader c) ≠ "").
Definition adminGroup (c : SSOConfig) : string :=
  if bool_decide (sso_AdminGroup c ≠ "") then sso_AdminGroup c else "pgfleet-admins".
Definition operatorGroup (c : SSOConfig) : string :=
  if bool_decide (sso_OperatorGroup c ≠ "") then sso_OperatorGroup c else "pgfleet-operators".

(** [roleFromGroups]: the loop and its call. *)
Fixpoint group_role (c : SSOConfig) (groups : list string) : string :=
  match groups with
  | [] => RoleViewer
  | g :: rest =>
      if bool_decide (TrimSpace g = adminGroup c) then RoleAdmin
      else if bool_decide (TrimSpace g = operatorGroup c) then RoleOperator
      else group_role c rest
  end.
Definition group_separator (c : ascii) : bool := ascii_eqb c "," || ascii_eqb c " ".
Definition roleFromGroups (c : SSOConfig) (groups : string) : string :=
  group_role c (FieldsFunc groups group_separator).

(** ** Handlers *)

Section handlers.
Context {J : JWT}.
Context (lower : string → string).
Context (IDKey : string → string → Z → Z → Z → Z → string).
(** Is there an audit recorder? *)
Context (rec : bool).

(** [record] of the authentication handlers. *)
Definition record_auth (action target : string) : M ApiWorld unit :=
  when rec (discard (on_snd (Audit_Record target action target ∅))).

(** [AuthHandler.Login]; [salt] is what [rand.Read] would give a rehash. *)
Definition Login (i : Issuer) (now : Z) (salt : result string) (first : result loginRequest) (eof : bool) :
    M ApiWorld (result Body) :=
  req <-? lift_r (decodeJSON first eof) ;;
  if bool_decide (TrimSpace (lr_Email req) = "") || bool_decide (lr_Password req = "") then
    fail (New KindInvalid "email and password are required")
  else
  u <-? on_fst (Users_GetByEmail lower (lr_Email req))
    orelse (λ _,
      _ <- record_auth "auth.login.failed" (lr_Email req) ;;
      fail (New KindUnauthorized "invalid credentials")) ;;
  match VerifyPassword IDKey (lr_Password req) (usr_PasswordHash u) with
  | Err _ | Ok false =>
      _ <- record_auth "auth.login.failed" (lr_Email req) ;;
      fail (New KindUnauthorized "invalid credentials")
  | Ok true =>
      if usr_Disabled u then
        _ <- record_auth "auth.login.disabled" (usr_Email u) ;;
        fail (New KindForbidden "account is disabled")
      else
      _ <- when (NeedsRehash (usr_PasswordHash u))
             match HashPassword IDKey salt (lr_Password req) with
             | Ok newHash => discard (on_fst (Users_UpdatePasswordHash (usr_ID u) newHash))
             | Err _ => ret tt
             end ;;
      token <-? lift_r (Issue i now (usr_ID u) (usr_Email u) (usr_Role u))
        orelse (λ e, fail (Wrap KindInternal "issue token" e)) ;;
      _ <- record_auth "auth.login" (usr_Email u) ;;
      ok (BToken token (toPayload u))
  end.

(** [AuthHandler.Logout]. *)
Definition Logout (claims : option Claims) : M ApiWorld (result Body) :=
  _ <- match claims with Some c => record_auth "auth.logout" (clm_Email c) | None => ret tt end ;;
  ok BNoContent.

(** [UsersHandler.Create]. *)
Definition CreateUser (claims : option Claims) (salt : result string) (first : result createUserRequest) (eof : bool) :
    M ApiWorld (result Body) :=
  req <-? lift_r (decodeJSON first eof) ;;
  if bool_decide (len (cu_Password req) < minPasswordLen)%Z then
    fail (New KindInvalid "password must be at least 8 characters")
  else
  role <-? lift_r (ParseRole (cu_Role req)) ;;
  hash <-? lift_r (HashPassword IDKey salt (cu_Password req))
    orelse (λ e, fail (Wrap KindInternal "hash password" e)) ;;
  u <-? on_fst (Users_Create lower (mkNewUser (cu_Email req) hash role)) ;;
  _ <- on_snd (recordAudit rec claims "user.create" (usr_Email u)) ;;
  ok (BCreated (toPayload u)).

(** [UsersHandler.List]. *)
Definition ListUsers : M ApiWorld (result Body) :=
  users <-? on_fst Users_List ;;
  ok (BUsers (toPayload <$> users)).

(** The loop of [guardDisable]: the account with the id, and the number of
    active administrators. *)
Definition active_admin (u : User) : bool := bool_decide (usr_Role u = RoleAdmin) && negb (usr_Disabled u).
Definition guard_scan (id : string) (acc : option User * Z) (u : User) : option User * Z :=
  (if bool_decide (usr_ID u = id) then Some u else acc.1,
   if active_admin u then (acc.2 + 1)%Z else acc.2).

(** [guardDisable]. *)
Definition guardDisable (claims : option Claims) (id : string) : M UserTable (result unit) :=
  if match claims with Some c => bool_decide (clm_UserID c = id) | None => false end then
    fail (New KindInvalid "you cannot disable your own account")
  else
  users <-? Users_List ;;
  let '(target, activeAdmins) := foldl (guard_scan id) (None, 0%Z) users in
  match target with
  | None => done_ok
  | Some u =>
      if active_admin u && bool_decide (activeAdmins ≤ 1)%Z then
        fail (New KindInvalid "cannot disable the last active admin")
      else done_ok
  end.

(** [setDisabled]; [Disable] and [Enable]. *)
Definition setDisabled (claims : option Claims) (id : string) (disabled : bool) (action : string) :
    M ApiWorld (result Body) :=
  _ <-? (if disabled then on_fst (guardDisable claims id) else done_ok) ;;
  _ <-? on_fst (Users_SetDisabled id disabled) ;;
  _ <- on_snd (recordAudit rec claims action id) ;;
  ok BNoContent.
Definition Disable (claims : option Claims) (id : string) := setDisabled claims id true "user.disable".
Definition Enable (claims : option Claims) (id : string) := setDisabled claims id false "user.enable".

(** [randomPasswordHash], given the two reads of random bytes. *)
Definition randomPasswordHash (bytes salt : result string) : result string :=
  match bytes with
  | Err e => Err (Wrap KindInternal "sso: generate random secret" e)
  | Ok b => HashPassword IDKey salt (hex_bytes b)
  end.

(** [provision]. *)
Definition sso_provision (cfg : SSOConfig) (bytes salt : result string) (email groups : string) :
    M ApiWorld (result User) :=
  hash <-? lift_r (randomPasswordHash bytes salt) ;;
  u <-? on_fst (Users_Create lower (mkNewUser email hash (roleFromGroups cfg groups))) ;;
  _ <- record_auth "auth.sso.provisioned" (usr_Email u) ;;
  ok u.

(** The account of an identity in [Exchange]: looked up, or provisioned. *)
Definition sso_user (cfg : SSOConfig) (bytes salt : result string) (email groups : string) :
    M ApiWorld (result User) :=
  r <- on_fst (Users_GetByEmail lower email) ;;
  match r with
  | Err e => if bool_decide (Kind e = KindNotFound) && sso_AutoProvision cfg
             then sso_provision cfg bytes salt email groups else ret r
  | Ok _ => ret r
  end.

(** [Exchange] on the request headers [header]. *)
Definition Exchange (cfg : SSOConfig) (i : Issuer) (now : Z) (bytes salt : result string)
    (header : string → string) : M ApiWorld (result Body) :=
  if bool_decide (sso_SharedSecret cfg ≠ "") && bool_decide (header ssoSecretHeader ≠ sso_SharedSecret cfg) then
    fail (New KindUnauthorized "single sign-on: missing or invalid proxy secret")
  else
  let email := TrimSpace (header (sso_EmailHeader cfg)) in
  if bool_decide (email = "") then fail (New KindUnauthorized "no single sign-on identity present") else
  r <- sso_user cfg bytes salt email (header (sso_GroupsHeader cfg)) ;;
  match r with
  | Err e =>
      if bool_decide (Kind e = KindNotFound) then
        _ <- record_auth "auth.sso.unprovisioned" email ;;
        fail (New KindForbidden "no PgFleet account is provisioned for this identity")
      else fail e
  | Ok u =>
      if usr_Disabled u then
        _ <- record_auth "auth.sso.disabled" (usr_Email u) ;;
        fail (New KindForbidden "account is disabled")
      else
      token <-? lift_r (Issue i now (usr_ID u) (usr_Email u) (usr_Role u))
        orelse (λ e, fail (Wrap KindInternal "issue token" e)) ;;
      _ <- record_auth "auth.sso.login" (usr_Email u) ;;
      ok (BToken token (toPayload u))
  end.
End handlers.
