(* ===== verification/UsersSafety.v ===== *)
(** * What the account handlers guarantee

    The control plane keeps an active administrator whatever sequence of requests
    it serves ([admin_remains]), and a session token goes only to who proved an
    identity ([login_sound], [sso_sound]).  Two requests that disable the last two
    administrators at the same time can still lock everyone out
    ([concurrent_disable_locks_out]): the check and the update of [Disable] are
    not one transaction. *)

From Stdlib Require Import Ascii.
From stdpp Require Import gmap sorting strings.
From S2P Require Import Prelude GoStrings Apperr GoMonad MetaDB Tables Auth AuthFacts Samples AuditLog Users UsersApi.

(** ** Frames *)

Section frames.
Implicit Types (s : ApiWorld).

Lemma wp_record_auth rec action target s (Q : unit → ApiWorld → Prop) :
  (∀ a, Q tt (s.1, a)) → wp (record_auth rec action target) Q s.
Proof.
  intros H. unfold record_auth. apply wp_when; intros _.
  - apply wp_discard, wp_on_snd, wp_any. auto.
  - destruct s. apply H.
Qed.

Lemma wp_recordAudit rec claims action target s (Q : unit → ApiWorld → Prop) :
  (∀ a, Q tt (s.1, a)) → wp (on_snd (recordAudit rec claims action target)) Q s.
Proof. intros H. apply wp_on_snd, wp_any. intros []. auto. Qed.
End frames.

(** ** The scan of [guardDisable] *)

Section scan.
Context (id : string).

Lemma guard_scan_count l acc :
  (foldl (guard_scan id) acc l).2 = (acc.2 + Z.of_nat (length (filter (λ u, active_admin u = true) l)))%Z.
Proof.
  revert acc. induction l as [|u l IH]; intros acc; cbn [foldl]; [cbn; lia|].
  rewrite IH, filter_cons. unfold guard_scan at 1. cbn [snd].
  destruct (active_admin u); cbn [decide_rel]; [rewrite decide_True by done|rewrite decide_False by done]; cbn [length]; lia.
Qed.

Lemma guard_scan_target l acc :
  match (foldl (guard_scan id) acc l).1 with
  | Some u => (u ∈ l ∧ usr_ID u = id) ∨ acc.1 = Some u
  | None => acc.1 = None ∧ Forall (λ u, usr_ID u ≠ id) l
  end.
Proof.
  revert acc. induction l as [|u l IH]; intros acc; cbn [foldl].
  - destruct acc.1; auto.
  - specialize (IH (guard_scan id acc u)). destruct (foldl _ _ l).1 as [v|].
    + destruct IH as [[Hv Hi]|Hv]; [left; split; [by right|done]|]. unfold guard_scan in Hv. cbn [fst] in Hv.
      case_bool_decide; [|by right]. injection Hv as <-. left. split; [left|done].
    + destruct IH as [Ha Hl]. unfold guard_scan in Ha. cbn [fst] in Ha. case_bool_decide; [done|]. split; [done|].
      by constructor.
Qed.
End scan.

(** ** Someone can still administer *)

(** There is an active administrator. *)
Definition has_admin (rows : gmap string User) : Prop :=
  ∃ id u, rows !! id = Some u ∧ active_admin u = true.

(** More active administrators than one: another one than [u]. *)
Lemma another_admin (rows : gmap string User) (l : list User) id u :
  l ≡ₚ (map_to_list rows).*2 → rows !! id = Some u →
  1 < length (filter (λ u, active_admin u = true) l) →
  ∃ id' u', id' ≠ id ∧ rows !! id' = Some u' ∧ active_admin u' = true.
Proof.
  intros Hl Hu Hlen. rewrite <- (map_to_list_delete rows id u Hu) in Hl. cbn [fmap list_fmap snd] in Hl.
  rewrite Hl, filter_cons in Hlen.
  assert (0 < length (filter (λ u, active_admin u = true) (map_to_list (delete id rows)).*2)) as H.
  { destruct (decide _) in Hlen; cbn [length] in Hlen; lia. }
  destruct (filter _ _) as [|v rest] eqn:E; [cbn in H; lia|].
  assert (v ∈ filter (λ u, active_admin u = true) (map_to_list (delete id rows)).*2) as Hv by (rewrite E; left).
  apply list_elem_of_filter in Hv as [Ha Hv]. apply list_elem_of_fmap in Hv as ([id' u'] & -> & Hin).
  apply elem_of_map_to_list, lookup_delete_Some in Hin as [Hne Hin]. by exists id', u'.
Qed.

(** What the tables must keep: well-formed accounts, one of them an active
    administrator. *)
Definition accounts_ok (lower : string → string) (rows : gmap string User) : Prop :=
  users_wf lower rows ∧ has_admin rows.

Section keeps.
Context (lower : string → string).
Implicit Types (rows : gmap string User).

Lemma accounts_ok_create rows u :
  accounts_ok lower rows → rows !! usr_ID u = None → Role_Valid (usr_Role u) = true →
  map_Forall (λ _ v, lower (usr_Email v) ≠ lower (usr_Email u)) rows →
  accounts_ok lower (<[usr_ID u := u]> rows).
Proof.
  intros [Hwf (id & v & Hv & Ha)] Hn Hr Hf. split; [by apply users_wf_create|].
  exists id, v. split; [|done]. rewrite lookup_insert_ne by congruence. done.
Qed.

(** An update of the row [id] that leaves another administrator, or keeps this
    one. *)
Lemma accounts_ok_update rows id u u' :
  accounts_ok lower rows → rows !! id = Some u →
  usr_ID u' = usr_ID u → usr_Role u' = usr_Role u → usr_Email u' = usr_Email u →
  (active_admin u = true → active_admin u' = true ∨
     ∃ id' v, id' ≠ id ∧ rows !! id' = Some v ∧ active_admin v = true) →
  accounts_ok lower (<[id := u']> rows).
Proof.
  intros [Hwf (j & v & Hv & Ha)] Hu Hi Hr He Hk. split; [by eapply users_wf_update|].
  destruct (decide (j = id)) as [->|Hne].
  - rewrite Hv in Hu. injection Hu as ->. destruct (Hk Ha) as [Ha'|(j & w & Hj & Hw & Haw)].
    + exists id, u'. by rewrite lookup_insert_eq.
    + exists j, w. by rewrite lookup_insert_ne.
  - exists j, v. by rewrite lookup_insert_ne.
Qed.

Lemma wp_guardDisable claims id (t : UserTable) (Q : result unit → UserTable → Prop) :
  users_wf lower (tb_rows t) →
  (∀ e t', tb_rows t' = tb_rows t → Q (Err e) t') →
  (∀ t', tb_rows t' = tb_rows t →
     (∀ u, tb_rows t !! id = Some u → active_admin u = true →
       ∃ id' v, id' ≠ id ∧ tb_rows t !! id' = Some v ∧ active_admin v = true) → Q (Ok tt) t') →
  wp (guardDisable claims id) Q t.
Proof.
  intros Hwf He Ho. unfold guardDisable. destruct (match claims with Some _ => _ | None => _ end).
  { by apply wp_ret, He. }
  apply wp_try, wp_Users_List; [done|]. intros l t' Ht Hl.
  pose proof (guard_scan_target id l (None, 0%Z)) as Htg.
  pose proof (guard_scan_count id l (None, 0%Z)) as Hc.
  destruct (foldl _ _ l) as [target n]. cbn [fst snd] in *. destruct target as [u|].
  - destruct Htg as [[Hin Hid]|]; [|done]. rewrite Hl in Hin.
    apply list_elem_of_fmap in Hin as ([j v] & Hjv & Hin). cbn [snd] in Hjv. subst v. apply elem_of_map_to_list in Hin.
    assert (j = id) as -> by (rewrite <- Hid; symmetry; by eapply users_keys).
    destruct (active_admin u) eqn:Ha; cbn [andb]; [case_bool_decide as Hn; [by apply wp_ret, He|]|];
      apply wp_ret, Ho; try done; intros w Hw Haw; rewrite Hin in Hw; injection Hw as <-; [|congruence].
    eapply another_admin; [done..|lia].
  - apply wp_ret, Ho; [done|]. intros u Hu _. destruct Htg as [_ Hall].
    assert (u ∈ l) as Hin. { rewrite Hl. apply list_elem_of_fmap. exists (id, u). by rewrite elem_of_map_to_list. }
    rewrite Forall_forall in Hall. destruct (Hall u Hin). by eapply users_keys.
Qed.
End keeps.

(** ** Logging in *)

(** The accounts are what they were, but for the hash of [id]'s password. *)
Definition rehashed (id : string) (u : User) (rows rows' : gmap string User) : Prop :=
  rows' = rows ∨ ∃ hash now, rows' = <[id := usr_set_PasswordHash hash now u]> rows.

Section handlers.
Context {J : JWT}.
Context (lower : string → string) (IDKey : string → string → Z → Z → Z → Z → string) (rec : bool).
Implicit Types (s : ApiWorld).

(** The opportunistic rehash of [Login]. *)
Lemma wp_rehash (b : bool) (h : result string) id u s (Q : unit → ApiWorld → Prop) :
  users_wf lower (tb_rows s.1) → tb_rows s.1 !! id = Some u →
  (∀ s', rehashed id u (tb_rows s.1) (tb_rows s'.1) → Q tt s') →
  wp (when b match h with
             | Ok newHash => discard (on_fst (Users_UpdatePasswordHash (usr_ID u) newHash))
             | Err _ => ret tt
             end) Q s.
Proof.
  intros Hwf Hu HQ. rewrite (users_keys _ _ Hwf _ _ Hu).
  apply wp_when; intros _; [destruct h as [nh|e]|]; [|apply wp_ret, HQ; by left|apply HQ; by left].
  apply wp_discard, wp_on_fst, wp_Users_exec; [intros e t' Ht; apply HQ; by left|].
  intros v now t' Hv Ht. apply HQ. right. exists nh, now. rewrite Hv in Hu. by injection Hu as <-.
Qed.


(** ** Signing on through the proxy *)

(** The accounts are what they were, or have gained the one provisioned for the
    address: provisioning is on, nobody has the address, and the role is the one
    of the groups. *)
Definition sso_created (cfg : SSOConfig) (email groups : string) (rows rows' : gmap string User) : Prop :=
  rows' = rows ∨ ∃ u, rows' = <[usr_ID u := u]> rows ∧ rows !! usr_ID u = None ∧
    sso_AutoProvision cfg = true ∧ usr_Email u = NormalizeEmail email ∧
    map_Forall (λ _ v, lower (usr_Email v) ≠ lower (usr_Email u)) rows ∧
    Role_Valid (usr_Role u) = true ∧ usr_Role u = roleFromGroups cfg groups.

Lemma roleFromGroups_valid cfg groups : Role_Valid (roleFromGroups cfg groups) = true.
Proof.
  unfold roleFromGroups. induction (FieldsFunc groups group_separator) as [|g l IH]; [done|].
  cbn [group_role]. by repeat case_bool_decide.
Qed.

Lemma wp_sso_user cfg bytes salt email groups s (Q : result User → ApiWorld → Prop) :
  (∀ r s', sso_created cfg email groups (tb_rows s.1) (tb_rows s'.1) →
     match r with
     | Ok u => ∃ id, tb_rows s'.1 !! id = Some u ∧ lower (usr_Email u) = lower (NormalizeEmail email)
     | Err _ => True
     end → Q r s') →
  wp (sso_user lower IDKey rec cfg bytes salt email groups) Q s.
Proof.
  intros HQ. unfold sso_user. apply wp_bind, wp_on_fst, wp_Users_GetByEmail.
  - intros e t' Ht. destruct (bool_decide _ && _) eqn:Hp; [|by apply wp_ret, HQ; [left|]].
    apply andb_true_iff in Hp as [_ Hp]. unfold sso_provision. apply wp_try, wp_ret.
    destruct (randomPasswordHash _ _ _) as [h|e']; [|by apply HQ; [left|]].
    apply wp_try, wp_on_fst, wp_Users_Create; cbn [fst].
    + intros e' t2 Ht2. apply HQ; [|done]. left. cbn [fst]. by rewrite Ht2.
    + intros u t2 _ Hn Ht2 He _ Hr _ Hf. rewrite Ht in *. cbn [nu_Email nu_Role] in He, Hr.
      apply wp_bind, wp_record_auth. intros a. apply wp_ret, HQ; cbn [fst]; rewrite Ht2.
      * right. exists u. split_and!; try done. rewrite Hr. apply roleFromGroups_valid.
      * exists (usr_ID u). rewrite lookup_insert_eq. by rewrite He.
  - intros id u t' Ht Hu Hl. apply wp_ret, HQ; cbn [fst]; rewrite Ht; [by left|by exists id].
Qed.

(** C34: when a shared secret is configured, an exchange whose header does
    not carry it is refused and changes nothing; a token is issued only for a
    present identity, in the name of an enabled account with its address; an
    account is created only when provisioning is on and nobody has the address,
    with the role of the groups the proxy names; and no other account changes. *)
Theorem sso_sound cfg i now bytes salt header s :
  wp (Exchange lower IDKey rec cfg i now bytes salt header) (λ r s',
    let email := TrimSpace (header (sso_EmailHeader cfg)) in
    (sso_SharedSecret cfg ≠ "" ∧ header ssoSecretHeader ≠ sso_SharedSecret cfg →
       s' = s ∧ ∃ e, r = Err e ∧ Kind e = KindUnauthorized) ∧
    (email = "" → s' = s) ∧
    sso_created cfg email (header (sso_GroupsHeader cfg)) (tb_rows s.1) (tb_rows s'.1) ∧
    match r with
    | Ok (BToken token p) => email ≠ "" ∧ ∃ id u, tb_rows s'.1 !! id = Some u ∧
        lower (usr_Email u) = lower (NormalizeEmail email) ∧ usr_Disabled u = false ∧ p = toPayload u ∧
        Issue i now (usr_ID u) (usr_Email u) (usr_Role u) = Ok token
    | Ok _ => False
    | Err _ => True
    end) s.
Proof.
  unfold Exchange. destruct (bool_decide _ && _) eqn:Hs.
  { apply wp_ret. split_and!; [by eauto|done|by left|done]. }
  assert (¬ (sso_SharedSecret cfg ≠ "" ∧ header ssoSecretHeader ≠ sso_SharedSecret cfg)) as Hs'.
  { intros [H1 H2]. by rewrite !bool_decide_true in Hs. }
  clear Hs. cbn zeta. case_bool_decide as He.
  { apply wp_ret. split; [by intros H; destruct (Hs' H)|]. split; [done|]. split; [by left|done]. }
  apply wp_bind, wp_sso_user. intros r s1 Hc Hr. destruct r as [u|e].
  - destruct Hr as (id & Hu & Hl). destruct (usr_Disabled u) eqn:Hd.
    + apply wp_bind, wp_record_auth. intros a. by apply wp_ret.
    + apply wp_try_or, wp_ret. destruct (Issue _ _ _ _ _) as [token|e] eqn:Hi; [|by apply wp_ret].
      apply wp_bind, wp_record_auth. intros a. apply wp_ret. split_and!; try done. by exists id, u.
  - destruct (bool_decide _); [|by apply wp_ret]. apply wp_bind, wp_record_auth. intros a. by apply wp_ret.
Qed.

(** ** Serving requests one after the other *)

Lemma rehashed_ok id u rows rows' :
  accounts_ok lower rows → rows !! id = Some u → rehashed id u rows rows' → accounts_ok lower rows'.
Proof. intros Hok Hu [->|(h & now & ->)]; [done|]. eapply accounts_ok_update; eauto. Qed.

Lemma sso_created_ok cfg email groups rows rows' :
  accounts_ok lower rows → sso_created cfg email groups rows rows' → accounts_ok lower rows'.
Proof. intros Hok [->|(u & -> & Hn & _ & _ & Hf & Hr & _)]; [done|]. by apply accounts_ok_create. Qed.

Lemma Login_keeps i now salt first eof s :
  accounts_ok lower (tb_rows s.1) →
  wp (Login lower IDKey rec i now salt first eof) (λ _ s', accounts_ok lower (tb_rows s'.1)) s.
Proof.
  intros Hok. unfold Login. apply wp_try, wp_ret. destruct (decodeJSON first eof); [|done].
  destruct (bool_decide _ || _); [by apply wp_ret|].
  apply wp_try_or, wp_on_fst, wp_Users_GetByEmail.
  { intros e t' Ht. apply wp_bind, wp_record_auth. intros b. apply wp_ret. cbn [fst]. by rewrite Ht. }
  intros id u t' Ht Hu _. destruct (VerifyPassword _ _ _) as [[]|e];
    [|apply wp_bind, wp_record_auth; intros b; apply wp_ret; cbn [fst]; by rewrite Ht..].
  destruct (usr_Disabled u); [apply wp_bind, wp_record_auth; intros b; apply wp_ret; cbn [fst]; by rewrite Ht|].
  apply wp_bind, (wp_rehash _ _ id u); cbn [fst]; rewrite Ht; [apply Hok|done|]. intros s' Hs'.
  assert (accounts_ok lower (tb_rows s'.1)) by (by eapply rehashed_ok).
  apply wp_try_or, wp_ret. destruct (Issue _ _ _ _ _); [|by apply wp_ret].
  apply wp_bind, wp_record_auth. intros b. by apply wp_ret.
Qed.

Lemma Exchange_keeps cfg i now bytes salt header s :
  accounts_ok lower (tb_rows s.1) →
  wp (Exchange lower IDKey rec cfg i now bytes salt header) (λ _ s', accounts_ok lower (tb_rows s'.1)) s.
Proof.
  intros Hok. unfold Exchange. destruct (bool_decide _ && _); [by apply wp_ret|].
  destruct (bool_decide _); [by apply wp_ret|]. apply wp_bind, wp_sso_user. intros r s1 Hc _.
  apply (sso_created_ok _ _ _ _ _ Hok) in Hc. destruct r as [u|e].
  - destruct (usr_Disabled u); [apply wp_bind, wp_record_auth; intros b; by apply wp_ret|].
    apply wp_try_or, wp_ret. destruct (Issue _ _ _ _ _); [|by apply wp_ret].
    apply wp_bind, wp_record_auth. intros b. by apply wp_ret.
  - destruct (bool_decide _); [|by apply wp_ret]. apply wp_bind, wp_record_auth. intros b. by apply wp_ret.
Qed.

Lemma CreateUser_keeps claims salt first eof s :
  accounts_ok lower (tb_rows s.1) →
  wp (CreateUser lower IDKey rec claims salt first eof) (λ _ s', accounts_ok lower (tb_rows s'.1)) s.
Proof.
  intros Hok. unfold CreateUser. apply wp_try, wp_ret. destruct (decodeJSON first eof) as [req|]; [|done].
  destruct (bool_decide _); [by apply wp_ret|]. apply wp_try, wp_ret.
  unfold ParseRole. destruct (Role_Valid (cu_Role req)) eqn:Hr; [|done].
  apply wp_try_or, wp_ret. destruct (HashPassword _ _ _); [|by apply wp_ret].
  apply wp_try, wp_on_fst, wp_Users_Create; cbn [fst].
  - intros e t' Ht. by rewrite Ht.
  - intros u t' _ Hn Ht _ _ Hro _ Hf. apply wp_bind, wp_recordAudit. intros b. apply wp_ret. cbn [fst].
    rewrite Ht. apply accounts_ok_create; [done..|by rewrite Hro|done].
Qed.

Lemma setDisabled_keeps claims id disabled action s :
  accounts_ok lower (tb_rows s.1) →
  wp (setDisabled rec claims id disabled action) (λ _ s', accounts_ok lower (tb_rows s'.1)) s.
Proof.
  intros Hok. unfold setDisabled.
  assert (∀ t, tb_rows t = tb_rows s.1 →
    (∀ u, tb_rows s.1 !! id = Some u → active_admin u = true → disabled = true →
       ∃ id' v, id' ≠ id ∧ tb_rows s.1 !! id' = Some v ∧ active_admin v = true) →
    wp (_ <-? on_fst (Users_SetDisabled id disabled) ;;
        _ <- on_snd (recordAudit rec claims action id) ;;
        ok BNoContent) (λ _ s', accounts_ok lower (tb_rows s'.1)) (t, s.2)) as Hset.
  { intros t Ht Hk. apply wp_try, wp_on_fst, wp_Users_exec; cbn [fst]; rewrite Ht.
    - intros e t' Ht'. by rewrite Ht'.
    - intros u now t' Hu Ht'. apply wp_bind, wp_recordAudit. intros b. apply wp_ret. cbn [fst]. rewrite Ht'.
      eapply accounts_ok_update; [done..|]. intros Ha. destruct disabled; [right; by eapply Hk|left].
      unfold active_admin in *. apply andb_true_iff in Ha as [Ha _]. unfold usr_set_Disabled. cbn [usr_Role usr_Disabled]. by rewrite Ha. }
  destruct disabled; apply wp_try.
  - apply wp_on_fst, (wp_guardDisable lower); [apply Hok|intros e t' Ht'; cbn [fst]; by rewrite Ht'|].
    intros t' Ht' Hk. apply (Hset t' Ht'). intros u Hu Ha _. by eapply Hk.
  - apply wp_ret. destruct s as [t a]. by apply (Hset t).
Qed.

Lemma EnsureAdmin_keeps salt email password s :
  accounts_ok lower (tb_rows s.1) →
  wp (on_fst (EnsureAdmin lower IDKey salt email password)) (λ _ s', accounts_ok lower (tb_rows s'.1)) s.
Proof.
  intros Hok. apply wp_on_fst. cbn [fst]. unfold EnsureAdmin. destruct (bool_decide _ || _); [by apply wp_ret|].
  apply wp_try_or, wp_Users_List; [intros e t' Ht; apply wp_ret; by rewrite Ht|]. intros l t' Ht Hl.
  case_bool_decide as Hlen; [apply wp_ret; by rewrite Ht|]. destruct Hok as [_ (id & u & Hu & _)].
  assert (u ∈ l) as Hin. { rewrite Hl. apply list_elem_of_fmap. exists (id, u). by rewrite elem_of_map_to_list. }
  destruct l; [by apply elem_of_nil in Hin|cbn in Hlen; lia].
Qed.

(** One request served, or one start of the server. *)
Inductive api_step (s : ApiWorld) : ApiWorld → Prop :=
  | step_login i now salt first eof : api_step s (Login lower IDKey rec i now salt first eof s).2
  | step_exchange cfg i now bytes salt header :
      api_step s (Exchange lower IDKey rec cfg i now bytes salt header s).2
  | step_logout claims : api_step s (Logout rec claims s).2
  | step_create claims salt first eof : api_step s (CreateUser lower IDKey rec claims salt first eof s).2
  | step_list : api_step s (ListUsers s).2
  | step_disable claims id : api_step s (Disable rec claims id s).2
  | step_enable claims id : api_step s (Enable rec claims id s).2
  | step_boot salt email password : api_step s (on_fst (EnsureAdmin lower IDKey salt email password) s).2.

Lemma api_step_keeps s s' : api_step s s' → accounts_ok lower (tb_rows s.1) → accounts_ok lower (tb_rows s'.1).
Proof.
  intros Hstep Hok. destruct Hstep.
  - by apply Login_keeps.
  - by apply Exchange_keeps.
  - apply (wp_bind _ _ (λ _ s', accounts_ok lower (tb_rows s'.1))). destruct claims as [c|]; [|by do 2 apply wp_ret].
    apply wp_record_auth. intros b. by apply wp_ret.
  - by apply CreateUser_keeps.
  - apply (wp_try _ _ (λ _ s', accounts_ok lower (tb_rows s'.1))), wp_on_fst, wp_Users_List; intros; cbn [fst];
      [|apply wp_ret; cbn [fst]]; by match goal with H : tb_rows _ = _ |- _ => rewrite H end.
  - by apply setDisabled_keeps.
  - by apply setDisabled_keeps.
  - by apply EnsureAdmin_keeps.
Qed.

(** C26: whatever requests are served, one after the other and with any
    statement failing, the accounts stay well-formed (unique addresses, valid
    roles) and the control plane keeps an active administrator. *)
Theorem admin_remains s s' :
  accounts_ok lower (tb_rows s.1) → rtc api_step s s' → accounts_ok lower (tb_rows s'.1).
Proof. intros Hok Hs. revert Hok. induction Hs; eauto using api_step_keeps. Qed.
End handlers.

(** ** Two requests at once *)

(** [Disable] as the server runs it, its check and its update apart: the accounts
    and the ids whose check has passed. *)
Inductive disable_step : UserTable * list string → UserTable * list string → Prop :=
  | ds_check claims id t t' p : guardDisable claims id t = (Ok tt, t') → disable_step (t, p) (t', id :: p)
  | ds_update id r t t' p1 p2 :
      Users_SetDisabled id true t = (r, t') → disable_step (t, p1 ++ id :: p2) (t', p1 ++ p2).

(** ** A concrete control plane *)

#[local] Instance sample_jwt : JWT := {|
  jwt_sign _ _ := Ok "good";
  jwt_parse _ _ _ := Err (Errorf "token is malformed");
|}.

Definition sample_hash : string := value_or "" (HashPassword sample_IDKey (Ok "0123456789abcdef") "correct horse").
Definition sample_user (id : string) : User :=
  mkUser id (id +:+ "@example.com") sample_hash RoleAdmin false 0 0.
Definition sample_accounts (ids : list string) : UserTable :=
  mkTable sample_env 0 (list_to_map ((λ id, (id, sample_user id)) <$> ids)).
Definition sample_claims_of (id : string) : option Claims :=
  Some (mkClaims id (id +:+ "@example.com") RoleAdmin id 0 0 100).

Lemma sample_accounts_ok : accounts_ok (λ s, s) (tb_rows (sample_accounts ["ada"; "bob"])).
Proof.
  assert (∀ id u, tb_rows (sample_accounts ["ada"; "bob"]) !! id = Some u →
    (id = "ada" ∧ u = sample_user "ada") ∨ (id = "bob" ∧ u = sample_user "bob")) as Hl.
  { intros id u. cbn [sample_accounts tb_rows fmap list_fmap list_to_map foldr].
    rewrite !lookup_insert_Some, lookup_empty. naive_solver. }
  split; [split|].
  - by intros id u [[-> ->]|[-> ->]]%Hl.
  - by intros id u [[-> ->]|[-> ->]]%Hl.
  - by intros id u id' u' [[-> ->]|[-> ->]]%Hl [[-> ->]|[-> ->]]%Hl.
  - by exists "ada", (sample_user "ada").
Qed.

(** Two administrators disable each other at the same time: both checks see two
    active administrators, both updates are made, and nobody can administer. *)
Theorem concurrent_disable_locks_out :
  ∃ t t', accounts_ok (λ s, s) (tb_rows t) ∧ rtc disable_step (t, []) (t', []) ∧ ¬ has_admin (tb_rows t').
Proof.
  pose (t := sample_accounts ["ada"; "bob"]).
  pose (t1 := (guardDisable (sample_claims_of "ada") "bob" t).2).
  pose (t2 := (guardDisable (sample_claims_of "bob") "ada" t1).2).
  pose (t3 := (Users_SetDisabled "ada" true t2).2).
  pose (t4 := (Users_SetDisabled "bob" true t3).2).
  exists t, t4. split; [apply sample_accounts_ok|]. split.
  - eapply rtc_l; [apply (ds_check (sample_claims_of "ada") "bob" t t1); vm_compute; reflexivity|].
    eapply rtc_l; [apply (ds_check (sample_claims_of "bob") "ada" t1 t2); vm_compute; reflexivity|].
    eapply rtc_l; [apply (ds_update "ada" (Ok tt) t2 t3 [] ["bob"]); vm_compute; reflexivity|].
    eapply rtc_l; [apply (ds_update "bob" (Ok tt) t3 t4 [] []); vm_compute; reflexivity|]. apply rtc_refl.
  - intros (id & u & Hu & Ha).
    assert (map_Forall (λ _ u, active_admin u = false) (tb_rows t4)) as H
      by (apply (bool_decide_unpack _); vm_compute; reflexivity).
    specialize (H id u Hu). cbn in H. congruence.
Qed.

(** Disabling one after the other: the second request is refused. *)
Definition sample_world : ApiWorld := (sample_accounts ["ada"; "bob"], mkTable sample_env 0 ∅).
Lemma admin_remains_witness :
  ∃ s', rtc (api_step (J := sample_jwt) (λ s, s) sample_IDKey true) sample_world s' ∧
    (active_admin <$> tb_rows s'.1 !! "bob") = Some false ∧ has_admin (tb_rows s'.1).
Proof.
  pose (s1 := (Disable true (sample_claims_of "ada") "bob" sample_world).2).
  pose (s2 := (Disable true (sample_claims_of "bob") "ada" s1).2).
  assert (rtc (api_step (J := sample_jwt) (λ s, s) sample_IDKey true) sample_world s2) as Hs.
  { eapply rtc_l; [exact (step_disable _ _ _ _ (sample_claims_of "ada") "bob")|].
    eapply rtc_l; [exact (step_disable _ _ _ _ (sample_claims_of "bob") "ada")|]. apply rtc_refl. }
  exists s2. split; [exact Hs|]. split; [vm_compute; reflexivity|].
  exact (proj2 (admin_remains (λ s, s) sample_IDKey true sample_world s2 sample_accounts_ok Hs)).
Defined.

