(* ===== verification/ClusterCtl.v ===== *)
(** * The cluster service: [internal/clusterctl]

    A cluster is created as rows ([Create]), brought up ([Provision]: the
    primary, the replicas that stream from it, the router) and torn down
    ([Destroy]: the replicas and their slots before the primary, the row last).
    The provisioner, the repositories and the router remover are interfaces over
    one world [S]. *)

From stdpp Require Import gmap.
From S2P Require Import Prelude GoStrings Apperr GoMonad Instances Runtime Stores Provision ProvisionOps Failover.

(** ** Data *)

(** [clusterctl.Input]. *)
Record Input := mkInput {
  in_Name : string;
  in_Replicas : Z;
  in_Password : string;
  in_RepoType : string;
  in_Version : string;
  in_Parameters : gmap string string;
  in_Extensions : list string;
  in_PoolMode : string;
}.

(** [RouterBackend]. *)
Record RouterBackend := mkRouterBackend {
  rb_Name : string;
  rb_Role : string;
  rb_Address : string;
}.

(** [clusterctl.Provisioner]. *)
Class ClusterProvisioner (S : Type) := {
  cp_Provision : Context → string → ProgressFunc → M S (result unit);
  cp_ProvisionReplica : Context → string → Inst → ProgressFunc → M S (result unit);
  cp_StartRouter : Context → RouterSpec → ProgressFunc → M S (result (string * Z));
  cp_Destroy : Context → string → bool → M S (result unit);
  cp_DropReplicationSlot : Context → Inst → string → M S (result unit);
  cp_emit : ProgressFunc → string → string → M S unit;
}.

(** One member of the cluster to be. *)
Definition member (i : Input) (repoType name role : string) : NewInstance :=
  mkNewInstance name "" (in_Version i) "" role repoType "" (in_Password i)
    (in_Parameters i) (in_Extensions i).

(** The primary and the replicas [r1], [r2], ... *)
Definition memberSpecs (i : Input) (repoType : string) : list NewInstance :=
  member i repoType (in_Name i +:+ "-p") RolePrimary ::
  ((λ k, member i repoType (in_Name i +:+ "-r" +:+ itoa k) RoleReplica) <$>
     seqZ 1 (in_Replicas i)).

Definition set_ClusterID (cid : string) (n : NewInstance) : NewInstance :=
  mkNewInstance (ni_Name n) (ni_Image n) (ni_PGVersion n) cid (ni_Role n) (ni_RepoType n)
    (ni_Superuser n) (ni_Password n) (ni_Parameters n) (ni_Extensions n).

(** The first member name that is not valid, as the error [Create] returns. *)
Definition validateMembers (name : string) (specs : list NewInstance) : result unit :=
  foldl (λ r spec, rbind r (λ _,
    match NewInstance_Validate spec with
    | Ok _ => Ok tt
    | Err e => Err (New KindInvalid
        ("cluster: derived member name invalid for cluster name " +:+ name +:+ ": " +:+ Error e))
    end)) (Ok tt) specs.

Section service.
Context {S : Type} {CP : ClusterProvisioner S} {IS : InstanceStore S} {CS : ClusterStore S}
  {RR : RouterRemover S}.
Context (hmac_hex : string → string → string).
(** [Service.repoType] and [Service.masterKey]. *)
Context (defaultRepo masterKey : string).

(** ** Operations *)

(** [Create]. *)
Definition createMember (ctx : Context) (cid : string) (spec : NewInstance) : M S (result unit) :=
  _ <-? repo_Create ctx (set_ClusterID cid spec)
        orelse (λ e, _ <- discard (clusters_Delete ctx cid) ;; fail e) ;;
  done_ok.
Definition Create (ctx : Context) (i : Input) : M S (result Cluster) :=
  _ <-? lift_r (NewCluster_Validate (mkNewCluster (in_Name i) "")) ;;
  if bool_decide (in_Replicas i < 0)%Z || bool_decide (9 < in_Replicas i)%Z then
    fail (New KindInvalid "cluster: replicas must be 0-9")
  else
  let repoType := if bool_decide (in_RepoType i = "") then defaultRepo else in_RepoType i in
  let specs := memberSpecs i repoType in
  _ <-? lift_r (validateMembers (in_Name i) specs) ;;
  c <-? clusters_Create ctx (mkNewCluster (in_Name i) (in_PoolMode i)) ;;
  _ <-? for_each_e specs tt (λ _ spec, createMember ctx (cl_ID c) spec) ;;
  ok c.

(** The router of a cluster whose primary is [primary]. *)
Definition clusterRouterSpec (c : Cluster) (primary : Inst) (password : string)
    (replicaNames : list string) : RouterSpec :=
  mkRouterSpec (cl_ID c) (cl_Name c) "postgres" (inst_Superuser primary) password
    (RouterAdminPass hmac_hex masterKey (cl_ID c))
    (RouterMembersFromInstances (inst_Name primary) replicaNames) (cl_PoolMode c) [].

(** [provision]. *)
Definition provisionCluster (ctx : Context) (clusterID : string) (progress : ProgressFunc) :
    M S (result unit) :=
  c <-? clusters_Get ctx clusterID ;;
  members <-? repo_ListByCluster ctx clusterID ;;
  match members with
  | primary :: replicas =>
      if bool_decide (inst_Role primary ≠ RolePrimary)
      then fail (New KindInternal "cluster: no primary member")
      else
      _ <- cp_emit progress "primary" "provisioning primary" ;;
      _ <-? cp_Provision ctx (inst_ID primary) progress ;;
      got <- repo_Get ctx (inst_ID primary) ;;
      let primary := value_or zeroInst got in
      _ <-? clusters_SetPrimary ctx clusterID (inst_ID primary) ;;
      replicaNames <-? for_each_e replicas [] (λ names r,
        _ <- cp_emit progress "replica" ("provisioning replica " +:+ inst_Name r) ;;
        _ <-? cp_ProvisionReplica ctx (inst_ID r) primary progress ;;
        ok (names ++ [inst_Name r])) ;;
      password <-? repo_Password ctx (inst_ID primary) ;;
      rp <-? cp_StartRouter ctx (clusterRouterSpec c primary password replicaNames) progress ;;
      let '(routerID, port) := rp : string * Z in
      clusters_SetRouter ctx clusterID routerID port
  | [] => fail (New KindInternal "cluster: no primary member")
  end.

(** [Provision]. *)
Definition ProvisionCluster (ctx : Context) (clusterID : string) (progress : ProgressFunc) :
    M S (result unit) :=
  _ <-? provisionCluster ctx clusterID progress
        orelse (λ e, _ <- discard (clusters_SetStatus ctx clusterID ClusterError (Error e)) ;; fail e) ;;
  clusters_SetStatus ctx clusterID ClusterRunning "".

(** [ConnectionDSN]. *)
Definition ConnectionDSN (ctx : Context) (clusterID host : string) : M S (result string) :=
  c <-? clusters_Get ctx clusterID ;;
  if bool_decide (cl_RouterPort c = 0)%Z then fail (New KindNotFound "cluster: router not ready")
  else
  members <-? repo_ListByCluster ctx clusterID ;;
  match members with
  | [] => fail (New KindInternal "cluster: no members")
  | primary :: _ =>
      if bool_decide (inst_Role primary ≠ RolePrimary)
      then fail (New KindInternal "cluster: no primary member")
      else
      password <-? repo_Password ctx (inst_ID primary) ;;
      ok (url_String "postgres" (inst_Superuser primary) password
            (host +:+ ":" +:+ itoa (cl_RouterPort c)) "/postgres" "sslmode=disable")
  end.

(** [RouterAdminDSN]. *)
Definition RouterAdminDSN (ctx : Context) (clusterID host : string) : M S (result string) :=
  c <-? clusters_Get ctx clusterID ;;
  if bool_decide (cl_RouterPort c = 0)%Z then fail (New KindNotFound "cluster: router not ready")
  else
  let pass := RouterAdminPass hmac_hex masterKey (cl_ID c) in
  if bool_decide (pass = "") then
    fail (New KindInternal "cluster: router admin password unavailable")
  else
  ok (url_String "postgres" "pgfleet_admin" pass (host +:+ ":" +:+ itoa (cl_RouterPort c))
        "/pgcat" "sslmode=disable").

(** [RouterBackends]. *)
Definition RouterBackends (ctx : Context) (clusterID : string) : M S (result (list RouterBackend)) :=
  members <-? repo_ListByCluster ctx clusterID ;;
  ok ((λ m, mkRouterBackend (inst_Name m) (inst_Role m) (InstanceContainerName (inst_Name m))) <$> members).

(** One member of a cluster that is torn down. *)
Definition destroyMember (ctx : Context) (clusterID : string) (primary : Inst) (retainBackups : bool)
    (m : Inst) : M S (result unit) :=
  _ <- when (bool_decide (inst_Role m = RoleReplica) && bool_decide (inst_ContainerID primary ≠ ""))
         (discard (cp_DropReplicationSlot ctx primary (SlotName (inst_Name m)))) ;;
  _ <-? cp_Destroy ctx (inst_ID m) retainBackups
        orelse (λ e,
          _ <- discard (clusters_SetStatus ctx clusterID ClusterError ("destroy failed: " +:+ Error e)) ;;
          fail e) ;;
  done_ok.

(** [Destroy]. *)
Definition DestroyCluster (ctx : Context) (clusterID : string) (retainBackups : bool) :
    M S (result unit) :=
  c <-? clusters_Get ctx clusterID ;;
  _ <- discard (clusters_SetStatus ctx clusterID ClusterDestroying "") ;;
  _ <- when (bool_decide (cl_RouterContainerID c ≠ ""))
         (discard (router_RemoveContainer Background (cl_RouterContainerID c) true)) ;;
  members <-? repo_ListByCluster ctx clusterID ;;
  let primary := match members with
                 | p :: _ => if bool_decide (inst_Role p = RolePrimary) then p else zeroInst
                 | [] => zeroInst
                 end in
  _ <-? for_each_e (rev members) tt (λ _ m, destroyMember ctx clusterID primary retainBackups m) ;;
  clusters_Delete ctx clusterID.
End service.
