(* ===== verification/ClusterSafety.v ===== *)
(** * The order in which a cluster comes up and goes down

    The cluster service on a world that logs the calls it makes.  The abstract
    specifications [cluster_up] and [cluster_down] say which sequences of calls a
    [Provision] and a [Destroy] may be, with the result of each; every run of the
    code is one of them. *)

From stdpp Require Import gmap.
From S2P Require Import Prelude GoStrings Apperr GoMonad Triples Instances Runtime Stores Provision ProvisionOps Failover ClusterCtl.

(** ** Events *)

Inductive CEvent :=
  | CMembers (ms : result (list Inst))
  | CProvision (id : string) (r : result unit)
  | CPrimary (id : string) (r : result unit)
  | CReplica (id : string) (source : Inst) (r : result unit)
  | CRouter (spec : RouterSpec) (r : result (string * Z))
  | CDrop (primary : Inst) (slot : string) (r : result unit)
  | CDestroy (id : string) (r : result unit)
  | CDeleteRow (id : string) (r : result unit)
  | CStatus (status : string).

(** ** Going down *)

(** The calls that take one member down: its slot on the primary, if it is a
    replica and there is a primary to hold one, then the member. *)
Inductive member_down (primary m : Inst) (r : result unit) : list CEvent → Prop :=
  | DownReplica d :
      inst_Role m = RoleReplica → inst_ContainerID primary ≠ "" →
      member_down primary m r [CDrop primary (SlotName (inst_Name m)) d; CDestroy (inst_ID m) r]
  | DownOther :
      inst_Role m ≠ RoleReplica ∨ inst_ContainerID primary = "" →
      member_down primary m r [CDestroy (inst_ID m) r].

(** Members taken down one after the other, up to the first that fails. *)
Inductive members_down (primary : Inst) : list Inst → result unit → list CEvent → Prop :=
  | DownAll : members_down primary [] (Ok tt) []
  | DownNext m ms l1 l2 r :
      member_down primary m (Ok tt) l1 → members_down primary ms r l2 →
      members_down primary (m :: ms) r (l1 ++ l2)
  | DownStop m ms l e :
      member_down primary m (Err e) l →
      members_down primary (m :: ms) (Err e) (l ++ [CStatus ClusterError]).

(** The primary of the listed members, which come with it first. *)
Definition listed_primary (ms : list Inst) : Inst :=
  match ms with
  | p :: _ => if bool_decide (inst_Role p = RolePrimary) then p else zeroInst
  | [] => zeroInst
  end.

Inductive cluster_down (id : string) : result unit → list CEvent → Prop :=
  | DownNoCluster e : cluster_down id (Err e) []
  | DownNoMembers e : cluster_down id (Err e) [CStatus ClusterDestroying; CMembers (Err e)]
  | DownFailed ms e l :
      members_down (listed_primary ms) (rev ms) (Err e) l →
      cluster_down id (Err e) ([CStatus ClusterDestroying; CMembers (Ok ms)] ++ l)
  | DownDone ms r l :
      members_down (listed_primary ms) (rev ms) (Ok tt) l →
      cluster_down id r ([CStatus ClusterDestroying; CMembers (Ok ms)] ++ l ++ [CDeleteRow id r]).

(** ** Coming up *)

(** Replicas built from [p] one after the other, up to the first that fails. *)
Inductive replicas_up (p : Inst) : list Inst → result (list string) → list CEvent → Prop :=
  | UpAll : replicas_up p [] (Ok []) []
  | UpNext r rs names l :
      replicas_up p rs (Ok names) l →
      replicas_up p (r :: rs) (Ok (inst_Name r :: names)) (CReplica (inst_ID r) p (Ok tt) :: l)
  | UpLater r rs e l :
      replicas_up p rs (Err e) l →
      replicas_up p (r :: rs) (Err e) (CReplica (inst_ID r) p (Ok tt) :: l)
  | UpStop r rs e : replicas_up p (r :: rs) (Err e) [CReplica (inst_ID r) p (Err e)].

(** The calls of [provision] and their result: nothing is built before the
    primary, no router before every replica streams. *)
Inductive cluster_up : result unit → list CEvent → Prop :=
  | UpNoCluster e : cluster_up (Err e) []
  | UpNoMembers e : cluster_up (Err e) [CMembers (Err e)]
  | UpNoPrimary ms e :
      (∀ p rest, ms = p :: rest → inst_Role p ≠ RolePrimary) → cluster_up (Err e) [CMembers (Ok ms)]
  | UpPrimaryFailed p rest e :
      inst_Role p = RolePrimary →
      cluster_up (Err e) [CMembers (Ok (p :: rest)); CProvision (inst_ID p) (Err e)]
  | UpUnrecorded p rest q e :
      inst_Role p = RolePrimary →
      cluster_up (Err e)
        [CMembers (Ok (p :: rest)); CProvision (inst_ID p) (Ok tt); CPrimary (inst_ID q) (Err e)]
  | UpReplicaFailed p rest q e l :
      inst_Role p = RolePrimary → replicas_up q rest (Err e) l →
      cluster_up (Err e)
        ([CMembers (Ok (p :: rest)); CProvision (inst_ID p) (Ok tt); CPrimary (inst_ID q) (Ok tt)] ++ l)
  | UpNoPassword p rest q names e l :
      inst_Role p = RolePrimary → replicas_up q rest (Ok names) l →
      cluster_up (Err e)
        ([CMembers (Ok (p :: rest)); CProvision (inst_ID p) (Ok tt); CPrimary (inst_ID q) (Ok tt)] ++ l)
  | UpRouterFailed p rest q names spec e l :
      inst_Role p = RolePrimary → replicas_up q rest (Ok names) l →
      rsp_Members spec = RouterMembersFromInstances (inst_Name q) names →
      cluster_up (Err e)
        ([CMembers (Ok (p :: rest)); CProvision (inst_ID p) (Ok tt); CPrimary (inst_ID q) (Ok tt)] ++ l ++
         [CRouter spec (Err e)])
  | UpDone p rest q names spec rp r l :
      inst_Role p = RolePrimary → replicas_up q rest (Ok names) l →
      rsp_Members spec = RouterMembersFromInstances (inst_Name q) names →
      cluster_up r
        ([CMembers (Ok (p :: rest)); CProvision (inst_ID p) (Ok tt); CPrimary (inst_ID q) (Ok tt)] ++ l ++
         [CRouter spec (Ok rp)]).

(** ** The logging world *)

Section logged.
Context {S : Type} {CP0 : ClusterProvisioner S} {IS0 : InstanceStore S} {CS0 : ClusterStore S}
  {RR0 : RouterRemover S}.

#[local] Instance logged_cprov : ClusterProvisioner (S * list CEvent) := {|
  cp_Provision ctx id g := traced (CProvision id) (cp_Provision ctx id g);
  cp_ProvisionReplica ctx id p g := traced (CReplica id p) (cp_ProvisionReplica ctx id p g);
  cp_StartRouter ctx sp g := traced (CRouter sp) (cp_StartRouter ctx sp g);
  cp_Destroy ctx id b := traced (CDestroy id) (cp_Destroy ctx id b);
  cp_DropReplicationSlot ctx p slot := traced (CDrop p slot) (cp_DropReplicationSlot ctx p slot);
  cp_emit g step detail := on_fst (cp_emit g step detail);
|}.

#[local] Instance logged_cinst : InstanceStore (S * list CEvent) := {|
  repo_Create ctx n := on_fst (repo_Create ctx n);
  repo_Get ctx id := on_fst (repo_Get ctx id);
  repo_GetByName ctx n := on_fst (repo_GetByName ctx n);
  repo_List ctx := on_fst (repo_List ctx);
  repo_ListByCluster ctx id := traced CMembers (repo_ListByCluster ctx id);
  repo_Password ctx id := on_fst (repo_Password ctx id);
  repo_SetRuntime ctx id cid port := on_fst (repo_SetRuntime ctx id cid port);
  repo_SetDataVolume ctx id v := on_fst (repo_SetDataVolume ctx id v);
  repo_SetStatus ctx id st err := on_fst (repo_SetStatus ctx id st err);
  repo_SetPublic ctx id b := on_fst (repo_SetPublic ctx id b);
  repo_SetEncrypted ctx id b := on_fst (repo_SetEncrypted ctx id b);
  repo_SetRole ctx id role := on_fst (repo_SetRole ctx id role);
  repo_Delete ctx id := on_fst (repo_Delete ctx id);
|}.

#[local] Instance logged_cclus : ClusterStore (S * list CEvent) := {|
  clusters_Create ctx n := on_fst (clusters_Create ctx n);
  clusters_Get ctx id := on_fst (clusters_Get ctx id);
  clusters_List ctx := on_fst (clusters_List ctx);
  clusters_SetPrimary ctx id p := traced (CPrimary p) (clusters_SetPrimary ctx id p);
  clusters_SetRouter ctx id cid port := on_fst (clusters_SetRouter ctx id cid port);
  clusters_SetStatus ctx id st msg := traced (λ _, CStatus st) (clusters_SetStatus ctx id st msg);
  clusters_Delete ctx id := traced (CDeleteRow id) (clusters_Delete ctx id);
|}.

#[local] Instance logged_crouter : RouterRemover (S * list CEvent) := {|
  router_RemoveContainer ctx id f := on_fst (router_RemoveContainer ctx id f);
|}.

(** ** The runs *)

Lemma logs_status_write ctx id st msg :
  logs (discard (clusters_SetStatus ctx id st msg)) (λ _ l, l = [CStatus st]).
Proof. apply logs_discard. eapply logs_mono; [apply logs_traced|]. done. Qed.

Lemma logs_member ctx id primary retain m :
  logs (destroyMember ctx id primary retain m) (λ r l, match r with
    | Ok _ => member_down primary m (Ok tt) l
    | Err e => ∃ l0, l = l0 ++ [CStatus ClusterError] ∧ member_down primary m (Err e) l0
    end).
Proof.
  unfold destroyMember.
  eapply (logs_bind _ _ (λ _ l, ∀ r, member_down primary m r (l ++ [CDestroy (inst_ID m) r]))).
  { destruct (_ && _) eqn:Hb.
    - apply andb_true_iff in Hb as [H1 H2]. apply bool_decide_eq_true in H1, H2.
      apply logs_discard. eapply logs_mono; [apply logs_traced|]. intros d l -> r. by apply DownReplica.
    - apply logs_ret. intros r. apply DownOther. apply andb_false_iff in Hb as [H|H];
        apply bool_decide_eq_false in H; [by left|right]. by apply dec_stable. }
  intros [] l1 Hl. eapply logs_try_or; [apply logs_traced| |].
  - intros e l2 ->. eapply logs_bind; [apply logs_status_write|]. intros [] l3 ->. apply logs_ret. rewrite app_nil_r, app_assoc. eexists. split; [done|]. apply Hl.
  - intros [] l2 ->. apply logs_ret. rewrite app_nil_r. apply Hl.
Qed.

Lemma logs_members ctx id primary retain ms :
  logs (for_each_e ms tt (λ _ m, destroyMember ctx id primary retain m)) (members_down primary ms).
Proof.
  induction ms as [|m ms IH]; [by apply logs_ret, DownAll|]. cbn [for_each_e].
  eapply logs_try_or; [apply logs_member| |].
  - intros e l1 (l0 & -> & Hd). apply logs_ret. rewrite app_nil_r. by apply DownStop.
  - intros [] l1 Hd. eapply logs_mono; [apply IH|]. intros r l Hr. by apply DownNext.
Qed.

(** C15: a cluster is taken down from the end of its member list: for
    each member the slot it used on the primary is dropped and then the member
    is destroyed, the primary, which the list starts with, last; the first
    failure stops everything with the cluster in error, and the cluster's row
    is deleted only after every member was destroyed. *)
Theorem teardown_order ctx id retain (s : S * list CEvent) :
  ∃ l, (DestroyCluster ctx id retain s).2.2 = s.2 ++ l ∧
    cluster_down id (DestroyCluster ctx id retain s).1 l.
Proof.
  apply logs_run. unfold DestroyCluster.
  eapply logs_try_or; [apply logs_silent|intros e l ->; apply logs_ret, DownNoCluster|]. intros c l0 ->.
  eapply logs_bind; [apply logs_status_write|]. intros [] l1 ->. apply logs_step; [apply logs_when; [apply logs_discard, logs_silent|done]|]. intros _.
  eapply logs_try_or; [apply logs_traced| |].
  - intros e l2 ->. apply logs_ret, DownNoMembers.
  - intros ms l2 ->. change (match ms with [] => zeroInst | p :: _ => _ end) with (listed_primary ms).
    eapply logs_try_or; [apply logs_members| |].
    + intros e l3 Hd. apply logs_ret. rewrite app_nil_r. by apply DownFailed.
    + intros [] l3 Hd. eapply logs_mono; [apply logs_traced|]. intros r l ->. by apply DownDone.
Qed.

Lemma logs_replicas ctx p g rs names0 :
  logs (for_each_e rs names0 (λ names r,
        _ <- cp_emit g "replica" ("provisioning replica " +:+ inst_Name r) ;;
        _ <-? cp_ProvisionReplica ctx (inst_ID r) p g ;;
        ok (names ++ [inst_Name r])))
    (λ res l, match res with
     | Ok names => ∃ new, names = names0 ++ new ∧ replicas_up p rs (Ok new) l
     | Err e => replicas_up p rs (Err e) l
     end).
Proof.
  revert names0. induction rs as [|r rs IH]; intros names0; cbn [for_each_e].
  { apply logs_ret. exists []. rewrite app_nil_r. split; [done|apply UpAll]. }
  eapply (logs_try_or _ _ _ (λ res l, match res with
     | Ok names => names = names0 ++ [inst_Name r] ∧ l = [CReplica (inst_ID r) p (Ok tt)]
     | Err e => l = [CReplica (inst_ID r) p (Err e)] end)).
  - apply logs_step; [apply logs_silent|intros _].
    eapply logs_try_or; [apply logs_traced| |].
    + intros e l ->. by apply logs_ret.
    + intros [] l ->. by apply logs_ret.
  - intros e l1 ->. apply logs_ret, UpStop.
  - intros names l1 [-> ->]. eapply logs_mono; [apply IH|]. intros [names|e] l Hl; [|by apply UpLater].
    destruct Hl as (new & -> & Hl). exists (inst_Name r :: new). split; [by rewrite <- app_assoc|]. by apply UpNext.
Qed.

(** A cluster comes up primary first: the listed primary is
    provisioned and recorded before any replica is touched; every replica, in
    the order of the list, is built from the primary's row as it is after that;
    the router starts only when all of them are up and its members are exactly
    the primary and those replicas; any failure stops there and is what the
    caller gets. *)
Theorem bring_up_order hmac_hex masterKey ctx id progress (s : S * list CEvent) :
  ∃ l, (provisionCluster hmac_hex masterKey ctx id progress s).2.2 = s.2 ++ l ∧
    cluster_up (provisionCluster hmac_hex masterKey ctx id progress s).1 l.
Proof.
  apply logs_run. unfold provisionCluster.
  eapply logs_try_or; [apply logs_silent|intros e l ->; apply logs_ret, UpNoCluster|]. intros c l0 ->.
  eapply logs_try_or; [apply logs_traced|intros e l ->; apply logs_ret, UpNoMembers|]. intros [|p rest] l1 ->.
  { apply logs_ret. by apply UpNoPrimary. }
  case_bool_decide as Hp.
  { apply logs_ret, UpNoPrimary. by intros ? ? [= <- <-]. }
  apply logs_step; [apply logs_silent|intros _].
  eapply logs_try_or; [apply logs_traced|intros e l ->; by apply logs_ret, UpPrimaryFailed|]. intros [] l2 ->.
  apply logs_step; [apply logs_silent|]. intros got. set (q := value_or zeroInst got).
  eapply logs_try_or; [apply logs_traced|intros e l ->; by apply logs_ret, UpUnrecorded|]. intros [] l3 ->.
  eapply logs_try_or; [apply logs_replicas| |].
  { intros e l Hl. apply logs_ret. rewrite app_nil_r. by apply (UpReplicaFailed p rest q). }
  intros names l4 (new & -> & Hl). cbn [app] in *.
  eapply logs_try_or; [apply logs_silent| |].
  { intros e l ->. apply logs_ret. rewrite !app_nil_r. by apply (UpNoPassword p rest q new). }
  intros pw l5 ->. eapply logs_try_or; [apply logs_traced| |].
  { intros e l ->. apply logs_ret. by apply (UpRouterFailed p rest q new). }
  intros [cid port] l6 ->. eapply logs_mono; [apply logs_silent|]. intros r l ->.
  by apply (UpDone p rest q new _ (cid, port)).
Qed.
End logged.
