(* ===== verification/Reconcile.v ===== *)
(** * Reconciliation: [internal/reconcile]

    One pass brings the rows of the instances and the containers the runtime
    reports back in agreement.  Containers are found by their labels; helpers
    (restores, base backups, drills, routers) do not count as the container of
    the instance they serve.  [reconcile_rows] says what a pass may do to a row:
    rows owned by an operation in flight are never touched, and the others only
    follow what the runtime reports. *)

From stdpp Require Import gmap.
From S2P Require Import Prelude GoStrings Apperr GoMonad Instances Runtime DockerFake Stores MetaDB Provision ProvisionOps ProvisionFacts Samples.

(** [transientRole]. *)
Definition transientRole (role : string) : bool :=
  bool_decide (role ∈ ["restore"; "basebackup"; "drill"; "router"]).

(** The main container of each instance; a later one of the list replaces an
    earlier one. *)
Definition indexOne (m : gmap string ContainerInfo) (c : ContainerInfo) : gmap string ContainerInfo :=
  if transientRole (label (ci_Labels c) LabelRole) then m
  else
    let id := label (ci_Labels c) LabelInstance in
    if bool_decide (id ≠ "") then <[id := c]> m else m.
Definition indexContainers (containers : list ContainerInfo) : gmap string ContainerInfo :=
  foldl indexOne ∅ containers.

(** [hostPort]: 0 when the port is missing or does not start with a number. *)
Definition hostPort (state : ContainerState) : Z :=
  match cst_Ports state !! "5432/tcp" with
  | None => 0%Z
  | Some hp => default 0%Z (Sscanf_d hp)
  end.

(** The statuses another operation owns. *)
Definition ownedStatus (st : string) : bool :=
  bool_decide (st ∈ [StatusError; StatusDestroying; StatusRestoring; StatusProvisioning]).

Section reconcile.
Context {R D : Type} {RT : ContainerRuntime R} {PR : Process R} {ST : InstanceStore D}.
Notation W := (R * D)%type.

(** [reconcileOne]. *)
Definition reconcileOne (ctx : Context) (inst : Inst) (containers : gmap string ContainerInfo) :
    M W unit :=
  if ownedStatus (inst_Status inst) then ret tt
  else
  match containers !! inst_ID inst with
  | None =>
      when (bool_decide (inst_Status inst = StatusRunning))
        (discard (repo (repo_SetStatus ctx (inst_ID inst) StatusError
           "container not found during reconciliation")))
  | Some info =>
      state <- rt (Inspect ctx (ci_ID info)) ;;
      match state with
      | Err _ => ret tt
      | Ok state =>
          _ <- when (bool_decide (inst_ContainerID inst ≠ ci_ID info))
                 (discard (repo (repo_SetRuntime ctx (inst_ID inst) (ci_ID info) (hostPort state)))) ;;
          let desired := if cst_Running state then StatusRunning else StatusStopped in
          when (bool_decide (inst_Status inst ≠ desired))
            (discard (repo (repo_SetStatus ctx (inst_ID inst) desired "")))
      end
  end.

(** [Reconcile]. *)
Definition Reconcile (ctx : Context) : M W (result unit) :=
  instances <-? repo (repo_List ctx) ;;
  containers <-? rt (ListByLabel ctx {[LabelManaged := "true"]}) ;;
  let byInstance := indexContainers containers in
  _ <- for_each instances tt (λ _ inst, reconcileOne ctx inst byInstance) ;;
  done_ok.
End reconcile.

(** ** The index *)

(** Only a main container of the instance is indexed under it. *)
Definition main_of (id : string) (c : ContainerInfo) : Prop :=
  label (ci_Labels c) LabelInstance = id ∧ id ≠ "" ∧ transientRole (label (ci_Labels c) LabelRole) = false.

Lemma indexContainers_main containers id c :
  indexContainers containers !! id = Some c → c ∈ containers ∧ main_of id c.
Proof.
  unfold indexContainers.
  assert (H : ∀ l m, (∀ c, m !! id = Some c → c ∈ containers ∧ main_of id c) → l ⊆ containers →
    ∀ c, foldl indexOne m l !! id = Some c → c ∈ containers ∧ main_of id c).
  { intros l. induction l as [|x l IH]; intros m Hm Hsub; cbn; [exact Hm|].
    apply IH; [|set_solver]. intros c1. unfold indexOne. destruct (transientRole _) eqn:Ht; [apply Hm|].
    case_bool_decide as Hid; [|apply Hm].
    intros [[<- ->]|[_ Hc]]%lookup_insert_Some; [|by apply Hm]. split; [set_solver|]. done. }
  apply (H containers ∅); [|done]. intros c0. by rewrite lookup_empty.
Qed.

Section facts.
Context {R D : Type} {RT : ContainerRuntime R} {PR : Process R} {ST : InstanceStore D} {SL : StoreLaws D}.
Notation W := (R * D)%type.

(** ** What a pass may do to a row *)

(** The row [i'] is [i], but for when it was written. *)
Definition but_time (i i' : Inst) : Prop := ∃ t, i' = inst_set_UpdatedAt t i.

(** What reconciliation may make of the row [i]: nothing; an error when it should
    be running and no main container is known; or what the container it is
    given reports: its id, and running or stopped. *)
Inductive reconciled (containers : list ContainerInfo) (i : Inst) : Inst → Prop :=
  | Kept : reconciled containers i i
  | Lost i' err :
      inst_Status i = StatusRunning → but_time (inst_set_Status StatusError err i) i' →
      reconciled containers i i'
  | Adopted c i' port :
      ownedStatus (inst_Status i) = false → c ∈ containers → main_of (inst_ID i) c →
      but_time (inst_set_Runtime (ci_ID c) port i) i' → reconciled containers i i'
  | Followed c i1 i' st :
      ownedStatus (inst_Status i) = false → c ∈ containers → main_of (inst_ID i) c →
      i1 = i ∨ (∃ port, but_time (inst_set_Runtime (ci_ID c) port i) i1) →
      st = StatusRunning ∨ st = StatusStopped →
      but_time (inst_set_Status st "" i1) i' → reconciled containers i i'.

Lemma wp_touch ctx_op id f (d : D) (Q : D → Prop) :
  updates rows id f ctx_op →
  (∀ d', rows d' = rows d → Q d') →
  (∀ d' i i', rows d !! id = Some i → but_time (f i) i' → rows d' = <[id := i']> (rows d) → Q d') →
  wp ctx_op (λ _ d', Q d') d.
Proof.
  intros Hu H0 H1. eapply wp_update; [exact Hu| |].
  - intros t d' [i Hi] Hr. eapply H1; [exact Hi|by exists t|].
    rewrite Hr. apply map_eq. intros k. destruct (decide (id = k)) as [<-|Hk].
    + by rewrite lookup_alter_eq, lookup_insert_eq, Hi.
    + by rewrite lookup_alter_ne, lookup_insert_ne.
  - intros e d' Hr. by apply H0.
Qed.

(** One instance: only its own row, and only into a reconciled one. *)
Lemma wp_reconcileOne ctx i containers (s : W) :
  rows s.2 !! inst_ID i = Some i →
  wp (reconcileOne ctx i (indexContainers containers)) (λ _ s',
    rows s'.2 = rows s.2 ∨
    ∃ i', rows s'.2 = <[inst_ID i := i']> (rows s.2) ∧ reconciled containers i i') s.
Proof.
  intros Hi. unfold reconcileOne. destruct (ownedStatus _) eqn:Ho; [by left|].
  destruct (indexContainers containers !! inst_ID i) as [c|] eqn:Hc.
  - apply indexContainers_main in Hc as [Hin Hmain].
    apply wp_bind. destruct s as [r d]. unfold wp at 1, rt, on_fst. cbn [fst snd] in *.
    destruct (Inspect ctx (ci_ID c) r) as [[state|e] r']; cbn [fst snd]; [|by left].
    apply wp_bind, wp_when; intros Hne.
    + apply wp_discard, wp_on_snd. cbn [snd].
      eapply (wp_touch _ _ _ d); [apply repo_SetRuntime_law| |].
      * intros d' Hr. apply wp_when; intros _; [|by left].
        apply wp_discard, wp_on_snd. cbn [fst snd].
        eapply (wp_touch _ _ _ d'); [apply repo_SetStatus_law| |].
        -- intros d2 Hr2. left. cbn. congruence.
        -- intros d2 j j' Hj Hjt Hr2. rewrite Hr, Hi in Hj. injection Hj as <-.
           right. exists j'. cbn. split; [congruence|].
           eapply (Followed _ _ c i); [done..|by left| |exact Hjt].
           destruct (cst_Running state); [by left|by right].
      * intros d' j j' Hj Hjt Hr. rewrite Hi in Hj. injection Hj as <-.
        assert (HA : reconciled containers i j') by by eapply (Adopted _ _ c).
        apply wp_when; intros _; [|right; by exists j'].
        apply wp_discard, wp_on_snd. cbn [fst snd].
        eapply (wp_touch _ _ _ d'); [apply repo_SetStatus_law| |].
        -- intros d2 Hr2. right. exists j'. cbn. split; [congruence|done].
        -- intros d2 k k' Hk Hkt Hr2. rewrite Hr, lookup_insert_eq in Hk. injection Hk as <-.
           right. exists k'. cbn. split; [by rewrite Hr2, Hr, insert_insert_eq|].
           eapply (Followed _ _ c j'); [done..|by right; eexists| |exact Hkt].
           destruct (cst_Running state); [by left|by right].
    + apply wp_when; intros _; [|by left].
      apply wp_discard, wp_on_snd. cbn [fst snd].
      eapply (wp_touch _ _ _ d); [apply repo_SetStatus_law| |].
      * intros d2 Hr2. by left.
      * intros d2 j j' Hj Hjt Hr2. rewrite Hi in Hj. injection Hj as <-. right. exists j'. split; [done|].
        eapply (Followed _ _ c i); [done..|by left| |exact Hjt].
        destruct (cst_Running state); [by left|by right].
  - apply wp_when; intros Hst; [|by left]. apply bool_decide_eq_true in Hst.
    apply wp_discard, wp_on_snd. eapply (wp_touch _ _ _ s.2); [apply repo_SetStatus_law| |].
    + intros d' Hr. by left.
    + intros d' j j' Hj Hjt Hr. rewrite Hi in Hj. injection Hj as <-. right. exists j'. split; [done|].
      by eapply Lost.
Qed.
(** A pass, whatever the runtime reports and whichever writes
    fail, creates and deletes no row, leaves the containers and the volumes
    alone, and makes of every row only what [reconciled] allows: in particular a
    row that an operation in flight owns (provisioning, restoring, destroying)
    or that is in error is exactly what it was, and a row is put on a container
    only if that is one of the reported containers, labelled with its id and not
    a helper. *)
Theorem reconcile_rows {DL : DockerLaws R} ctx (s : W) :
  wp (Reconcile ctx) (λ _ s',
    ctrs s'.1 = ctrs s.1 ∧ vols s'.1 = vols s.1 ∧
    ∃ containers, ∀ id,
      match rows s.2 !! id with
      | Some i => ∃ i', rows s'.2 !! id = Some i' ∧ reconciled containers i i'
      | None => rows s'.2 !! id = None
      end) s.
Proof.
  assert (Hsame : ∀ s' : W, rows s'.2 = rows s.2 → ∃ containers : list ContainerInfo, ∀ id,
      match rows s.2 !! id with
      | Some i => ∃ i', rows s'.2 !! id = Some i' ∧ reconciled containers i i'
      | None => rows s'.2 !! id = None
      end).
  { intros s' Hr. exists []. intros id. rewrite Hr. destruct (rows s.2 !! id) as [i|]; [|done].
    exists i. split; [done|constructor]. }
  assert (Hk : wkeeps (Reconcile (R:=R) (D:=D) ctx)) by (unfold Reconcile, reconcileOne; wkeep).
  destruct (Hk s) as [Hc Hv]. cut (wp (Reconcile ctx) (λ _ s', ∃ containers, ∀ id,
      match rows s.2 !! id with
      | Some i => ∃ i', rows s'.2 !! id = Some i' ∧ reconciled containers i i'
      | None => rows s'.2 !! id = None
      end) s); [intros H; unfold wp in *; by split_and!|]. clear Hk Hc Hv.
  unfold Reconcile. apply wp_try, wp_on_snd. eapply wp_mono; [apply repo_List_law|].
  intros [instances|e] d' [Hr Hl]; [|by apply (Hsame (s.1, d'))].
  apply wp_try. unfold wp at 1, rt, on_fst. cbn [fst snd].
  destruct (ListByLabel _ _ s.1) as [[containers|e] r']; cbn [fst snd]; [|by apply (Hsame (r', d'))].
  destruct Hl as [Hnd Hl].
  apply wp_bind, (wp_for_each (λ rest _ s',
    (∀ i, i ∈ rest → rows s'.2 !! inst_ID i = Some i ∧ rows s.2 !! inst_ID i = Some i) ∧ NoDup (inst_ID <$> rest) ∧
    ∀ id, match rows s.2 !! id with
      | Some i => ∃ i', rows s'.2 !! id = Some i' ∧ reconciled containers i i'
      | None => rows s'.2 !! id = None
      end)).
  - cbn. rewrite Hr. split_and!; [by intros i Hi%Hl; split|done|]. intros id.
    destruct (rows s.2 !! id) as [i|]; [|done]. exists i. split; [done|constructor].
  - intros i rest [] s1 (Hrest & Hnd' & Hrows). cbn in Hnd'. apply NoDup_cons in Hnd' as [Hni Hnd'].
    destruct (Hrest i) as [Hi Hi0]; [set_solver|].
    eapply wp_mono; [by apply wp_reconcileOne|]. intros [] s2 [Hs2|(i' & Hs2 & Hrec)].
    + rewrite Hs2. split_and!; [intros j Hj; apply Hrest; set_solver|done|done].
    + rewrite Hs2. split_and!; [|done|].
      * intros j Hj. rewrite lookup_insert_ne; [apply Hrest; set_solver|].
        intros Heq. apply Hni. rewrite Heq. by apply list_elem_of_fmap_2.
      * intros id. specialize (Hrows id). destruct (decide (id = inst_ID i)) as [->|Hne].
        -- rewrite Hi0. exists i'. by rewrite lookup_insert_eq.
        -- by rewrite lookup_insert_ne by done.
  - intros [] s1 (_ & _ & Hrows). by exists containers.
Qed.
End facts.
