(* ===== verification/AsyncTracker.v ===== *)
(** * Background work: [internal/api/async.go]

    Handlers start work that outlives their request through a tracker, so that a
    shutdown can wait for it.  The tracker is a counter of running tasks and a
    flag, both behind one mutex: [Go] and the closing part of [Wait] are its atomic
    steps.  Tasks are values of any type [T]; [ApiFleet] says what they do. *)

From S2P Require Import Prelude GoMonad.

(** ** Data and operations *)

(** [Async]: [as_running] is what the wait group counts. *)
Record Async (T : Type) := mkAsync {
  as_closed : bool;
  as_running : list T;
}.
Arguments mkAsync {T} as_closed as_running.
Arguments as_closed {T} a.
Arguments as_running {T} a.

(** [NewAsync]. *)
Definition NewAsync {T} : Async T := mkAsync false [].

(** [Go]: once closed, new work is dropped. *)
Definition Async_Go {T} (t : T) : M (Async T) unit := λ a,
  (tt, if as_closed a then a else mkAsync false (as_running a ++ [t])).

(** The critical section of [Wait]. *)
Definition Async_close {T} (a : Async T) : Async T := mkAsync true (as_running a).

(** ** A server and its shutdown

    Where the one call of [Wait] is: not made, blocked in its [select] (has the
    goroutine that waits for the group closed [done]?), or returned (drained, or
    after the timeout). *)
Inductive WaitPhase := Serving | Draining (done : bool) | Returned (drained : bool).

Notation ServerState T := (Async T * WaitPhase)%type.

(** The steps of the goroutines of the process. *)
Inductive server_step {T} : ServerState T → ServerState T → Prop :=
  | step_go a ph t : server_step (a, ph) ((Async_Go t a).2, ph)
  | step_task_done c l1 t l2 ph : server_step (mkAsync c (l1 ++ t :: l2), ph) (mkAsync c (l1 ++ l2), ph)
  | step_wait a : server_step (a, Serving) (Async_close a, Draining false)
  | step_group_done c : server_step (mkAsync c [], Draining false) (mkAsync c [], Draining true)
  | step_select_done a : server_step (a, Draining true) (a, Returned true)
  | step_select_timeout a b : server_step (a, Draining b) (a, Returned false).

(** ** Lemmas *)

Definition phase_ok {T} (s : ServerState T) : Prop :=
  match s.2 with
  | Serving => as_closed s.1 = false
  | Draining false | Returned false => as_closed s.1 = true
  | Draining true | Returned true => as_closed s.1 = true ∧ as_running s.1 = []
  end.

Lemma phase_ok_step {T} (s s' : ServerState T) : server_step s s' → phase_ok s → phase_ok s'.
Proof.
  unfold phase_ok. intros [a ph t|c l1 t l2 ph|a|c|a|a b] H; cbn in *; try naive_solver.
  - destruct ph as [|[]|[]]; cbn; repeat case_match; naive_solver.
  - destruct ph as [|[]|[]]; try done; destruct H as [_ H]; by destruct l1.
  - by destruct b; destruct_and?.
Qed.

Lemma phase_ok_reach {T} (s s' : ServerState T) : rtc server_step s s' → phase_ok s → phase_ok s'.
Proof. induction 1; eauto using phase_ok_step. Qed.

(** Closing lasts, and a closed tracker only loses tasks. *)
Lemma closed_step {T} (s s' : ServerState T) : server_step s s' → as_closed s.1 = true →
  as_closed s'.1 = true ∧ as_running s'.1 `sublist_of` as_running s.1.
Proof.
  intros [a ph t|c l1 t l2 ph|a|c|a|a b]; cbn; intros Hc; rewrite ?Hc; try done.
  split; [done|]. apply sublist_app; [done|]. by apply sublist_cons.
Qed.

Lemma closed_reach {T} (s s' : ServerState T) : rtc server_step s s' → as_closed s.1 = true →
  as_closed s'.1 = true ∧ as_running s'.1 `sublist_of` as_running s.1.
Proof.
  induction 1 as [s|s s1 s' Hs _ IH]; intros Hc; [done|].
  destruct (closed_step _ _ Hs Hc) as [Hc1 H1]. destruct (IH Hc1) as [Hc' H2].
  split; [done|]. by etrans.
Qed.

(** A blocked [Wait] whose tasks end returns, in as many steps as there are tasks
    and two more. *)
Lemma drain_steps {T} c (l : list T) :
  nsteps server_step (length l + 2) (mkAsync c l, Draining false) (mkAsync c [], Returned true).
Proof.
  induction l as [|t l IH]; cbn.
  - eapply nsteps_l; [apply step_group_done|]. eapply nsteps_l; [apply step_select_done|]. apply nsteps_O.
  - eapply nsteps_l; [exact (step_task_done c [] t l _)|exact IH].
Qed.

(** ** Property *)

(** C23: in every state the server can reach, if [Wait] returned because the work
    was drained then no task is running and none ever runs again, whatever
    requests still come in; from the moment it is called no task is added; and
    while it is blocked, the ends of the tasks that run are enough for it to
    return drained. *)
Theorem async_drained {T} (a : Async T) (ph : WaitPhase) :
  rtc server_step (NewAsync, Serving) (a, ph) →
  (ph = Returned true → ∀ s', rtc server_step (a, ph) s' → as_running s'.1 = []) ∧
  (ph ≠ Serving → ∀ s', rtc server_step (a, ph) s' → as_running s'.1 `sublist_of` as_running a) ∧
  (∀ b, ph = Draining b → ∃ n, n ≤ length (as_running a) + 2 ∧
     nsteps server_step n (a, ph) (mkAsync true [], Returned true)).
Proof.
  intros Hr. apply phase_ok_reach in Hr; [|done].
  assert (ph ≠ Serving → as_closed a = true) as Hc 
    by (revert Hr; destruct ph as [|[]|[]]; cbn; naive_solver).
  split_and!.
  - intros -> s' Hs'. destruct Hr as [Hcl He]. cbn in Hcl, He.
    destruct (closed_reach _ _ Hs' Hcl) as [_ H]. cbn in H. rewrite He in H. by apply sublist_nil_r in H.
  - intros Hph s' Hs'. apply (closed_reach _ _ Hs'). by apply Hc.
  - intros b ->. destruct a as [c l]. cbn in *. rewrite Hc in * by done. destruct b.
    + destruct Hr as [_ He]. cbn in He. subst l. exists 1. split; [lia|]. apply nsteps_once, step_select_done.
    + exists (length l + 2). split; [lia|apply drain_steps].
Qed.

(** Two tasks are started, shutdown begins, a third is dropped, and both end. *)
Lemma async_drained_witness :
  ∃ a : Async nat, rtc server_step (NewAsync, Serving) (a, Returned true) ∧ as_running a = [].
Proof.
  assert (rtc server_step (NewAsync, Serving) (mkAsync true ([] : list nat), Returned true)) as H.
  { eapply rtc_l; [exact (step_go NewAsync Serving 1)|]. eapply rtc_l; [exact (step_go (mkAsync false [1]) Serving 2)|].
    eapply rtc_l; [exact (step_wait (mkAsync false [1; 2]))|].
    eapply rtc_l; [exact (step_go (mkAsync true [1; 2]) _ 3)|].
    apply rtc_nsteps_2 with 4. exact (drain_steps true [1; 2]). }
  exists (mkAsync true []). split; [exact H|].
  exact (proj1 (async_drained _ _ H) eq_refl _ (rtc_refl _ _)).
Defined.
