(* ===== verification/ApiFleet.v ===== *)
(** * The fleet over HTTP: [api/instances.go], [clusters.go], [backups.go], [remote.go]

    The handlers that create, change and remove what PgFleet manages.  A handler
    works on the world [S] of the services, which are interfaces here, on the audit
    log and on the tracker of background work; it takes the decoded parts of the
    request and answers with a [Reply] or an error for [respondError].  Work that
    outlives the request is a [Task], given to the tracker and carried out by
    [run_task].  [remote_target.go] of [cmd/pgfleet-api] is the implementation of
    one of the interfaces over the others. *)

From stdpp Require Import gmap strings.
From S2P Require Import Prelude GoStrings Apperr GoMonad GoTime Instances Runtime Stores MetaDB Tables Provision ProvisionOps Backup Auth ClusterCtl RemoteBackup AuditLog AsyncTracker.

(** ** The services *)

(** [InstanceProvisioner]; [ip_emit] is the nil check and the call of a callback. *)
Class InstanceProvisioner (S : Type) := {
  ip_Provision : Context → string → ProgressFunc → M S (result unit);
  ip_Clone : Context → string → Inst → ProgressFunc → M S (result unit);
  ip_Start : Context → string → M S (result unit);
  ip_Stop : Context → string → M S (result unit);
  ip_Restart : Context → string → M S (result unit);
  ip_Destroy : Context → string → bool → M S (result unit);
  ip_SetVisibility : Context → string → bool → M S (result unit);
  ip_DSN : Context → string → M S (result string);
  ip_MarkError : Context → string → string → M S (result unit);
  ip_emit : ProgressFunc → string → string → M S unit;
}.

(** [ClusterService]. *)
Class ClusterService (S : Type) := {
  cs_Create : Context → Input → M S (result Cluster);
  cs_Provision : Context → string → ProgressFunc → M S (result unit);
  cs_Destroy : Context → string → bool → M S (result unit);
  cs_ConnectionDSN : Context → string → string → M S (result string);
}.

(** [BackupRunner], [CloneBackupRunner] and [Restorer]. *)
Class BackupRunner (S : Type) := {
  br_Run : Context → string → string → M S (result unit);
  br_RunWith : Context → string → string → RunOpts → M S (result unit);
  br_Delete : Context → string → string → M S (result unit);
  br_Verify : Context → string → M S (result unit);
  br_List : Context → string → M S (result (list BackupRow));
  rs_Restore : Context → string → RestoreOptions → ProgressFunc → M S (result unit);
}.

(** [RemoteService]. *)
Class RemoteService (S : Type) := {
  rm_Capture : Context → RemoteConn → M S (result DumpEntry);
  rm_List : Context → M S (result (list DumpEntry));
  rm_GetEntry : Context → string → M S (result DumpEntry);
  rm_RestoreInto : Context → string → string → M S (result unit);
}.

(** [RemoteTargetSpec]. *)
Record RemoteTargetSpec := mkTargetSpec {
  ts_Name : string;
  ts_Password : string;
  ts_RepoType : string;
  ts_PGVersion : string;
  ts_Replicas : Z;
  ts_Parameters : gmap string string;
  ts_Extensions : list string;
}.

(** [RemoteTargetProvisioner]. *)
Class RemoteTargetProvisioner (S : Type) := {
  rp_ProvisionInstance : Context → RemoteTargetSpec → M S (result string);
  rp_ProvisionCluster : Context → RemoteTargetSpec → M S (result string);
  rp_WaitReady : Context → string → string → M S (result string);
  rp_MarkError : Context → string → string → string → M S unit;
}.

(** ** Requests and replies *)

(** [createInstanceRequest], [visibilityRequest], [cloneRequest]. *)
Record createInstanceRequest := mkCreateInstance {
  ci_Name : string;
  ci_RepoType : string;
  ci_PGVersion : string;
  ci_Password : string;
  ci_Parameters : gmap string string;
  ci_Extensions : list string;
}.
Record visibilityRequest := mkVisibility { vr_Public : bool }.
Record cloneRequest := mkClone { cr_Name : string; cr_Password : string }.

(** [createClusterRequest]. *)
Record createClusterRequest := mkCreateCluster {
  cc_Name : string;
  cc_Replicas : Z;
  cc_Password : string;
  cc_RepoType : string;
  cc_PGVersion : string;
  cc_PoolMode : string;
  cc_Parameters : gmap string string;
  cc_Extensions : list string;
}.

(** [createBackupRequest], [restoreRequest]. *)
Record createBackupRequest := mkCreateBackup { cb_Type : string; cb_Annotation : string; cb_Standby : bool }.
Record restoreRequest := mkRestoreReq {
  rr_Type : string;
  rr_Target : string;
  rr_Set : string;
  rr_Delta : bool;
  rr_Repo : Z;
}.

(** [captureRequest], [remoteRestoreRequest]. *)
Record captureRequest := mkCapture {
  cp_Host : string;
  cp_Port : Z;
  cp_User : string;
  cp_Password : string;
  cp_DBName : string;
  cp_SSLMode : string;
}.
Record remoteRestoreRequest := mkRemoteRestore {
  rq_Target : string;
  rq_Name : string;
  rq_Password : string;
  rq_RepoType : string;
  rq_PGVersion : string;
  rq_Replicas : Z;
  rq_Parameters : gmap string string;
  rq_Extensions : list string;
}.

(** [instancePayload], [clusterPayload], [backupPayload], [remoteDumpPayload]. *)
Record instancePayload := mkInstancePayload {
  ipl_ID : string;
  ipl_Name : string;
  ipl_Status : string;
  ipl_RepoType : string;
  ipl_PGVersion : string;
  ipl_HostPort : Z;
  ipl_Stanza : string;
  ipl_Role : string;
  ipl_ClusterID : string;
  ipl_LastError : string;
  ipl_Parameters : gmap string string;
  ipl_Extensions : list string;
  ipl_Public : bool;
}.
Record clusterPayload := mkClusterPayload {
  cpl_ID : string;
  cpl_Name : string;
  cpl_Status : string;
  cpl_RouterPort : Z;
  cpl_PoolMode : string;
  cpl_LastError : string;
}.
Record backupPayload := mkBackupPayload {
  bpl_ID : string;
  bpl_Label : string;
  bpl_Type : string;
  bpl_RepoSize : Z;
  bpl_LogicalSize : Z;
  bpl_WALStart : string;
  bpl_WALStop : string;
  bpl_Error : bool;
  bpl_Annotations : gmap string string;
}.
Record remoteDumpPayload := mkDumpPayload {
  dpl_ID : string;
  dpl_ObjectKey : string;
  dpl_SourceHost : string;
  dpl_SourceDB : string;
  dpl_ServerMajor : Z;
  dpl_SizeBytes : Z;
  dpl_CreatedAt : string;
}.

(** [toInstancePayload], [toClusterPayload], [toRemoteDumpPayload], and the loop body
    of the backup list. *)
Definition toInstancePayload (i : Inst) : instancePayload :=
  mkInstancePayload (inst_ID i) (inst_Name i) (inst_Status i) (inst_RepoType i) (inst_PGVersion i)
    (inst_HostPort i) (inst_Stanza i) (inst_Role i) (inst_ClusterID i) (inst_LastError i)
    (inst_Parameters i) (inst_Extensions i) (inst_Public i).
Definition toClusterPayload (c : Cluster) : clusterPayload :=
  mkClusterPayload (cl_ID c) (cl_Name c) (cl_Status c) (cl_RouterPort c) (cl_PoolMode c) (cl_LastError c).
Definition toBackupPayload (b : BackupRow) : backupPayload :=
  mkBackupPayload (bk_ID b) (bk_Label b) (bk_Type b) (bk_RepoSize b) (bk_LogicalSize b) (bk_WALStart b)
    (bk_WALStop b) (bk_Error b) (bk_Annotations b).
Definition toRemoteDumpPayload (e : DumpEntry) : remoteDumpPayload :=
  mkDumpPayload (rd_ID e) (rd_ObjectKey e) (rd_SourceHost e) (rd_SourceDB e) (rd_ServerMaj e) (rd_Size e)
    (format_RFC3339 (rd_CreatedAt e)).

(** What a handler writes: the status and the body. *)
Inductive FleetBody :=
  | NoBody
  | InstanceBody (inst : instancePayload)
  | InstancesBody (insts : list instancePayload)
  | ClusterBody (cluster : clusterPayload)
  | ClustersBody (clusters : list clusterPayload)
  | MembersBody (cluster : clusterPayload) (members : list instancePayload)
  | BackupsBody (backups : list backupPayload)
  | DumpBody (dump : remoteDumpPayload)
  | DumpsBody (dumps : list remoteDumpPayload)
  | TargetBody (kind id : string)
  | DSNBody (dsn : string).
Record Reply := mkReply { rep_Status : Z; rep_Body : FleetBody }.
Definition StatusOK : Z := 200.
Definition StatusCreated : Z := 201.
Definition StatusAccepted : Z := 202.
Definition StatusNoContent : Z := 204.

(** ** Background tasks: the closures given to [Async.Go] *)

Inductive Task :=
  | TaskProvision (id : string)
  | TaskVisibility (id : string) (public : bool)
  | TaskClone (cloneID : string) (source : Inst)
  | TaskCluster (id : string)
  | TaskBackup (id type : string) (opts : RunOpts)
  | TaskVerify (id : string)
  | TaskRestore (id : string) (opts : RestoreOptions)
  | TaskRemote (kind id dumpID : string).

Definition targetInstance : string := "instance".
Definition targetCluster : string := "cluster".
Definition validBackupTypes : list string := ["full"; "incr"; "diff"].
Definition validRestoreTypes : list string := [""; "time"; "lsn"; "xid"; "name"].

Section handlers.
Context {S : Type} {IS : InstanceStore S} {CS : ClusterStore S} {IP : InstanceProvisioner S}
  {CV : ClusterService S} {BR : BackupRunner S} {RM : RemoteService S} {RP : RemoteTargetProvisioner S}.
(** Is there an audit recorder, a progress sink, a backup runner for clones? *)
Context (rec : bool) (progress : ProgressFunc) (cloneBackup : bool).
(** The host of [ClustersHandler]. *)
Context (host : string).

Notation W := ((S * AuditTable) * Async Task)%type.
Definition svc {A} (m : M S A) : M W A := on_fst (on_fst m).
Definition audit (claims : option Claims) (action target : string) : M W unit :=
  on_fst (on_snd (recordAudit rec claims action target)).
Definition spawn (t : Task) : M W unit := on_snd (Async_Go t).

(** The body of the closure of [Clone]. *)
Definition run_clone (cloneID : string) (source : Inst) : M S unit :=
  if cloneBackup then
    _ <- ip_emit progress "backup" ("taking a fresh backup of " +:+ inst_Name source) ;;
    r <- br_Run CallerCtx (inst_ID source) "full" ;;
    match r with
    | Err e =>
        _ <- ip_emit progress "error" ("source backup failed: " +:+ Error e) ;;
        discard (ip_MarkError CallerCtx cloneID ("clone aborted: source backup failed: " +:+ Error e))
    | Ok _ => discard (ip_Clone CallerCtx cloneID source progress)
    end
  else discard (ip_Clone CallerCtx cloneID source progress).

(** The body of the closure of the remote [Restore]; [safeReason] is the message. *)
Definition run_remote (kind id dumpID : string) : M S unit :=
  r <- rp_WaitReady CallerCtx kind id ;;
  match r with
  | Err werr => rp_MarkError CallerCtx kind id ("target never became ready: " +:+ Error werr)
  | Ok dsn =>
      r <- rm_RestoreInto CallerCtx dumpID dsn ;;
      match r with
      | Err rerr => rp_MarkError CallerCtx kind id ("restore failed: " +:+ Error rerr)
      | Ok _ => ret tt
      end
  end.

(** What the goroutine of a task does; its context is the tracker's, with a
    timeout. *)
Definition run_task (t : Task) : M S unit :=
  match t with
  | TaskProvision id => discard (ip_Provision CallerCtx id progress)
  | TaskVisibility id public => discard (ip_SetVisibility CallerCtx id public)
  | TaskClone cloneID source => run_clone cloneID source
  | TaskCluster id => discard (cs_Provision CallerCtx id NoProgress)
  | TaskBackup id type opts => discard (br_RunWith CallerCtx id type opts)
  | TaskVerify id => discard (br_Verify CallerCtx id)
  | TaskRestore id opts => discard (rs_Restore CallerCtx id opts NoProgress)
  | TaskRemote kind id dumpID => run_remote kind id dumpID
  end.

(** ** Instances *)

(** [InstancesHandler.Create]. *)
Definition InstancesHandler_Create (claims : option Claims) (first : result createInstanceRequest) (eof : bool) :
    M W (result Reply) :=
  req <-? lift_r (decodeJSON first eof) ;;
  inst <-? svc (repo_Create CallerCtx
    (mkNewInstance (ci_Name req) "" (ci_PGVersion req) "" "" (ci_RepoType req) "" (ci_Password req)
       (ci_Parameters req) (ci_Extensions req))) ;;
  _ <- audit claims "instance.create" (inst_Name inst) ;;
  _ <- spawn (TaskProvision (inst_ID inst)) ;;
  ok (mkReply StatusAccepted (InstanceBody (toInstancePayload inst))).

(** [InstancesHandler.Visibility]. *)
Definition InstancesHandler_Visibility (claims : option Claims) (id : string) (first : result visibilityRequest)
    (eof : bool) : M W (result Reply) :=
  _ <-? svc (repo_Get CallerCtx id) ;;
  req <-? lift_r (decodeJSON first eof) ;;
  _ <- audit claims "instance.visibility" id ;;
  _ <- spawn (TaskVisibility id (vr_Public req)) ;;
  ok (mkReply StatusAccepted NoBody).

(** [InstancesHandler.Clone]. *)
Definition InstancesHandler_Clone (claims : option Claims) (id : string) (first : result cloneRequest) (eof : bool) :
    M W (result Reply) :=
  source <-? svc (repo_Get CallerCtx id) ;;
  req <-? lift_r (decodeJSON first eof) ;;
  clone <-? svc (repo_Create CallerCtx
    (mkNewInstance (cr_Name req) "" (inst_PGVersion source) "" "" (inst_RepoType source) "" (cr_Password req)
       (inst_Parameters source) (inst_Extensions source))) ;;
  _ <- audit claims "instance.clone" (inst_Name clone +:+ " from " +:+ inst_Name source) ;;
  _ <- spawn (TaskClone (inst_ID clone) source) ;;
  ok (mkReply StatusAccepted (InstanceBody (toInstancePayload clone))).

(** [InstancesHandler.List], [Get]. *)
Definition InstancesHandler_List : M W (result Reply) :=
  items <-? svc (repo_List CallerCtx) ;;
  ok (mkReply StatusOK (InstancesBody (toInstancePayload <$> items))).
Definition InstancesHandler_Get (id : string) : M W (result Reply) :=
  inst <-? svc (repo_Get CallerCtx id) ;;
  ok (mkReply StatusOK (InstanceBody (toInstancePayload inst))).

(** [lifecycle]; [Start], [Stop], [Restart]. *)
Definition lifecycle (claims : option Claims) (id : string) (fn : Context → string → M S (result unit))
    (action : string) : M W (result Reply) :=
  _ <-? svc (fn CallerCtx id) ;;
  _ <- audit claims action id ;;
  ok (mkReply StatusNoContent NoBody).
Definition InstancesHandler_Start (claims : option Claims) (id : string) := lifecycle claims id ip_Start "instance.start".
Definition InstancesHandler_Stop (claims : option Claims) (id : string) := lifecycle claims id ip_Stop "instance.stop".
Definition InstancesHandler_Restart (claims : option Claims) (id : string) :=
  lifecycle claims id ip_Restart "instance.restart".

(** [InstancesHandler.Destroy]; [retain] is the query parameter, and the context is
    detached from the request. *)
Definition InstancesHandler_Destroy (claims : option Claims) (id retain : string) : M W (result Reply) :=
  inst <-? svc (repo_Get CallerCtx id) ;;
  if bool_decide (inst_ClusterID inst ≠ "") then
    fail (New KindConflict ("cannot destroy a cluster member directly; destroy the cluster " +:+ inst_ClusterID inst +:+
      " instead (it tears down members in order and drops replication slots)"))
  else
  _ <-? svc (ip_Destroy Background id (bool_decide (retain = "true"))) ;;
  _ <- audit claims "instance.destroy" id ;;
  ok (mkReply StatusNoContent NoBody).

(** [InstancesHandler.Connection]. *)
Definition InstancesHandler_Connection (id : string) : M W (result Reply) :=
  dsn <-? svc (ip_DSN CallerCtx id) ;;
  ok (mkReply StatusOK (DSNBody dsn)).

(** ** Clusters *)

(** [ClustersHandler.Create]. *)
Definition ClustersHandler_Create (claims : option Claims) (first : result createClusterRequest) (eof : bool) :
    M W (result Reply) :=
  req <-? lift_r (decodeJSON first eof) ;;
  if bool_decide (len (cc_Password req) < 8)%Z then
    fail (New KindInvalid "password must be at least 8 characters")
  else
  c <-? svc (cs_Create CallerCtx
    (mkInput (cc_Name req) (cc_Replicas req) (cc_Password req) (cc_RepoType req) (cc_PGVersion req)
       (cc_Parameters req) (cc_Extensions req) (cc_PoolMode req))) ;;
  _ <- audit claims "cluster.create" (cl_Name c) ;;
  _ <- spawn (TaskCluster (cl_ID c)) ;;
  ok (mkReply StatusAccepted (ClusterBody (toClusterPayload c))).

(** [ClustersHandler.List], [Get]. *)
Definition ClustersHandler_List : M W (result Reply) :=
  items <-? svc (clusters_List CallerCtx) ;;
  ok (mkReply StatusOK (ClustersBody (toClusterPayload <$> items))).
Definition ClustersHandler_Get (id : string) : M W (result Reply) :=
  c <-? svc (clusters_Get CallerCtx id) ;;
  members <-? svc (repo_ListByCluster CallerCtx id) ;;
  ok (mkReply StatusOK (MembersBody (toClusterPayload c) (toInstancePayload <$> members))).

(** [ClustersHandler.Destroy], [Connection]. *)
Definition ClustersHandler_Destroy (claims : option Claims) (id retain : string) : M W (result Reply) :=
  _ <-? svc (cs_Destroy Background id (bool_decide (retain = "true"))) ;;
  _ <- audit claims "cluster.destroy" id ;;
  ok (mkReply StatusNoContent NoBody).
Definition ClustersHandler_Connection (id : string) : M W (result Reply) :=
  dsn <-? svc (cs_ConnectionDSN CallerCtx id host) ;;
  ok (mkReply StatusOK (DSNBody dsn)).

(** ** Backups *)

(** [BackupsHandler.Create]. *)
Definition BackupsHandler_Create (claims : option Claims) (id : string) (first : result createBackupRequest)
    (eof : bool) : M W (result Reply) :=
  req <-? lift_r (decodeJSON first eof) ;;
  if negb (bool_decide (cb_Type req ∈ validBackupTypes)) then
    fail (New KindInvalid "backup type must be full, incr, or diff")
  else
  _ <- audit claims "backup.create" id ;;
  _ <- spawn (TaskBackup id (cb_Type req) (mkRunOpts (cb_Annotation req) (cb_Standby req))) ;;
  ok (mkReply StatusAccepted NoBody).

(** [BackupsHandler.List], [Delete], [Verify]. *)
Definition BackupsHandler_List (id : string) : M W (result Reply) :=
  backups <-? svc (br_List CallerCtx id) ;;
  ok (mkReply StatusOK (BackupsBody (toBackupPayload <$> backups))).
Definition BackupsHandler_Delete (claims : option Claims) (id label : string) : M W (result Reply) :=
  if bool_decide (label = "") then fail (New KindInvalid "backup label is required") else
  _ <- audit claims "backup.delete" (id +:+ "/" +:+ label) ;;
  _ <-? svc (br_Delete CallerCtx id label) ;;
  ok (mkReply StatusNoContent NoBody).
Definition BackupsHandler_Verify (claims : option Claims) (id : string) : M W (result Reply) :=
  _ <- audit claims "backup.verify" id ;;
  _ <- spawn (TaskVerify id) ;;
  ok (mkReply StatusAccepted NoBody).

(** [BackupsHandler.Restore]. *)
Definition BackupsHandler_Restore (claims : option Claims) (id : string) (first : result restoreRequest) (eof : bool) :
    M W (result Reply) :=
  req <-? lift_r (decodeJSON first eof) ;;
  if negb (bool_decide (rr_Type req ∈ validRestoreTypes)) then
    fail (New KindInvalid "restore type must be one of: time, lsn, xid, name")
  else if bool_decide (rr_Type req ≠ "") && bool_decide (rr_Target req = "") then
    fail (New KindInvalid "restore type requires a target")
  else if bool_decide (rr_Repo req ≠ 0)%Z && bool_decide (rr_Repo req ≠ 1)%Z && bool_decide (rr_Repo req ≠ 2)%Z then
    fail (New KindInvalid "restore repo must be 1 or 2")
  else
  let opts := mkRestoreOptions (rr_Type req) (rr_Target req) (rr_Set req) (rr_Delta req) (rr_Repo req) in
  _ <- audit claims "backup.restore" id ;;
  _ <- spawn (TaskRestore id opts) ;;
  ok (mkReply StatusAccepted NoBody).

(** ** Remote dumps *)

(** [RemoteHandler.Capture]. *)
Definition RemoteHandler_Capture (claims : option Claims) (first : result captureRequest) (eof : bool) :
    M W (result Reply) :=
  req <-? lift_r (decodeJSON first eof) ;;
  let conn := mkConn (cp_Host req) (cp_Port req) (cp_User req) (cp_Password req) (cp_DBName req) (cp_SSLMode req) in
  _ <-? lift_r (RemoteConn_Validate conn) ;;
  entry <-? svc (rm_Capture CallerCtx conn) ;;
  _ <- audit claims "remote.backup.capture" (rd_SourceHost entry +:+ "/" +:+ rd_SourceDB entry) ;;
  ok (mkReply StatusCreated (DumpBody (toRemoteDumpPayload entry))).

(** [RemoteHandler.List]. *)
Definition RemoteHandler_List : M W (result Reply) :=
  items <-? svc (rm_List CallerCtx) ;;
  ok (mkReply StatusOK (DumpsBody (toRemoteDumpPayload <$> items))).

(** [RemoteHandler.Restore]; [configured] says that there is a target
    provisioner. *)
Definition RemoteHandler_Restore (configured : bool) (claims : option Claims) (dumpID : string)
    (first : result remoteRestoreRequest) (eof : bool) : M W (result Reply) :=
  if negb configured then fail (New KindInternal "remote restore is not configured") else
  req <-? lift_r (decodeJSON first eof) ;;
  if bool_decide (rq_Target req ≠ targetInstance) && bool_decide (rq_Target req ≠ targetCluster) then
    fail (New KindInvalid ("target must be " +:+ dq +:+ "instance" +:+ dq +:+ " or " +:+ dq +:+ "cluster" +:+ dq))
  else if bool_decide (len (rq_Password req) < 8)%Z then
    fail (New KindInvalid "password must be at least 8 characters")
  else if bool_decide (rq_Target req = targetCluster) && bool_decide (rq_Replicas req < 1)%Z then
    fail (New KindInvalid "a cluster restore requires at least 1 replica")
  else
  _ <-? svc (rm_GetEntry CallerCtx dumpID) ;;
  let spec := mkTargetSpec (rq_Name req) (rq_Password req) (rq_RepoType req) (rq_PGVersion req) (rq_Replicas req)
                (rq_Parameters req) (rq_Extensions req) in
  let kind := rq_Target req in
  id <-? svc (if bool_decide (kind = targetInstance) then rp_ProvisionInstance CallerCtx spec
              else rp_ProvisionCluster CallerCtx spec) ;;
  _ <- audit claims "remote.backup.restore" (kind +:+ ":" +:+ id +:+ " from dump " +:+ dumpID) ;;
  _ <- spawn (TaskRemote kind id dumpID) ;;
  ok (mkReply StatusAccepted (TargetBody kind id)).
End handlers.

(** ** The target of a remote restore: [cmd/pgfleet-api/remote_target.go] *)

Section remote_target.
Context {S : Type} {IS : InstanceStore S} {CS : ClusterStore S} {IP : InstanceProvisioner S} {CV : ClusterService S}.

(** [ProvisionInstance], [ProvisionCluster]. *)
Definition target_ProvisionInstance (ctx : Context) (spec : RemoteTargetSpec) : M S (result string) :=
  inst <-? repo_Create ctx
    (mkNewInstance (ts_Name spec) "" (ts_PGVersion spec) "" "" (ts_RepoType spec) "" (ts_Password spec)
       (ts_Parameters spec) (ts_Extensions spec)) ;;
  ok (inst_ID inst).
Definition target_ProvisionCluster (ctx : Context) (spec : RemoteTargetSpec) : M S (result string) :=
  c <-? cs_Create ctx
    (mkInput (ts_Name spec) (ts_Replicas spec) (ts_Password spec) (ts_RepoType spec) (ts_PGVersion spec)
       (ts_Parameters spec) (ts_Extensions spec) "") ;;
  ok (cl_ID c).

(** [WaitReady]. *)
Definition target_WaitReady (ctx : Context) (kind id : string) : M S (result string) :=
  if bool_decide (kind = "instance") then
    _ <-? ip_Provision ctx id NoProgress ;;
    ip_DSN ctx id
  else if bool_decide (kind = "cluster") then
    _ <-? cs_Provision ctx id NoProgress ;;
    c <-? clusters_Get ctx id ;;
    if bool_decide (cl_PrimaryInstanceID c = "") then
      fail (Errorf ("cluster " +:+ id +:+ " has no primary after provisioning"))
    else ip_DSN ctx (cl_PrimaryInstanceID c)
  else fail (Errorf ("unknown target kind " +:+ Quote kind)).

(** [MarkError]: its context is not the caller's. *)
Definition target_MarkError (ctx : Context) (kind id reason : string) : M S unit :=
  if bool_decide (kind = "instance") then discard (repo_SetStatus Background id StatusError reason)
  else if bool_decide (kind = "cluster") then discard (clusters_SetStatus Background id ClusterError reason)
  else ret tt.

Definition remote_target : RemoteTargetProvisioner S := {|
  rp_ProvisionInstance := target_ProvisionInstance;
  rp_ProvisionCluster := target_ProvisionCluster;
  rp_WaitReady := target_WaitReady;
  rp_MarkError := target_MarkError;
|}.
End remote_target.
