(* ===== verification/Wiring.v ===== *)
(** * The program put together: [run] of [cmd/pgfleet-api/main.go]

    The services as the program builds them, each from the parts below it, as
    implementations of the interfaces of [ClusterCtl], [Failover] and [ApiFleet]:
    one runtime [R], one database [D].  The dump service of the remote handlers is
    a collaborator of its own.  At the end a fleet is driven through the handlers. *)

From stdpp Require Import gmap strings.
From S2P Require Import Prelude GoStrings Apperr GoMonad PgBackRest Instances Runtime DockerFake Stores MetaDB Tables Provision ProvisionOps Samples Failover Backup BackupSafety Auth ClusterCtl RemoteBackup AuditLog AsyncTracker ApiFleet.

(** ** The parts *)

Section wiring.
Context {R D : Type} {RT : ContainerRuntime R} {PR : Process R} {ST : InstanceStore D} {CS : ClusterStore D}
  {CT : catalog D} {ER : EventRecorder (R * D)}.
Context (hmac_hex : string → string → string) (json_Unmarshal : string → result (list rawStanza)).
(** What [provision.New] and [clusterctl.New] are given of the configuration. *)
Context (opts : Options) (defaultRepo : string).
Notation W := (R * D)%type.

(** The repositories, as every service shares them. *)
Definition wired_instances : InstanceStore W := {|
  repo_Create ctx n := repo (repo_Create ctx n);
  repo_Get ctx id := repo (repo_Get ctx id);
  repo_GetByName ctx n := repo (repo_GetByName ctx n);
  repo_List ctx := repo (repo_List ctx);
  repo_ListByCluster ctx c := repo (repo_ListByCluster ctx c);
  repo_Password ctx id := repo (repo_Password ctx id);
  repo_SetRuntime ctx id c p := repo (repo_SetRuntime ctx id c p);
  repo_SetDataVolume ctx id v := repo (repo_SetDataVolume ctx id v);
  repo_SetStatus ctx id st e := repo (repo_SetStatus ctx id st e);
  repo_SetPublic ctx id b := repo (repo_SetPublic ctx id b);
  repo_SetEncrypted ctx id b := repo (repo_SetEncrypted ctx id b);
  repo_SetRole ctx id r := repo (repo_SetRole ctx id r);
  repo_Delete ctx id := repo (repo_Delete ctx id);
|}.
Definition wired_clusters : ClusterStore W := {|
  clusters_Create ctx n := repo (clusters_Create ctx n);
  clusters_Get ctx id := repo (clusters_Get ctx id);
  clusters_List ctx := repo (clusters_List ctx);
  clusters_SetPrimary ctx id p := repo (clusters_SetPrimary ctx id p);
  clusters_SetRouter ctx id c p := repo (clusters_SetRouter ctx id c p);
  clusters_SetStatus ctx id st e := repo (clusters_SetStatus ctx id st e);
  clusters_Delete ctx id := repo (clusters_Delete ctx id);
|}.

(** The provisioner, as the handlers, the cluster service and the failover
    controller see it; the runtime, as they remove a router with it. *)
Definition wired_provisioner : InstanceProvisioner W := {|
  ip_Provision ctx id p := Provision.Provision hmac_hex opts ctx id p;
  ip_Clone ctx id source p := Clone hmac_hex json_Unmarshal opts ctx id source p;
  ip_Start ctx id := Start ctx id;
  ip_Stop ctx id := Stop ctx id;
  ip_Restart ctx id := Restart ctx id;
  ip_Destroy ctx id b := Destroy ctx id b;
  ip_SetVisibility ctx id b := SetVisibility hmac_hex opts ctx id b;
  ip_DSN ctx id := DSN opts ctx id;
  ip_MarkError ctx id reason := MarkError ctx id reason;
  ip_emit p a b := emit p a b;
|}.
Definition wired_cluster_provisioner : ClusterProvisioner W := {|
  cp_Provision ctx id p := Provision.Provision hmac_hex opts ctx id p;
  cp_ProvisionReplica ctx id primary p := ProvisionReplica opts ctx id primary p;
  cp_StartRouter ctx spec p := StartRouter opts ctx spec p;
  cp_Destroy ctx id b := Destroy ctx id b;
  cp_DropReplicationSlot ctx primary slot := DropReplicationSlot ctx primary slot;
  cp_emit p a b := emit p a b;
|}.
Definition wired_promoter : Promoter W := {|
  pr_PrimaryReachable ctx i := PrimaryReachable ctx i;
  pr_ReplayLSN ctx i := ReplayLSN ctx i;
  pr_Promote ctx i := Promote ctx i;
  pr_Fence ctx i := Fence ctx i;
  pr_PrepareReclone ctx i := PrepareReclone ctx i;
  pr_ProvisionReplica ctx id primary p := ProvisionReplica opts ctx id primary p;
  pr_StartRouter ctx spec p := StartRouter opts ctx spec p;
|}.
Definition wired_router : RouterRemover W := {|
  router_RemoveContainer ctx id force := rt (RemoveContainer ctx id force);
|}.

(** The cluster service, the backup service, the target of a remote restore. *)
Definition wired_cluster_service : ClusterService W :=
  let CP := wired_cluster_provisioner in let I := wired_instances in
  let C := wired_clusters in let RR := wired_router in {|
  cs_Create ctx i := Create defaultRepo ctx i;
  cs_Provision ctx id p := ProvisionCluster hmac_hex (op_MasterKey opts) ctx id p;
  cs_Destroy ctx id b := DestroyCluster ctx id b;
  cs_ConnectionDSN ctx id host := ConnectionDSN ctx id host;
|}.
Definition wired_backups : BackupRunner W := {|
  br_Run ctx id t := RunBackup json_Unmarshal true ctx id t;
  br_RunWith ctx id t o := RunWith json_Unmarshal true ctx id t o;
  br_Delete ctx id lbl := DeleteBackup json_Unmarshal true ctx id lbl;
  br_Verify ctx id := VerifyBackups true ctx id;
  br_List ctx id := ListBackups ctx id;
  rs_Restore ctx id o p := ProvisionOps.Restore hmac_hex opts ctx id o p;
|}.
Definition wired_target : RemoteTargetProvisioner W :=
  @remote_target W wired_instances wired_clusters wired_provisioner wired_cluster_service.

(** The failover job of the scheduler. *)
Definition wired_failover (threshold : Z) : M (W * gmap string Z) (result unit) :=
  let PM := wired_promoter in let I := wired_instances in
  let C := wired_clusters in let RR := wired_router in
  Failover.Run hmac_hex (NewController true threshold (op_MasterKey opts)) CallerCtx.
End wiring.

(** ** The contract of the repository survives the wiring *)

Lemma updates_on_snd {R D} (rows : D → gmap string Inst) id f (m : M D (result unit)) :
  updates rows id f m → updates (λ s : R * D, rows s.2) id f (on_snd m).
Proof. intros H s. apply wp_on_snd. exact (H s.2). Qed.
Lemma updates_on_fst {D T} (rows : D → gmap string Inst) id f (m : M D (result unit)) :
  updates rows id f m → updates (λ s : D * T, rows s.1) id f (on_fst m).
Proof. intros H s. apply wp_on_fst. exact (H s.1). Qed.

Lemma wired_store_laws {R D} (ST : InstanceStore D) (SL : StoreLaws D) : @StoreLaws (R * D) (@wired_instances R D ST).
Proof.
  refine (@Build_StoreLaws (R * D) (@wired_instances R D ST) (λ s, rows s.2) _ _ _ _ _ _ _ _ _ _);
    intros; try (apply updates_on_snd; eauto with wp); apply wp_on_snd.
  - apply repo_Get_law.
  - apply repo_Password_law.
  - apply repo_List_law.
  - apply repo_Delete_law.
Defined.
Lemma beside_store_laws {D T} (ST : InstanceStore D) (SL : StoreLaws D) : @StoreLaws (D * T) (@store_beside D T ST).
Proof.
  refine (@Build_StoreLaws (D * T) (@store_beside D T ST) (λ s, rows s.1) _ _ _ _ _ _ _ _ _ _);
    intros; try (apply updates_on_fst; eauto with wp); apply wp_on_fst.
  - apply repo_Get_law.
  - apply repo_Password_law.
  - apply repo_List_law.
  - apply repo_Delete_law.
Defined.

(** ** A fleet, driven through the handlers

    The fake runtime, the two tables of the meta database, the catalog beside
    them; no events; [exec] is what commands in containers answer. *)

Definition clusters_beside {D T} {CS : ClusterStore D} : ClusterStore (D * T) := {|
  clusters_Create ctx n := on_fst (clusters_Create ctx n);
  clusters_Get ctx id := on_fst (clusters_Get ctx id);
  clusters_List ctx := on_fst (clusters_List ctx);
  clusters_SetPrimary ctx id p := on_fst (clusters_SetPrimary ctx id p);
  clusters_SetRouter ctx id c p := on_fst (clusters_SetRouter ctx id c p);
  clusters_SetStatus ctx id st e := on_fst (clusters_SetStatus ctx id st e);
  clusters_Delete ctx id := on_fst (clusters_Delete ctx id);
|}.

Definition FleetDB : Type := DBState * CatTable.
Definition Fleet : Type := (FakeWorld * FleetDB) * AuditTable * Async Task.
Definition fleet_store : InstanceStore FleetDB := @store_beside _ _ sample_instances.
Definition fleet_clusters : ClusterStore FleetDB := @clusters_beside _ _ sample_clusters.

(** No dumps are kept. *)
Definition no_dumps {S} : RemoteService S := {|
  rm_Capture _ _ := fail (New KindInternal "not configured");
  rm_List _ := ok [];
  rm_GetEntry _ _ := fail (New KindNotFound "remotebackup: dump not found");
  rm_RestoreInto _ _ _ := fail (New KindNotFound "remotebackup: dump not found");
|}.

Definition fleet_start : Fleet :=
  (sample_world, (sample_empty, mkTable sample_env 0 ∅), mkTable sample_env 0 ∅, NewAsync).

(** The oldest background task, carried out to its end. *)
Definition run_oldest (exec : string → list string → result ExecResult) (s : Fleet) : Fleet :=
  match s with
  | (w, aud, mkAsync c (t :: l)) =>
      let RT := fake_runtime (sample_hooks exec 0) in
      let IP := @wired_provisioner _ _ RT fake_process fleet_store sample_hmac sample_json sample_opts in
      let CV := @wired_cluster_service _ _ RT fake_process fleet_store fleet_clusters sample_hmac sample_opts RepoLocal in
      let BR := @wired_backups _ _ RT fake_process fleet_store catalog_beside no_recorder sample_hmac sample_json sample_opts in
      let RP := @wired_target _ _ RT fake_process fleet_store fleet_clusters sample_hmac sample_json sample_opts RepoLocal in
      ((@run_task _ IP CV BR no_dumps RP Progress true t w).2, aud, mkAsync c l)
  | _ => s
  end.

Definition post_instance (name : string) (s : Fleet) : Fleet :=
  (@InstancesHandler_Create _ (@wired_instances FakeWorld _ fleet_store) true None
     (Ok (mkCreateInstance name RepoLocal "16" "secret-password" ∅ [])) true s).2.
Definition get_instance (id : string) (s : Fleet) : result Reply :=
  (@InstancesHandler_Get _ (@wired_instances FakeWorld _ fleet_store) id s).1.
Definition reply_status (r : result Reply) : option string :=
  match r with Ok (mkReply _ (InstanceBody i)) => Some (ipl_Status i) | _ => None end.

(** An instance is provisioning when the request is answered and running when its
    task has ended. *)
Example instance_comes_up :
  let s := post_instance "orders" fleet_start in
  (reply_status (get_instance "id-1" s), reply_status (get_instance "id-1" (run_oldest exec_ok s))) =
  (Some StatusProvisioning, Some StatusRunning).
Proof. vm_compute. reflexivity. Qed.

(** ** A failover, end to end *)

Definition post_cluster (name : string) (replicas : Z) (s : Fleet) : Fleet :=
  let RT := fake_runtime sample_hooks_ok in
  let CV := @wired_cluster_service _ _ RT fake_process fleet_store fleet_clusters sample_hmac sample_opts RepoLocal in
  (@ClustersHandler_Create _ CV true None
     (Ok (mkCreateCluster name replicas "secret-password" "" "16" "" ∅ [])) true s).2.

(** One pass of the failover job after another, with the counters kept between
    them; commands in the container [dead] fail. *)
Definition failover_pass (dead : string) (sc : Fleet * gmap string Z) : Fleet * gmap string Z :=
  let exec cid cmd := if bool_decide (cid = dead) then Ok (mkExecResult 2 "" "no response") else exec_ok cid cmd in
  let RT := fake_runtime (sample_hooks exec 0) in
  let '((w, aud, a), strikes) := sc in
  let '(_, (w', strikes')) := @wired_failover _ _ RT fake_process fleet_store fleet_clusters no_recorder
                                sample_hmac sample_opts 3 (w, strikes) in
  ((w', aud, a), strikes').

(** Status, primary and the roles of the members of a cluster. *)
Definition cluster_view (id : string) (s : Fleet) : option (string * string * list (string * string)) :=
  let '(w, _, _) := s in
  match (@clusters_Get _ (@wired_clusters FakeWorld _ fleet_clusters) CallerCtx id w).1,
        (@repo_ListByCluster _ (@wired_instances FakeWorld _ fleet_store) CallerCtx id w).1 with
  | Ok c, Ok ms => Some (cl_Status c, cl_PrimaryInstanceID c, (λ m, (inst_Name m, inst_Role m)) <$> ms)
  | _, _ => None
  end.
Definition container_of (id : string) (s : Fleet) : string :=
  let '(w, _, _) := s in
  inst_ContainerID (value_or zeroInst (@repo_Get _ (@wired_instances FakeWorld _ fleet_store) CallerCtx id w).1).

(** The cluster comes up; its primary stops answering; the first two passes wait,
    the third promotes the first replica, the old primary rejoins as a replica and
    the cluster is running. *)
Example failover_end_to_end :
  let s := run_oldest exec_ok (post_cluster "orders" 2 fleet_start) in
  let pass := failover_pass (container_of "id-2" s) in
  let healthy := Some (ClusterRunning, "id-2",
    [("orders-p", RolePrimary); ("orders-r1", RoleReplica); ("orders-r2", RoleReplica)]) in
  (cluster_view "id-1" s, cluster_view "id-1" (pass (pass (s, ∅))).1,
   cluster_view "id-1" (pass (pass (pass (s, ∅)))).1) =
  (healthy, healthy,
   Some (ClusterRunning, "id-3",
    [("orders-r1", RolePrimary); ("orders-p", RoleReplica); ("orders-r2", RoleReplica)])).
Proof. vm_compute. reflexivity. Qed.

(** Removing a member is refused; removing the cluster leaves no container and no
    volume behind. *)
Definition delete_instance (id : string) (s : Fleet) : result Reply * Fleet :=
  let RT := fake_runtime sample_hooks_ok in
  @InstancesHandler_Destroy _ (@wired_instances FakeWorld _ fleet_store)
    (@wired_provisioner _ _ RT fake_process fleet_store sample_hmac sample_json sample_opts) true None id "" s.
Definition delete_cluster (id : string) (s : Fleet) : result Reply * Fleet :=
  let RT := fake_runtime sample_hooks_ok in
  @ClustersHandler_Destroy _
    (@wired_cluster_service _ _ RT fake_process fleet_store fleet_clusters sample_hmac sample_opts RepoLocal)
    true None id "" s.
Definition left_behind (s : Fleet) : list string * list string :=
  let '((w, _), _, _) := s in (fst <$> map_to_list (fk_containers (`w.1)), fst <$> map_to_list (fk_volumes (`w.1))).

Example teardown_end_to_end :
  let s := run_oldest exec_ok (post_cluster "orders" 1 fleet_start) in
  (match (delete_instance "id-3" s).1 with Err e => Some (Kind e) | Ok _ => None end,
   bool_decide (left_behind s = ([], [])),
   is_ok (delete_cluster "id-1" s).1, left_behind (delete_cluster "id-1" s).2) =
  (Some KindConflict, false, true, ([], [])).
Proof. vm_compute. reflexivity. Qed.
