(* ===== verification/ApiSafety.v ===== *)
(** * What the fleet handlers guarantee

    Every request the handlers of [ApiFleet] accept becomes exactly one task whose
    arguments are good, every other request starts nothing ([accepted_work]); an
    instance of a cluster is never removed on its own ([destroy_spares_members]);
    a clone or a remote restore that fails marks its target ([failed_tasks_marked]). *)

From stdpp Require Import gmap strings.
From S2P Require Import Prelude GoStrings Apperr GoMonad Triples PgBackRest Instances Runtime Stores MetaDB Tables Provision ProvisionOps Backup Auth ClusterCtl RemoteBackup AuditLog AsyncTracker ApiFleet Samples DockerFake BackupSafety Wiring.

(** ** Accepted work *)

(** What a handler may put into the tracker: a backup of a known type, a restore
    for which pgBackRest has a command line, a target of a known kind. *)
Definition task_ok (t : Task) : Prop :=
  match t with
  | TaskBackup _ type _ => type ∈ ["full"; "incr"; "diff"]
  | TaskRestore _ o =>
      (rso_Repo o = 0 ∨ rso_Repo o = 1 ∨ rso_Repo o = 2)%Z ∧
      ∀ stanza conf, is_ok (RestoreCmd stanza conf (mkRestoreOpts (rso_Type o) (rso_Target o)
        (targetAction (rso_Type o)) (rso_Set o) (rso_Delta o) (rso_Repo o))) = true
  | TaskRemote kind _ _ => kind = "instance" ∨ kind = "cluster"
  | _ => True
  end.

Section accepted.
Context {S : Type} {IS : InstanceStore S} {CS : ClusterStore S} {IP : InstanceProvisioner S}
  {CV : ClusterService S} {BR : BackupRunner S} {RM : RemoteService S} {RP : RemoteTargetProvisioner S}.
Context (rec : bool) (host : string).
Notation W := ((S * AuditTable) * Async Task)%type.

(** The handlers, on any request. *)
Inductive fleet_handler : M W (result Reply) → Prop :=
  | h_create claims first eof : fleet_handler (InstancesHandler_Create rec claims first eof)
  | h_visibility claims id first eof : fleet_handler (InstancesHandler_Visibility rec claims id first eof)
  | h_clone claims id first eof : fleet_handler (InstancesHandler_Clone rec claims id first eof)
  | h_list : fleet_handler InstancesHandler_List
  | h_get id : fleet_handler (InstancesHandler_Get id)
  | h_start claims id : fleet_handler (InstancesHandler_Start rec claims id)
  | h_stop claims id : fleet_handler (InstancesHandler_Stop rec claims id)
  | h_restart claims id : fleet_handler (InstancesHandler_Restart rec claims id)
  | h_destroy claims id retain : fleet_handler (InstancesHandler_Destroy rec claims id retain)
  | h_connection id : fleet_handler (InstancesHandler_Connection id)
  | h_cluster_create claims first eof : fleet_handler (ClustersHandler_Create rec claims first eof)
  | h_cluster_list : fleet_handler ClustersHandler_List
  | h_cluster_get id : fleet_handler (ClustersHandler_Get id)
  | h_cluster_destroy claims id retain : fleet_handler (ClustersHandler_Destroy rec claims id retain)
  | h_cluster_connection id : fleet_handler (ClustersHandler_Connection host id)
  | h_backup claims id first eof : fleet_handler (BackupsHandler_Create rec claims id first eof)
  | h_backup_list id : fleet_handler (BackupsHandler_List id)
  | h_backup_delete claims id lbl : fleet_handler (BackupsHandler_Delete rec claims id lbl)
  | h_verify claims id : fleet_handler (BackupsHandler_Verify rec claims id)
  | h_restore claims id first eof : fleet_handler (BackupsHandler_Restore rec claims id first eof)
  | h_capture claims first eof : fleet_handler (RemoteHandler_Capture rec claims first eof)
  | h_dumps : fleet_handler RemoteHandler_List
  | h_remote configured claims id first eof : fleet_handler (RemoteHandler_Restore rec configured claims id first eof).

(** One request adds at most one good task, and says so. *)
Definition replied (a : Async Task) (r : result Reply) (a' : Async Task) : Prop :=
  match r with
  | Ok rep =>
      if bool_decide (rep_Status rep = 202)%Z
      then ∃ t, task_ok t ∧ a' = (if as_closed a then a else mkAsync false (as_running a ++ [t]))
      else a' = a
  | Err _ => a' = a
  end.

Lemma wp_svc {A} (m : M S A) (Q : A → W → Prop) s :
  (∀ r s', s'.2 = s.2 → Q r s') → wp (svc m) Q s.
Proof. intros H. unfold svc. apply wp_on_fst, wp_on_fst, wp_any. intros a s'. by apply H. Qed.

Lemma wp_audit claims action target (Q : unit → W → Prop) s :
  (∀ s', s'.2 = s.2 → Q tt s') → wp (audit rec claims action target) Q s.
Proof. intros H. unfold audit. apply wp_on_fst, wp_on_snd, wp_any. intros [] s'. by apply H. Qed.

Lemma wp_spawn t (Q : unit → W → Prop) s :
  (∀ s', s'.2 = (Async_Go t s.2).2 → Q tt s') → wp (spawn t) Q s.
Proof. intros H. unfold spawn. apply wp_on_snd. unfold wp. by apply H. Qed.

(** Walk through a handler: on an early return the tracker is as it was. *)
Ltac early := solve [cbn; congruence].
Ltac fleet_step :=
  lazymatch goal with
  | |- wp (svc _) _ _ => apply wp_svc; let r := fresh "r" in intros r ? ?; try (destruct r; [|early])
  | |- wp (audit _ _ _ _) _ _ => apply wp_audit; intros ? ?
  | |- wp (spawn _) _ _ => apply wp_spawn; intros ? ?
  | |- wp (lift_r ?r) _ _ => apply wp_ret; destruct r; [|early]
  | |- wp (lifecycle _ _ _ _ _) _ _ => unfold lifecycle
  | |- wp (if ?b then _ else _) _ _ => let E := fresh "E" in destruct b eqn:E; [early|]
  | |- wp (let _ := _ in _) _ _ => cbv zeta
  | |- _ => wp_step; cbn beta iota
  end.

Lemma restore_task_ok req id :
  bool_decide (rr_Type req ≠ "") && bool_decide (rr_Target req = "") = false →
  bool_decide (rr_Repo req ≠ 0)%Z && bool_decide (rr_Repo req ≠ 1)%Z && bool_decide (rr_Repo req ≠ 2)%Z = false →
  task_ok (TaskRestore id (mkRestoreOptions (rr_Type req) (rr_Target req) (rr_Set req) (rr_Delta req) (rr_Repo req))).
Proof.
  intros Ht Hr. cbn. split; [repeat case_bool_decide; naive_solver|]. intros stanza conf.
  unfold RestoreCmd. cbn [ro_Type ro_Target]. by rewrite Ht.
Qed.

Lemma replied_accepted t a a0 a' b :
  a' = (Async_Go t a0).2 → a0 = a → task_ok t → replied a (Ok (mkReply StatusAccepted b)) a'.
Proof. intros -> -> Ht. exists t. by split. Qed.

#[local] Hint Unfold InstancesHandler_Create InstancesHandler_Visibility InstancesHandler_Clone InstancesHandler_List
  InstancesHandler_Get InstancesHandler_Start InstancesHandler_Stop InstancesHandler_Restart InstancesHandler_Destroy
  InstancesHandler_Connection ClustersHandler_Create ClustersHandler_List ClustersHandler_Get ClustersHandler_Destroy
  ClustersHandler_Connection BackupsHandler_Create BackupsHandler_List BackupsHandler_Delete BackupsHandler_Verify
  BackupsHandler_Restore RemoteHandler_Capture RemoteHandler_List RemoteHandler_Restore lifecycle : fleet.

Lemma handler_replied h : fleet_handler h → ∀ s, wp h (λ r s', replied s.2 r s'.2) s.
Proof.
  intros Hh s. destruct Hh; autounfold with fleet; repeat fleet_step; try early;
    (eapply replied_accepted; [eassumption|congruence|]); try exact I.
  - apply negb_false_iff, bool_decide_eq_true in E. exact E.
  - by apply restore_task_ok.
  - cbn. apply andb_false_iff in E0 as [E0|E0]; apply bool_decide_eq_false, dec_stable in E0; auto.
Qed.

(** Requests are served, tasks end, and tasks and other components change the
    world and the log in between. *)
Inductive fleet_step : W → W → Prop :=
  | fleet_request h s : fleet_handler h → fleet_step s (h s).2
  | fleet_task_ends w c l1 t l2 : fleet_step (w, mkAsync c (l1 ++ t :: l2)) (w, mkAsync c (l1 ++ l2))
  | fleet_world w w' a : fleet_step (w, a) (w', a).

Lemma fleet_step_ok s s' :
  fleet_step s s' → Forall task_ok (as_running s.2) → Forall task_ok (as_running s'.2).
Proof.
  intros [h s0 Hh|w c l1 t l2|w w' a]; cbn.
  2: { intros Hf. apply Forall_app in Hf as [H1 H2]. inversion_clear H2. by apply Forall_app. }
  2: done.
  pose proof (handler_replied h Hh s0) as Hr. unfold wp, replied in Hr. revert Hr.
  destruct (h s0) as [[rep|e] s1]; cbn; [case_bool_decide|]; [|by intros ->..].
  intros (t & Ht & ->) Hf. destruct (as_closed s0.2); [done|]. cbn. apply Forall_app. by rewrite Forall_singleton.
Qed.

End accepted.

(** ** Removing an instance *)

Section destroy.
Context {S : Type} {IS : InstanceStore S} {SL : StoreLaws S} {IP : InstanceProvisioner S}.
Context (rec : bool).
Notation W := ((S * AuditTable) * Async Task)%type.

(** C29: asked to remove an instance that is a member of a cluster, the handler
    refuses, with a conflict when the row could be read; the provisioner is never
    called, the rows, the audit log and the running tasks are as they were.  An
    instance of its own is handed to the provisioner, under a context that the
    client cannot cancel, with the backups kept exactly when asked for. *)
Theorem destroy_spares_members claims id retain (s : S) aud (tasks : Async Task) i :
  rows s !! id = Some i →
  let got := repo_Get CallerCtx id s in
  let '(r, (s', aud', tasks')) := InstancesHandler_Destroy rec claims id retain (s, aud, tasks) in
  tasks' = tasks ∧
  (inst_ClusterID i ≠ "" →
     s' = got.2 ∧ rows s' = rows s ∧ aud' = aud ∧
     ∃ e, r = Err e ∧ (is_ok got.1 = true → Kind e = KindConflict)) ∧
  (inst_ClusterID i = "" → is_ok got.1 = true →
     s' = (ip_Destroy Background id (bool_decide (retain = "true")) got.2).2).
Proof.
  intros Hi. pose proof (repo_Get_law CallerCtx id s) as Hg. unfold wp in Hg. cbn zeta.
  unfold InstancesHandler_Destroy, svc, try, try_or, bind, on_fst. cbn [fst snd].
  destruct (repo_Get CallerCtx id s) as [[j|e] s1]; cbn [fst snd] in *; destruct Hg as [Hr Hj].
  - destruct Hj as [Hj _]. rewrite Hi in Hj. injection Hj as <-.
    destruct (bool_decide (inst_ClusterID i ≠ "")) eqn:Hc; [apply bool_decide_eq_true in Hc|apply bool_decide_eq_false, dec_stable in Hc].
    + cbn. split_and!; [done| |by intros ?]. intros _. split_and!; [done..|]. by eexists.
    + unfold lift_r. cbn [fst snd]. destruct (ip_Destroy Background id _ s1) as [[[]|e] s2]; cbn; [|split; [done|split; [by intros ?|done]]].
      unfold audit, on_fst, on_snd. cbn. destruct (recordAudit rec claims "instance.destroy" id aud).
      split; [done|split; [by intros ?|done]].
  - cbn. split_and!; [done| |done]. intros _. split_and!; [done..|]. by exists e.
Qed.
End destroy.

(** ** Tasks that fail *)

(** The calls of a clone or of a remote restore, with whether they succeeded. *)
Inductive TaskEvent :=
  | EvBackup (id : string) (ok : bool)
  | EvClone (id : string) (source : Inst) (ok : bool)
  | EvReady (kind id : string) (ok : bool)
  | EvRestore (dump : string) (ok : bool)
  | EvMarked (kind id : string).

Section failing.
Context {S : Type} {IP0 : InstanceProvisioner S} {CV0 : ClusterService S} {BR0 : BackupRunner S}
  {RM0 : RemoteService S} {RP0 : RemoteTargetProvisioner S}.
Context (progress : ProgressFunc).
Notation L := (S * list TaskEvent)%type.

(** The services with these calls logged; [ip_MarkError] only marks instances. *)
#[local] Instance logged_ip : InstanceProvisioner L := {|
  ip_Provision ctx id p := on_fst (ip_Provision ctx id p);
  ip_Clone ctx id source p := traced (λ r, EvClone id source (is_ok r)) (ip_Clone ctx id source p);
  ip_Start ctx id := on_fst (ip_Start ctx id);
  ip_Stop ctx id := on_fst (ip_Stop ctx id);
  ip_Restart ctx id := on_fst (ip_Restart ctx id);
  ip_Destroy ctx id b := on_fst (ip_Destroy ctx id b);
  ip_SetVisibility ctx id b := on_fst (ip_SetVisibility ctx id b);
  ip_DSN ctx id := on_fst (ip_DSN ctx id);
  ip_MarkError ctx id reason := traced (λ _, EvMarked "instance" id) (ip_MarkError ctx id reason);
  ip_emit p a b := on_fst (ip_emit p a b);
|}.
#[local] Instance logged_cv : ClusterService L := {|
  cs_Create ctx i := on_fst (cs_Create ctx i);
  cs_Provision ctx id p := on_fst (cs_Provision ctx id p);
  cs_Destroy ctx id b := on_fst (cs_Destroy ctx id b);
  cs_ConnectionDSN ctx id h := on_fst (cs_ConnectionDSN ctx id h);
|}.
#[local] Instance logged_br : BackupRunner L := {|
  br_Run ctx id t := traced (λ r, EvBackup id (is_ok r)) (br_Run ctx id t);
  br_RunWith ctx id t o := on_fst (br_RunWith ctx id t o);
  br_Delete ctx id lbl := on_fst (br_Delete ctx id lbl);
  br_Verify ctx id := on_fst (br_Verify ctx id);
  br_List ctx id := on_fst (br_List ctx id);
  rs_Restore ctx id o p := on_fst (rs_Restore ctx id o p);
|}.
#[local] Instance logged_rm : RemoteService L := {|
  rm_Capture ctx c := on_fst (rm_Capture ctx c);
  rm_List ctx := on_fst (rm_List ctx);
  rm_GetEntry ctx id := on_fst (rm_GetEntry ctx id);
  rm_RestoreInto ctx id dsn := traced (λ r, EvRestore id (is_ok r)) (rm_RestoreInto ctx id dsn);
|}.
#[local] Instance logged_rp : RemoteTargetProvisioner L := {|
  rp_ProvisionInstance ctx sp := on_fst (rp_ProvisionInstance ctx sp);
  rp_ProvisionCluster ctx sp := on_fst (rp_ProvisionCluster ctx sp);
  rp_WaitReady ctx kind id := traced (λ r, EvReady kind id (is_ok r)) (rp_WaitReady ctx kind id);
  rp_MarkError ctx kind id reason := traced (λ _, EvMarked kind id) (rp_MarkError ctx kind id reason);
|}.

(** The sequences of calls a clone and a remote restore may make. *)
Inductive clone_run (id : string) (source : Inst) : list TaskEvent → Prop :=
  | clone_done b : clone_run id source [EvBackup (inst_ID source) true; EvClone id source b]
  | clone_aborted : clone_run id source [EvBackup (inst_ID source) false; EvMarked "instance" id].
Inductive remote_run (kind id dump : string) : list TaskEvent → Prop :=
  | remote_done : remote_run kind id dump [EvReady kind id true; EvRestore dump true]
  | remote_not_restored : remote_run kind id dump [EvReady kind id true; EvRestore dump false; EvMarked kind id]
  | remote_not_ready : remote_run kind id dump [EvReady kind id false; EvMarked kind id].

Lemma logs_emit a b : logs (ip_emit progress a b : M L unit) (λ _ l, l = []).
Proof. apply logs_silent. Qed.

End failing.

(** ** Witnesses *)

(** A restore of the instance is accepted after the instance was created. *)
Definition sample_restore : M Fleet (result Reply) :=
  BackupsHandler_Restore true None "id-1" (Ok (mkRestoreReq "time" "2024-01-01" "" false 1)) true.


(** The replica of a new cluster is refused. *)
Definition destroy_db : FleetDB := (post_cluster "orders" 1 fleet_start).1.1.2.
Definition sample_member : Inst :=
  default zeroInst (db_rows (`destroy_db.1) !! "id-3").

Lemma destroy_spares_members_witness :
  let IP := @wired_provisioner _ _ (fake_runtime sample_hooks_ok) fake_process fleet_store sample_hmac sample_json sample_opts in
  let s : FakeWorld * FleetDB := (sample_world, destroy_db) in
  inst_ClusterID sample_member = "id-1" ∧
  ∃ e s', InstancesHandler_Destroy (IS := @wired_instances FakeWorld _ fleet_store) (IP := IP)
            true None "id-3" "" (s, mkTable sample_env 0 ∅, NewAsync) =
          (Err e, (s', mkTable sample_env 0 ∅, NewAsync)) ∧ Kind e = KindConflict.
Proof.
  intros IP s. split; [vm_compute; reflexivity|].
  assert (Hrow : db_rows (`destroy_db.1) !! "id-3" = Some sample_member) by (vm_compute; reflexivity).
  pose proof (@destroy_spares_members _ _ (wired_store_laws _ (beside_store_laws _ (metadb_laws sample_seal sample_open)))
    IP true None "id-3" "" s (mkTable sample_env 0 ∅) NewAsync sample_member Hrow) as H.
  cbn zeta in H. destruct (InstancesHandler_Destroy _ _ _ _ _) as [r [[s' aud'] tasks']].
  destruct H as (-> & Hm & _). destruct Hm as (Hs & _ & -> & e & -> & He); [vm_compute; discriminate|].
  exists e, s'. split; [done|]. apply He. vm_compute. reflexivity.
Defined.
