(* ===== verification/EventsLog.v ===== *)
(** * The durable event log: [internal/events/repo.go], [api/events_history.go]

    The append-only table of lifecycle events, and the query behind the timeline
    of the dashboard, with its optional conditions and its bounded length. *)

From Stdlib Require Import Ascii.
From stdpp Require Import gmap sorting strings.
From S2P Require Import Prelude GoStrings Apperr GoMonad MetaDB Tables Failover.

(** ** Data *)

(** [Event]; no instance or cluster is the empty string, as [COALESCE] gives it. *)
Record Event := mkEvent {
  ev_ID : string;
  ev_InstanceID : string;
  ev_ClusterID : string;
  ev_Type : string;
  ev_Message : string;
  ev_Metadata : gmap string string;
  ev_CreatedAt : Z;
}.

(** [Filter]. *)
Record EventFilter := mkFilter {
  ef_InstanceID : string;
  ef_ClusterID : string;
  ef_Type : string;
  ef_Limit : Z;
}.

Definition events_defaultLimit : Z := 100.
Definition events_maxLimit : Z := 500.

Notation EventTable := (Table string Event).

(** ** Operations *)

(** A reference that is blank is stored as NULL and read back as the empty
    string. *)
Definition nullable (s : string) : string := if bool_decide (TrimSpace s ≠ "") then s else "".

(** [Record]. *)
Definition Events_Record (ne : NewEvent) : M EventTable (result Event) :=
  _ <-? lift_r (NewEvent_Validate ne) ;;
  ev <-? tstatement (λ t,
      let e := mkEvent (tb_uuid t) (nullable (ne_InstanceID ne)) (nullable (ne_ClusterID ne)) (ne_Type ne)
                 (ne_Message ne) (ne_Metadata ne) (tb_now t) in
      match tb_rows t !! ev_ID e with
      | Some _ => Err uniqueViolation
      | None => Ok (e, <[ev_ID e := e]> (tb_rows t))
      end)
    orelse (λ e, fail (Wrap KindInternal "events: record" e)) ;;
  ok ev.

(** The limit of [List]. *)
Definition events_limit (f : EventFilter) : Z :=
  let limit := if bool_decide (ef_Limit f ≤ 0)%Z then events_defaultLimit else ef_Limit f in
  if bool_decide (events_maxLimit < limit)%Z then events_maxLimit else limit.

(** The conditions [add] collects: a column and the value bound to it. *)
Definition event_conds (f : EventFilter) : list (string * string) :=
  filter (λ cv, TrimSpace cv.2 ≠ "")
    [("instance_id", ef_InstanceID f); ("cluster_id", ef_ClusterID f); ("type", ef_Type f)].

(** The statement, whose values are all bound by number, and its arguments before
    the limit. *)
Definition number_conds (conds : list (string * string)) : list string :=
  imap (λ i cv, fst cv +:+ " = $" +:+ itoa (Z.of_nat (S i))) conds.
Definition events_query (f : EventFilter) : string * list string :=
  let conds := event_conds f in
  ("SELECT id, COALESCE(instance_id::text, ''), COALESCE(cluster_id::text, ''), type, message, metadata, created_at FROM events" +:+
   (if bool_decide (conds = []) then "" else " WHERE " +:+ Join (number_conds conds) " AND ") +:+
   " ORDER BY created_at DESC, id DESC LIMIT $" +:+ itoa (Z.of_nat (S (length conds))), conds.*2).

(** What the database makes of it. *)
Definition column (e : Event) (col : string) : string :=
  if bool_decide (col = "instance_id") then ev_InstanceID e
  else if bool_decide (col = "cluster_id") then ev_ClusterID e else ev_Type e.
Definition matches (f : EventFilter) (e : Event) : Prop := Forall (λ cv, column e cv.1 = cv.2) (event_conds f).
#[export] Instance matches_dec f e : Decision (matches f e).
Proof. unfold matches. apply _. Defined.
Definition event_newest (a b : Event) : Prop :=
  (ev_CreatedAt b < ev_CreatedAt a)%Z ∨ (ev_CreatedAt b = ev_CreatedAt a ∧ String.le (ev_ID b) (ev_ID a)).
#[export] Instance event_newest_dec : RelDecision event_newest.
Proof. intros a b. unfold event_newest. apply _. Defined.
#[export] Instance event_newest_total : Total event_newest.
Proof.
  intros a b. unfold event_newest.
  destruct (Z.lt_trichotomy (ev_CreatedAt a) (ev_CreatedAt b)) as [H|[H|H]]; [by right; left| |by left; left].
  destruct (total String.le (ev_ID a) (ev_ID b)) ; [right|left]; right; by split.
Qed.
#[export] Instance event_newest_trans : Transitive event_newest.
Proof.
  intros a b c [H1|[H1 H1']] [H2|[H2 H2']]; [left; lia..|right]. split; [lia|by etrans].
Qed.

(** [List]. *)
Definition Events_List (f : EventFilter) : M EventTable (result (list Event)) :=
  evs <-? tselect (λ rows, take (Z.to_nat (events_limit f))
                     (merge_sort event_newest (filter (matches f) (map_to_list rows).*2)))
    orelse (λ e, fail (Wrap KindInternal "events: list" e)) ;;
  ok evs.

(** The value of [strconv.Atoi] when its error is ignored: 0 for what is no number,
    and the nearest 64-bit integer when the number does not fit.  The digits are
    read into 64 unsigned bits, and reading stops where they overflow. *)
Definition max_uint64 : Z := 18446744073709551615.
Fixpoint scan_uint64 (n : Z) (s : string) : option Z :=
  match s with
  | "" => Some n
  | String c s' =>
      if negb (is_digit c) then None
      else let n' := (10 * n + Z.of_nat (byte_val c - 48))%Z in
           if bool_decide (max_uint64 < n')%Z then Some max_uint64 else scan_uint64 n' s'
  end.
Definition Atoi_value (s : string) : Z :=
  let '(neg, body) :=
    match s with
    | String "-" s' => (true, s')
    | String "+" s' => (false, s')
    | _ => (false, s)
    end in
  match body with
  | "" => 0%Z
  | _ => match scan_uint64 0 body with
         | None => 0%Z
         | Some n => if neg : bool then Z.max (- n) min_int64 else Z.min n max_int64
         end
  end.

(** [EventsHistoryHandler.List] on the query parameters. *)
Definition EventsHistory_List (instanceID clusterID type limit : string) : M EventTable (result (list Event)) :=
  evs <-? Events_List (mkFilter instanceID clusterID type (Atoi_value limit)) ;;
  ok evs.

Example atoi_values :
  Atoi_value <$> ["12"; "-7"; "+5"; ""; "-"; "1x"; "99999999999999999999"; "-99999999999999999999x"] =
  [12; -7; 5; 0; 0; 0; max_int64; min_int64]%Z.
Proof. reflexivity. Qed.

(** ** Lemmas *)

Lemma events_limit_bounds f : (1 ≤ events_limit f ≤ 500)%Z.
Proof. unfold events_limit, events_defaultLimit, events_maxLimit. repeat case_bool_decide; lia. Qed.

Lemma events_limit_le f : (0 < ef_Limit f → events_limit f ≤ ef_Limit f)%Z.
Proof. intros H. unfold events_limit, events_maxLimit. repeat case_bool_decide; lia. Qed.

Lemma event_conds_elem f col v :
  (col, v) ∈ event_conds f ↔
  TrimSpace v ≠ "" ∧ ((col = "instance_id" ∧ v = ef_InstanceID f) ∨ (col = "cluster_id" ∧ v = ef_ClusterID f) ∨
                      (col = "type" ∧ v = ef_Type f)).
Proof. unfold event_conds. rewrite list_elem_of_filter. cbn. set_solver. Qed.

Lemma matches_spec f e :
  matches f e ↔ (TrimSpace (ef_InstanceID f) ≠ "" → ev_InstanceID e = ef_InstanceID f) ∧
                (TrimSpace (ef_ClusterID f) ≠ "" → ev_ClusterID e = ef_ClusterID f) ∧
                (TrimSpace (ef_Type f) ≠ "" → ev_Type e = ef_Type f).
Proof.
  unfold matches. rewrite Forall_forall. split.
  - intros H. split_and!; intros Hne.
    + apply (H ("instance_id", _)), event_conds_elem. auto.
    + apply (H ("cluster_id", _)), event_conds_elem. auto.
    + apply (H ("type", _)), event_conds_elem. auto.
  - intros (H1 & H2 & H3) [col v] (Hne & [[-> ->]|[[-> ->]|[-> ->]]])%event_conds_elem; cbn; auto.
Qed.

(** What sorting and cutting keeps: the first [n] of the list in order. *)
Lemma take_sorted_spec {A} (R : relation A) `{∀ x y, Decision (R x y)} `{!Total R} `{!Transitive R} n (l : list A) :
  let l' := take n (merge_sort R l) in
  StronglySorted R l' ∧ length l' = min n (length l) ∧ (∀ x, x ∈ l' → x ∈ l) ∧
  ∀ x y, x ∈ l' → y ∈ l → y ∉ l' → R x y.
Proof.
  cbn zeta. set (s := merge_sort R l). assert (Hp : s ≡ₚ l) by apply merge_sort_Permutation.
  assert (Hs : StronglySorted R s) by apply (StronglySorted_merge_sort R).
  rewrite <- (take_drop n s) in Hs. split_and!.
  - by apply StronglySorted_app_1_l in Hs.
  - by rewrite length_take, Hp.
  - intros x (i & Hi & _)%elem_of_take. rewrite <- Hp. by eapply list_elem_of_lookup_2.
  - intros x y Hx Hy Hny. rewrite <- Hp, <- (take_drop n s), elem_of_app in Hy.
    destruct Hy as [?|Hy]; [done|]. by eapply StronglySorted_app_1_elem_of.
Qed.

(** The text of the statement only depends on which conditions there are. *)
Lemma number_conds_values (c c' : list (string * string)) : c.*1 = c'.*1 → number_conds c = number_conds c'.
Proof.
  unfold number_conds. generalize (λ i : nat, i). intros g. revert c' g.
  assert (∀ (g : nat → nat) c', c.*1 = c'.*1 →
    imap (λ i cv, fst cv +:+ " = $" +:+ itoa (Z.of_nat (S (g i)))) c =
    imap (λ i cv, fst cv +:+ " = $" +:+ itoa (Z.of_nat (S (g i)))) (c' : list (string * string))) as H.
  { induction c as [|[a b] c IH]; intros g [|[a' b'] c'] Hc; try done. injection Hc as -> Hc. cbn. f_equal.
    apply (IH (λ i, g (S i)) c' Hc). }
  intros c' _ Hc. exact (H (λ i, i) c' Hc).
Qed.

Lemma event_conds_columns f g :
  (TrimSpace (ef_InstanceID f) = "" ↔ TrimSpace (ef_InstanceID g) = "") →
  (TrimSpace (ef_ClusterID f) = "" ↔ TrimSpace (ef_ClusterID g) = "") →
  (TrimSpace (ef_Type f) = "" ↔ TrimSpace (ef_Type g) = "") →
  (event_conds f).*1 = (event_conds g).*1.
Proof.
  intros H1 H2 H3. unfold event_conds. repeat (rewrite filter_cons; cbn [snd]).
  repeat case_decide; try tauto; reflexivity.
Qed.

(** ** Property *)

(** The timeline is read without change; what it returns is at most 500 events
    and at most the limit asked for, newest first, each one stored and matching
    every condition that is not blank; a stored event that matches is left out only
    when the list is full, and then every event in the list is at least as new.
    The statement's text is the same whatever the values of the conditions are:
    they are only ever bound. *)
Theorem timeline_spec f (t : EventTable) :
  wp (Events_List f) (λ r t', tb_rows t' = tb_rows t ∧
    match r with
    | Ok l =>
        (Z.of_nat (length l) ≤ 500)%Z ∧ (0 < ef_Limit f → Z.of_nat (length l) ≤ ef_Limit f)%Z ∧
        StronglySorted event_newest l ∧
        (∀ e, e ∈ l → (∃ id, tb_rows t !! id = Some e) ∧ matches f e) ∧
        (∀ id e, tb_rows t !! id = Some e → matches f e → e ∉ l →
           Z.of_nat (length l) = events_limit f ∧ ∀ e', e' ∈ l → event_newest e' e)
    | Err _ => True
    end) t ∧
  (∀ g, (TrimSpace (ef_InstanceID f) = "" ↔ TrimSpace (ef_InstanceID g) = "") →
        (TrimSpace (ef_ClusterID f) = "" ↔ TrimSpace (ef_ClusterID g) = "") →
        (TrimSpace (ef_Type f) = "" ↔ TrimSpace (ef_Type g) = "") →
        (events_query f).1 = (events_query g).1).
Proof.
  split.
  - unfold Events_List. apply wp_try_or, wp_tselect; intros; apply wp_ret; split; try done.
    pose proof (events_limit_bounds f) as Hb.
    set (all := filter (matches f) (map_to_list (tb_rows t)).*2).
    destruct (take_sorted_spec event_newest (Z.to_nat (events_limit f)) all) as (Hs & Hl & Hin & Hout).
    assert (Hall : ∀ e, e ∈ all ↔ matches f e ∧ ∃ id, tb_rows t !! id = Some e).
    { intros e. unfold all. rewrite list_elem_of_filter, list_elem_of_fmap. split.
      - intros [Hm ([id e'] & -> & Hin')]. split; [done|]. exists id. by apply elem_of_map_to_list.
      - intros [Hm [id Hid]]. split; [done|]. exists (id, e). split; [done|]. by apply elem_of_map_to_list. }
    split_and!; [lia| |done| |].
    + intros Hpos%events_limit_le. lia.
    + intros e He. apply Hin, Hall in He. naive_solver.
    + intros id e He Hm Hn. assert (e ∈ all) as Ha by (apply Hall; eauto). split; [|by intros e' He'; apply Hout].
      destruct (decide (length all ≤ Z.to_nat (events_limit f))) as [Hle|Hgt]; [|lia].
      exfalso. apply Hn. rewrite take_ge by (by rewrite merge_sort_Permutation). by rewrite merge_sort_Permutation.
  - intros g H1 H2 H3. pose proof (event_conds_columns f g H1 H2 H3) as Hc. unfold events_query. cbn [fst].
    pose proof (f_equal length Hc) as Hlen. rewrite !length_fmap in Hlen.
    rewrite (number_conds_values _ _ Hc), Hlen. f_equal.
    destruct (event_conds f), (event_conds g); done.
Qed.

(** Recording appends one row with what was given, blank references dropped. *)
Lemma Events_Record_appends ne (t : EventTable) :
  wp (Events_Record ne) (λ r t',
    match r with
    | Ok e => tb_rows t !! ev_ID e = None ∧ tb_rows t' = <[ev_ID e := e]> (tb_rows t) ∧
              TrimSpace (ev_Type e) ≠ "" ∧ TrimSpace (ev_Message e) ≠ "" ∧
              ev_InstanceID e = nullable (ne_InstanceID ne) ∧ ev_ClusterID e = nullable (ne_ClusterID ne)
    | Err _ => tb_rows t' = tb_rows t
    end) t.
Proof.
  unfold Events_Record. apply wp_try. unfold lift_r. apply wp_ret.
  destruct (NewEvent_Validate ne) as [[]|e] eqn:Hv; [|done].
  assert (TrimSpace (ne_Type ne) ≠ "" ∧ TrimSpace (ne_Message ne) ≠ "") as [Ht Hm].
  { revert Hv. unfold NewEvent_Validate. by repeat case_bool_decide. }
  apply wp_try_or, wp_tstatement; [intros e t' H; by apply wp_ret|].
  intros e rows t' t'' Ht' Hb Ht''. cbn in Hb. destruct (tb_rows t' !! tb_uuid t') eqn:Hn; [done|].
  injection Hb as <- <-. apply wp_ret. rewrite Ht'', Ht' in *. by split_and!.
Qed.
