(* ===== verification/Metrics.v ===== *)
(** * Metrics: [internal/metrics]

    The samples the control plane keeps of every running instance: their table,
    the probe of a container ([resource.go]), the probe of its server
    ([collector.go]).  A [float64] is a value of [SpecFloat], as in [Alerts]. *)

From Stdlib Require Import Ascii Floats.SpecFloat.
From stdpp Require Import gmap sorting strings.
From S2P Require Import Prelude GoStrings Apperr GoMonad Runtime MetaDB Alerts.

(** ** Data *)

(** [Sample]; times are Unix nanoseconds. *)
Record Sample := mkSample {
  sm_InstanceID : string;
  sm_Metric : string;
  sm_Value : float;
  sm_At : Z;
}.

(** [docker.ContainerStats], and the call that samples it. *)
Record ContainerStats := mkStats {
  st_CPUPercent : float;
  st_MemoryBytes : Z;
  st_MemoryLimitBytes : Z;
  st_MemoryPercent : float;
  st_DiskIOAvailable : bool;
  st_DiskReadBytes : Z;
  st_DiskWriteBytes : Z;
  st_DiskReadOps : Z;
  st_DiskWriteOps : Z;
}.
Class StatsRuntime (R : Type) := {
  rt_ContainerStats : Context → string → M R (result ContainerStats);
}.

(** ** The table: [metrics.go]

    It has no key; its rows are in the order they were written. *)
Record MetricTable := mkMetricTable {
  mt_env : Env;
  mt_qn : Z;
  mt_rows : list Sample;
}.

(** One statement: the environment may fail it, and then nothing changes. *)
Definition mt_statement {A} (body : list Sample → A * list Sample) : M MetricTable (result A) := λ t,
  let n := (mt_qn t + 1)%Z in
  match env_fault (mt_env t) n with
  | Some e => (Err e, mkMetricTable (mt_env t) n (mt_rows t))
  | None => let '(a, rows) := body (mt_rows t) in (Ok a, mkMetricTable (mt_env t) n rows)
  end.

(** [Insert]: the batch is copied as a whole. *)
Definition Metrics_Insert (samples : list Sample) : M MetricTable (result unit) :=
  if bool_decide (length samples = 0) then done_ok else
  _ <-? mt_statement (λ rows, (tt, rows ++ samples))
    orelse (λ e, fail (Wrap KindInternal "metrics: insert" e)) ;;
  done_ok.

(** [Query]: [ORDER BY at ASC]. *)
Definition sample_older (a b : Sample) : Prop := (sm_At a ≤ sm_At b)%Z.
#[export] Instance sample_older_dec : RelDecision sample_older.
Proof. intros a b. unfold sample_older. apply _. Defined.
Definition in_range (instanceID metric : string) (since until : Z) (s : Sample) : Prop :=
  sm_InstanceID s = instanceID ∧ sm_Metric s = metric ∧ (since ≤ sm_At s ≤ until)%Z.
#[export] Instance in_range_dec instanceID metric since until s : Decision (in_range instanceID metric since until s).
Proof. unfold in_range. apply _. Defined.
Definition Metrics_Query (instanceID metric : string) (since until : Z) : M MetricTable (result (list Sample)) :=
  l <-? mt_statement (λ rows, (merge_sort sample_older (filter (in_range instanceID metric since until) rows), rows))
    orelse (λ e, fail (Wrap KindInternal "metrics: query" e)) ;;
  ok l.

(** [Latest]: [DISTINCT ON (metric) ... ORDER BY metric, at DESC], collected into a
    map. *)
Definition keep_latest (m : gmap string Sample) (s : Sample) : gmap string Sample :=
  match m !! sm_Metric s with
  | Some s' => if bool_decide (sm_At s' < sm_At s)%Z then <[sm_Metric s := s]> m else m
  | None => <[sm_Metric s := s]> m
  end.
Definition latest_samples (instanceID : string) (rows : list Sample) : gmap string Sample :=
  foldl keep_latest ∅ (filter (λ s, sm_InstanceID s = instanceID) rows).
Definition Metrics_Latest (instanceID : string) : M MetricTable (result (gmap string Sample)) :=
  m <-? mt_statement (λ rows, (latest_samples instanceID rows, rows))
    orelse (λ e, fail (Wrap KindInternal "metrics: latest" e)) ;;
  ok m.

(** [Prune]. *)
Definition Metrics_Prune (before : Z) : M MetricTable (result unit) :=
  _ <-? mt_statement (λ rows, (tt, filter (λ s, ¬ (sm_At s < before)%Z) rows))
    orelse (λ e, fail (Wrap KindInternal "metrics: prune" e)) ;;
  done_ok.

(** ** The container: [resource.go] *)

(** [float64(n)], and [a / b * 100]. *)
Definition float_of (n : Z) : float := float_const n.
Definition percent_of (a b : Z) : float :=
  SFmul 53 1024 (SFdiv 53 1024 (float_of a) (float_of b)) (float_of 100).

(** [strings.TrimRight(s, "\n")]. *)
Fixpoint drop_nls (s : string) : string :=
  match s with
  | String c s' => if ascii_eqb c nl_char then drop_nls s' else s
  | "" => ""
  end.
Definition TrimRight_nl (s : string) : string := str_rev (drop_nls (str_rev s)).

(** [parseDfBytes]: the second line that is not blank, its second, third and fourth
    field. *)
Definition parse_count (s : string) : option Z :=
  match ParseInt64 s with NumOk n => if bool_decide (n < 0)%Z then None else Some n | _ => None end.
Definition data_line (lines : list string) : string :=
  default "" (filter (λ ln, TrimSpace ln ≠ "") lines !! 1%nat).
Definition parseDfBytes (out : string) : option (Z * Z * Z) :=
  let lines := SplitChar nl_char (TrimRight_nl out) in
  if length lines <? 2 then None
  else if bool_decide (data_line lines = "") then None
  else match Fields (data_line lines) with
       | _ :: size :: used :: avail :: _ :: _ :: _ =>
           t ← parse_count size; u ← parse_count used; a ← parse_count avail; Some (t, u, a)
       | _ => None
       end.

Definition metrics_pgDataPath : string := "/var/lib/postgresql/data".

(** [collectStats] and [collectDisk]: what they add. *)
Definition stats_values (st : ContainerStats) : list (string * float) :=
  [("memory_bytes", float_of (st_MemoryBytes st)); ("memory_percent", st_MemoryPercent st)] ++
  (if st_DiskIOAvailable st
   then [("disk_read_bytes", float_of (st_DiskReadBytes st)); ("disk_write_bytes", float_of (st_DiskWriteBytes st));
         ("disk_read_ops", float_of (st_DiskReadOps st)); ("disk_write_ops", float_of (st_DiskWriteOps st))]
   else []).
Definition disk_values (df : result ExecResult) : result (list (string * float)) :=
  match df with
  | Err e => Err e
  | Ok res =>
      if negb (bool_decide (er_ExitCode res = 0)%Z) then
        Err (New KindInternal ("metrics: df exited " +:+ itoa (er_ExitCode res)))
      else match parseDfBytes (er_Stdout res) with
           | None => Err (New KindInternal "metrics: unparseable df output")
           | Some (total, used, avail) =>
               Ok ([("disk_total_bytes", float_of total); ("disk_used_bytes", float_of used)] ++
                   (if bool_decide (0 < total)%Z then [("disk_free_percent", percent_of avail total)] else []))
           end
  end.

(** The samples of a list of measurements, stamped with one time. *)
Definition stamped (instanceID : string) (at_ : Z) (vs : list (string * float)) : list Sample :=
  (λ mv, mkSample instanceID (fst mv) (snd mv) at_) <$> vs.

(** [ResourceCollector.Collect]: either probe may fail on its own. *)
Definition Resource_Collect {R} {RT : ContainerRuntime R} {PR : Process R} {SR : StatsRuntime R}
    (ctx : Context) (instanceID containerID : string) : M R (result (list Sample)) :=
  at_ <- now ;;
  st <- rt_ContainerStats ctx containerID ;;
  df <- Exec ctx containerID ["df"; "-PB1"; metrics_pgDataPath] ;;
  match rmap stats_values st, disk_values df with
  | Err statsErr, Err _ => fail (Wrap KindInternal "metrics: collect resource stats" statsErr)
  | stats, disk => ok (stamped instanceID at_ (value_or [] stats ++ value_or [] disk))
  end.

(** ** The server: [collector.go] *)

(** [checkpointQuery]. *)
Definition checkpointQuery (serverVersionNum : Z) : string :=
  if bool_decide (170000 ≤ serverVersionNum)%Z
  then "SELECT num_timed, num_requested, buffers_written FROM pg_stat_checkpointer"
  else "SELECT checkpoints_timed, checkpoints_req, buffers_checkpoint FROM pg_stat_bgwriter".

(** The row of [pg_stat_database] with the three counts beside it. *)
Record StatDatabase := mkStatDatabase {
  sd_conns : Z;
  sd_active : Z;
  sd_dbSize : Z;
  sd_xactCommit : Z;
  sd_xactRollback : Z;
  sd_blksHit : Z;
  sd_blksRead : Z;
  sd_tupIns : Z;
  sd_tupUpd : Z;
  sd_tupDel : Z;
  sd_deadlocks : Z;
  sd_tupReturned : Z;
  sd_tupFetched : Z;
  sd_tempFiles : Z;
  sd_tempBytes : Z;
  sd_blkReadTime : Z;
  sd_blkWriteTime : Z;
}.

(** A connection to an instance: opening one, and what each statement scans. *)
Class PgStats (S : Type) := {
  pg_Connect : string → M S (result unit);
  pg_stat_database : M S (result StatDatabase);
  pg_sessions : M S (result (Z * Z * Z * float));
  pg_locks : M S (result (Z * Z));
  pg_server_version_num : M S (result Z);
  pg_checkpoints : string → M S (result (Z * Z * Z));
  pg_wal : M S (result (Z * Z * Z));
  pg_is_in_recovery : M S (result bool);
  pg_replay_lag : M S (result float);
  pg_standbys : M S (result (Z * float));
}.

(** The samples of the first statement; [blksHit + blksRead] is an int64. *)
Definition int64 (n : Z) : Z := ((n + 2 ^ 63) mod 2 ^ 64 - 2 ^ 63)%Z.
Definition database_values (d : StatDatabase) : list (string * float) :=
  [("connections", float_of (sd_conns d)); ("active_connections", float_of (sd_active d));
   ("db_size_bytes", float_of (sd_dbSize d)); ("xact_commit", float_of (sd_xactCommit d));
   ("xact_rollback", float_of (sd_xactRollback d)); ("blks_hit", float_of (sd_blksHit d));
   ("blks_read", float_of (sd_blksRead d)); ("tup_inserted", float_of (sd_tupIns d));
   ("tup_updated", float_of (sd_tupUpd d)); ("tup_deleted", float_of (sd_tupDel d));
   ("deadlocks", float_of (sd_deadlocks d)); ("tup_returned", float_of (sd_tupReturned d));
   ("tup_fetched", float_of (sd_tupFetched d)); ("temp_files", float_of (sd_tempFiles d));
   ("temp_bytes", float_of (sd_tempBytes d)); ("blk_read_time_ms", float_of (sd_blkReadTime d));
   ("blk_write_time_ms", float_of (sd_blkWriteTime d))] ++
  (let total := int64 (sd_blksHit d + sd_blksRead d) in
   if bool_decide (0 < total)%Z then [("cache_hit_ratio", percent_of (sd_blksHit d) total)] else []).

(** A statement after the first: what it adds, or nothing when it failed. *)
Definition if_ok {A} (f : A → list (string * float)) (r : result A) : list (string * float) :=
  match r with Ok a => f a | Err _ => [] end.
Definition session_values (conns : Z) (v : Z * Z * Z * float) : list (string * float) :=
  let '(maxConns, idleInTx, waiting, longestTxSecs) := v in
  [("max_connections", float_of maxConns); ("idle_in_transaction", float_of idleInTx);
   ("waiting_sessions", float_of waiting); ("longest_transaction_seconds", longestTxSecs)] ++
  (if bool_decide (0 < maxConns)%Z then [("connection_utilization", percent_of conns maxConns)] else []).
Definition lock_values (v : Z * Z) : list (string * float) :=
  [("locks_held", float_of v.1); ("locks_waiting", float_of v.2)].
Definition checkpoint_values (v : Z * Z * Z) : list (string * float) :=
  [("checkpoints_timed", float_of v.1.1); ("checkpoints_req", float_of v.1.2); ("buffers_checkpoint", float_of v.2)].
Definition wal_values (v : Z * Z * Z) : list (string * float) :=
  [("wal_bytes", float_of v.1.1); ("wal_records", float_of v.1.2); ("wal_full_page_images", float_of v.2)].

Section collector.
Context {S : Type} {PG : PgStats S}.

(** [collectReplication]. *)
Definition collectReplication : M S (list (string * float)) :=
  r <- pg_is_in_recovery ;;
  match r with
  | Err _ => ret []
  | Ok true =>
      lag <- pg_replay_lag ;;
      ret (if_ok (λ lagSecs, [("replication_lag_seconds", lagSecs)]) lag)
  | Ok false =>
      st <- pg_standbys ;;
      ret (if_ok (λ v, [("connected_standbys", float_of v.1); ("replica_lag_bytes", v.2)]) st)
  end.

(** [Collector.Collect]; a version that cannot be read is 0. *)
Definition Pg_Collect (now : Z) (instanceID dsn : string) : M S (result (list Sample)) :=
  _ <-? pg_Connect dsn orelse (λ e, fail (Wrap KindInternal "metrics: connect" e)) ;;
  d <-? pg_stat_database orelse (λ e, fail (Wrap KindInternal "metrics: query stat_database" e)) ;;
  sessions <- pg_sessions ;;
  locks <- pg_locks ;;
  version <- pg_server_version_num ;;
  ckpt <- pg_checkpoints (checkpointQuery (value_or 0%Z version)) ;;
  wal <- pg_wal ;;
  repl <- collectReplication ;;
  ok (stamped instanceID now
        (database_values d ++ if_ok (session_values (sd_conns d)) sessions ++ if_ok lock_values locks ++
         if_ok checkpoint_values ckpt ++ if_ok wal_values wal ++ repl)).
End collector.

Example df_parsed :
  parseDfBytes ("Filesystem 1-blocks Used Available Capacity Mounted on" +:+ nl +:+
    "/dev/sda1  1000 400   600  40% /var/lib/postgresql/data" +:+ nl) = Some (1000, 400, 600)%Z ∧
  parseDfBytes ("Filesystem 1-blocks" +:+ nl) = None ∧ parseDfBytes "" = None.
Proof. vm_compute. by split_and!. Qed.
Example df_percent : disk_values (Ok (mkExecResult 0 ("H" +:+ nl +:+ nl +:+ "/dev/sda1 1000 950 50 95% /x y") "")) =
  Ok [("disk_total_bytes", float_of 1000); ("disk_used_bytes", float_of 950); ("disk_free_percent", float_of 5)].
Proof. vm_compute. reflexivity. Qed.
