(* ===== verification/Periodic.v ===== *)
(** * The periodic passes: [cmd/pgfleet-api/main.go]

    The jobs the scheduler runs over every running instance, apart from the health
    checks, which are in [Health]: collecting metrics, drilling the backups, and
    evaluating the alerts from what the other passes stored.  A failure of one
    instance never stops a pass. *)

From Stdlib Require Import Floats.SpecFloat.
From stdpp Require Import gmap sorting strings.
From S2P Require Import Prelude GoStrings Apperr GoMonad Instances Runtime Stores MetaDB Tables Provision ProvisionOps PgBackRest Failover Backup Health Alerts AlertsFacts Metrics.

(** ** The world of the passes

    The instances, the tables the passes share, and what is outside: notifications
    and events. *)

Record PassWorld (D O : Type) := mkPass {
  pw_db : D;
  pw_metrics : MetricTable;
  pw_health : HealthTable;
  pw_alerts : AlertTable;
  pw_rules : RuleTable;
  pw_out : O;
}.
Arguments mkPass {D O} pw_db pw_metrics pw_health pw_alerts pw_rules pw_out.
Arguments pw_db {D O} p.
Arguments pw_metrics {D O} p.
Arguments pw_health {D O} p.
Arguments pw_alerts {D O} p.
Arguments pw_rules {D O} p.
Arguments pw_out {D O} p.

Section pass.
Context {D O : Type}.
Notation P := (PassWorld D O).

Definition in_db {A} (m : M D A) : M P A := λ p,
  let '(a, d) := m (pw_db p) in (a, mkPass d (pw_metrics p) (pw_health p) (pw_alerts p) (pw_rules p) (pw_out p)).
Definition in_metrics {A} (m : M MetricTable A) : M P A := λ p,
  let '(a, t) := m (pw_metrics p) in (a, mkPass (pw_db p) t (pw_health p) (pw_alerts p) (pw_rules p) (pw_out p)).
Definition in_health {A} (m : M HealthTable A) : M P A := λ p,
  let '(a, t) := m (pw_health p) in (a, mkPass (pw_db p) (pw_metrics p) t (pw_alerts p) (pw_rules p) (pw_out p)).
Definition in_alerts {A} (m : M AlertTable A) : M P A := λ p,
  let '(a, t) := m (pw_alerts p) in (a, mkPass (pw_db p) (pw_metrics p) (pw_health p) t (pw_rules p) (pw_out p)).
Definition in_rules {A} (m : M RuleTable A) : M P A := λ p,
  let '(a, t) := m (pw_rules p) in (a, mkPass (pw_db p) (pw_metrics p) (pw_health p) (pw_alerts p) t (pw_out p)).
Definition in_out {A} (m : M O A) : M P A := λ p,
  let '(a, o) := m (pw_out p) in (a, mkPass (pw_db p) (pw_metrics p) (pw_health p) (pw_alerts p) (pw_rules p) o).

(** ** Evaluating the alerts: [evaluateAlerts] *)

Context {IS : InstanceStore D} {ER : EventRecorder O}.
(** The URL of the webhook and posting to it; the clock [Sync] reads when it comes
    to an instance. *)
Context (url : string) (post : list notifyTransition → M O (result Z)) (clock_at : string → Z).

(** [Duration.Seconds]. *)
Definition Duration_Seconds (d : Z) : float :=
  SFadd 53 1024 (float_const (Z.quot d Second))
    (SFdiv 53 1024 (float_const (Z.rem d Second)) (float_const 1000000000)).

(** The ages of the last backups, from the stored reports. *)
Definition backup_ages (reports : list Report) : gmap string float :=
  foldl (λ m rep, if bool_decide (0 < rp_LastBackupAge rep)%Z
                  then <[rp_InstanceID rep := Duration_Seconds (rp_LastBackupAge rep)]> m else m) ∅ reports.

(** The snapshot of an instance. *)
Definition snapshot_of (id : string) (latest : gmap string Sample) (backupAge : gmap string float) : Snapshot :=
  mkSnapshot id (sm_Value <$> latest !! "disk_free_percent") (sm_Value <$> latest !! "replication_lag_seconds")
    (backupAge !! id) (sm_Value <$> latest !! "connection_utilization").

(** The thresholds that hold for it, when its rules could be read. *)
Definition thresholds_of (rules : result (list Rule)) : Thresholds :=
  match rules with Ok rs => EffectiveThresholds DefaultThresholds rs | Err _ => DefaultThresholds end.

Definition alert_event (id : string) (tr : Transition) : NewEvent :=
  mkNewEvent id "" "alert" (tr_Message tr)
    {["kind" := tr_Kind tr; "state" := tr_To tr; "severity" := tr_Severity tr]}.

Definition evaluateOne (backupAge : gmap string float) (inst : Inst) : M P unit :=
  if bool_decide (inst_Status inst ≠ StatusRunning) then ret tt else
  rules <- in_rules (Rules_ListEffective (inst_ID inst)) ;;
  let th := thresholds_of rules in
  latest <- in_metrics (Metrics_Latest (inst_ID inst)) ;;
  match latest with
  | Err _ => ret tt
  | Ok latest =>
      let snap := snapshot_of (inst_ID inst) latest backupAge in
      transitions <- in_alerts (SyncAlerts (clock_at (inst_ID inst)) (inst_ID inst) (Evaluate snap th)) ;;
      match transitions with
      | Err _ => ret tt
      | Ok transitions =>
          if bool_decide (length transitions = 0) then ret tt else
          _ <- discard (in_out (Notify url post transitions)) ;;
          for_each transitions tt (λ _ tr, discard (in_out (event_Record CallerCtx (alert_event (inst_ID inst) tr))))
      end
  end.

Definition evaluateAlerts : M P (result unit) :=
  instances <-? in_db (repo_List CallerCtx) ;;
  reports <- in_health Health_List ;;
  let backupAge := backup_ages (value_or [] reports) in
  _ <- for_each instances tt (λ _ inst, evaluateOne backupAge inst) ;;
  done_ok.
End pass.

(** ** Collecting metrics: [collectMetrics] *)

Section collect.
Context {R D O : Type} {RT : ContainerRuntime R} {PR : Process R} {SR : StatsRuntime R} {IS : InstanceStore D}
  {PG : PgStats R}.
Context (opts : Options).
Notation W := (R * D * MetricTable)%type.

Definition collectOne (at_ : Z) (inst : Inst) : M W unit :=
  if bool_decide (inst_Status inst ≠ StatusRunning) then ret tt else
  dsn <- on_fst (DSN opts CallerCtx (inst_ID inst)) ;;
  _ <- match dsn with
       | Err _ => ret tt
       | Ok dsn =>
           samples <- on_fst (on_fst (Pg_Collect at_ (inst_ID inst) dsn)) ;;
           match samples with
           | Err _ => ret tt
           | Ok samples => discard (on_snd (Metrics_Insert samples))
           end
       end ;;
  if bool_decide (inst_ContainerID inst = "") then ret tt else
  rs <- on_fst (on_fst (Resource_Collect CallerCtx (inst_ID inst) (inst_ContainerID inst))) ;;
  match rs with
  | Err _ => ret tt
  | Ok rs => discard (on_snd (Metrics_Insert rs))
  end.
Definition collectMetrics (at_ : Z) : M W (result unit) :=
  instances <-? on_fst (repo (repo_List CallerCtx)) ;;
  _ <- for_each instances tt (λ _ inst, collectOne at_ inst) ;;
  done_ok.
End collect.

(** ** Drilling the backups: [runRestoreDrills] *)

Section drills.
Context {R D : Type} {RT : ContainerRuntime R} {PR : Process R} {IS : InstanceStore D}.
Context (hmac_hex : string → string → string) (opts : Options).
Notation W := (R * D * HealthTable)%type.

Definition drillOne (inst : Inst) : M W unit :=
  if bool_decide (inst_Status inst ≠ StatusRunning) then ret tt else
  result <- on_fst (RestoreDrill hmac_hex opts CallerCtx (inst_ID inst)) ;;
  match result with
  | Err _ => ret tt
  | Ok r => discard (on_snd (UpdateDrill (inst_ID inst) (dr_OK r)))
  end.
Definition runRestoreDrills : M W (result unit) :=
  instances <-? on_fst (repo (repo_List CallerCtx)) ;;
  _ <- for_each instances tt (λ _ inst, drillOne inst) ;;
  done_ok.
End drills.
