(* ===== verification/PeriodicSafety.v ===== *)
(** * What a pass over the fleet leaves

    The latest samples are the latest ([latest_samples_spec]), and a pass that
    evaluates the alerts makes the firing alerts of every running instance those
    of its own snapshot, or leaves them ([evaluate_pass]). *)

From Stdlib Require Import Floats.SpecFloat Morphisms.
From stdpp Require Import gmap sorting strings.
From S2P Require Import Prelude GoStrings Apperr GoMonad Instances Runtime Stores MetaDB Tables Failover Samples Health Alerts AlertsFacts Metrics Periodic.

(** ** The latest samples *)

Lemma latest_samples_spec id rows m :
  match latest_samples id rows !! m with
  | Some s => s ∈ rows ∧ sm_InstanceID s = id ∧ sm_Metric s = m ∧
              ∀ s', s' ∈ rows → sm_InstanceID s' = id → sm_Metric s' = m → (sm_At s' ≤ sm_At s)%Z
  | None => ∀ s', s' ∈ rows → sm_InstanceID s' = id → sm_Metric s' ≠ m
  end.
Proof.
  unfold latest_samples.
  assert (Hl : ∀ l, match foldl keep_latest ∅ l !! m with
    | Some s => s ∈ l ∧ sm_Metric s = m ∧ ∀ s', s' ∈ l → sm_Metric s' = m → (sm_At s' ≤ sm_At s)%Z
    | None => ∀ s', s' ∈ l → sm_Metric s' ≠ m
    end).
  { intros l. induction l as [|x l IH] using rev_ind; [cbn; rewrite lookup_empty; by intros s' ?%elem_of_nil|].
    rewrite foldl_snoc. unfold keep_latest at 1. set (acc := foldl keep_latest ∅ l) in *.
    destruct (decide (sm_Metric x = m)) as [<-|Hne].
    - destruct (acc !! sm_Metric x) as [s0|] eqn:Ha.
      + destruct IH as (Hin & Hm & Hmax). case_bool_decide as Hlt.
        * rewrite lookup_insert_eq. split_and!; [set_solver|done|].
          intros s' [Hs'|Hs'%list_elem_of_singleton]%elem_of_app Hk; [|subst; lia]. specialize (Hmax s' Hs' Hk). lia.
        * rewrite Ha. split_and!; [set_solver|done|].
          intros s' [Hs'|Hs'%list_elem_of_singleton]%elem_of_app Hk; [by apply Hmax|subst; lia].
      + rewrite lookup_insert_eq. split_and!; [set_solver|done|].
        intros s' [Hs'|Hs'%list_elem_of_singleton]%elem_of_app Hk; [by destruct (IH s' Hs' Hk)|subst; lia].
    - assert (Hsame : (match acc !! sm_Metric x with
        | Some s' => if bool_decide (sm_At s' < sm_At x)%Z then <[sm_Metric x := x]> acc else acc
        | None => <[sm_Metric x := x]> acc end) !! m = acc !! m).
      { destruct (acc !! sm_Metric x); [case_bool_decide; [|done]|]; by rewrite lookup_insert_ne. }
      rewrite Hsame. destruct (acc !! m) as [s|].
      + destruct IH as (Hin & Hm & Hmax). split_and!; [set_solver|done|].
        intros s' [Hs'|Hs'%list_elem_of_singleton]%elem_of_app Hk; [by apply Hmax|congruence].
      + intros s' [Hs'|Hs'%list_elem_of_singleton]%elem_of_app; [by apply IH|congruence]. }
  specialize (Hl (filter (λ s, sm_InstanceID s = id) rows)). destruct (foldl _ _ _ !! m) as [s|].
  - destruct Hl as (Hin & Hm & Hmax). apply list_elem_of_filter in Hin as [Hid Hin]. split_and!; [done..|].
    intros s' Hs' Hi Hk. apply Hmax; [|done]. by apply list_elem_of_filter.
  - intros s' Hs' Hi. apply Hl. by apply list_elem_of_filter.
Qed.

(** ** Rows about one instance *)

(** The two tables have the same alerts of an instance. *)
Definition about (id : string) (before after : gmap string Alert) : Prop :=
  ∀ aid a, al_InstanceID a = id → before !! aid = Some a ↔ after !! aid = Some a.

#[export] Instance about_equivalence id : Equivalence (about id).
Proof.
  split.
  - by intros r aid a.
  - intros r1 r2 H aid a Ha. by rewrite (H aid a Ha).
  - intros r1 r2 r3 H1 H2 aid a Ha. by rewrite (H1 aid a Ha), (H2 aid a Ha).
Qed.

#[export] Instance fires_about id k : Proper (about id ==> iff) (fires id k).
Proof.
  assert (∀ r r', about id r r' → fires id k r → fires id k r') as H.
  { intros r r' Hr (aid & a & Ha & Hf & Hk). exists aid, a. split; [|done]. apply Hr; [apply Hf|done]. }
  intros r r' Hr. split; apply H; [done|by symmetry].
Qed.

Lemma only_firing_about inst id before after : id ≠ inst → only_firing_of inst before after → about id before after.
Proof.
  intros Hne [H1 H2] aid a Ha. split.
  - intros Hb. apply H1; [done|]. intros [Hi _]. congruence.
  - intros Hb. apply H2; [done|congruence].
Qed.

(** ** The pass *)

Section pass.
Context {D O : Type} {IS : InstanceStore D} {SL : StoreLaws D} {ER : EventRecorder O}.
Context (url : string) (post : list notifyTransition → M O (result Z)) (clock_at : string → Z).
Notation P := (PassWorld D O).

Notation alert_rows p := (tb_rows (pw_alerts p)).

(** What the pass reads is not written by it. *)
Record same_inputs (p p' : P) : Prop := {
  same_metrics : mt_rows (pw_metrics p') = mt_rows (pw_metrics p);
  same_rules : tb_rows (pw_rules p') = tb_rows (pw_rules p);
  same_health : tb_rows (pw_health p') = tb_rows (pw_health p);
  same_instances : rows (pw_db p') = rows (pw_db p);
}.

#[export] Instance same_inputs_preorder : PreOrder same_inputs.
Proof.
  split; [by split|]. intros p1 p2 p3 [A1 B1 C1 D1] [A2 B2 C2 D2]. split; congruence.
Qed.

(** The rules that apply to an instance, as the table gives them. *)
Definition effective_rules (id : string) (p : P) : list Rule :=
  merge_sort global_first (filter (applies id) (map_to_list (tb_rows (pw_rules p))).*2).

(** What the pass makes of one running instance: nothing, or its firing alerts are
    those of the snapshot of its latest samples and its backup age, against its
    rules or, when they could not be read, the defaults. *)
Definition outcome (ages : gmap string float) (id : string) (p p' : P) : Prop :=
  about id (alert_rows p) (alert_rows p') ∨
  ∃ th, (th = EffectiveThresholds DefaultThresholds (effective_rules id p) ∨ th = DefaultThresholds) ∧
        ∀ k, fires id k (alert_rows p') ↔
             k ∈ fi_Kind <$> Evaluate (snapshot_of id (latest_samples id (mt_rows (pw_metrics p))) ages) th.

(** Steps outside the alert table. *)
Lemma wp_in_rules {A} (m : M RuleTable A) (Q : A → P → Prop) p :
  wp m (λ a t, Q a (mkPass (pw_db p) (pw_metrics p) (pw_health p) (pw_alerts p) t (pw_out p))) (pw_rules p) →
  wp (in_rules m) Q p.
Proof. unfold wp, in_rules. by destruct (m (pw_rules p)). Qed.
Lemma wp_in_metrics {A} (m : M MetricTable A) (Q : A → P → Prop) p :
  wp m (λ a t, Q a (mkPass (pw_db p) t (pw_health p) (pw_alerts p) (pw_rules p) (pw_out p))) (pw_metrics p) →
  wp (in_metrics m) Q p.
Proof. unfold wp, in_metrics. by destruct (m (pw_metrics p)). Qed.
Lemma wp_in_health {A} (m : M HealthTable A) (Q : A → P → Prop) p :
  wp m (λ a t, Q a (mkPass (pw_db p) (pw_metrics p) t (pw_alerts p) (pw_rules p) (pw_out p))) (pw_health p) →
  wp (in_health m) Q p.
Proof. unfold wp, in_health. by destruct (m (pw_health p)). Qed.
Lemma wp_in_alerts {A} (m : M AlertTable A) (Q : A → P → Prop) p :
  wp m (λ a t, Q a (mkPass (pw_db p) (pw_metrics p) (pw_health p) t (pw_rules p) (pw_out p))) (pw_alerts p) →
  wp (in_alerts m) Q p.
Proof. unfold wp, in_alerts. by destruct (m (pw_alerts p)). Qed.
Lemma wp_in_db {A} (m : M D A) (Q : A → P → Prop) p :
  wp m (λ a d, Q a (mkPass d (pw_metrics p) (pw_health p) (pw_alerts p) (pw_rules p) (pw_out p))) (pw_db p) →
  wp (in_db m) Q p.
Proof. unfold wp, in_db. by destruct (m (pw_db p)). Qed.

(** Notifications and events change nothing the pass is about. *)
Definition only_out (p p' : P) : Prop := same_inputs p p' ∧ pw_alerts p' = pw_alerts p.
Lemma only_out_trans p1 p2 p3 : only_out p1 p2 → only_out p2 p3 → only_out p1 p3.
Proof. intros [H1 A1] [H2 A2]. split; [by etrans|congruence]. Qed.
Lemma wp_in_out {A} (m : M O A) (Q : unit → P → Prop) p :
  (∀ p', only_out p p' → Q tt p') → wp (discard (in_out m)) Q p.
Proof.
  intros H. apply wp_discard. unfold wp, in_out. destruct (m (pw_out p)) as [a o]. apply H. by repeat split.
Qed.
Lemma wp_announce id ts (Q : unit → P → Prop) p :
  (∀ p', only_out p p' → Q tt p') →
  wp (_ <- discard (in_out (Notify url post ts)) ;;
      for_each ts tt (λ _ tr, discard (in_out (event_Record CallerCtx (alert_event id tr))))) Q p.
Proof.
  intros H. apply wp_bind, wp_in_out. intros p1 H1. apply (wp_for_each (λ _ _ p2, only_out p p2)); [done| |].
  - intros tr rest [] p2 H2. apply wp_in_out. intros p3 H3. by eapply only_out_trans.
  - intros [] p2 H2. by apply H.
Qed.

(** Statements that only read. *)
Lemma wp_latest id (Q : result (gmap string Sample) → MetricTable → Prop) t :
  (∀ e t', mt_rows t' = mt_rows t → Q (Err e) t') →
  (∀ t', mt_rows t' = mt_rows t → Q (Ok (latest_samples id (mt_rows t))) t') →
  wp (Metrics_Latest id) Q t.
Proof.
  intros He Ho. unfold Metrics_Latest. apply wp_try_or. unfold wp, mt_statement.
  destruct (env_fault _ _); cbn; [by apply He|by apply Ho].
Qed.
Lemma wp_rules_of id (Q : result (list Rule) → RuleTable → Prop) (t : RuleTable) :
  (∀ e t', tb_rows t' = tb_rows t → Q (Err e) t') →
  (∀ t', tb_rows t' = tb_rows t → Q (Ok (merge_sort global_first (filter (applies id) (map_to_list (tb_rows t)).*2))) t') →
  wp (Rules_ListEffective id) Q t.
Proof.
  intros He Ho. unfold Rules_ListEffective. apply wp_try_or, wp_tselect; intros; apply wp_ret; [by apply He|by apply Ho].
Qed.

(** One instance: what it reads stays, the other instances' alerts stay. *)
Definition one_done ages inst (p p' : P) : Prop :=
  same_inputs p p' ∧ alerts_wf (alert_rows p') ∧
  (∀ id, id ≠ inst_ID inst → about id (alert_rows p) (alert_rows p')) ∧
  (inst_Status inst ≠ StatusRunning → about (inst_ID inst) (alert_rows p) (alert_rows p')) ∧
  (inst_Status inst = StatusRunning → outcome ages (inst_ID inst) p p').

Lemma one_done_nothing ages inst p p' :
  alerts_wf (alert_rows p) → same_inputs p p' → alert_rows p' = alert_rows p → one_done ages inst p p'.
Proof.
  intros Hwf Hs He. unfold one_done, outcome. rewrite He. split_and!; try done. intros _. by left.
Qed.

Lemma wp_evaluateOne ages inst p :
  alerts_wf (alert_rows p) → wp (evaluateOne url post clock_at ages inst) (λ _ p', one_done ages inst p p') p.
Proof.
  intros Hwf. unfold evaluateOne. case_bool_decide as Hrun; [by apply wp_ret, one_done_nothing|].
  set (id := inst_ID inst).
  apply wp_bind, wp_in_rules.
  assert (∀ rules t', tb_rows t' = tb_rows (pw_rules p) →
    thresholds_of rules = EffectiveThresholds DefaultThresholds (effective_rules id p) ∨
    thresholds_of rules = DefaultThresholds →
    wp (latest <- in_metrics (Metrics_Latest id) ;;
        match latest with
        | Err _ => ret tt
        | Ok latest =>
            transitions <- in_alerts (SyncAlerts (clock_at id) id (Evaluate (snapshot_of id latest ages) (thresholds_of rules))) ;;
            match transitions with
            | Err _ => ret tt
            | Ok transitions =>
                if bool_decide (length transitions = 0) then ret tt else
                _ <- discard (in_out (Notify url post transitions)) ;;
                for_each transitions tt (λ _ tr, discard (in_out (event_Record CallerCtx (alert_event id tr))))
            end
        end) (λ _ p', one_done ages inst p p')
       (mkPass (pw_db p) (pw_metrics p) (pw_health p) (pw_alerts p) t' (pw_out p))) as Hrest.
  { intros rules t' Ht' Hth. apply wp_bind, wp_in_metrics, wp_latest; cbn [pw_metrics].
    - intros e tm Htm. by apply wp_ret, one_done_nothing.
    - intros tm Htm. apply wp_bind, wp_in_alerts, wp_SyncAlerts; [done| |]; cbn [pw_alerts].
      + intros e ta Hta. by apply wp_ret, one_done_nothing.
      + intros ts ta (Hwf' & Honly & Hfires & _).
        assert (∀ p', only_out (mkPass (pw_db p) tm (pw_health p) ta t' (pw_out p)) p' → one_done ages inst p p') as Hend.
        { intros p' [[Hm Hr Hh Hi] Ha]. cbn in *. unfold one_done. rewrite Ha. cbn [pw_alerts]. split_and!.
          - split; congruence.
          - done.
          - intros id' Hne. by eapply only_firing_about.
          - done.
          - intros _. right. exists (thresholds_of rules). split; [done|]. intros k. rewrite Ha. apply Hfires. }
        case_bool_decide; [apply wp_ret, Hend; by repeat split|]. apply (wp_announce id ts). exact Hend. }
  apply wp_rules_of; [intros e t' Ht'; apply (Hrest (Err e) t' Ht'); by right|].
  intros t' Ht'. eapply (Hrest (Ok _) t' Ht'). by left.
Qed.
(** Outcomes move along states that agree on what the outcome is about. *)
Lemma outcome_pre ages id p p1 p' :
  same_inputs p p1 → about id (alert_rows p) (alert_rows p1) → outcome ages id p1 p' → outcome ages id p p'.
Proof.
  intros [Hm Hr _ _] Ha. unfold outcome, effective_rules. rewrite Hm, Hr. intros [H|H]; [left; by etrans|by right].
Qed.
Lemma outcome_post ages id p p1 p' :
  about id (alert_rows p1) (alert_rows p') → outcome ages id p p1 → outcome ages id p p'.
Proof.
  intros Ha [H|(th & Hth & Hk)]; [left; by etrans|right]. exists th. split; [done|]. intros k. by rewrite <- Ha.
Qed.

Definition running (i : Inst) : Prop := inst_Status i = StatusRunning.

Lemma wp_evaluate_all ages l p :
  NoDup (inst_ID <$> l) → alerts_wf (alert_rows p) →
  wp (for_each l tt (λ _ inst, evaluateOne url post clock_at ages inst)) (λ _ p',
    same_inputs p p' ∧ alerts_wf (alert_rows p') ∧
    (∀ id, (∀ i, i ∈ l → running i → inst_ID i ≠ id) → about id (alert_rows p) (alert_rows p')) ∧
    (∀ i, i ∈ l → running i → outcome ages (inst_ID i) p p')) p.
Proof.
  revert p. induction l as [|x l IH]; intros p Hnd Hwf; cbn [for_each].
  { apply wp_ret. split_and!; [done|done|by intros id _|by intros i ?%elem_of_nil]. }
  cbn in Hnd. apply NoDup_cons in Hnd as [Hx Hnd]. apply wp_bind.
  eapply wp_mono; [by apply wp_evaluateOne|]. intros [] p1 (Hs & Hwf1 & Hother & Hidle & Hout).
  eapply wp_mono; [by apply IH|]. intros [] p' (Hs' & Hwf' & Hab & Hall). split_and!; [by etrans|done| |].
  - intros id Hid. etrans; [|apply Hab; intros i Hi; apply Hid; by right].
    destruct (decide (id = inst_ID x)) as [->|Hne]; [|by apply Hother].
    apply Hidle. intros Hr. apply (Hid x); [by left|done|done].
  - intros i [->|Hi]%elem_of_cons Hr.
    + apply (outcome_post _ _ _ p1); [|by apply Hout]. apply Hab. intros j Hj _ Heq. apply Hx. rewrite <- Heq.
      by apply list_elem_of_fmap_2.
    + apply (outcome_pre _ _ _ p1); [done| |by apply Hall]. apply Hother. intros Heq. apply Hx. rewrite <- Heq.
      by apply list_elem_of_fmap_2.
Qed.

(** A pass writes nothing but alerts.  The alerts of an instance that is not
    running, or is not there, stay as they are, whatever they say; for every
    running instance either its alerts stay too, or the kinds that fire for it are
    exactly the findings of its own snapshot: the latest sample of each metric and
    the age of its last backup in the stored report, against the thresholds of
    the rules that apply to it, or the default ones when they could not be read.
    The trouble of one instance never touches another, and a pass whose list of
    instances could not be read changes no alert. *)
Theorem evaluate_pass (p : P) :
  alerts_wf (alert_rows p) →
  wp (evaluateAlerts url post clock_at) (λ r p',
    same_inputs p p' ∧ alerts_wf (alert_rows p') ∧
    match r with
    | Err _ => alert_rows p' = alert_rows p
    | Ok _ =>
        (∀ id, (∀ i, rows (pw_db p) !! id = Some i → inst_Status i ≠ StatusRunning) →
           about id (alert_rows p) (alert_rows p')) ∧
        ∃ ages, (ages = backup_ages (map_to_list (tb_rows (pw_health p))).*2 ∨ ages = ∅) ∧
          ∀ id i, rows (pw_db p) !! id = Some i → inst_ID i = id → inst_Status i = StatusRunning →
            outcome ages id p p'
    end) p.
Proof.
  intros Hwf. unfold evaluateAlerts. apply wp_try, wp_in_db. eapply wp_mono; [apply repo_List_law|].
  intros [l|e] d [Hd Hl]; [|by split_and!]. destruct Hl as [Hnd Hl]. apply wp_bind, wp_in_health.
  set (p1 := λ t, mkPass d (pw_metrics p) t (pw_alerts p) (pw_rules p) (pw_out p)).
  assert (∀ reports th, tb_rows th = tb_rows (pw_health p) →
    (backup_ages (value_or [] reports) = backup_ages (map_to_list (tb_rows (pw_health p))).*2 ∨
     backup_ages (value_or [] reports) = ∅) →
    wp (_ <- for_each l tt (λ _ inst, evaluateOne url post clock_at (backup_ages (value_or [] reports)) inst) ;; done_ok)
      (λ r p', same_inputs p p' ∧ alerts_wf (alert_rows p') ∧
        match r with
        | Err _ => alert_rows p' = alert_rows p
        | Ok _ =>
            (∀ id, (∀ i, rows (pw_db p) !! id = Some i → inst_Status i ≠ StatusRunning) →
               about id (alert_rows p) (alert_rows p')) ∧
            ∃ ages, (ages = backup_ages (map_to_list (tb_rows (pw_health p))).*2 ∨ ages = ∅) ∧
              ∀ id i, rows (pw_db p) !! id = Some i → inst_ID i = id → inst_Status i = StatusRunning →
                outcome ages id p p'
        end) (p1 th)) as Hrest.
  { intros reports th Hth Hages. assert (same_inputs p (p1 th)) as Hp1 by (by split).
    apply wp_bind. eapply wp_mono; [by apply wp_evaluate_all|]. intros [] p' (Hs & Hwf' & Hab & Hall).
    apply wp_ret. split_and!; [by etrans|done| |].
    - intros id Hid. apply Hab. intros i Hi%Hl Hr Heq. rewrite Heq in Hi. by apply (Hid i).
    - eexists. split; [exact Hages|]. intros id i Hi Hii Hr. subst id.
      apply (outcome_pre _ _ _ (p1 th)); [done|done|]. apply Hall; [by apply Hl|done]. }
  unfold Health_List. apply wp_try_or, wp_tselect.
  - intros e th Hth. apply wp_ret. apply (Hrest (Err e)); [done|by right].
  - intros th Hth. apply wp_ret. apply (Hrest (Ok _)); [done|by left].
Qed.
End pass.

(** ** A concrete pass

    The instance [id-1] runs with 3% of its disk free; an older sample said 50%. *)

Definition pass_db : DBState :=
  (@repo_SetStatus _ sample_instances CallerCtx "id-1" StatusRunning "" sample_db).2.
Definition sample_pass : PassWorld DBState () :=
  mkPass pass_db
    (mkMetricTable sample_env 0 [mkSample "id-1" "disk_free_percent" (float_const 50) 1;
                                 mkSample "id-1" "disk_free_percent" (float_const 3) 2;
                                 mkSample "id-2" "disk_free_percent" (float_const 70) 3])
    (mkTable sample_env 0 ∅) (mkTable sample_env 0 ∅) (mkTable sample_env 0 ∅) tt.
Definition silent_recorder : EventRecorder () := {| event_Record _ _ := done_ok |}.
Definition run_pass : M (PassWorld DBState ()) (result unit) :=
  @evaluateAlerts _ _ sample_instances silent_recorder "" (λ _, ok 200%Z) (λ _, 7%Z).

Example pass_fires :
  (λ a, (al_InstanceID a, al_Kind a, al_Severity a)) <$> (map_to_list (tb_rows (pw_alerts (run_pass sample_pass).2))).*2
  = [("id-1", KindDiskFull, SeverityCritical)].
Proof. vm_compute. reflexivity. Qed.

Lemma evaluate_pass_witness :
  ∃ p', run_pass sample_pass = (Ok tt, p') ∧
    same_inputs (SL := metadb_laws sample_seal sample_open) sample_pass p' ∧ alerts_wf (tb_rows (pw_alerts p')) ∧
    about "id-2" ∅ (tb_rows (pw_alerts p')).
Proof.
  assert (Hwf : alerts_wf (tb_rows (pw_alerts sample_pass))) by (by split).
  assert (Hok : (run_pass sample_pass).1 = Ok tt) by (vm_compute; reflexivity).
  assert (Hno : db_rows (`pass_db) !! "id-2" = None) by (vm_compute; reflexivity).
  pose proof (@evaluate_pass _ _ _ (metadb_laws sample_seal sample_open) silent_recorder "" (λ _, ok 200%Z) (λ _, 7%Z)
    sample_pass Hwf) as H.
  unfold wp in H. change (evaluateAlerts _ _ _) with run_pass in H. destruct (run_pass sample_pass) as [r p'].
  cbn [fst snd] in *. subst r. destruct H as (Hs & Hwf' & Hidle & _). exists p'. split_and!; [done|exact Hs|exact Hwf'|].
  apply Hidle. intros i Hi. change (db_rows (`pass_db) !! "id-2" = Some i) in Hi. rewrite Hno in Hi. discriminate Hi.
Defined.
