(* ===== verification/ApiData.v ===== *)
(** * The data plane over HTTP: [api/sql.go], [exec.go], [dump.go], [logs.go], [timescale.go], [alert_rules.go]

    The handlers that reach into an instance on behalf of an operator, SQL, a
    command, a dump, the logs, the TimescaleDB objects, and those that edit the
    alert rules.  What they reach is an interface over the world [S]; the audit
    recorder is one too, so that the order of the two can be told. *)

From Stdlib Require Import Ascii.
From stdpp Require Import gmap strings.
From S2P Require Import Prelude GoStrings Apperr GoMonad Instances Runtime Stores MetaDB Tables Auth Timescale Alerts AuditLog Health Metrics.

(** ** Interfaces *)

(** [recordAudit] with the handler's recorder. *)
Class Auditor (S : Type) := {
  au_record : option Claims → string → string → M S unit;
}.
(** [sqlDSNResolver]. *)
Class DSNSource (S : Type) := {
  dsn_of : string → M S (result string);
}.
(** [pgx]: connecting, a query (columns, and what [Next] and [Values] give row by
    row, then [Err] and the command tag with its affected rows), and a
    statement. *)
Inductive Cell := CellNil | CellString (s : string) | CellBytes (s : string) | CellOther (printed : string).
Record QueryRows := mkRows {
  qr_Columns : list string;
  qr_Rows : list (result (list Cell));
  qr_Err : option error;
  qr_RowsAffected : Z;
  qr_Command : string;
}.
Class SqlConn (S : Type) := {
  sq_Connect : string → M S (result unit);
  sq_Query : string → M S (result QueryRows);
  sq_Exec : string → M S (result unit);
  sq_QueryHypertables : string → M S (RowsAnswer Hypertable);
  sq_QueryJobs : string → M S (RowsAnswer TsJob);
}.
(** [execRuntime] and [logRuntime]; the demultiplexer of the log stream is the
    Docker library's [stdcopy.StdCopy], with the text it wrote and its error. *)
Class ContainerAccess (S : Type) := {
  ca_Exec : string → list string → M S (result ExecResult);
  ca_Logs : string → M S (result string);
  StdCopy : string → string * option error;
}.
(** [exec.Cmd] used as a stream: the pipe, the start, the output read to its end
    after the first [4096] bytes, and [Wait]. *)
Record DumpCommand := mkDumpCommand { dc_Args : list string; dc_Env : list string }.
Class DumpProcess (S : Type) := {
  dp_Environ : list string;
  dp_StdoutPipe : DumpCommand → M S (result unit);
  dp_Start : M S (result unit);
  dp_ReadFirst : M S string;
  dp_CopyRest : M S string;
  dp_Wait : M S (option error);
}.

(** ** Replies *)

Inductive DataReply :=
  | RowsReply (columns : list string) (rows : list (list Cell)) (rows_affected : Z) (command : string) (truncated : bool)
  | ExecReply (exit_code : Z) (stdout stderr : string) (truncated : bool)
  | DumpReply (filename body : string)
  | LogsReply (logs : string)
  | HypertablesReply (tables : list Hypertable)
  | JobsReply (jobs : list TsJob)
  | StatusReply (code : Z)
  | RuleReply (code : Z) (r : Rule)
  | RulesReply (rs : list Rule)
  | AlertsReply (alerts : list Alert)
  | HealthReply (reports : list Report) (alerts : list (string * string)).

(** ** SQL: [sql.go] *)

Definition maxSQLRows : Z := 1000.
Definition maxSQLBytes : Z := 8 * 2 ^ 20.

(** [cellBytes]; [CellOther] holds the text [fmt.Sprintf] makes of the value. *)
Definition cellBytes (v : Cell) : Z :=
  match v with
  | CellNil => 0
  | CellString s | CellBytes s | CellOther s => len s
  end.
Definition rowBytes (vals : list Cell) : Z := foldl (λ n v, (n + cellBytes v)%Z) 0%Z vals.

(** [collectRows]: its loop over what is left of the rows, and the call. *)
Fixpoint collect_go (rest : list (result (list Cell))) (out : list (list Cell)) (total : Z) :
    list (list Cell) * bool * option error :=
  match rest with
  | [] => (out, false, None)
  | r :: rest =>
      if bool_decide (maxSQLRows ≤ Z.of_nat (length out))%Z then (out, true, None)
      else match r with
           | Err verr => (out, false, Some verr)
           | Ok vals =>
               let total := (total + rowBytes vals)%Z in
               let out := out ++ [vals] in
               if bool_decide (maxSQLBytes < total)%Z then (out, true, None) else collect_go rest out total
           end
  end.
Definition collectRows (rows : list (result (list Cell))) : list (list Cell) * bool * option error :=
  collect_go rows [] 0.

Section handlers.
Context {S : Type} {IS : InstanceStore S} {AU : Auditor S} {DS : DSNSource S} {SQ : SqlConn S}
  {CA : ContainerAccess S} {DP : DumpProcess S}.

(** [SQLHandler.Run]. *)
Definition SQLHandler_Run (claims : option Claims) (id : string) (first : result string) (eof : bool) :
    M S (result DataReply) :=
  query <-? lift_r (decodeJSON first eof) ;;
  if bool_decide (query = "") then fail (New KindInvalid "query is required") else
  dsn <-? dsn_of id ;;
  _ <- au_record claims "instance.sql" id ;;
  _ <-? sq_Connect dsn orelse (λ e, fail (Wrap KindInternal "sql: connect" e)) ;;
  rows <-? sq_Query query orelse (λ e, fail (Wrap KindInvalid "query failed" e)) ;;
  let '(out, truncated, cerr) := collectRows (qr_Rows rows) in
  match cerr with
  | Some e => fail (Wrap KindInternal "sql: read row" e)
  | None =>
      match qr_Err rows with
      | Some e => fail (Wrap KindInvalid "query failed" e)
      | None => ok (RowsReply (qr_Columns rows) out (qr_RowsAffected rows) (qr_Command rows) truncated)
      end
  end.

(** ** Commands: [exec.go] *)

Definition maxExecOutputBytes : Z := 2 ^ 20.

(** [clipOutput]. *)
Definition clipOutput (s : string) : string * bool :=
  if bool_decide (len s ≤ maxExecOutputBytes)%Z then (s, false) else (str_take (Z.to_nat maxExecOutputBytes) s, true).

(** [ExecHandler.Run]. *)
Definition ExecHandler_Run (claims : option Claims) (id : string) (first : result (list string)) (eof : bool) :
    M S (result DataReply) :=
  command <-? lift_r (decodeJSON first eof) ;;
  if bool_decide (length command = 0) then fail (New KindInvalid "command is required") else
  inst <-? repo_Get CallerCtx id ;;
  if bool_decide (inst_ContainerID inst = "") then fail (New KindConflict "instance has no running container") else
  _ <- au_record claims "instance.exec" (inst_ID inst) ;;
  res <-? ca_Exec (inst_ContainerID inst) command orelse (λ e, fail (Wrap KindInternal "exec" e)) ;;
  let '(stdout, outTrunc) := clipOutput (er_Stdout res) in
  let '(stderr, errTrunc) := clipOutput (er_Stderr res) in
  ok (ExecReply (er_ExitCode res) stdout stderr (outTrunc || errTrunc)).

(** ** Dumps: [dump.go] *)

(** What [pgconn.ParseConfig] reads of a DSN. *)
Record PgConfigDSN := mkPgDSN {
  pd_Host : string;
  pd_Port : Z;
  pd_User : string;
  pd_Password : string;
  pd_Database : string;
}.

(** [buildDumpCmd], given the parsed DSN. *)
Definition dump_args (cfg : PgConfigDSN) : list string :=
  ["--format=plain"; "--no-owner"; "--no-privileges"] ++
  (if bool_decide (pd_Host cfg ≠ "") then ["--host=" +:+ pd_Host cfg] else []) ++
  (if bool_decide (pd_Port cfg ≠ 0)%Z then ["--port=" +:+ itoa (pd_Port cfg)] else []) ++
  (if bool_decide (pd_User cfg ≠ "") then ["--username=" +:+ pd_User cfg] else []) ++
  ["--no-password"] ++
  (if bool_decide (pd_Database cfg ≠ "") then ["--dbname=" +:+ pd_Database cfg] else []).
Definition buildDumpCmd (parsed : result PgConfigDSN) : result DumpCommand :=
  match parsed with
  | Err e => Err (Wrap KindInternal "dump: parse dsn" e)
  | Ok cfg =>
      Ok (mkDumpCommand (dump_args cfg)
            (dp_Environ ++ (if bool_decide (pd_Password cfg ≠ "") then ["PGPASSWORD=" +:+ pd_Password cfg] else [])))
  end.

(** [DumpHandler.Get]: an empty first read is always an error of [io.ReadFull]; what
    fails after the headers is only logged. *)
Definition DumpHandler_Get (parse : string → result PgConfigDSN) (claims : option Claims) (id : string) :
    M S (result DataReply) :=
  inst <-? repo_Get CallerCtx id ;;
  dsn <-? dsn_of id ;;
  _ <- au_record claims "instance.dump" id ;;
  dc <-? lift_r (buildDumpCmd (parse dsn)) orelse (λ e, fail (Wrap KindInternal "dump: build command" e)) ;;
  _ <-? dp_StdoutPipe dc orelse (λ e, fail (Wrap KindInternal "dump: pipe" e)) ;;
  _ <-? dp_Start orelse (λ e, fail (Wrap KindInternal "dump: start pg_dump (is it installed?)" e)) ;;
  first <- dp_ReadFirst ;;
  if bool_decide (first = "") then
    _ <- dp_Wait ;;
    fail (New KindInternal "dump: pg_dump failed")
  else
  rest <- dp_CopyRest ;;
  _ <- dp_Wait ;;
  ok (DumpReply (inst_Name inst +:+ ".sql") (first +:+ rest)).

(** ** Logs: [logs.go] *)

Definition maxLogBytes : Z := 4 * 2 ^ 20.
Definition maxLogLines : nat := 1000.

(** [tailLines]. *)
Definition tailLines (s : string) (n : nat) : string :=
  let lines := SplitChar nl_char (TrimRight_nl s) in
  Join (if n <? length lines then drop (length lines - n) lines else lines) nl.

(** [LogsHandler.Get]. *)
Definition LogsHandler_Get (id : string) : M S (result DataReply) :=
  inst <-? repo_Get CallerCtx id ;;
  if bool_decide (inst_ContainerID inst = "") then fail (New KindConflict "instance has no running container") else
  stream <-? ca_Logs (inst_ContainerID inst) ;;
  let '(text, cerr) := StdCopy (str_take (Z.to_nat maxLogBytes) stream) in
  match cerr with
  | Some e => if bool_decide (text = "") then fail (Wrap KindInternal "read logs" e)
              else ok (LogsReply (tailLines text maxLogLines))
  | None => ok (LogsReply (tailLines text maxLogLines))
  end.

(** ** TimescaleDB: [timescale.go] *)

(** [connect]. *)
Definition ts_connect (id : string) : M S (result Inst) :=
  inst <-? repo_Get CallerCtx id ;;
  if negb (bool_decide ("timescaledb" ∈ inst_Extensions inst)) then
    fail (New KindConflict "timescaledb is not enabled on this instance")
  else
  dsn <-? dsn_of (inst_ID inst) orelse (λ e, fail (Wrap KindInternal "timescale: resolve dsn" e)) ;;
  _ <-? sq_Connect dsn orelse (λ e, fail (Wrap KindInternal "timescale: connect" e)) ;;
  ok inst.

(** [hypertableParam], of the query parameter and the body. *)
Definition hypertableParam (query : string) (first : result string) (eof : bool) : result string :=
  if bool_decide (query ≠ "") then Ok query else
  match decodeJSON first eof with
  | Err e => Err e
  | Ok h => if bool_decide (h = "") then Err (New KindInvalid "hypertable is required") else Ok h
  end.

(** [enableCompressionRequest], [continuousAggregateRequest]. *)
Record enableCompressionRequest := mkEnableCompression {
  ec_Hypertable : string;
  ec_SegmentBy : string;
  ec_OrderBy : string;
  ec_CompressAfter : string;
}.
Record continuousAggregateRequest := mkContinuousAggregate {
  ca_Name : string;
  ca_Query : string;
  ca_StartOffset : string;
  ca_EndOffset : string;
  ca_ScheduleInterval : string;
}.

(** The handlers. *)
Definition Timescale_List (id : string) : M S (result DataReply) :=
  _ <-? ts_connect id ;;
  tables <-? ListHypertables sq_QueryHypertables ;;
  ok (HypertablesReply tables).
Definition Timescale_CreateHypertable (id : string) (first : result (string * string)) (eof : bool) :
    M S (result DataReply) :=
  req <-? lift_r (decodeJSON first eof) ;;
  _ <-? ts_connect id ;;
  _ <-? CreateHypertable sq_Exec req.1 req.2 ;;
  ok (StatusReply 201).
Definition Timescale_AddRetention (id : string) (first : result (string * string)) (eof : bool) :
    M S (result DataReply) :=
  req <-? lift_r (decodeJSON first eof) ;;
  _ <-? ts_connect id ;;
  _ <-? AddRetentionPolicy sq_Exec req.1 req.2 ;;
  ok (StatusReply 200).
Definition Timescale_RemoveRetention (id query : string) (first : result string) (eof : bool) :
    M S (result DataReply) :=
  hypertable <-? lift_r (hypertableParam query first eof) ;;
  _ <-? ts_connect id ;;
  _ <-? RemoveRetentionPolicy sq_Exec hypertable ;;
  ok (StatusReply 200).
Definition Timescale_EnableCompression (id : string) (first : result enableCompressionRequest) (eof : bool) :
    M S (result DataReply) :=
  req <-? lift_r (decodeJSON first eof) ;;
  _ <-? ts_connect id ;;
  _ <-? EnableCompression sq_Exec (ec_Hypertable req) (ec_SegmentBy req) (ec_OrderBy req) ;;
  if bool_decide (ec_CompressAfter req = "") then ok (StatusReply 200) else
  _ <-? AddCompressionPolicy sq_Exec (ec_Hypertable req) (ec_CompressAfter req) ;;
  ok (StatusReply 200).
Definition Timescale_RemoveCompression (id query : string) (first : result string) (eof : bool) :
    M S (result DataReply) :=
  hypertable <-? lift_r (hypertableParam query first eof) ;;
  _ <-? ts_connect id ;;
  _ <-? RemoveCompressionPolicy sq_Exec hypertable ;;
  ok (StatusReply 200).
Definition Timescale_CreateContinuousAggregate (id : string) (first : result continuousAggregateRequest) (eof : bool) :
    M S (result DataReply) :=
  req <-? lift_r (decodeJSON first eof) ;;
  _ <-? ts_connect id ;;
  _ <-? CreateContinuousAggregate sq_Exec (ca_Name req) (ca_Query req) ;;
  if bool_decide (ca_StartOffset req = "") && bool_decide (ca_EndOffset req = "") &&
     bool_decide (ca_ScheduleInterval req = "") then ok (StatusReply 201)
  else
  _ <-? AddContinuousAggregatePolicy sq_Exec (ca_Name req) (ca_StartOffset req) (ca_EndOffset req)
          (ca_ScheduleInterval req) ;;
  ok (StatusReply 201).
Definition Timescale_Jobs (id : string) : M S (result DataReply) :=
  _ <-? ts_connect id ;;
  jobs <-? ListJobs sq_QueryJobs ;;
  ok (JobsReply jobs).
End handlers.

(** ** Alert rules and alerts: [alert_rules.go], [alerts.go], [health_api.go] *)

(** [alertRuleRequest]. *)
Record alertRuleRequest := mkRuleRequest {
  aq_InstanceID : option string;
  aq_Kind : string;
  aq_Threshold : float;
  aq_Severity : string;
  aq_Enabled : bool;
}.

(** [toRule]; the times are set by the table. *)
Definition toRule (req : alertRuleRequest) (id : string) : Rule :=
  mkRule id (aq_InstanceID req) (aq_Kind req) (aq_Threshold req) (aq_Severity req) (aq_Enabled req) 0 0.

Section rules.
Context (rec : bool).
Notation W := (RuleTable * AuditTable)%type.

(** [AlertRulesHandler.Create], [List], [Update], [Delete]. *)
Definition AlertRules_Create (claims : option Claims) (first : result alertRuleRequest) (eof : bool) :
    M W (result DataReply) :=
  req <-? lift_r (decodeJSON first eof) ;;
  let rule := toRule req "" in
  _ <-? lift_r (Rule_Validate rule) ;;
  created <-? on_fst (Rules_Create rule) ;;
  _ <- on_snd (recordAudit rec claims "alertrule.create" (ru_ID created)) ;;
  ok (RuleReply 201 created).
Definition AlertRules_List : M W (result DataReply) :=
  rules <-? on_fst Rules_List ;;
  ok (RulesReply rules).
Definition AlertRules_Update (claims : option Claims) (id : string) (first : result alertRuleRequest) (eof : bool) :
    M W (result DataReply) :=
  req <-? lift_r (decodeJSON first eof) ;;
  let rule := toRule req id in
  _ <-? lift_r (Rule_Validate rule) ;;
  _ <-? on_fst (Rules_Update rule) ;;
  _ <- on_snd (recordAudit rec claims "alertrule.update" id) ;;
  ok (RuleReply 200 rule).
Definition AlertRules_Delete (claims : option Claims) (id : string) : M W (result DataReply) :=
  _ <-? on_fst (Rules_Delete id) ;;
  _ <- on_snd (recordAudit rec claims "alertrule.delete" id) ;;
  ok (StatusReply 204).
End rules.

(** [AlertsHandler.List] and [HealthHandler.List]. *)
Definition AlertsHandler_List (instanceID : string) : M AlertTable (result DataReply) :=
  l <-? (if bool_decide (instanceID ≠ "") then ListForInstance instanceID else ListActive) ;;
  ok (AlertsReply l).
Definition HealthHandler_List : M HealthTable (result DataReply) :=
  reports <-? Health_List ;;
  ok (HealthReply reports (mjoin ((λ rep, (λ issue, (rp_InstanceID rep, issue)) <$> rp_Issues rep) <$> reports))).
