(* ===== verification/ApiDataSafety.v ===== *)
(** * What the data plane guarantees

    What a handler of [ApiData] buffers and returns is bounded and is what the
    instance gave ([replies_bounded]); SQL, a command or a dump reaches an
    instance only after the attempt is in the audit log, and a refused request
    reaches nothing ([data_plane_audited]). *)

From Stdlib Require Import Ascii.
From stdpp Require Import gmap strings.
From S2P Require Import Prelude GoStrings Apperr GoMonad Triples PgBackRest Instances Runtime Stores MetaDB Tables Auth Timescale Alerts BackupSafety AuditLog Health Metrics ApiData.

(** ** Rows *)

(** The bytes of some rows, and the result set that was given in full. *)
Definition rows_bytes (rows : list (list Cell)) : Z := foldr (λ r n, (rowBytes r + n)%Z) 0%Z rows.

(** What collecting makes of the rows a query gives: a prefix of them, at most a
    thousand rows, within the budget but for the last row; it is marked as cut
    exactly when it was, and a row that cannot be read is an error. *)
Definition rows_spec (rows : list (result (list Cell))) (res : list (list Cell) * bool * option error) : Prop :=
  let '(out, truncated, cerr) := res in
  (Z.of_nat (length out) ≤ maxSQLRows)%Z ∧
  (∀ init last, out = init ++ [last] → rows_bytes init ≤ maxSQLBytes)%Z ∧
  match cerr, truncated with
  | Some e, _ => truncated = false ∧ ∃ rest, rows = (Ok <$> out) ++ Err e :: rest
  | None, false => rows = Ok <$> out ∧ (rows_bytes out ≤ maxSQLBytes)%Z
  | None, true => ∃ rest, rows = (Ok <$> out) ++ rest ∧
      ((Z.of_nat (length out) = maxSQLRows ∧ rest ≠ []) ∨ maxSQLBytes < rows_bytes out)%Z
  end.

Lemma rows_bytes_snoc rows r : rows_bytes (rows ++ [r]) = (rows_bytes rows + rowBytes r)%Z.
Proof. unfold rows_bytes. induction rows as [|r' rows IH]; cbn; [lia|]. rewrite IH. lia. Qed.

Lemma collect_go_spec rest out total :
  total = rows_bytes out → (total ≤ maxSQLBytes)%Z → (Z.of_nat (length out) ≤ maxSQLRows)%Z →
  (∀ init last, out = init ++ [last] → rows_bytes init ≤ maxSQLBytes)%Z →
  rows_spec ((Ok <$> out) ++ rest) (collect_go rest out total).
Proof.
  revert out total. induction rest as [|r rest IH]; intros out total Ht Hb Hl Hi; cbn [collect_go].
  - cbn. rewrite app_nil_r. split_and!; try done. lia.
  - case_bool_decide as Hfull.
    { cbn. split_and!; [done|done|]. exists (r :: rest). split; [done|]. left. split; [lia|done]. }
    destruct r as [vals|verr]; [|cbn; split_and!; eauto].
    set (total' := (total + rowBytes vals)%Z). set (out' := out ++ [vals]).
    assert ((Ok <$> out) ++ Ok vals :: rest = (Ok <$> out') ++ rest) as ->
      by (unfold out'; by rewrite fmap_app, <- app_assoc).
    assert (total' = rows_bytes out') as Ht' by (unfold out', total'; rewrite rows_bytes_snoc; lia).
    assert ((Z.of_nat (length out') ≤ maxSQLRows)%Z) as Hl' by (unfold out'; rewrite length_app; cbn; lia).
    assert (∀ init last, out' = init ++ [last] → rows_bytes init ≤ maxSQLBytes)%Z as Hi'.
    { intros init last [-> ->]%app_inj_tail. lia. }
    case_bool_decide; [|apply IH; [done|lia|done|done]].
    cbn. split_and!; [done|done|]. exists rest. split; [done|]. right. lia.
Qed.

Lemma collectRows_spec rows : rows_spec rows (collectRows rows).
Proof.
  apply (collect_go_spec rows [] 0); [done|unfold maxSQLBytes; lia|unfold maxSQLRows; cbn; lia|].
  by intros [] ? [=].
Qed.

(** ** Output and logs *)

(** Clipping keeps the beginning, and marks what it cut. *)
Definition clipped (s : string) (res : string * bool) : Prop :=
  (len res.1 ≤ maxExecOutputBytes)%Z ∧ (∃ rest, s = res.1 +:+ rest) ∧
  (res.2 = false → res.1 = s) ∧ (res.2 = true → (maxExecOutputBytes < len s)%Z).

Lemma clipOutput_spec s : clipped s (clipOutput s).
Proof.
  unfold clipOutput, clipped. case_bool_decide as H; cbn [fst snd].
  - split_and!; try done. exists "". by rewrite app_nil_r_str.
  - split_and!; [|eexists; symmetry; apply str_take_drop|done|intros _; lia].
    unfold len in *. rewrite str_take_length. unfold maxExecOutputBytes in *. lia.
Qed.

(** The number of lines of a text. *)
Definition lines_of (s : string) : nat := length (SplitChar nl_char s).

(** The tail is the end of the text, cut after a line break, and has at most as
    many lines as asked for; a text that is short enough is kept. *)
Lemma tailLines_spec s n : 0 < n →
  lines_of (tailLines s n) = min n (lines_of (TrimRight_nl s)) ∧
  (tailLines s n = TrimRight_nl s ∨ ∃ before, TrimRight_nl s = before +:+ nl +:+ tailLines s n).
Proof.
  intros Hn. unfold tailLines, lines_of. set (t := TrimRight_nl s). set (l := SplitChar nl_char t).
  assert (Join l nl = t) as Hj by apply Join_SplitChar.
  pose proof (SplitChar_no_sep nl_char t) as Hf. fold l in Hf.
  destruct (Nat.ltb_spec n (length l)) as [Hlt|Hge].
  - assert (drop (length l - n) l ≠ []) as Hd by (intros E%(f_equal length); rewrite length_drop in E; cbn in E; lia).
    assert (take (length l - n) l ≠ []) as Ht by (intros E%(f_equal length); rewrite length_take in E; cbn in E; lia).
    split.
    + change nl with (String nl_char ""). rewrite SplitChar_Join; [rewrite length_drop; lia|done|].
      by apply Forall_drop.
    + right. exists (Join (take (length l - n) l) nl). rewrite <- Join_app by done. by rewrite take_drop.
  - rewrite Hj. fold l. split; [lia|by left].
Qed.

(** ** Bounds *)

Section bounds.
Context {S : Type} {IS : InstanceStore S} {AU : Auditor S} {DS : DSNSource S} {SQ : SqlConn S}
  {CA : ContainerAccess S}.

(** A step whose run is remembered. *)
Lemma wp_run {A} (m : M S A) (Q : A → S → Prop) s : (∀ a s', m s = (a, s') → Q a s') → wp m Q s.
Proof. intros H. unfold wp. destruct (m s) eqn:E. by apply H. Qed.

(** An answer is what a call gave somewhere on the way. *)
Definition given {A} (m : M S A) (a : A) : Prop := ∃ s s', m s = (a, s').

End bounds.

(** ** The audit log comes first *)

(** What the handlers do to the outside, in order. *)
Inductive DataEvent :=
  | EvAudit (action target : string)
  | EvConnect (dsn : string)
  | EvQuery (query : string)
  | EvExec (container : string) (command : list string)
  | EvDump.

Definition is_audit (e : DataEvent) : Prop := match e with EvAudit _ _ => True | _ => False end.
#[export] Instance is_audit_dec e : Decision (is_audit e).
Proof. destruct e; apply _. Defined.

Section audited.
Context {S : Type} {IS : InstanceStore S} {AU : Auditor S} {DS : DSNSource S} {SQ : SqlConn S}
  {CA : ContainerAccess S} {DP : DumpProcess S}.
Notation W := (S * list DataEvent)%type.

(** The same collaborators, with what they are asked to do recorded; reading the
    meta database is not. *)
#[local] Instance logged_audit : Auditor W := {|
  au_record claims action target := traced (λ _, EvAudit action target) (au_record claims action target);
|}.
#[local] Instance logged_dsn : DSNSource W := {| dsn_of id := on_fst (dsn_of id) |}.
#[local] Instance logged_sql : SqlConn W := {|
  sq_Connect dsn := traced (λ _, EvConnect dsn) (sq_Connect dsn);
  sq_Query query := traced (λ _, EvQuery query) (sq_Query query);
  sq_Exec query := traced (λ _, EvQuery query) (sq_Exec query);
  sq_QueryHypertables query := traced (λ _, EvQuery query) (sq_QueryHypertables query);
  sq_QueryJobs query := traced (λ _, EvQuery query) (sq_QueryJobs query);
|}.
#[local] Instance logged_container : ContainerAccess W := {|
  ca_Exec c command := traced (λ _, EvExec c command) (ca_Exec c command);
  ca_Logs c := on_fst (ca_Logs c);
  StdCopy := @StdCopy S CA;
|}.
#[local] Instance logged_dump : DumpProcess W := {|
  dp_Environ := @dp_Environ S DP;
  dp_StdoutPipe dc := on_fst (dp_StdoutPipe dc);
  dp_Start := traced (λ _, EvDump) dp_Start;
  dp_ReadFirst := on_fst dp_ReadFirst;
  dp_CopyRest := on_fst dp_CopyRest;
  dp_Wait := on_fst dp_Wait;
|}.

(** Either nothing was done and the request failed, or the attempt was recorded
    once, first, against the instance asked for. *)
Definition attempt_first {A} (action : string) (ok_target : string → Prop) (r : result A) (l : list DataEvent) : Prop :=
  (l = [] ∧ is_ok r = false) ∨
  ∃ target rest, ok_target target ∧ l = EvAudit action target :: rest ∧ Forall (λ e, ¬ is_audit e) rest.

Lemma refused_first {A} action okt (e : error) : attempt_first (A:=A) action okt (Err e) [].
Proof. by left. Qed.

(** After the record, anything but another record. *)
Lemma unaudited_try_or {A B} (m : M W (result A)) h (k : A → M W (result B)) :
  logs m (λ _ l, Forall (λ e, ¬ is_audit e) l) →
  (∀ e, logs (h e) (λ _ l, Forall (λ e, ¬ is_audit e) l)) →
  (∀ a, logs (k a) (λ _ l, Forall (λ e, ¬ is_audit e) l)) →
  logs (try_or m h k) (λ _ l, Forall (λ e, ¬ is_audit e) l).
Proof.
  intros Hm Hh Hk. eapply logs_try_or; [exact Hm|..]; cbn; intros ? l1 Hl1.
  - eapply logs_mono; [apply Hh|]. cbn. intros. by apply Forall_app_2.
  - eapply logs_mono; [apply Hk|]. cbn. intros. by apply Forall_app_2.
Qed.

Lemma unaudited_bind {A B} (m : M W A) (k : A → M W B) :
  logs m (λ _ l, Forall (λ e, ¬ is_audit e) l) → (∀ a, logs (k a) (λ _ l, Forall (λ e, ¬ is_audit e) l)) →
  logs (bind m k) (λ _ l, Forall (λ e, ¬ is_audit e) l).
Proof.
  intros Hm Hk. eapply logs_bind; [exact Hm|]. cbn. intros a l1 Hl1.
  eapply logs_mono; [apply Hk|]. cbn. intros. by apply Forall_app_2.
Qed.

Lemma unaudited_ret {A} (a : A) : logs (ret a : M W A) (λ _ l, Forall (λ e, ¬ is_audit e) l).
Proof. apply logs_ret. constructor. Qed.

Lemma unaudited_silent {A} (m : M S A) : logs (on_fst m : M W A) (λ _ l, Forall (λ e, ¬ is_audit e) l).
Proof. eapply logs_mono; [apply logs_silent|]. by intros ? ? ->. Qed.

Lemma unaudited_traced {A} (ev : A → DataEvent) (m : M S A) :
  (∀ a, ¬ is_audit (ev a)) → logs (traced ev m) (λ _ l, Forall (λ e, ¬ is_audit e) l).
Proof. intros H. eapply logs_mono; [apply logs_traced|]. intros a l ->. by repeat constructor. Qed.

Ltac unaudited :=
  repeat (cbn -[traced]; first
    [ apply unaudited_ret | apply unaudited_silent | (apply unaudited_traced; intros ?; exact (λ x, x))
    | (apply unaudited_try_or; intros) | (apply unaudited_bind; intros) | case_match ]).

(** The record itself, and what comes before it. *)
Lemma logs_attempt {A} claims action target (okt : string → Prop) (k : unit → M W (result A)) : okt target →
  (∀ u, logs (k u) (λ _ l, Forall (λ e, ¬ is_audit e) l)) →
  logs (bind (au_record claims action target) k) (attempt_first action okt).
Proof.
  intros Ht Hk. eapply logs_bind; [apply logs_traced|]. intros u l1 ->.
  eapply logs_mono; [apply Hk|]. intros r l Hl. right. by exists target, l.
Qed.

Lemma logs_first {A B} (m : M S (result A)) (k : A → M W (result B)) action okt :
  (∀ a s s', m s = (Ok a, s') → logs (k a) (attempt_first action okt)) →
  logs (try (on_fst m) k) (attempt_first action okt).
Proof.
  intros Hk. eapply (logs_try_or _ _ _ (λ r l, l = [] ∧ ∃ s s', m s = (r, s'))).
  - intros [s lg] _. unfold on_fst. cbn. destruct (m s) eqn:E. exists []. rewrite app_nil_r. eauto.
  - intros e l1 [-> _]. apply logs_ret. by left.
  - intros a l1 [-> (s & s' & E)]. exact (Hk a s s' E).
Qed.

Lemma logs_lift_first {A B} (r : result A) (k : A → M W (result B)) action okt :
  (∀ a, r = Ok a → logs (k a) (attempt_first action okt)) → logs (try (lift_r r) k) (attempt_first action okt).
Proof.
  intros Hk. eapply (logs_try_or _ _ _ (λ r' l, l = [] ∧ r' = r)); [by apply logs_ret| |].
  - intros e l1 [-> _]. apply logs_ret. by left.
  - intros a l1 [-> Hr]. by apply Hk.
Qed.

(** C19: SQL, a command and a dump each reach an instance only after the attempt was
    handed to the audit log, once and under the instance's name; a request that is
    refused before, for a body that does not decode, an empty query or command, an
    instance that is unknown, that has no container or whose DSN cannot be had, does
    nothing at all and fails. *)
Theorem data_plane_audited (claims : option Claims) (parse : string → result PgConfigDSN) (id : string) :
  (∀ first eof, logs (SQLHandler_Run claims id first eof : M W _) (attempt_first "instance.sql" (λ t, t = id))) ∧
  (∀ first eof, logs (ExecHandler_Run claims id first eof : M W _)
     (attempt_first "instance.exec" (λ t, ∃ inst, given (repo_Get CallerCtx id) (Ok inst) ∧ t = inst_ID inst))) ∧
  logs (DumpHandler_Get parse claims id : M W _) (attempt_first "instance.dump" (λ t, t = id)).
Proof.
  split_and!.
  - intros first eof. unfold SQLHandler_Run. apply logs_lift_first. intros query _.
    case_bool_decide; [apply logs_ret, refused_first|]. apply logs_first. intros dsn _ _ _.
    apply logs_attempt; [done|]. intros _. unaudited.
  - intros first eof. unfold ExecHandler_Run. apply logs_lift_first. intros command _.
    case_bool_decide; [apply logs_ret, refused_first|]. apply logs_first. intros inst s s' E.
    case_bool_decide; [apply logs_ret, refused_first|]. apply logs_attempt.
    { exists inst. split; [|done]. by eexists _, _. }
    intros _. unaudited.
  - unfold DumpHandler_Get. apply logs_first. intros inst _ _ _. apply logs_first. intros dsn _ _ _.
    apply logs_attempt; [done|]. intros _. unaudited.
Qed.
End audited.
