(* ===== verification/GoParse.v ===== *)
(** * Parsers of the standard library

    The parsers of Go's [encoding/base64], [time] and [net/url] that the
    configuration and the events socket rest on: [StdEncoding.DecodeString],
    [ParseDuration] and [url.Parse], with the text of their errors.  The inside of a
    bracketed IPv6 literal differs between releases of Go and is an argument. *)

From Stdlib Require Import Ascii Floats.SpecFloat.
From stdpp Require Import gmap strings.
From S2P Require Import Prelude GoStrings Apperr GoMonad NetIP Auth.

(** ** [base64.StdEncoding.DecodeString] *)

Definition is_nl (c : ascii) : bool := ascii_eqb c nl_char || ascii_eqb c (ascii_of_nat 13).
Fixpoint skip_nl (s : string) (pos : Z) : string * Z :=
  match s with
  | String c s' => if is_nl c then skip_nl s' (pos + 1) else (s, pos)
  | "" => ("", pos)
  end.

(** [CorruptInputError]. *)
Definition corrupt_input (pos : Z) : error := Errorf ("illegal base64 data at input byte " +:+ itoa pos).

(** What follows the padding may only be line breaks; [bytes] are the last ones. *)
Definition std_end (s : string) (pos : Z) (bytes : option string) : result string :=
  match skip_nl s pos with
  | ("", _) => Ok (default "" bytes)
  | (_, pos) => Err (corrupt_input pos)
  end.

(** The digits of the quantum being read are [q]. *)
Fixpoint std_decode (s : string) (pos : Z) (q : list nat) : result string :=
  match s with
  | "" => match q with [] => Ok "" | _ => Err (corrupt_input (pos - Z.of_nat (length q))) end
  | String c s' =>
      match dec6 c with
      | Some n =>
          match q with
          | [_; _; _] =>
              match std_decode s' (pos + 1) [] with
              | Ok rest => Ok (default "" (b64_quanta (q ++ [n])) +:+ rest)
              | Err e => Err e
              end
          | _ => std_decode s' (pos + 1) (q ++ [n])
          end
      | None =>
          if is_nl c then std_decode s' (pos + 1) q
          else if negb (ascii_eqb c "=") then Err (corrupt_input pos)
          else match q with
               | [] | [_] => Err (corrupt_input pos)
               | [_; _] =>
                   match skip_nl s' (pos + 1) with
                   | ("", pos) => Err (corrupt_input pos)
                   | (String c2 s2, pos) =>
                       if ascii_eqb c2 "=" then std_end s2 (pos + 1) (b64_quanta q)
                       else Err (corrupt_input (pos - 1))
                   end
               | _ => std_end s' (pos + 1) (b64_quanta q)
               end
      end
  end.
Definition b64_StdDecode (s : string) : result string := std_decode s 0 [].

Example std_decode_values :
  b64_StdDecode "aGk=" = Ok "hi" ∧ b64_StdDecode "aA==" = Ok "h" ∧ b64_StdDecode "aGkh" = Ok "hi!" ∧
  b64_StdDecode "aGk" = Err (corrupt_input 0) ∧ b64_StdDecode "aGk=x" = Err (corrupt_input 4) ∧
  b64_StdDecode "aA=x" = Err (corrupt_input 2) ∧ b64_StdDecode "a!" = Err (corrupt_input 1).
Proof. by vm_compute. Qed.

(** ** [time.ParseDuration] *)

(** [time.quote]: quotes, backslashes and what is not printable ASCII are
    escaped. *)
Definition time_quote_byte (c : ascii) : string :=
  let n := byte_val c in
  if (n <? 32) || (128 <=? n) then "\x" +:+ String (hex_digit (n / 16)) (String (hex_digit (n mod 16)) "")
  else if ascii_eqb c dq_char || ascii_eqb c "\" then "\" +:+ String c "" else String c "".
Definition time_quote (s : string) : string := dq +:+ replace_bytes time_quote_byte s +:+ dq.

(** [leadingInt]: the digits at the front as 64 unsigned bits, at most [1<<63]. *)
Fixpoint leadingInt (s : string) (x : Z) : option (Z * string) :=
  match s with
  | String c s' =>
      if is_digit c then
        if bool_decide (2 ^ 63 / 10 < x)%Z then None
        else let x' := (x * 10 + Z.of_nat (byte_val c - 48))%Z in
             if bool_decide (2 ^ 63 < x')%Z then None else leadingInt s' x'
      else Some (x, s)
  | "" => Some (x, "")
  end.

(** [leadingFraction]: the digits after the period and the power of ten they are
    over, as a [float64]; digits that no longer fit are dropped. *)
Fixpoint leadingFraction (s : string) (x : Z) (scale : spec_float) (overflow : bool) : Z * spec_float * string :=
  match s with
  | String c s' =>
      if is_digit c then
        let y := (x * 10 + Z.of_nat (byte_val c - 48))%Z in
        if overflow || bool_decide ((2 ^ 63 - 1) / 10 < x)%Z || bool_decide (2 ^ 63 < y)%Z
        then leadingFraction s' x scale true
        else leadingFraction s' y (SFmul 53 1024 scale (binary_normalize 53 1024 10 0 false)) false
      else (x, scale, s)
  | "" => (x, scale, "")
  end.

(** The unit: everything up to the next number. *)
Fixpoint take_unit (s : string) : string * string :=
  match s with
  | String c s' =>
      if is_digit c || ascii_eqb c "." then ("", s) else let '(u, rest) := take_unit s' in (String c u, rest)
  | "" => ("", "")
  end.

(** [unitMap], in nanoseconds; the micro signs are U+00B5 and U+03BC. *)
Definition micro_sign : string := chr 194 +:+ chr 181.
Definition greek_mu : string := chr 206 +:+ chr 188.
Definition unit_map (u : string) : option Z :=
  if bool_decide (u = "ns") then Some 1%Z
  else if bool_decide (u = "us") || bool_decide (u = micro_sign +:+ "s") || bool_decide (u = greek_mu +:+ "s")
  then Some 1000%Z
  else if bool_decide (u = "ms") then Some 1000000%Z
  else if bool_decide (u = "s") then Some 1000000000%Z
  else if bool_decide (u = "m") then Some 60000000000%Z
  else if bool_decide (u = "h") then Some 3600000000000%Z else None.

(** [uint64] of a positive [float64]. *)
Definition uint64_of_float (x : spec_float) : Z :=
  match x with
  | S754_finite false m e => if bool_decide (0 ≤ e)%Z then (Zpos m * 2 ^ e)%Z else (Zpos m / 2 ^ (- e))%Z
  | _ => 0%Z
  end.

(** One component, a number and its unit, and the rest of the text. *)
Definition parse_component (orig s : string) : result (Z * string) :=
  let invalid := Errorf ("time: invalid duration " +:+ time_quote orig) in
  match s with
  | String c _ =>
      if negb (is_digit c || ascii_eqb c ".") then Err invalid else
      match leadingInt s 0 with
      | None => Err invalid
      | Some (v, s1) =>
          let pre := negb (String.length s =? String.length s1) in
          let '(f, scale, s2, post) :=
            match s1 with
            | String "." s1' =>
                let '(f, scale, s2) := leadingFraction s1' 0 (binary_normalize 53 1024 1 0 false) false in
                (f, scale, s2, negb (String.length s1' =? String.length s2))
            | _ => (0%Z, binary_normalize 53 1024 1 0 false, s1, false)
            end in
          if negb pre && negb post then Err invalid else
          let '(u, rest) := take_unit s2 in
          if bool_decide (u = "") then Err (Errorf ("time: missing unit in duration " +:+ time_quote orig)) else
          match unit_map u with
          | None => Err (Errorf ("time: unknown unit " +:+ time_quote u +:+ " in duration " +:+ time_quote orig))
          | Some unit_ =>
              if bool_decide (2 ^ 63 / unit_ < v)%Z then Err invalid else
              let v := (v * unit_)%Z in
              if bool_decide (0 < f)%Z then
                let v := (v + uint64_of_float (SFmul 53 1024 (binary_normalize 53 1024 f 0 false)
                                (SFdiv 53 1024 (binary_normalize 53 1024 unit_ 0 false) scale)))%Z in
                if bool_decide (2 ^ 63 < v)%Z then Err invalid else Ok (v, rest)
              else Ok (v, rest)
          end
      end
  | "" => Err invalid
  end.

(** The loop over the components; each takes at least one byte. *)
Fixpoint parse_components (fuel : nat) (orig s : string) (d : Z) : result Z :=
  match fuel, s with
  | _, "" => Ok d
  | O, _ => Err (Errorf ("time: invalid duration " +:+ time_quote orig))
  | S fuel, _ =>
      match parse_component orig s with
      | Err e => Err e
      | Ok (v, rest) =>
          let d := (d + v)%Z in
          if bool_decide (2 ^ 63 < d)%Z then Err (Errorf ("time: invalid duration " +:+ time_quote orig))
          else parse_components fuel orig rest d
      end
  end.

(** [time.ParseDuration], in nanoseconds. *)
Definition ParseDuration (s : string) : result Z :=
  let invalid := Errorf ("time: invalid duration " +:+ time_quote s) in
  let '(neg, body) :=
    match s with
    | String "-" s' => (true, s')
    | String "+" s' => (false, s')
    | _ => (false, s)
    end in
  if bool_decide (body = "0") then Ok 0%Z
  else if bool_decide (body = "") then Err invalid
  else match parse_components (String.length body) s body 0 with
       | Err e => Err e
       | Ok d => if neg : bool then Ok (- d)%Z
                 else if bool_decide (2 ^ 63 - 1 < d)%Z then Err invalid else Ok d
       end.

Example durations :
  ParseDuration "24h" = Ok 86400000000000%Z ∧ ParseDuration "-1.5h" = Ok (-5400000000000)%Z ∧
  ParseDuration "1h30m.5s" = Ok 5400500000000%Z ∧ ParseDuration "0" = Ok 0%Z ∧
  is_ok (ParseDuration "24") = false ∧ is_ok (ParseDuration "1d") = false ∧ is_ok (ParseDuration "") = false ∧
  is_ok (ParseDuration ".s") = false ∧ ParseDuration "2562047h47m16.854775807s" = Ok (2 ^ 63 - 1)%Z ∧
  is_ok (ParseDuration "2562047h47m16.854775808s") = false.
Proof. by vm_compute. Qed.

(** The fuel is enough: a component takes its unit, which is not empty. *)
Lemma leadingInt_length s x v rest : leadingInt s x = Some (v, rest) → String.length rest ≤ String.length s.
Proof.
  revert x. induction s as [|c s IH]; intros x; cbn [leadingInt]; [by intros [= _ <-]|].
  repeat case_match; intros E; simplify_eq; cbn; [apply IH in E|]; lia.
Qed.

Lemma leadingFraction_length s x scale o f scale' rest :
  leadingFraction s x scale o = (f, scale', rest) → String.length rest ≤ String.length s.
Proof.
  revert x scale o. induction s as [|c s IH]; intros x scale o; cbn [leadingFraction]; [by intros [= _ _ <-]|].
  repeat case_match; intros E; simplify_eq; cbn; [apply IH in E; lia|apply IH in E; lia|lia].
Qed.

Lemma take_unit_length s u rest : take_unit s = (u, rest) → String.length u + String.length rest = String.length s.
Proof.
  revert u. induction s as [|c s IH]; intros u; cbn [take_unit]; [by intros [= <- <-]|].
  case_match; [by intros [= <- <-]|]. destruct (take_unit s) as [u' r] eqn:E. intros [= <- <-]. cbn.
  by rewrite <- (IH u').
Qed.

Lemma parse_component_length orig s v rest :
  parse_component orig s = Ok (v, rest) → String.length rest < String.length s.
Proof.
  unfold parse_component. destruct s as [|c s0]; [done|]. case_match; [done|].
  destruct (leadingInt (String c s0) 0) as [[n s1]|] eqn:E1; [|done]. apply leadingInt_length in E1.
  assert (∀ f scale s2 (post : bool),
    match s1 with
    | String "." s1' =>
        let '(f, scale, s2) := leadingFraction s1' 0 (binary_normalize 53 1024 1 0 false) false in
        (f, scale, s2, negb (String.length s1' =? String.length s2))
    | _ => (0%Z, binary_normalize 53 1024 1 0 false, s1, false)
    end = (f, scale, s2, post) → String.length s2 ≤ String.length s1) as Hs2.
  { intros f scale s2 post. repeat case_match; intros; simplify_eq; try done.
    match goal with H : leadingFraction _ _ _ _ = _ |- _ => apply leadingFraction_length in H end. cbn. lia. }
  destruct (match s1 with String "." _ => _ | _ => _ end) as [[[f scale] s2] post]. specialize (Hs2 _ _ _ _ eq_refl).
  case_match; [done|]. destruct (take_unit s2) as [u r] eqn:Eu. apply take_unit_length in Eu.
  case_bool_decide as Hu; [done|]. assert (0 < String.length u) by (destruct u; [done|cbn; lia]).
  repeat case_match; intros; simplify_eq; lia.
Qed.

Lemma parse_components_fuel n m orig s d :
  String.length s ≤ n → String.length s ≤ m → parse_components n orig s d = parse_components m orig s d.
Proof.
  revert m s d. induction n as [|n IH]; intros [|m] s d Hn Hm; destruct s as [|c s]; try done; cbn in Hn, Hm; try lia.
  cbn [parse_components]. destruct (parse_component orig (String c s)) as [[v rest]|e] eqn:E; [|done].
  apply parse_component_length in E. cbn in E. case_bool_decide; [done|]. apply IH; lia.
Qed.

(** ** [url.Parse] *)

(** What the callers read of a [url.URL]. *)
Record URL := mkURL { url_Scheme : string; url_Host : string }.

(** [unescape]: in a host only bytes that are not ASCII and [%25] may be escaped,
    and some ASCII bytes may not stand for themselves. *)
Fixpoint url_unescape (host : bool) (s : string) : result string :=
  let rest c s' := match url_unescape host s' with Ok t => Ok (String c t) | Err e => Err e end in
  match s with
  | "" => Ok ""
  | String "%" s' =>
      let bad := Errorf ("invalid URL escape " +:+ Quote (str_take 3 s)) in
      match s' with
      | String a (String b s'') =>
          match unhex a, unhex b with
          | Some x, Some y =>
              if host && (x <? 8) && negb (bool_decide (x = 2 ∧ y = 5)) then Err bad
              else rest (ascii_of_nat (16 * x + y)) s''
          | _, _ => Err bad
          end
      | _ => Err bad
      end
  | String c s' =>
      if host && (byte_val c <? 128) && negb (url_unreserved c || str_elem c "!$&'()*+,;=:[]<>" || ascii_eqb c dq_char)
      then Err (Errorf ("invalid character " +:+ Quote (String c "") +:+ " in host name"))
      else rest c s'
  end.

(** [validOptionalPort]. *)
Definition validOptionalPort (port : string) : bool :=
  match port with
  | "" => true
  | String c p => ascii_eqb c ":" && str_forallb is_digit p
  end.

(** [validUserinfo]. *)
Definition validUserinfo (s : string) : bool :=
  str_forallb (λ c, is_letter c || is_digit c || str_elem c "-._:~!$&'()*+,;=%@") s.

(** [getScheme]: the scheme and the rest; no scheme is the empty string. *)
Fixpoint getScheme_go (i : nat) (s : string) : option (result nat) :=
  match s with
  | "" => None
  | String c s' =>
      if is_letter c then getScheme_go (S i) s'
      else if is_digit c || str_elem c "+-." then if i =? 0 then None else getScheme_go (S i) s'
      else if ascii_eqb c ":" then Some (if i =? 0 then Err (Errorf "missing protocol scheme") else Ok i)
      else None
  end.
Definition getScheme (raw : string) : result (string * string) :=
  match getScheme_go 0 raw with
  | None => Ok ("", raw)
  | Some (Err e) => Err e
  | Some (Ok i) => Ok (str_take i raw, str_drop (S i) raw)
  end.

Section url.
(** The host part with a bracketed literal, as the release of Go reads it. *)
Context (ip_literal : string → result string).

Definition parseHost (host : string) : result string :=
  if HasPrefix host "[" then ip_literal host
  else
    let port := match LastIndexByte host ":" with Some i => str_drop i host | None => "" end in
    if negb (validOptionalPort port) then Err (Errorf ("invalid port " +:+ Quote port +:+ " after host"))
    else url_unescape true host.

(** [parseAuthority], for the host. *)
Definition parseAuthority (authority : string) : result string :=
  match LastIndexByte authority "@" with
  | None => parseHost authority
  | Some i =>
      match parseHost (str_drop (S i) authority) with
      | Err e => Err e
      | Ok host =>
          let userinfo := str_take i authority in
          if negb (validUserinfo userinfo) then Err (Errorf "net/url: invalid userinfo") else
          let '(username, password) := default (userinfo, "") (Cut userinfo ":") in
          match url_unescape false username with
          | Err e => Err e
          | Ok _ => match url_unescape false password with Err e => Err e | Ok _ => Ok host end
          end
      end
  end.

(** [parse], without a fragment. *)
Definition url_parse (raw : string) : result URL :=
  if str_existsb (λ c, (byte_val c <? 32) || (byte_val c =? 127)) raw then
    Err (Errorf "net/url: invalid control character in URL")
  else if bool_decide (raw = "*") then Ok (mkURL "" "") else
  match getScheme raw with
  | Err e => Err e
  | Ok (scheme, rest) =>
      let scheme := ToLower scheme in
      let rest := match Cut rest "?" with Some (r, _) => r | None => rest end in
      let path host p := match url_unescape false p with Ok _ => Ok (mkURL scheme host) | Err e => Err e end in
      if negb (HasPrefix rest "/") then
        if bool_decide (scheme ≠ "") then Ok (mkURL scheme "")
        else if str_elem ":" (match Cut rest "/" with Some (seg, _) => seg | None => rest end) then
          Err (Errorf "first path segment in URL cannot contain colon")
        else path "" rest
      else if (bool_decide (scheme ≠ "") || negb (HasPrefix rest "///")) && HasPrefix rest "//" then
        let authority := str_drop 2 rest in
        let '(authority, rest) :=
          match Index authority "/" with
          | Some i => (str_take i authority, str_drop i authority)
          | None => (authority, "")
          end in
        match parseAuthority authority with
        | Err e => Err e
        | Ok host => path host rest
        end
      else path "" rest
  end.

(** [url.Parse]. *)
Definition url_Parse (raw : string) : result URL :=
  let wrap u e := Err (Errorf_w ("parse " +:+ Quote u +:+ ": " +:+ Error e) e) in
  let '(u, frag) := default (raw, "") (Cut raw "#") in
  match url_parse u with
  | Err e => wrap u e
  | Ok url =>
      match url_unescape false frag with
      | Err e => wrap raw e
      | Ok _ => Ok url
      end
  end.
End url.

Example urls :
  let parse := url_Parse (λ h, Err (Errorf "literal")) in
  parse "https://hooks.example.com:8443/x?y=1#z" = Ok (mkURL "https" "hooks.example.com:8443") ∧
  parse "HTTP://u:p@h/%41" = Ok (mkURL "http" "h") ∧ parse "mailto:x@y" = Ok (mkURL "mailto" "") ∧
  parse "/just/a/path" = Ok (mkURL "" "") ∧ parse "//host/p" = Ok (mkURL "" "host") ∧
  is_ok (parse "http://a b/") = false ∧ is_ok (parse "http://h:80x/") = false ∧ is_ok (parse "://h") = false ∧
  is_ok (parse "a:b/c") = true ∧ is_ok (parse "1a:b/c") = false ∧ is_ok (parse "http://h/%4") = false ∧
  is_ok (parse "http://%41/") = false.
Proof. by vm_compute. Qed.
