(* ===== verification/PoolStats.v ===== *)
(** * Live statistics of a router: [internal/pgcat/stats.go], [internal/api/pool.go]

    The rows of PgCat's admin console, parsed, and the attribution of its server
    connections to the members of the cluster.  The one pass over the servers with a
    map and a sorted list is proved equal to a definition member by member
    ([routing_reference]). *)

From Stdlib Require Import Ascii.
From stdpp Require Import gmap strings sorting.
From S2P Require Import Prelude GoStrings Apperr GoMonad Stores ClusterCtl Metrics ApiData.

(** ** Data: [stats.go] *)

Record PoolStat := mkPoolStat {
  ps_Database : string;
  ps_User : string;
  ps_PoolMode : string;
  ps_ClActive : Z;
  ps_ClWaiting : Z;
  ps_ClIdle : Z;
  ps_SvActive : Z;
  ps_SvIdle : Z;
  ps_SvUsed : Z;
  ps_SvTested : Z;
  ps_SvLogin : Z;
  ps_Maxwait : Z;
  ps_MaxwaitUs : Z;
}.
Record Stat := mkStat {
  ss_Database : string;
  ss_TotalXactCount : Z;
  ss_TotalQueryCount : Z;
  ss_TotalReceived : Z;
  ss_TotalSent : Z;
  ss_TotalXactTime : Z;
  ss_TotalQueryTime : Z;
  ss_TotalWaitTime : Z;
  ss_AvgXactCount : Z;
  ss_AvgQueryCount : Z;
  ss_AvgXactTime : Z;
  ss_AvgQueryTime : Z;
  ss_AvgWaitTime : Z;
}.
Record ServerStat := mkServerStat {
  sv_ServerID : string;
  sv_Database : string;
  sv_User : string;
  sv_Address : string;
  sv_ApplicationName : string;
  sv_State : string;
  sv_TransactionCount : Z;
  sv_QueryCount : Z;
  sv_BytesSent : Z;
  sv_BytesReceived : Z;
  sv_AgeSeconds : Z;
  sv_PrepareCacheHit : Z;
  sv_PrepareCacheMiss : Z;
}.
Record ClientStat := mkClientStat {
  ct_ClientID : string;
  ct_Database : string;
  ct_User : string;
  ct_ApplicationName : string;
  ct_State : string;
  ct_TransactionCount : Z;
  ct_QueryCount : Z;
  ct_ErrorCount : Z;
  ct_AgeSeconds : Z;
  ct_Maxwait : Z;
  ct_MaxwaitUs : Z;
}.
Record PoolStats := mkPoolStats {
  pst_Pools : list PoolStat;
  pst_Stats : list Stat;
  pst_Servers : list ServerStat;
  pst_Clients : list ClientStat;
}.

(** ** Parsing the rows *)

(** [atoi]: 0 for what is no 64-bit number. *)
Definition atoi (s : string) : Z :=
  if bool_decide (s = "") then 0%Z else match ParseInt64 s with NumOk n => n | _ => 0%Z end.

(** A row by column name; a missing column reads as the empty string. *)
Notation AdminRow := (gmap string string).
Definition col (r : AdminRow) (name : string) : string := default "" (r !! name).

Definition parsePoolRows (rows : list AdminRow) : list PoolStat :=
  (λ r, mkPoolStat (col r "database") (col r "user") (col r "pool_mode") (atoi (col r "cl_active"))
          (atoi (col r "cl_waiting")) (atoi (col r "cl_idle")) (atoi (col r "sv_active")) (atoi (col r "sv_idle"))
          (atoi (col r "sv_used")) (atoi (col r "sv_tested")) (atoi (col r "sv_login")) (atoi (col r "maxwait"))
          (atoi (col r "maxwait_us"))) <$> rows.
Definition parseStatRows (rows : list AdminRow) : list Stat :=
  (λ r, mkStat (col r "database") (atoi (col r "total_xact_count")) (atoi (col r "total_query_count"))
          (atoi (col r "total_received")) (atoi (col r "total_sent")) (atoi (col r "total_xact_time"))
          (atoi (col r "total_query_time")) (atoi (col r "total_wait_time")) (atoi (col r "avg_xact_count"))
          (atoi (col r "avg_query_count")) (atoi (col r "avg_xact_time")) (atoi (col r "avg_query_time"))
          (atoi (col r "avg_wait_time"))) <$> rows.
Definition parseServerRows (rows : list AdminRow) : list ServerStat :=
  (λ r, mkServerStat (col r "server_id") (col r "database_name") (col r "user") (col r "address_id")
          (col r "application_name") (col r "state") (atoi (col r "transaction_count")) (atoi (col r "query_count"))
          (atoi (col r "bytes_sent")) (atoi (col r "bytes_received")) (atoi (col r "age_seconds"))
          (atoi (col r "prepare_cache_hit")) (atoi (col r "prepare_cache_miss"))) <$> rows.
Definition parseClientRows (rows : list AdminRow) : list ClientStat :=
  (λ r, mkClientStat (col r "client_id") (col r "database") (col r "user") (col r "application_name") (col r "state")
          (atoi (col r "transaction_count")) (atoi (col r "query_count")) (atoi (col r "error_count"))
          (atoi (col r "age_seconds")) (atoi (col r "maxwait")) (atoi (col r "maxwait_us"))) <$> rows.

(** [stringify]; [CellOther] holds the text [fmt.Sprintf] makes of the value. *)
Definition stringify (v : Cell) : string :=
  match v with
  | CellNil => ""
  | CellString s | CellBytes s | CellOther s => s
  end.

(** The map of one row: a column that comes twice keeps its last value. *)
Definition admin_row (cols : list string) (vals : list Cell) : AdminRow :=
  foldl (λ m cv, <[cv.1 := stringify cv.2]> m) ∅ (zip cols vals).

(** The loop of [queryAdmin] over the rows. *)
Fixpoint admin_rows (cols : list string) (rows : list (result (list Cell))) : result (list AdminRow) :=
  match rows with
  | [] => Ok []
  | Err e :: _ => Err e
  | Ok vals :: rows =>
      match admin_rows cols rows with
      | Ok out => Ok (admin_row cols vals :: out)
      | Err e => Err e
      end
  end.

Section read.
Context {S : Type} {SQ : SqlConn S}.

(** [queryAdmin]. *)
Definition queryAdmin (sql : string) : M S (result (list AdminRow)) :=
  rows <-? sq_Query sql ;;
  out <-? lift_r (admin_rows (qr_Columns rows) (qr_Rows rows)) ;;
  match qr_Err rows with
  | Some e => fail e
  | None => ok out
  end.

(** [ReadPoolStats]. *)
Definition ReadPoolStats (adminDSN : string) : M S (result PoolStats) :=
  _ <-? sq_Connect adminDSN ;;
  poolRows <-? queryAdmin "SHOW POOLS" ;;
  statRows <-? queryAdmin "SHOW STATS" ;;
  servers <- queryAdmin "SHOW SERVERS" ;;
  clients <- queryAdmin "SHOW CLIENTS" ;;
  ok (mkPoolStats (parsePoolRows poolRows) (parseStatRows statRows)
        (value_or [] (rmap parseServerRows servers)) (value_or [] (rmap parseClientRows clients))).
End read.

(** ** Routing: [pool.go] *)

Record RoutingBackend := mkRouting {
  rg_Name : string;
  rg_Role : string;
  rg_Address : string;
  rg_Connections : Z;
  rg_ActiveConns : Z;
  rg_QueryCount : Z;
  rg_TransactionCount : Z;
  rg_BytesSent : Z;
  rg_BytesReceived : Z;
}.

(** What one server adds to the backend it belongs to; the counters are 64-bit. *)
Definition attribute (srv : ServerStat) (agg : RoutingBackend) : RoutingBackend :=
  mkRouting (rg_Name agg) (rg_Role agg) (rg_Address agg)
    (int64 (rg_Connections agg + 1))
    (if bool_decide (sv_State srv = "active") then int64 (rg_ActiveConns agg + 1) else rg_ActiveConns agg)
    (int64 (rg_QueryCount agg + sv_QueryCount srv)) (int64 (rg_TransactionCount agg + sv_TransactionCount srv))
    (int64 (rg_BytesSent agg + sv_BytesSent srv)) (int64 (rg_BytesReceived agg + sv_BytesReceived srv)).

(** [sort.SliceStable], longest address first. *)
Fixpoint insert_longest (b : RouterBackend) (l : list RouterBackend) : list RouterBackend :=
  match l with
  | [] => [b]
  | b' :: l' => if bool_decide (len (rb_Address b) < len (rb_Address b'))%Z then b' :: insert_longest b l' else b :: l
  end.
Definition matchOrder (backends : list RouterBackend) : list RouterBackend := foldr insert_longest [] backends.

(** Does a server's address contain the backend's? *)
Definition serves (srv : ServerStat) (b : RouterBackend) : bool :=
  negb (bool_decide (rb_Address b = "") || negb (Contains (sv_Address srv) (rb_Address b))).

(** [byName]: of backends with one name the last. *)
Definition byName (backends : list RouterBackend) : gmap string nat :=
  foldl (λ m ib, <[rb_Name ib.2 := ib.1]> m) ∅ (imap pair backends).

Definition route_server (order : list RouterBackend) (names : gmap string nat) (out : list RoutingBackend)
    (srv : ServerStat) : list RoutingBackend :=
  match filter (λ b, serves srv b = true) order with
  | [] => out
  | b :: _ => match names !! rb_Name b with Some i => alter (attribute srv) i out | None => out end
  end.

(** [buildRouting]. *)
Definition initial_routing (b : RouterBackend) : RoutingBackend :=
  mkRouting (rb_Name b) (rb_Role b) (rb_Address b) 0 0 0 0 0 0.
Definition buildRouting (backends : list RouterBackend) (servers : list ServerStat) : list RoutingBackend :=
  foldl (route_server (matchOrder backends) (byName backends)) (initial_routing <$> backends) servers.

(** [PoolHandler.Stats]: the topology is best effort. *)
Class RouterAdminResolver (S : Type) := {
  ra_RouterAdminDSN : string → string → M S (result string);
  ra_RouterBackends : string → M S (result (list RouterBackend));
}.
Definition PoolHandler_Stats {S} {SQ : SqlConn S} {RA : RouterAdminResolver S} (host id : string) :
    M S (result (PoolStats * list RoutingBackend)) :=
  dsn <-? ra_RouterAdminDSN id host ;;
  stats <-? ReadPoolStats dsn ;;
  backends <- ra_RouterBackends id ;;
  ok (stats, value_or [] (rmap (λ bs, buildRouting bs (pst_Servers stats)) backends)).

(** ** The reference: member by member *)

(** The member a server belongs to, by its place: of those whose address the server's
    contains the one with the longest, and of those the first. *)
Fixpoint owner_of (backends : list RouterBackend) (srv : ServerStat) : option (nat * RouterBackend) :=
  match backends with
  | [] => None
  | b :: backends =>
      let rest := prod_map S id <$> owner_of backends srv in
      if serves srv b then
        match rest with
        | Some (j, b') => if bool_decide (len (rb_Address b) < len (rb_Address b'))%Z then Some (j, b') else Some (0, b)
        | None => Some (0, b)
        end
      else rest
  end.

(** What a member with these servers shows. *)
Definition summed (f : ServerStat → Z) (servers : list ServerStat) : Z := int64 (foldr (λ s n, (f s + n)%Z) 0%Z servers).
Definition member_routing (b : RouterBackend) (servers : list ServerStat) : RoutingBackend :=
  mkRouting (rb_Name b) (rb_Role b) (rb_Address b)
    (summed (λ _, 1%Z) servers) (summed (λ s, if bool_decide (sv_State s = "active") then 1 else 0)%Z servers)
    (summed sv_QueryCount servers) (summed sv_TransactionCount servers)
    (summed sv_BytesSent servers) (summed sv_BytesReceived servers).
Definition routing_of (backends : list RouterBackend) (servers : list ServerStat) : list RoutingBackend :=
  imap (λ i b, member_routing b (filter (λ s, fst <$> owner_of backends s = Some i) servers)) backends.

(** ** Lemmas *)

Lemma int64_add a b : int64 (int64 a + b) = int64 (a + b).
Proof.
  unfold int64. f_equal. replace ((a + 2 ^ 63) mod 2 ^ 64 - 2 ^ 63 + b + 2 ^ 63)%Z with ((a + 2 ^ 63) mod 2 ^ 64 + b)%Z by lia.
  rewrite Zplus_mod_idemp_l. f_equal. lia.
Qed.

Lemma summed_snoc f servers s : summed f (servers ++ [s]) = int64 (summed f servers + f s).
Proof.
  unfold summed. rewrite int64_add. f_equal. induction servers as [|s' servers IH]; cbn; [lia|]. rewrite IH. lia.
Qed.

Lemma attribute_all b servers :
  foldl (λ agg s, attribute s agg) (initial_routing b) servers = member_routing b servers.
Proof.
  induction servers as [|s servers IH] using rev_ind; [done|]. rewrite foldl_snoc, IH.
  unfold member_routing. rewrite !summed_snoc. unfold attribute. cbn. f_equal.
  case_bool_decide; [done|]. unfold summed. by rewrite int64_add, Z.add_0_r.
Qed.

Notation longer_first := (λ b b', (len (rb_Address b') ≤ len (rb_Address b))%Z).

Lemma insert_longest_elem b l x : x ∈ insert_longest b l ↔ x = b ∨ x ∈ l.
Proof. induction l as [|b' l IH]; cbn; [set_solver|]. case_bool_decide; set_solver. Qed.

Lemma insert_longest_sorted b l : StronglySorted longer_first l → StronglySorted longer_first (insert_longest b l).
Proof.
  induction 1 as [|b' l Hl IH Hb]; cbn; [by repeat constructor|]. case_bool_decide as Hlt.
  - constructor; [done|]. apply Forall_forall. intros x [->|Hx]%insert_longest_elem; [lia|].
    rewrite Forall_forall in Hb. by apply Hb.
  - constructor; [by constructor|]. constructor; [lia|]. eapply Forall_impl; [exact Hb|]. cbn. lia.
Qed.

Lemma matchOrder_sorted bs : StronglySorted longer_first (matchOrder bs).
Proof. induction bs; cbn; [constructor|by apply insert_longest_sorted]. Qed.

Lemma first_insert srv b l : StronglySorted longer_first l →
  head (filter (λ b, serves srv b = true) (insert_longest b l)) =
  if serves srv b then
    match head (filter (λ b, serves srv b = true) l) with
    | Some b' => if bool_decide (len (rb_Address b) < len (rb_Address b'))%Z then Some b' else Some b
    | None => Some b
    end
  else head (filter (λ b, serves srv b = true) l).
Proof.
  induction 1 as [|b' l Hl IH Hb]; cbn [insert_longest].
  - rewrite filter_cons. case_decide as Hs; [by rewrite Hs|]. by destruct (serves srv b).
  - case_bool_decide as Hlt; rewrite filter_cons.
    + rewrite (filter_cons _ b' l). case_decide as Hs'; [|exact IH]. cbn [head].
      rewrite bool_decide_true by done. by destruct (serves srv b).
    + case_decide as Hs; [rewrite Hs|by destruct (serves srv b)]. cbn [head].
      destruct (head (filter _ (b' :: l))) as [b2|] eqn:E; [|done].
      assert (b2 ∈ b' :: l) as Hin.
      { assert (b2 ∈ filter (λ b, serves srv b = true) (b' :: l)) as H.
        { destruct (filter (λ b, serves srv b = true) (b' :: l)); [done|]. injection E as ->. set_solver. }
        by apply list_elem_of_filter in H as [_ H]. }
      rewrite bool_decide_false; [done|]. rewrite Forall_forall in Hb.
      apply elem_of_cons in Hin as [->|Hin%Hb]; lia.
Qed.

Lemma first_owner srv bs :
  head (filter (λ b, serves srv b = true) (matchOrder bs)) = snd <$> owner_of bs srv.
Proof.
  induction bs as [|b bs IH]; [done|]. cbn [matchOrder foldr owner_of]. fold (matchOrder bs).
  rewrite first_insert by apply matchOrder_sorted. rewrite IH.
  destruct (serves srv b), (owner_of bs srv) as [[j b']|]; cbn; try done. by case_bool_decide.
Qed.

Lemma owner_of_lookup bs srv i b : owner_of bs srv = Some (i, b) → bs !! i = Some b.
Proof.
  revert i b. induction bs as [|b0 bs IH]; intros i b; [done|]. cbn [owner_of].
  destruct (owner_of bs srv) as [[j b']|]; cbn; repeat case_match; intros; simplify_eq/=; eauto.
Qed.

Lemma byName_lookup bs i b : NoDup (rb_Name <$> bs) → bs !! i = Some b → byName bs !! rb_Name b = Some i.
Proof.
  unfold byName. revert i b. induction bs as [|x bs IH] using rev_ind; intros i b Hnd; [done|].
  rewrite imap_app, foldl_app. cbn. rewrite fmap_app in Hnd. apply NoDup_app in Hnd as (Hnd & Hne & _).
  rewrite lookup_app. intros Hi. destruct (bs !! i) as [b'|] eqn:E.
  - injection Hi as ->. rewrite lookup_insert_ne; [by apply IH|]. intros Heq.
    apply (Hne (rb_Name b)); [|rewrite <- Heq; set_solver]. apply list_elem_of_fmap. eauto using list_elem_of_lookup_2.
  - apply list_lookup_singleton_Some in Hi as [Hi ->]. apply lookup_ge_None in E.
    replace i with (length bs) by lia. rewrite Nat.add_0_r. by rewrite lookup_insert_eq.
Qed.

(** One server changes its owner's entry only. *)
Lemma route_server_lookup bs out srv i : NoDup (rb_Name <$> bs) →
  route_server (matchOrder bs) (byName bs) out srv !! i =
  (λ agg, if decide (fst <$> owner_of bs srv = Some i) then attribute srv agg else agg) <$> out !! i.
Proof.
  intros Hnd. pose proof (first_owner srv bs) as Hf. unfold route_server.
  destruct (filter _ (matchOrder bs)) as [|b l]; cbn in Hf; destruct (owner_of bs srv) as [[j b']|] eqn:Eo; try done.
  - cbn. by destruct (out !! i).
  - cbn in Hf. injection Hf as ->. rewrite (byName_lookup bs j b' Hnd (owner_of_lookup _ _ _ _ Eo)). cbn [fmap option_fmap option_map fst].
    destruct (decide (Some j = Some i)) as [[= ->]|Hne]; [by rewrite list_lookup_alter_eq|].
    rewrite list_lookup_alter_ne by congruence. by destruct (out !! i).
Qed.

Lemma foldl_if {A B} (P : A → Prop) `{∀ x, Decision (P x)} (f : A → B → B) l b :
  foldl (λ b x, if decide (P x) then f x b else b) b l = foldl (λ b x, f x b) b (filter P l).
Proof. revert b. induction l as [|x l IH]; intros b; [done|]. cbn [foldl]. rewrite filter_cons. case_decide; apply IH. Qed.

Lemma route_all_lookup bs servers out i : NoDup (rb_Name <$> bs) →
  foldl (route_server (matchOrder bs) (byName bs)) out servers !! i =
  (λ agg, foldl (λ agg s, attribute s agg) agg (filter (λ s, fst <$> owner_of bs s = Some i) servers)) <$> out !! i.
Proof.
  intros Hnd. revert out. induction servers as [|s servers IH]; intros out; [cbn; by destruct (out !! i)|]. cbn [foldl].
  rewrite IH, route_server_lookup by done. rewrite filter_cons. destruct (out !! i); [|done]. cbn. by case_decide.
Qed.

Lemma owner_of_None bs srv j b : owner_of bs srv = None → bs !! j = Some b → serves srv b = false.
Proof.
  revert j. induction bs as [|b0 bs IH]; intros j Ho Hj; [done|]. cbn [owner_of] in Ho.
  destruct (serves srv b0) eqn:E0; [by repeat case_match|]. destruct (owner_of bs srv) eqn:Eo; [done|].
  destruct j; cbn in Hj; simplify_eq; eauto.
Qed.

(** The owner: its address is contained, and no longer one is. *)
Lemma owner_of_Some bs srv i b : owner_of bs srv = Some (i, b) →
  bs !! i = Some b ∧ serves srv b = true ∧
  ∀ j b', bs !! j = Some b' → serves srv b' = true →
    (len (rb_Address b') ≤ len (rb_Address b))%Z ∧ (len (rb_Address b') = len (rb_Address b) → i ≤ j).
Proof.
  revert i b. induction bs as [|b0 bs IH]; intros i b; [done|]. cbn [owner_of].
  destruct (owner_of bs srv) as [[j b1]|] eqn:Eo; cbn.
  - destruct (IH _ _ eq_refl) as (Hj & Hs & Hmax). destruct (serves srv b0) eqn:E0.
    + case_bool_decide as Hlt; intros [= <- <-]; (split_and!; [done|done|]); intros [|k] b'; cbn; intros Hk Hb'; simplify_eq.
      * lia.
      * destruct (Hmax k b' Hk Hb'). split; [lia|]. intros. apply le_n_S. auto.
      * lia.
      * destruct (Hmax k b' Hk Hb'). split; [lia|]. lia.
    + intros [= <- <-]. split_and!; [done|done|]. intros [|k] b' Hk Hb'; cbn in Hk; simplify_eq; [by rewrite E0 in Hb'|].
      destruct (Hmax k b' Hk Hb'). split; [lia|]. intros. apply le_n_S. auto.
  - destruct (serves srv b0) eqn:E0; [|done]. intros [= <- <-]. split_and!; [done|done|].
    intros [|k] b' Hk Hb'; cbn in Hk; simplify_eq; [lia|]. by rewrite (owner_of_None _ _ _ _ Eo Hk) in Hb'.
Qed.

(** A server whose address is a member's own belongs to that member. *)
Lemma Contains_len s sub : Contains s sub = true → (len sub ≤ len s)%Z ∧ (len s ≤ len sub → s = sub)%Z.
Proof.
  intros (pre & t & ->)%Contains_spec. unfold len. rewrite !length_app_str. split; [lia|]. intros Hl.
  destruct pre; [|cbn in Hl; lia]. destruct t; [|cbn in Hl; lia]. by rewrite app_nil_r_str.
Qed.

Lemma owner_of_own bs srv i b :
  NoDup (rb_Address <$> bs) → bs !! i = Some b → rb_Address b ≠ "" → sv_Address srv = rb_Address b →
  owner_of bs srv = Some (i, b).
Proof.
  intros Hnd Hi Hne Heq.
  assert (serves srv b = true) as Hs.
  { unfold serves. rewrite bool_decide_false by done. cbn. rewrite negb_involutive, Heq. apply Contains_spec.
    exists "", "". by rewrite app_nil_r_str. }
  destruct (owner_of bs srv) as [[j b']|] eqn:Eo; [|by rewrite (owner_of_None _ _ _ _ Eo Hi) in Hs].
  apply owner_of_Some in Eo as (Hj & Hs' & Hmax). destruct (Hmax i b Hi Hs) as [Hle _].
  unfold serves in Hs'. apply negb_true_iff, orb_false_iff in Hs' as [_ Hc%negb_false_iff].
  rewrite Heq in Hc. apply Contains_len in Hc as [_ Hsame]. specialize (Hsame Hle).
  assert (i = j) as ->; [|congruence].
  eapply (NoDup_lookup (rb_Address <$> bs)); [done|rewrite list_lookup_fmap, Hi; done|]. rewrite list_lookup_fmap, Hj. cbn. by f_equal.
Qed.

(** ** Property *)

(** C33: when the names of the members differ, the one pass of [buildRouting], with its
    map and its sorted list, gives every member what the definition member by member
    gives it: the sums, at 64 bits, over the servers it owns.  A server's owner is
    the member with the longest address the server's contains, the first of them if
    several are that long, and nobody when none is contained; so a server whose
    address is a member's own is never counted for another. *)
Theorem routing_reference (backends : list RouterBackend) (servers : list ServerStat) :
  NoDup (rb_Name <$> backends) →
  buildRouting backends servers = routing_of backends servers ∧
  ∀ srv,
    (∀ i b, owner_of backends srv = Some (i, b) →
       backends !! i = Some b ∧ serves srv b = true ∧
       ∀ j b', backends !! j = Some b' → serves srv b' = true →
         (len (rb_Address b') ≤ len (rb_Address b))%Z ∧ (len (rb_Address b') = len (rb_Address b) → i ≤ j)) ∧
    (owner_of backends srv = None → ∀ b, b ∈ backends → serves srv b = false) ∧
    (NoDup (rb_Address <$> backends) → ∀ i b, backends !! i = Some b → rb_Address b ≠ "" →
       sv_Address srv = rb_Address b → owner_of backends srv = Some (i, b)).
Proof.
  intros Hnd. split.
  - apply list_eq. intros i. unfold buildRouting, routing_of. rewrite route_all_lookup by done.
    rewrite list_lookup_fmap, list_lookup_imap. destruct (backends !! i) as [b|]; [|done]. cbn. f_equal.
    apply attribute_all.
  - intros srv. split_and!; [apply owner_of_Some| |intros Ha i b; by apply owner_of_own].
    intros Ho b [j Hj]%list_elem_of_lookup_1. by eapply owner_of_None.
Qed.

(** A cluster whose members' names are prefixes of one another. *)
Definition sample_backends : list RouterBackend :=
  [mkRouterBackend "orders" "primary" "pgfleet-pg-orders"; mkRouterBackend "orders-2" "replica" "pgfleet-pg-orders-2"].
Definition sample_server (address state : string) (queries : Z) : ServerStat :=
  mkServerStat "1" "postgres" "u" address "app" state 1 queries 10 20 0 0 0.
Lemma routing_reference_witness :
  NoDup (rb_Name <$> sample_backends) ∧
  (λ r, (rg_Name r, rg_Connections r, rg_ActiveConns r, rg_QueryCount r)) <$>
    buildRouting sample_backends
      [sample_server "pgfleet-pg-orders-2" "active" 5; sample_server "pgfleet-pg-orders" "idle" 7;
       sample_server "pgfleet-pg-orders-2" "idle" 1; sample_server "elsewhere" "active" 100] =
  [("orders", 1, 0, 7); ("orders-2", 2, 1, 6)]%Z.
Proof.
  assert (Hnd : NoDup (rb_Name <$> sample_backends)) by (apply (bool_decide_unpack _); vm_compute; exact I).
  split; [exact Hnd|]. rewrite (proj1 (routing_reference _ _ Hnd)). vm_compute. reflexivity.
Defined.
