(* ===== verification/Compose.v ===== *)
(** * Downloadable compose files: [internal/composegen], [internal/api/compose.go]

    The docker-compose document of an instance or of a cluster is written as text.
    [read_compose] reads such a text back, line by line: what is read is the document
    that was meant, and that document can be started
    ([compose_roundtrip]). *)

From Stdlib Require Import Ascii.
From stdpp Require Import gmap strings.
From S2P Require Import Prelude GoStrings Apperr GoMonad Instances PgBackRest Stores Provision.

(** ** Data *)

Record InstanceComposeInput := mkInstanceCompose {
  ic_Name : string;
  ic_PGVersion : string;
  ic_Image : string;
  ic_Port : Z;
  ic_RepoType : string;
  ic_Superuser : string;
}.
Record ClusterComposeInput := mkClusterCompose {
  cc_Name : string;
  cc_PrimaryName : string;
  cc_PGVersion : string;
  cc_Image : string;
  cc_Port : Z;
  cc_RepoType : string;
  cc_Superuser : string;
  cc_Replicas : list string;
  cc_PgCatImage : string;
  cc_RouterPort : Z;
}.

(** ** Names *)

Definition containerName (name : string) : string := "pgfleet-pg-" +:+ name.
Definition dataVolume (name : string) : string := "pgfleet-data-" +:+ name.
Definition repoVolume (name : string) : string := "pgfleet-repo-" +:+ name.
Definition routerName (cluster : string) : string := "pgfleet-router-" +:+ cluster.

(** [instanceVolumes]. *)
Definition instanceVolumes (name repoType : string) : list string :=
  dataVolume name :: (if bool_decide (repoType ≠ "s3") then [repoVolume name] else []).

(** ** Writing *)

(** [fmt.Fprintf(&b, "%s\n", l)] for every line. *)
Definition write_lines (ls : list string) : string := str_concat ((λ l, l +:+ nl) <$> ls).

(** [writeHeader]. *)
Definition header_lines (name pgVersion : string) : list string :=
  ["# Generated by PgFleet for " +:+ Quote name +:+ " (pg version " +:+ pgVersion +:+ ")";
   "# Reproduces how PgFleet runs this; review before use."].
Definition writeHeader (name pgVersion : string) : string := write_lines (header_lines name pgVersion).

(** [writeInstanceService]. *)
Definition service_lines (name image superuser repoType : string) (hostPort containerPort : Z)
    (deps : list string) : list string :=
  let svc := containerName name in
  let su := if bool_decide (superuser = "") then "postgres" else superuser in
    ["  " +:+ svc +:+ ":"; "    image: " +:+ image; "    container_name: " +:+ svc; "    restart: unless-stopped";
     "    environment:"; "      POSTGRES_USER: " +:+ su; "      POSTGRES_PASSWORD: ${POSTGRES_PASSWORD}";
     "      POSTGRES_DB: postgres"; "    ports:";
     "      - " +:+ dq +:+ itoa hostPort +:+ ":" +:+ itoa containerPort +:+ dq; "    volumes:";
     "      - " +:+ dataVolume name +:+ ":/var/lib/postgresql/data"] ++
    (if bool_decide (repoType ≠ "s3") then ["      - " +:+ repoVolume name +:+ ":/var/lib/pgbackrest"] else []) ++
    (if bool_decide (0 < length deps) then "    depends_on:" :: ((λ d, "      - " +:+ d) <$> deps) else []) ++
    ["    healthcheck:"; "      test: [" +:+ dq +:+ "CMD-SHELL" +:+ dq +:+ ", " +:+ dq +:+ "pg_isready -U " +:+ su +:+ dq +:+ "]";
     "      interval: 10s"; "      timeout: 5s"; "      retries: 5"].
Definition writeInstanceService (name image superuser repoType : string) (hostPort containerPort : Z)
    (deps : list string) : string :=
  write_lines (service_lines name image superuser repoType hostPort containerPort deps).

(** [writeRouterService]. *)
Definition router_lines (cluster primaryName pgcatImage : string) (routerPort : Z) (replicas : list string) : list string :=
    ["  " +:+ routerName cluster +:+ ":"; "    image: " +:+ pgcatImage; "    container_name: " +:+ routerName cluster;
     "    restart: unless-stopped";
     "    # The router needs its generated pgcat.toml mounted at /etc/pgcat/pgcat.toml";
     "    # (PgFleet generates it with the cluster's credentials and member backends)."; "    ports:";
     "      - " +:+ dq +:+ itoa routerPort +:+ ":" +:+ itoa routerPort +:+ dq; "    depends_on:";
     "      - " +:+ containerName primaryName] ++ ((λ r, "      - " +:+ containerName r) <$> replicas).
Definition writeRouterService (cluster primaryName pgcatImage : string) (routerPort : Z) (replicas : list string) : string :=
  write_lines (router_lines cluster primaryName pgcatImage routerPort replicas).

(** What the two documents open with, and their volumes. *)
Definition preamble : list string :=
  ["# set POSTGRES_PASSWORD in a .env file next to this compose file."; "version: " +:+ dq +:+ "3.8" +:+ dq; ""; "services:"].
Definition volume_lines (names : list string) (repoType : string) : list string :=
  "volumes:" :: ((λ v, "  " +:+ v +:+ ":") <$> mjoin ((λ n, instanceVolumes n repoType) <$> names)).

Definition port_or (port def : Z) : Z := if bool_decide (port = 0)%Z then def else port.

(** [InstanceCompose]. *)
Definition InstanceCompose (inp : InstanceComposeInput) : string :=
  let port := port_or (ic_Port inp) 5432 in
  writeHeader (ic_Name inp) (ic_PGVersion inp) +:+ write_lines preamble +:+
  writeInstanceService (ic_Name inp) (ic_Image inp) (ic_Superuser inp) (ic_RepoType inp) port port [] +:+ nl +:+
  write_lines (volume_lines [ic_Name inp] (ic_RepoType inp)).

(** [ClusterCompose]. *)
Definition ClusterCompose (inp : ClusterComposeInput) : string :=
  let port := port_or (cc_Port inp) 5432 in
  let routerPort := port_or (cc_RouterPort inp) 6432 in
  let service name hostPort deps :=
    writeInstanceService name (cc_Image inp) (cc_Superuser inp) (cc_RepoType inp) hostPort port deps +:+ nl in
  writeHeader (cc_Name inp) (cc_PGVersion inp) +:+ write_lines preamble +:+
  service (cc_PrimaryName inp) port [] +:+
  str_concat (imap (λ i r, service r (port + 1 + Z.of_nat i)%Z [containerName (cc_PrimaryName inp)]) (cc_Replicas inp)) +:+
  writeRouterService (cc_Name inp) (cc_PrimaryName inp) (cc_PgCatImage inp) routerPort (cc_Replicas inp) +:+ nl +:+
  write_lines (volume_lines (cc_PrimaryName inp :: cc_Replicas inp) (cc_RepoType inp)).

(** ** The handlers: [compose.go] *)

(** The primary: the first member with the role, else the first member. *)
Definition primaryIdx (members : list Inst) : option nat :=
  match list_find (λ m, inst_Role m = RolePrimary) members with
  | Some (i, _) => Some i
  | None => if bool_decide (0 < length members) then Some 0 else None
  end.
Definition replica_names (skip : option nat) (members : list Inst) : list string :=
  omap (λ im : nat * Inst, if decide (Some im.1 = skip) then None else Some (inst_Name im.2)) (imap pair members).
Definition compose_input (name : string) (members : list Inst) : ClusterComposeInput :=
  let p := i ← primaryIdx members; members !! i in
  mkClusterCompose name (default "" (inst_Name <$> p)) (default "" (inst_PGVersion <$> p)) (default "" (inst_Image <$> p))
    5432 (default "" (inst_RepoType <$> p)) (default "" (inst_Superuser <$> p))
    (replica_names (primaryIdx members) members) "ghcr.io/postgresml/pgcat:latest" 6432.

Section handlers.
Context {S : Type} {IS : InstanceStore S} {CS : ClusterStore S}.

(** [writeCompose]: the file name and the body. *)
Definition writeCompose (name yaml : string) : string * string := (name +:+ "-compose.yml", yaml).

Definition ComposeHandler_GetInstance (id : string) : M S (result (string * string)) :=
  inst <-? repo_Get CallerCtx id ;;
  ok (writeCompose (inst_Name inst) (InstanceCompose
        (mkInstanceCompose (inst_Name inst) (inst_PGVersion inst) (inst_Image inst) 5432 (inst_RepoType inst)
           (inst_Superuser inst)))).

Definition ComposeHandler_GetCluster (id : string) : M S (result (string * string)) :=
  cl <-? clusters_Get CallerCtx id ;;
  members <-? repo_ListByCluster CallerCtx id ;;
  ok (writeCompose (cl_Name cl) (ClusterCompose (compose_input (cl_Name cl) members))).
End handlers.

(** ** Reading the text back *)

Record ComposeService := mkService {
  cs_Name : string;
  cs_Image : string;
  cs_Ports : list (Z * Z);
  cs_Volumes : list string;
  cs_DependsOn : list string;
}.
Record ComposeDoc := mkDoc { doc_Services : list ComposeService; doc_Volumes : list string }.

(** Where the reader is: the section, the key whose items follow, and what was read. *)
Record ReadState := mkRead {
  rs_Section : string;
  rs_Key : string;
  rs_Services : list ComposeService;
  rs_Volumes : list string;
}.

(** The text before a colon, or before a quote; a port mapping between quotes. *)
Definition before (sep : string) (s : string) : string := match Cut s sep with Some (k, _) => k | None => s end.
Definition read_port (s : string) : Z * Z :=
  match Cut (str_drop 1 s) ":" with
  | Some (h, c) => (default 0%Z (digits_val 0 h), default 0%Z (digits_val 0 (before dq c)))
  | None => (0, 0)%Z
  end.

(** Change the service that is being read; the last one is the first of the list. *)
Definition on_service (f : ComposeService → ComposeService) (st : ReadState) : ReadState :=
  match rs_Services st with
  | s :: rest => mkRead (rs_Section st) (rs_Key st) (f s :: rest) (rs_Volumes st)
  | [] => st
  end.
Definition with_key (k : string) (st : ReadState) : ReadState :=
  mkRead (rs_Section st) k (rs_Services st) (rs_Volumes st).

Definition read_item (v : string) (st : ReadState) : ReadState :=
  if bool_decide (rs_Key st = "ports") then
    on_service (λ s, mkService (cs_Name s) (cs_Image s) (cs_Ports s ++ [read_port v]) (cs_Volumes s) (cs_DependsOn s)) st
  else if bool_decide (rs_Key st = "volumes") then
    on_service (λ s, mkService (cs_Name s) (cs_Image s) (cs_Ports s) (cs_Volumes s ++ [before ":" v]) (cs_DependsOn s)) st
  else if bool_decide (rs_Key st = "depends_on") then
    on_service (λ s, mkService (cs_Name s) (cs_Image s) (cs_Ports s) (cs_Volumes s) (cs_DependsOn s ++ [v])) st
  else st.
Definition read_attr (l : string) (st : ReadState) : ReadState :=
  let k := before ":" l in
  if bool_decide (k = "image") then
    with_key k (on_service (λ s, mkService (cs_Name s) (str_drop 7 l) (cs_Ports s) (cs_Volumes s) (cs_DependsOn s)) st)
  else with_key k st.
Definition read_entry (l : string) (st : ReadState) : ReadState :=
  let k := before ":" l in
  if bool_decide (rs_Section st = "services") then
    mkRead (rs_Section st) "" (mkService k "" [] [] [] :: rs_Services st) (rs_Volumes st)
  else if bool_decide (rs_Section st = "volumes") then
    mkRead (rs_Section st) "" (rs_Services st) (rs_Volumes st ++ [k])
  else st.

(** One line, by its indentation. *)
Definition read_line (st : ReadState) (l : string) : ReadState :=
  match l with
  | "" => st
  | String "#" _ => st
  | String " " (String " " (String " " (String " " (String " " (String " " (String "-" (String " " v))))))) => read_item v st
  | String " " (String " " (String " " (String " " (String " " (String " " _))))) => st
  | String " " (String " " (String " " (String " " a))) => read_attr a st
  | String " " (String " " e) => read_entry e st
  | _ => mkRead (before ":" l) "" (rs_Services st) (rs_Volumes st)
  end.
Definition read_compose (text : string) : ComposeDoc :=
  let st := foldl read_line (mkRead "" "" [] []) (SplitChar nl_char text) in
  mkDoc (reverse (rs_Services st)) (rs_Volumes st).

(** ** The document that is meant *)

Definition instance_service (name image repoType : string) (hostPort port : Z) (deps : list string) : ComposeService :=
  mkService (containerName name) image [(hostPort, port)] (instanceVolumes name repoType) deps.
Definition instance_doc (inp : InstanceComposeInput) : ComposeDoc :=
  let port := port_or (ic_Port inp) 5432 in
  mkDoc [instance_service (ic_Name inp) (ic_Image inp) (ic_RepoType inp) port port []]
        (instanceVolumes (ic_Name inp) (ic_RepoType inp)).
Definition cluster_doc (inp : ClusterComposeInput) : ComposeDoc :=
  let port := port_or (cc_Port inp) 5432 in
  let routerPort := port_or (cc_RouterPort inp) 6432 in
  let member name hostPort deps := instance_service name (cc_Image inp) (cc_RepoType inp) hostPort port deps in
  mkDoc ([member (cc_PrimaryName inp) port []] ++
         imap (λ i r, member r (port + 1 + Z.of_nat i)%Z [containerName (cc_PrimaryName inp)]) (cc_Replicas inp) ++
         [mkService (routerName (cc_Name inp)) (cc_PgCatImage inp) [(routerPort, routerPort)] []
            (containerName <$> cc_PrimaryName inp :: cc_Replicas inp)])
        (mjoin ((λ n, instanceVolumes n (cc_RepoType inp)) <$> cc_PrimaryName inp :: cc_Replicas inp)).

Definition sample_member (name role repo : string) : Inst :=
  mkInst "id" name "running" "pgfleet/postgres-pgbackrest:16" "16" "c" 5432 "v" repo name "postgres" "" "cl" role ∅ [] false false 0 0.
Example compose_reads :
  let inp := compose_input "orders"
    [sample_member "orders-1" RolePrimary "local"; sample_member "orders-2" RoleReplica "local";
     sample_member "orders-3" RoleReplica "local"] in
  read_compose (ClusterCompose inp) = cluster_doc inp ∧ length (doc_Services (cluster_doc inp)) = 4.
Proof. vm_compute. done. Qed.

(** ** Lemmas *)

Lemma write_lines_app a b : write_lines (a ++ b) = write_lines a +:+ write_lines b.
Proof. unfold write_lines. by rewrite fmap_app, str_concat_app. Qed.

Lemma read_write ls : Forall (λ l, no_nl l = true) ls → SplitChar nl_char (write_lines ls) = ls ++ [""].
Proof. apply SplitChar_lines. Qed.

(** Text without a colon or a line break. *)
Definition plain (s : string) : bool := str_forallb (λ a, negb (ascii_eqb a nl_char) && negb (ascii_eqb a ":")) s.

Lemma plain_app s t : plain (s +:+ t) = plain s && plain t.
Proof. apply str_forallb_app. Qed.

Lemma plain_no_nl s : plain s = true → no_nl s = true.
Proof. apply str_forallb_impl. intros a [? _]%andb_true_iff. done. Qed.

Lemma Index_char c s t :
  str_forallb (λ a, negb (ascii_eqb a c)) s = true → Index (s +:+ String c t) (String c "") = Some (String.length s).
Proof.
  assert (Hi : ∀ a w, Index (String a w) (String c "") = if ascii_eqb c a then Some 0 else S <$> Index w (String c "")).
  { intros a w. change (Index (String a w) (String c "")) with
      (if str_prefix (String c "") (String a w) then Some 0 else S <$> Index w (String c "")).
    cbn [str_prefix]. by rewrite andb_true_r. }
  induction s as [|a s IH].
  - intros _. change ("" +:+ String c t) with (String c t). by rewrite Hi, ascii_eqb_refl.
  - cbn [str_forallb]. intros [Ha%negb_true_iff Hs]%andb_true_iff. rewrite app_cons_str, Hi, IH by done.
    unfold ascii_eqb in *. apply bool_decide_eq_false in Ha. by rewrite bool_decide_false.
Qed.

Lemma Cut_char c s t :
  str_forallb (λ a, negb (ascii_eqb a c)) s = true → Cut (s +:+ String c t) (String c "") = Some (s, t).
Proof.
  intros Hs. unfold Cut. rewrite Index_char by done. f_equal. f_equal; [apply str_take_app|].
  replace (s +:+ String c t) with ((s +:+ String c "") +:+ t) by by rewrite app_assoc_str.
  rewrite <- length_app_str. apply str_drop_app.
Qed.

Lemma before_colon s t : plain s = true → before ":" (s +:+ ":" +:+ t) = s.
Proof.
  intros Hs. unfold before. change (":" +:+ t) with (String ":" t). rewrite Cut_char; [done|].
  eapply str_forallb_impl; [|exact Hs]. cbn. intros a [_ ?]%andb_true_iff. done.
Qed.

Lemma digits_not c s : is_digit c = false → str_forallb is_digit s = true → str_forallb (λ a, negb (ascii_eqb a c)) s = true.
Proof.
  intros Hc. apply str_forallb_impl. intros a Ha. apply negb_true_iff, bool_decide_eq_false. intros ->. congruence.
Qed.

Lemma plain_digits s : str_forallb is_digit s = true → plain s = true.
Proof.
  apply str_forallb_impl. intros a Ha. apply andb_true_iff; split; apply negb_true_iff, bool_decide_eq_false; by intros ->.
Qed.

Lemma read_port_mapping h c : (0 ≤ h)%Z → (0 ≤ c)%Z →
  read_port (dq +:+ itoa h +:+ ":" +:+ itoa c +:+ dq) = (h, c).
Proof.
  intros Hh Hc. pose proof (itoa_digits h Hh) as Dh. pose proof (itoa_digits c Hc) as Dc. unfold read_port.
  change (str_drop 1 (dq +:+ ?x)) with x. change (":" +:+ ?x) with (String ":" x).
  rewrite Cut_char by by apply digits_not. unfold before. change dq with (String dq_char "").
  rewrite Cut_char by by apply digits_not. by rewrite !digits_val_itoa.
Qed.

(** Lines of each kind. *)
Lemma read_entry_line st k t : plain k = true → rs_Section st = "services" →
  read_entry (k +:+ ":" +:+ t) st = mkRead "services" "" (mkService k "" [] [] [] :: rs_Services st) (rs_Volumes st).
Proof. intros Hk Hs. unfold read_entry. by rewrite before_colon, Hs. Qed.

#[global] Arguments before : simpl never.
#[global] Arguments read_port : simpl never.

Lemma plain_container n : plain (containerName n) = plain n.
Proof. done. Qed.

(** Lines inside a service. *)
Section lines.
Context (sec k : string) (s : ComposeService) (l : list ComposeService) (vs : list string).

Lemma read_image_line v :
  read_line (mkRead sec k (s :: l) vs) ("    image: " +:+ v) =
  mkRead sec "image" (mkService (cs_Name s) v (cs_Ports s) (cs_Volumes s) (cs_DependsOn s) :: l) vs.
Proof. reflexivity. Qed.

Lemma read_name_line v : read_line (mkRead sec k (s :: l) vs) ("    container_name: " +:+ v) = mkRead sec "container_name" (s :: l) vs.
Proof. reflexivity. Qed.

Lemma read_key_line line key :
  (line, key) ∈ [("    restart: unless-stopped", "restart"); ("    environment:", "environment"); ("    ports:", "ports");
                 ("    volumes:", "volumes"); ("    depends_on:", "depends_on"); ("    healthcheck:", "healthcheck")] →
  read_line (mkRead sec k (s :: l) vs) line = mkRead sec key (s :: l) vs.
Proof. set_unfold. intros H. destruct_or!; simplify_eq; reflexivity. Qed.

Lemma read_port_line v :
  read_line (mkRead sec "ports" (s :: l) vs) ("      - " +:+ v) =
  mkRead sec "ports" (mkService (cs_Name s) (cs_Image s) (cs_Ports s ++ [read_port v]) (cs_Volumes s) (cs_DependsOn s) :: l) vs.
Proof. reflexivity. Qed.

Lemma read_mount_line v :
  read_line (mkRead sec "volumes" (s :: l) vs) ("      - " +:+ v) =
  mkRead sec "volumes" (mkService (cs_Name s) (cs_Image s) (cs_Ports s) (cs_Volumes s ++ [before ":" v]) (cs_DependsOn s) :: l) vs.
Proof. reflexivity. Qed.
End lines.

Lemma read_deps_lines sec s l vs deps :
  foldl read_line (mkRead sec "depends_on" (s :: l) vs) ((λ d, "      - " +:+ d) <$> deps) =
  mkRead sec "depends_on" (mkService (cs_Name s) (cs_Image s) (cs_Ports s) (cs_Volumes s) (cs_DependsOn s ++ deps) :: l) vs.
Proof.
  revert s. induction deps as [|d deps IH]; intros s; [by destruct s; cbn; rewrite app_nil_r|].
  rewrite fmap_cons. cbn [foldl]. change (read_line (mkRead sec "depends_on" (s :: l) vs) ("      - " +:+ d)) with
    (mkRead sec "depends_on" (mkService (cs_Name s) (cs_Image s) (cs_Ports s) (cs_Volumes s) (cs_DependsOn s ++ [d]) :: l) vs).
  rewrite IH. cbn. by rewrite <- app_assoc.
Qed.

Ltac key_line l k := rewrite (read_key_line _ _ _ _ _ l k) by set_solver.

(** The lines that come after the mounts. *)
Lemma read_tail sec k s l vs deps su :
  foldl read_line
    (foldl read_line (mkRead sec k (s :: l) vs)
       (if bool_decide (0 < length deps) then "    depends_on:" :: ((λ d, "      - " +:+ d) <$> deps) else []))
    ["    healthcheck:"; "      test: [" +:+ dq +:+ "CMD-SHELL" +:+ dq +:+ ", " +:+ dq +:+ "pg_isready -U " +:+ su +:+ dq +:+ "]";
     "      interval: 10s"; "      timeout: 5s"; "      retries: 5"] =
  mkRead sec "healthcheck" (mkService (cs_Name s) (cs_Image s) (cs_Ports s) (cs_Volumes s) (cs_DependsOn s ++ deps) :: l) vs.
Proof.
  case_bool_decide as Hd.
  - cbn [foldl]. key_line "    depends_on:" "depends_on". rewrite read_deps_lines. by key_line "    healthcheck:" "healthcheck".
  - destruct deps; [|cbn in Hd; lia]. cbn [foldl]. key_line "    healthcheck:" "healthcheck". rewrite app_nil_r. by destruct s.
Qed.

(** The block of one service. *)
Lemma read_service n image su repo h p deps st :
  plain n = true → (0 ≤ h)%Z → (0 ≤ p)%Z → rs_Section st = "services" →
  foldl read_line st (service_lines n image su repo h p deps) =
  mkRead "services" "healthcheck" (instance_service n image repo h p deps :: rs_Services st) (rs_Volumes st).
Proof.
  intros Hn Hh Hp Hs. unfold service_lines. set (su' := if bool_decide (su = "") then _ else _).
  rewrite !foldl_app. match goal with |- foldl _ _ ?t = _ => set (tail_lines := t) end.
  cbn [foldl]. change (read_line st ("  " +:+ ?k)) with (read_entry k st).
  replace (containerName n +:+ ":") with (containerName n +:+ ":" +:+ "") by done. rewrite read_entry_line by done.
  rewrite read_image_line, read_name_line. key_line "    restart: unless-stopped" "restart".
  key_line "    environment:" "environment".
  change (read_line ?s0 ("      POSTGRES_USER: " +:+ su')) with s0.
  change (read_line ?s0 "      POSTGRES_PASSWORD: ${POSTGRES_PASSWORD}") with s0.
  change (read_line ?s0 "      POSTGRES_DB: postgres") with s0.
  key_line "    ports:" "ports". rewrite read_port_line, read_port_mapping by done. key_line "    volumes:" "volumes".
  rewrite read_mount_line. change ":/var/lib/postgresql/data" with (":" +:+ "/var/lib/postgresql/data").
  rewrite before_colon by done. cbn [cs_Name cs_Image cs_Ports cs_Volumes cs_DependsOn app].
  unfold instance_service, instanceVolumes. case_bool_decide; cbn [foldl].
  - rewrite read_mount_line. change ":/var/lib/pgbackrest" with (":" +:+ "/var/lib/pgbackrest").
    rewrite before_colon by done. unfold tail_lines. by rewrite read_tail.
  - unfold tail_lines. by rewrite read_tail.
Qed.

(** The block of the router, and the volumes. *)
Lemma read_router c prim image port replicas st :
  plain c = true → (0 ≤ port)%Z → rs_Section st = "services" →
  foldl read_line st (router_lines c prim image port replicas) =
  mkRead "services" "depends_on"
    (mkService (routerName c) image [(port, port)] [] (containerName <$> prim :: replicas) :: rs_Services st) (rs_Volumes st).
Proof.
  intros Hc Hp Hs. unfold router_lines. rewrite foldl_app. cbn [foldl].
  change (read_line st ("  " +:+ ?k)) with (read_entry k st).
  replace (routerName c +:+ ":") with (routerName c +:+ ":" +:+ "") by done. rewrite read_entry_line by done.
  rewrite read_image_line, read_name_line. key_line "    restart: unless-stopped" "restart".
  change (read_line (read_line (mkRead ?a ?b (?c0 :: ?d) ?e) "    # The router needs its generated pgcat.toml mounted at /etc/pgcat/pgcat.toml") ?l)
    with (mkRead a (before ":" "# (PgFleet generates it with the cluster's credentials and member backends).") (c0 :: d) e).
  key_line "    ports:" "ports". rewrite read_port_line, read_port_mapping by done. key_line "    depends_on:" "depends_on".
  change ((λ r, "      - " +:+ containerName r) <$> replicas) with (((λ d, "      - " +:+ d) ∘ containerName) <$> replicas).
  rewrite list_fmap_compose.
  rewrite (read_deps_lines _ _ _ _ [_] : read_line _ _ = _).
  by rewrite read_deps_lines.
Qed.

(** ** The whole text *)

Definition member_lines (inp : ClusterComposeInput) (name : string) (hostPort : Z) (deps : list string) : list string :=
  service_lines name (cc_Image inp) (cc_Superuser inp) (cc_RepoType inp) hostPort (port_or (cc_Port inp) 5432) deps ++ [""].
Definition cluster_lines (inp : ClusterComposeInput) : list string :=
  let port := port_or (cc_Port inp) 5432 in
  header_lines (cc_Name inp) (cc_PGVersion inp) ++ preamble ++ member_lines inp (cc_PrimaryName inp) port [] ++
  mjoin (imap (λ i r, member_lines inp r (port + 1 + Z.of_nat i)%Z [containerName (cc_PrimaryName inp)]) (cc_Replicas inp)) ++
  router_lines (cc_Name inp) (cc_PrimaryName inp) (cc_PgCatImage inp) (port_or (cc_RouterPort inp) 6432) (cc_Replicas inp) ++
  [""] ++ volume_lines (cc_PrimaryName inp :: cc_Replicas inp) (cc_RepoType inp).

Lemma write_blocks {A} (f : nat → A → list string) (l : list A) :
  str_concat (imap (λ i x, write_lines (f i x)) l) = write_lines (mjoin (imap f l)).
Proof.
  revert f. induction l as [|x l IH]; intros f; [done|]. cbn [imap mjoin list_join]. rewrite str_concat_cons, write_lines_app.
  f_equal. apply (IH (λ i, f (S i))).
Qed.

Lemma ClusterCompose_lines inp : ClusterCompose inp = write_lines (cluster_lines inp).
Proof.
  unfold ClusterCompose, cluster_lines, member_lines. rewrite !write_lines_app.
  rewrite <- (write_blocks (λ i r, service_lines r _ _ _ _ _ _ ++ [""])). rewrite !app_assoc_str. do 4 f_equal.
  do 2 f_equal. apply imap_ext. intros i r _. by rewrite write_lines_app.
Qed.

(** What may be put into the text: names without a colon, and no line breaks. *)
Definition compose_clean (inp : ClusterComposeInput) : Prop :=
  Forall (λ n, plain n = true) (cc_Name inp :: cc_PrimaryName inp :: cc_Replicas inp) ∧
  Forall (λ v, no_nl v = true) [cc_PGVersion inp; cc_Image inp; cc_Superuser inp; cc_PgCatImage inp] ∧
  (0 ≤ cc_Port inp)%Z ∧ (0 ≤ cc_RouterPort inp)%Z.

Lemma no_nl_Quote s : no_nl (Quote s) = true.
Proof.
  unfold Quote. rewrite !no_nl_app. cbn -[no_nl]. rewrite andb_true_r. apply str_forallb_replace_bytes. intros c.
  destruct c as [[] [] [] [] [] [] [] []]; reflexivity.
Qed.

Lemma line_free_itoa n : (0 ≤ n)%Z → no_nl (itoa n) = true.
Proof. intros Hn. by apply plain_no_nl, plain_digits, itoa_digits. Qed.

Lemma no_nl_service n image su repo h p deps :
  plain n = true → no_nl image = true → no_nl su = true → (0 ≤ h)%Z → (0 ≤ p)%Z → Forall (λ d, no_nl d = true) deps →
  Forall (λ l, no_nl l = true) (service_lines n image su repo h p deps).
Proof.
  intros Hn%plain_no_nl Hi Hs Hh%line_free_itoa Hp%line_free_itoa Hd. unfold service_lines.
  assert (Hsu : no_nl (if bool_decide (su = "") then "postgres" else su) = true) by by case_bool_decide.
  assert (Forall (λ l, no_nl l = true) ((λ d, "      - " +:+ d) <$> deps)) as Hd'.
  { apply Forall_fmap. eapply Forall_impl; [exact Hd|]. intros d Hd'. cbn. by rewrite no_nl_app, Hd'. }
  repeat apply Forall_app_2; [| | |].
  - repeat constructor; rewrite ?no_nl_app; unfold containerName, dataVolume; rewrite ?no_nl_app, ?Hn, ?Hi, ?Hs, ?Hsu, ?Hh, ?Hp; done.
  - destruct (bool_decide (repo ≠ "s3")); repeat constructor. unfold repoVolume. by rewrite !no_nl_app, Hn.
  - destruct (bool_decide (0 < length deps)); [|constructor]. by constructor.
  - repeat constructor. by rewrite !no_nl_app, Hsu.
Qed.

Lemma plain_dep n : plain n = true → Forall (λ d, no_nl d = true) [containerName n].
Proof. intros Hn%plain_no_nl. repeat constructor. unfold containerName. by rewrite no_nl_app, Hn. Qed.

Lemma volumes_plain names repo : Forall (λ n, plain n = true) names →
  Forall (λ v, plain v = true) (mjoin ((λ n, instanceVolumes n repo) <$> names)).
Proof.
  intros Hn. rewrite Forall_forall. intros v Hv. apply list_elem_of_join in Hv as (l & Hv & Hl).
  apply list_elem_of_fmap in Hl as (n & -> & Hin). rewrite Forall_forall in Hn. specialize (Hn n Hin).
  unfold instanceVolumes in Hv. case_bool_decide; set_unfold in Hv; destruct_or?; subst; done.
Qed.

Lemma cluster_lines_no_nl inp : compose_clean inp → Forall (λ l, no_nl l = true) (cluster_lines inp).
Proof.
  intros (Hn & Hv & Hp & Hr). inversion_clear Hn as [|? ? Hc Hn']. inversion_clear Hn' as [|? ? Hpn Hns].
  inversion_clear Hv as [|? ? Hpg Hv']. inversion_clear Hv' as [|? ? Hi Hv]. inversion_clear Hv as [|? ? Hs Hv'].
  inversion_clear Hv' as [|? ? Hpc _].
  assert (0 ≤ port_or (cc_Port inp) 5432)%Z as Hport by (unfold port_or; case_bool_decide; lia).
  assert (0 ≤ port_or (cc_RouterPort inp) 6432)%Z as Hrport by (unfold port_or; case_bool_decide; lia).
  pose proof (plain_no_nl _ Hc) as Hc'. pose proof (plain_no_nl _ Hpn) as Hpn'.
  assert (Hm : ∀ n h deps, plain n = true → (0 ≤ h)%Z → Forall (λ d, no_nl d = true) deps →
    Forall (λ l, no_nl l = true) (member_lines inp n h deps)).
  { intros n h deps Hn Hh Hd. apply Forall_app_2; [by apply no_nl_service|by repeat constructor]. }
  unfold cluster_lines. apply Forall_app_2; [|apply Forall_app_2; [|apply Forall_app_2; [|apply Forall_app_2; [|apply Forall_app_2; [|apply Forall_app_2]]]]].
  - repeat constructor. by rewrite !no_nl_app, no_nl_Quote, Hpg.
  - repeat constructor.
  - by apply Hm.
  - apply Forall_join, Forall_lookup. intros i l Hl. rewrite list_lookup_imap in Hl.
    destruct (cc_Replicas inp !! i) as [n|] eqn:En; [|done]. injection Hl as <-.
    apply Hm; [exact (Forall_lookup_1 _ _ _ _ Hns En)|lia|by apply plain_dep].
  - apply Forall_app_2.
    + repeat constructor; rewrite ?no_nl_app; unfold routerName, containerName;
        rewrite ?no_nl_app, ?Hc', ?Hpc, ?Hpn', ?(line_free_itoa _ Hrport); done.
    + apply Forall_fmap. eapply Forall_impl; [exact Hns|]. intros n Hn%plain_no_nl. cbn. unfold containerName.
      by rewrite !no_nl_app, Hn.
  - by repeat constructor.
  - constructor; [done|]. apply Forall_fmap. eapply Forall_impl; [apply volumes_plain; by constructor|].
    intros v Hvol%plain_no_nl. cbn. by rewrite !no_nl_app, Hvol.
Qed.

(** Reading the members and the volumes. *)
Lemma read_member inp n h deps st :
  plain n = true → (0 ≤ h)%Z → (0 ≤ port_or (cc_Port inp) 5432)%Z → rs_Section st = "services" →
  foldl read_line st (member_lines inp n h deps) =
  mkRead "services" "healthcheck"
    (instance_service n (cc_Image inp) (cc_RepoType inp) h (port_or (cc_Port inp) 5432) deps :: rs_Services st) (rs_Volumes st).
Proof. intros. unfold member_lines. rewrite foldl_app, read_service by done. done. Qed.

Lemma read_members inp deps (f : nat → Z) replicas st :
  Forall (λ n, plain n = true) replicas → (∀ i, 0 ≤ f i)%Z → (0 ≤ port_or (cc_Port inp) 5432)%Z →
  rs_Section st = "services" → rs_Key st = "healthcheck" →
  foldl read_line st (mjoin (imap (λ i r, member_lines inp r (f i) deps) replicas)) =
  mkRead "services" "healthcheck"
    (reverse (imap (λ i r, instance_service r (cc_Image inp) (cc_RepoType inp) (f i) (port_or (cc_Port inp) 5432) deps) replicas)
     ++ rs_Services st) (rs_Volumes st).
Proof.
  intros Hr. revert f st. induction Hr as [|n replicas Hn _ IH]; intros f st Hf Hp Hs Hk.
  - destruct st. cbn in *. by subst.
  - cbn [imap mjoin list_join]. rewrite foldl_app, read_member by done.
    change (mjoin (imap ((λ i r, member_lines inp r (f i) deps) ∘ S) replicas)) with
      (mjoin (imap (λ i r, member_lines inp r ((λ i, f (S i)) i) deps) replicas)).
    rewrite IH by done. cbn [rs_Services rs_Volumes]. rewrite reverse_cons, <- app_assoc. done.
Qed.

Lemma read_volumes names k services vs :
  Forall (λ v, plain v = true) names →
  ∃ k', foldl read_line (mkRead "volumes" k services vs) ((λ v, "  pgfleet-" +:+ v +:+ ":") <$> names) =
    mkRead "volumes" k' services (vs ++ (String.append "pgfleet-" <$> names)).
Proof.
  intros Hn. revert k vs. induction Hn as [|n names Hn _ IH]; intros k vs; [exists k; by rewrite app_nil_r|].
  rewrite fmap_cons. cbn [foldl].
  assert (read_line (mkRead "volumes" k services vs) ("  pgfleet-" +:+ n +:+ ":") =
          mkRead "volumes" "" services (vs ++ ["pgfleet-" +:+ n])) as ->.
  { change (read_line (mkRead "volumes" k services vs) ("  pgfleet-" +:+ n +:+ ":")) with
      (mkRead "volumes" "" services (vs ++ [before ":" (("pgfleet-" +:+ n) +:+ ":" +:+ "")])). by rewrite before_colon. }
  destruct (IH "" (vs ++ ["pgfleet-" +:+ n])) as [k' ->]. exists k'. by rewrite <- app_assoc.
Qed.

Lemma volumes_prefixed names repo : Forall (λ n, plain n = true) names →
  ∃ ws, mjoin ((λ n, instanceVolumes n repo) <$> names) = String.append "pgfleet-" <$> ws ∧ Forall (λ w, plain w = true) ws.
Proof.
  induction 1 as [|n names Hn _ (ws & IH & Hws)]; [by exists []|]. rewrite fmap_cons.
  change (mjoin (?l :: ?ls)) with (l ++ mjoin ls). rewrite IH.
  exists (("data-" +:+ n) :: (if bool_decide (repo ≠ "s3") then ["repo-" +:+ n] else []) ++ ws).
  unfold instanceVolumes. split; [by case_bool_decide|]. constructor; [done|]. apply Forall_app_2; [|done].
  case_bool_decide; by repeat constructor.
Qed.

Lemma read_cluster inp : compose_clean inp → read_compose (ClusterCompose inp) = cluster_doc inp.
Proof.
  intros Hc. unfold read_compose. rewrite ClusterCompose_lines, read_write by by apply cluster_lines_no_nl.
  destruct Hc as (Hn & _ & Hp & Hr). inversion_clear Hn as [|? ? Hc Hn']. inversion_clear Hn' as [|? ? Hpn Hns].
  assert (0 ≤ port_or (cc_Port inp) 5432)%Z as Hport by (unfold port_or; case_bool_decide; lia).
  assert (0 ≤ port_or (cc_RouterPort inp) 6432)%Z as Hrport by (unfold port_or; case_bool_decide; lia).
  unfold cluster_lines. rewrite !foldl_app.
  change (foldl read_line (foldl read_line (mkRead "" "" [] []) (header_lines (cc_Name inp) (cc_PGVersion inp))) preamble)
    with (mkRead "services" "" [] []).
  rewrite read_member by done. cbn [rs_Services rs_Volumes].
  rewrite read_members by (try done; intros; lia). cbn [rs_Services rs_Volumes].
  rewrite read_router by done. cbn [rs_Services rs_Volumes].
  destruct (volumes_prefixed (cc_PrimaryName inp :: cc_Replicas inp) (cc_RepoType inp)) as (ws & Hws & Hplain); [by constructor|].
  unfold volume_lines, cluster_doc. rewrite Hws. cbn [foldl].
  match goal with |- context [read_line (read_line (mkRead ?a ?b ?c ?d) "") "volumes:"] =>
    change (read_line (read_line (mkRead a b c d) "") "volumes:") with (mkRead "volumes" "" c d) end.
  replace ((λ v, "  " +:+ v +:+ ":") <$> (String.append "pgfleet-" <$> ws)) with ((λ v, "  pgfleet-" +:+ v +:+ ":") <$> ws)
    by by rewrite <- list_fmap_compose.
  destruct (read_volumes ws "" (mkService (routerName (cc_Name inp)) (cc_PgCatImage inp)
      [(port_or (cc_RouterPort inp) 6432, port_or (cc_RouterPort inp) 6432)] [] (containerName <$> cc_PrimaryName inp :: cc_Replicas inp)
      :: reverse (imap (λ i r, instance_service r (cc_Image inp) (cc_RepoType inp) (port_or (cc_Port inp) 5432 + 1 + Z.of_nat i)
           (port_or (cc_Port inp) 5432) [containerName (cc_PrimaryName inp)]) (cc_Replicas inp)) ++
         [instance_service (cc_PrimaryName inp) (cc_Image inp) (cc_RepoType inp) (port_or (cc_Port inp) 5432)
           (port_or (cc_Port inp) 5432) []]) [] Hplain) as [k' ->].
  change (read_line ?s0 "") with s0. cbn [rs_Services rs_Volumes]. f_equal. rewrite reverse_cons, reverse_app, reverse_involutive, reverse_singleton, <- app_assoc. done.
Qed.

(** ** A document that can be started

    Names are unique, a service waits only for services above it, every volume that
    is mounted is declared, and no two services publish the same port. *)
Definition startable (d : ComposeDoc) : Prop :=
  NoDup (cs_Name <$> doc_Services d) ∧
  (∀ l1 s l2, doc_Services d = l1 ++ s :: l2 → cs_DependsOn s ⊆ cs_Name <$> l1) ∧
  (∀ s, s ∈ doc_Services d → cs_Volumes s ⊆ doc_Volumes d) ∧ NoDup (doc_Volumes d) ∧
  NoDup (fst <$> mjoin (cs_Ports <$> doc_Services d)).

#[export] Instance containerName_inj : Inj (=) (=) containerName.
Proof. intros a b H. by apply (inj (String.append "pgfleet-pg-")). Qed.

(** The parts of the document of a cluster. *)
Section cluster_parts.
Context (inp : ClusterComposeInput).
Notation members := (cc_PrimaryName inp :: cc_Replicas inp).
Notation port := (port_or (cc_Port inp) 5432).
Notation routerPort := (port_or (cc_RouterPort inp) 6432).

Lemma cluster_names : cs_Name <$> doc_Services (cluster_doc inp) = (containerName <$> members) ++ [routerName (cc_Name inp)].
Proof.
  cbn. f_equal. rewrite fmap_app. f_equal. rewrite fmap_imap. apply list_eq. intros i.
  rewrite list_lookup_imap, list_lookup_fmap. by destruct (_ !! i).
Qed.

Lemma cluster_ports :
  fst <$> mjoin (cs_Ports <$> doc_Services (cluster_doc inp)) =
  imap (λ i _, port + Z.of_nat i)%Z members ++ [routerPort].
Proof.
  cbn. rewrite Z.add_0_r. f_equal. rewrite fmap_app, join_app, fmap_app. f_equal.
  generalize (cc_Replicas inp) as l. assert (∀ (f g : nat → Z), (∀ i, f i = g i) → ∀ l : list string,
    fst <$> mjoin (cs_Ports <$> imap (λ i r, instance_service r (cc_Image inp) (cc_RepoType inp) (f i) port [containerName (cc_PrimaryName inp)]) l) =
    imap (λ i _, g i) l) as H.
  { intros f g Hfg l. revert f g Hfg. induction l as [|x l IH]; intros f g Hfg; [done|]. cbn. f_equal; [apply Hfg|].
    apply (IH (λ i, f (S i)) (λ i, g (S i))). auto. }
  intros l. apply (H (λ i, port + 1 + Z.of_nat i)%Z (λ i, port + Z.of_nat (S i))%Z). lia.
Qed.

Lemma volumes_in n repo names : n ∈ names → instanceVolumes n repo ⊆ mjoin ((λ n, instanceVolumes n repo) <$> names).
Proof.
  intros Hn v Hv. apply list_elem_of_join. exists (instanceVolumes n repo). split; [done|]. apply list_elem_of_fmap. eauto.
Qed.

Lemma volume_name n repo v : v ∈ instanceVolumes n repo → v = dataVolume n ∨ v = repoVolume n.
Proof. unfold instanceVolumes. case_bool_decide; set_solver. Qed.

Lemma volumes_NoDup names repo : NoDup names → NoDup (mjoin ((λ n, instanceVolumes n repo) <$> names)).
Proof.
  induction 1 as [|n names Hn _ IH]; [constructor|]. rewrite fmap_cons. change (mjoin (?l :: ?ls)) with (l ++ mjoin ls).
  apply NoDup_app. split_and!; [|intros v Hv Hv'|done].
  - unfold instanceVolumes. case_bool_decide; repeat constructor; set_solver.
  - apply list_elem_of_join in Hv' as (l & Hv' & Hl). apply list_elem_of_fmap in Hl as (n' & -> & Hn').
    apply volume_name in Hv, Hv'. assert (n = n') as ->; [|done].
    destruct Hv as [->| ->], Hv' as [Hv|Hv]; unfold dataVolume, repoVolume in Hv; simplify_eq/=; try done;
      by apply (inj (String.append "pgfleet-data-")) in Hv || by apply (inj (String.append "pgfleet-repo-")) in Hv.
Qed.

(** Every service is a member, which waits for the primary at most, or the router. *)
Lemma cluster_service_cases i s : doc_Services (cluster_doc inp) !! i = Some s →
  (∃ n, n ∈ members ∧ cs_Volumes s = instanceVolumes n (cc_RepoType inp) ∧
        (cs_DependsOn s = [] ∨ 0 < i ∧ cs_DependsOn s = [containerName (cc_PrimaryName inp)])) ∨
  (i = length members ∧ cs_Volumes s = [] ∧ cs_DependsOn s = containerName <$> members).
Proof.
  unfold cluster_doc. cbn [doc_Services]. rewrite lookup_app. destruct i as [|i]; cbn [lookup list_lookup length].
  - intros [= <-]. left. exists (cc_PrimaryName inp). split_and!; [set_solver|done|by left].
  - change (S i - 1) with (i - 0). rewrite Nat.sub_0_r, lookup_app. destruct (imap _ _ !! i) as [s'|] eqn:E.
    + intros [= <-]. rewrite list_lookup_imap in E. destruct (cc_Replicas inp !! i) as [n|] eqn:En; [|done].
      injection E as <-. left. exists n. apply list_elem_of_lookup_2 in En. split_and!; [set_solver|done|right; split; [lia|done]].
    + apply lookup_ge_None in E. rewrite length_imap in *. intros [Hi <-]%list_lookup_singleton_Some. right.
      split_and!; [cbn; lia|done|done].
Qed.

Lemma cluster_startable :
  NoDup members → ¬ (port ≤ routerPort ≤ port + Z.of_nat (length (cc_Replicas inp)))%Z → startable (cluster_doc inp).
Proof.
  intros Hnd Hports. split_and!.
  - rewrite cluster_names. apply NoDup_app. split_and!; [by apply (NoDup_fmap_2 _)|set_solver|apply NoDup_singleton].
  - intros l1 s l2 Hs.
    assert (doc_Services (cluster_doc inp) !! length l1 = Some s) as Hi by (rewrite Hs; by apply list_lookup_middle).
    pose proof cluster_names as Hnames. rewrite Hs, fmap_app in Hnames.
    assert (cs_Name <$> l1 = take (length l1) ((containerName <$> members) ++ [routerName (cc_Name inp)])) as ->.
    { rewrite <- Hnames. by rewrite take_app_length' by by rewrite length_fmap. }
    apply cluster_service_cases in Hi as [(n & _ & _ & [->|[Hpos ->]])|(Hlen & _ & ->)]; [set_solver| |].
    + destruct l1 as [|s0 l1]; [cbn in Hpos; lia|]. cbn. set_solver.
    + rewrite Hlen. by rewrite take_app_length' by by rewrite length_fmap.
  - intros s [i Hi]%list_elem_of_lookup_1. apply cluster_service_cases in Hi as [(n & Hn & -> & _)|(_ & -> & _)]; [|set_solver].
    by apply volumes_in.
  - by apply volumes_NoDup.
  - rewrite cluster_ports. apply NoDup_app. split_and!; [|intros p Hp|apply NoDup_singleton].
    + apply NoDup_alt. intros i j p Hi Hj. rewrite list_lookup_imap in Hi, Hj.
      destruct (members !! i), (members !! j); simplify_eq/=. lia.
    + apply elem_of_lookup_imap in Hp as (i & n & -> & Hi). apply lookup_lt_Some in Hi. cbn in Hi.
      intros Heq%list_elem_of_singleton. lia.
Qed.
End cluster_parts.

(** A client of the API that reads the document of a cluster back gets the
    services, ports, mounts, dependencies and volumes that were meant, whatever the
    settings hold that validation lets through.  When the members' names differ and
    the router's port is not among those given to the members, that document can be
    started. *)
Theorem compose_roundtrip (inp : ClusterComposeInput) :
  compose_clean inp →
  read_compose (ClusterCompose inp) = cluster_doc inp ∧
  (NoDup (cc_PrimaryName inp :: cc_Replicas inp) →
   ¬ (port_or (cc_Port inp) 5432 ≤ port_or (cc_RouterPort inp) 6432 ≤
      port_or (cc_Port inp) 5432 + Z.of_nat (length (cc_Replicas inp)))%Z →
   startable (cluster_doc inp)).
Proof.
  intros Hc. split; [by apply read_cluster|]. intros Hnd Hports.
  by apply cluster_startable.
Qed.

Lemma compose_roundtrip_witness :
  let inp := compose_input "orders"
    [sample_member "orders-1" RolePrimary "local"; sample_member "orders-2" RoleReplica "local"] in
  compose_clean inp ∧ read_compose (ClusterCompose inp) = cluster_doc inp ∧ startable (cluster_doc inp).
Proof.
  intros inp. assert (Hc : compose_clean inp) by (unfold compose_clean; split_and!; [repeat constructor..|cbn; lia|cbn; lia]).
  split; [exact Hc|]. destruct (compose_roundtrip inp Hc) as [Hr Hs]. split; [exact Hr|]. apply Hs.
  - apply (bool_decide_unpack _). vm_compute. exact I.
  - cbn. intros [H1 H2]. vm_compute in H2. congruence.
Defined.
