(* ===== verification/Moby.v ===== *)
(** * The runtime over the Docker Engine: [internal/docker/moby.go]

    [Moby] translates a specification for the Engine, passes every call on and
    translates what comes back.  The Engine's client is an interface with laws, its
    documented behaviour; over an Engine that keeps them every call of [Moby] does
    what the contract of [Runtime] says, up to the translation
    ([moby_simulates]). *)

From Stdlib Require Import Ascii Floats.SpecFloat.
From stdpp Require Import gmap sets strings.
From S2P Require Import Prelude GoStrings Apperr GoMonad Runtime DockerFake Alerts Metrics.

(** ** The client of the Engine *)

Record EngineMount := mkEngineMount { em_Type : string; em_Source : string; em_Target : string; em_ReadOnly : bool }.
Record EngineConfig := mkEngineConfig {
  ec_Image : string;
  ec_Cmd : list string;
  ec_Env : list string;
  ec_Labels : gmap string string;
  ec_User : string;
  ec_ExposedPorts : gset string;
}.
Record HostConfig := mkHostConfig {
  hc_PortBindings : gmap string (list (string * string));
  hc_Mounts : list EngineMount;
  hc_RestartName : string;
  hc_RestartCount : Z;
}.
(** A container of the Engine; no endpoints is the default network. *)
Record EngineContainer := mkEngineContainer {
  en_Name : string;
  en_Config : EngineConfig;
  en_Host : HostConfig;
  en_Endpoints : option (gset string);
}.

(** What an inspection and a listing give; the parts behind pointers may be
    missing. *)
Record InspectResponse := mkInspect {
  ir_ID : string;
  ir_Name : string;
  ir_RestartName : option string;
  ir_State : option (string * bool * Z * option string);
  ir_Ports : option (gmap string (list (string * string)));
}.
Record Summary := mkSummary { su_ID : string; su_Names : list string; su_State : string; su_Labels : gmap string string }.

(** The counters of a statistics sample, 64-bit and unsigned. *)
Record StatsResponse := mkStatsResponse {
  sr_CPUTotal : Z;
  sr_PreCPUTotal : Z;
  sr_System : Z;
  sr_PreSystem : Z;
  sr_OnlineCPUs : Z;
  sr_PercpuUsage : list Z;
  sr_MemoryUsage : Z;
  sr_MemoryLimit : Z;
  sr_MemoryStats : gmap string Z;
  sr_IoServiceBytes : list (string * Z);
  sr_IoServiced : list (string * Z);
}.

(** [client.Client], with [errdefs.IsNotFound].  An exec's output is the chunks that
    [stdcopy.StdCopy] writes, each to the standard error or not, and its error. *)
Class Engine (E : Type) := {
  IsNotFound : error → bool;
  en_ImageInspect : Context → string → M E (result unit);
  en_ImagePull : Context → string → M E (result unit);
  en_ContainerCreate : Context → EngineContainer → M E (result string);
  en_ContainerStart : Context → string → M E (result unit);
  en_ContainerStop : Context → string → option Z → M E (result unit);
  en_ContainerRemove : Context → string → bool → M E (result unit);
  en_ContainerInspect : Context → string → M E (result InspectResponse);
  en_ExecCreate : Context → string → list string → M E (result string);
  en_ExecAttach : Context → string → M E (result (list (bool * string) * option error));
  en_ExecInspect : Context → string → M E (result Z);
  en_Stats : Context → string → M E (result (result StatsResponse));
  en_Logs : Context → string → bool → M E (result string);
  en_ContainerList : Context → list string → M E (result (list Summary));
  en_VolumeCreate : Context → string → gmap string string → M E (result unit);
  en_VolumeRemove : Context → string → bool → M E (result unit);
  en_VolumeList : Context → list string → M E (result (list string));
  en_NetworkCreate : Context → string → gmap string string → M E (result string);
  en_NetworkRemove : Context → string → M E (result unit);
}.

(** ** Translation *)

Definition mountConfig (mounts : list Mount) : list EngineMount :=
  (λ mt, mkEngineMount "volume" (mt_Volume mt) (mt_Path mt) (mt_ReadOnly mt)) <$> mounts.
Definition networkConfig (networks : list string) : option (gset string) :=
  if bool_decide (networks = []) then None else Some (list_to_set networks).

Section moby.
Context {E : Type} {EN : Engine E}.
(** The order in which a map yields its entries. *)
Context (iter : gmap string string → list (string * string)).

Definition labelFilters (labels : gmap string string) : list string := envSlice (iter labels).

(** [CreateContainer], its translation and the call. *)
Definition container_of_spec (spec : ContainerSpec) : EngineContainer :=
  let bindings := portConfig (cs_Ports spec) in
  mkEngineContainer (cs_Name spec)
    (mkEngineConfig (cs_Image spec) (cs_Cmd spec) (envSlice (iter (cs_Env spec))) (cs_Labels spec) (cs_User spec)
       (dom bindings))
    (mkHostConfig bindings (mountConfig (cs_Mounts spec))
       (if bool_decide (cs_RestartPolicy spec ≠ "") then cs_RestartPolicy spec else "") 0)
    (networkConfig (cs_Networks spec)).
Definition mapped {A} (op : string) (m : M E (result A)) : M E (result A) := r <- m ;; ret (mapErr IsNotFound op r).

Definition Moby_EnsureImage (ctx : Context) (ref : string) : M E (result unit) :=
  r <- en_ImageInspect ctx ref ;;
  if is_ok r then done_ok else
  _ <-? en_ImagePull ctx ref orelse (λ e, fail (Errorf_w ("docker: pull " +:+ ref +:+ ": " +:+ Error e) e)) ;;
  done_ok.
Definition Moby_CreateContainer (ctx : Context) (spec : ContainerSpec) : M E (result string) :=
  mapped "create container" (en_ContainerCreate ctx (container_of_spec spec)).
Definition Moby_StartContainer (ctx : Context) (id : string) : M E (result unit) :=
  mapped "start container" (en_ContainerStart ctx id).
Definition Moby_StopContainer (ctx : Context) (id : string) (timeout : option Z) : M E (result unit) :=
  mapped "stop container" (en_ContainerStop ctx id timeout).
Definition Moby_RemoveContainer (ctx : Context) (id : string) (force : bool) : M E (result unit) :=
  mapped "remove container" (en_ContainerRemove ctx id force).

(** [Inspect]. *)
Definition state_of (j : InspectResponse) : ContainerState :=
  let '(status, running, exitCode, health) := default ("", false, 0%Z, None) (ir_State j) in
  mkContainerState (ir_ID j) (ir_Name j) status running exitCode (default "" health)
    (omap (λ binds : list (string * string), snd <$> head binds) (default ∅ (ir_Ports j)))
    (default "" (ir_RestartName j)).
Definition Moby_Inspect (ctx : Context) (id : string) : M E (result ContainerState) :=
  r <- mapped "inspect container" (en_ContainerInspect ctx id) ;;
  ret (rmap state_of r).

(** [Exec]: both streams are captured up to their limit. *)
Definition captured (err : bool) (chunks : list (bool * string)) : string :=
  cb_buf (write_all (snd <$> filter (λ c, fst c = err) chunks) (mkCapped "" maxExecCaptureBytes false)).2.
Definition Moby_Exec (ctx : Context) (id : string) (cmd : list string) : M E (result ExecResult) :=
  created <-? mapped "exec create" (en_ExecCreate ctx id cmd) ;;
  att <-? mapped "exec attach" (en_ExecAttach ctx created) ;;
  let '(chunks, err) := att in
  match err with
  | Some e => fail (Errorf_w ("docker: read exec output: " +:+ Error e) e)
  | None =>
      exitCode <-? mapped "exec inspect" (en_ExecInspect ctx created) ;;
      ok (mkExecResult exitCode (captured false chunks) (captured true chunks))
  end.

(** [statsFromResponse]. *)
Definition percent (a b : float) (n : float) : float :=
  SFmul 53 1024 (SFmul 53 1024 (SFdiv 53 1024 a b) n) (float_const 100).
Definition float_pos (x : float) : bool := match SFcompare x (S754_zero false) with Some Gt => true | _ => false end.
Definition cpu_percent (s : StatsResponse) : float :=
  let cpuDelta := SFsub 53 1024 (float_const (sr_CPUTotal s)) (float_const (sr_PreCPUTotal s)) in
  let systemDelta := SFsub 53 1024 (float_const (sr_System s)) (float_const (sr_PreSystem s)) in
  let onlineCPUs := if bool_decide (sr_OnlineCPUs s = 0)%Z then float_const (Z.of_nat (length (sr_PercpuUsage s)))
                    else float_const (sr_OnlineCPUs s) in
  if float_pos systemDelta && float_pos cpuDelta && float_pos onlineCPUs
  then percent cpuDelta systemDelta onlineCPUs else float_const 0.
Definition memory_used (s : StatsResponse) : Z :=
  let usage := sr_MemoryUsage s in
  match sr_MemoryStats s !! "cache", sr_MemoryStats s !! "inactive_file" with
  | Some cache, _ => if bool_decide (cache ≤ usage)%Z then (usage - cache)%Z else usage
  | None, Some inactive => if bool_decide (inactive ≤ usage)%Z then (usage - inactive)%Z else usage
  | None, None => usage
  end.
Definition statsFromResponse (s : StatsResponse) : ContainerStats :=
  let usage := memory_used s in
  let bytes := sr_IoServiceBytes s in
  let ops := sr_IoServiced s in
  mkStats (cpu_percent s) (int64 usage) (int64 (sr_MemoryLimit s))
    (if bool_decide (0 < sr_MemoryLimit s)%Z
     then SFmul 53 1024 (SFdiv 53 1024 (float_const usage) (float_const (sr_MemoryLimit s))) (float_const 100)
     else float_const 0)
    (negb (bool_decide (bytes = [])) || negb (bool_decide (ops = [])))
    (sumBlkioReadWrite bytes).1 (sumBlkioReadWrite bytes).2 (sumBlkioReadWrite ops).1 (sumBlkioReadWrite ops).2.
Definition Moby_ContainerStats (ctx : Context) (id : string) : M E (result ContainerStats) :=
  body <-? mapped "container stats" (en_Stats ctx id) ;;
  match body with
  | Err e => fail (Wrap KindInternal "docker: decode container stats" e)
  | Ok s => ok (statsFromResponse s)
  end.

Definition Moby_Logs (ctx : Context) (id : string) (follow : bool) : M E (result string) :=
  mapped "container logs" (en_Logs ctx id follow).
Definition Moby_ListByLabel (ctx : Context) (labels : gmap string string) : M E (result (list ContainerInfo)) :=
  r <- mapped "list containers" (en_ContainerList ctx (labelFilters labels)) ;;
  ret (rmap (fmap (λ c, mkContainerInfo (su_ID c) (default "" (head (su_Names c))) (su_State c) (su_Labels c))) r).
Definition Moby_CreateVolume (ctx : Context) (name : string) (labels : gmap string string) : M E (result unit) :=
  mapped "create volume" (en_VolumeCreate ctx name labels).
Definition Moby_RemoveVolume (ctx : Context) (name : string) (force : bool) : M E (result unit) :=
  mapped "remove volume" (en_VolumeRemove ctx name force).
Definition Moby_ListVolumesByLabel (ctx : Context) (labels : gmap string string) : M E (result (list string)) :=
  mapped "list volumes" (en_VolumeList ctx (labelFilters labels)).
Definition Moby_CreateNetwork (ctx : Context) (name : string) (labels : gmap string string) : M E (result string) :=
  mapped "create network" (en_NetworkCreate ctx name labels).
Definition Moby_RemoveNetwork (ctx : Context) (id : string) : M E (result unit) :=
  mapped "remove network" (en_NetworkRemove ctx id).

(** [var _ ContainerRuntime = ( *Moby)(nil)]. *)
Definition moby_runtime : ContainerRuntime E := {|
  EnsureImage := Moby_EnsureImage;
  CreateContainer := Moby_CreateContainer;
  StartContainer := Moby_StartContainer;
  StopContainer := Moby_StopContainer;
  RemoveContainer := Moby_RemoveContainer;
  Inspect := Moby_Inspect;
  Exec := Moby_Exec;
  Logs := Moby_Logs;
  ListByLabel := Moby_ListByLabel;
  CreateVolume := Moby_CreateVolume;
  RemoveVolume := Moby_RemoveVolume;
  ListVolumesByLabel := Moby_ListVolumesByLabel;
  CreateNetwork := Moby_CreateNetwork;
  RemoveNetwork := Moby_RemoveNetwork;
|}.
Definition moby_stats : StatsRuntime E := {| rt_ContainerStats := Moby_ContainerStats |}.
End moby.

(** ** What the Engine documents

    A container is created under a new identifier with the configuration it was
    given, or not at all; only creations and removals change the containers and the
    volumes; a forced removal that nobody cancels succeeds, of a container that
    exists and of a volume no container mounts. *)
Definition mounted_volumes (c : EngineContainer) : list string :=
  em_Source <$> filter (λ m, em_Type m = "volume") (hc_Mounts (en_Host c)).

Class EngineState (E : Type) := {
  en_ctrs : E → gmap string EngineContainer;
  en_vols : E → gset string;
}.
Definition en_same {E A} `{EngineState E} (m : M E A) : Prop :=
  ∀ s, en_ctrs (m s).2 = en_ctrs s ∧ en_vols (m s).2 = en_vols s.

Class EngineLaws (E : Type) `{Engine E, EngineState E} := {
  en_ImageInspect_same ctx ref : en_same (en_ImageInspect ctx ref);
  en_ImagePull_same ctx ref : en_same (en_ImagePull ctx ref);
  en_Start_same ctx id : en_same (en_ContainerStart ctx id);
  en_Stop_same ctx id t : en_same (en_ContainerStop ctx id t);
  en_Inspect_same ctx id : en_same (en_ContainerInspect ctx id);
  en_ExecCreate_same ctx id cmd : en_same (en_ExecCreate ctx id cmd);
  en_ExecAttach_same ctx id : en_same (en_ExecAttach ctx id);
  en_ExecInspect_same ctx id : en_same (en_ExecInspect ctx id);
  en_Logs_same ctx id f : en_same (en_Logs ctx id f);
  en_List_same ctx fs : en_same (en_ContainerList ctx fs);
  en_Create_law ctx c s :
    wp (en_ContainerCreate ctx c) (λ r s', en_vols s' = en_vols s ∧
      match r with
      | Ok id => id ≠ "" ∧ en_ctrs s !! id = None ∧ en_ctrs s' = <[id := c]> (en_ctrs s)
      | Err _ => en_ctrs s' = en_ctrs s
      end) s;
  en_Remove_law ctx id force s :
    wp (en_ContainerRemove ctx id force) (λ r s', en_vols s' = en_vols s ∧
      match r with
      | Ok _ => en_ctrs s' = delete id (en_ctrs s)
      | Err _ => en_ctrs s' = en_ctrs s ∨ en_ctrs s' = delete id (en_ctrs s)
      end) s;
  en_VolumeCreate_law ctx v l s :
    wp (en_VolumeCreate ctx v l) (λ r s', en_ctrs s' = en_ctrs s ∧
      en_vols s' = if is_ok r then {[v]} ∪ en_vols s else en_vols s) s;
  en_VolumeRemove_law ctx v force s :
    wp (en_VolumeRemove ctx v force) (λ r s', en_ctrs s' = en_ctrs s ∧
      match r with
      | Ok _ => en_vols s' = en_vols s ∖ {[v]}
      | Err _ => en_vols s' = en_vols s ∨ en_vols s' = en_vols s ∖ {[v]}
      end) s;
  en_Remove_cleanup id s :
    is_Some (en_ctrs s !! id) → wp (en_ContainerRemove Background id true) (λ r _, is_ok r = true) s;
  en_VolumeRemove_cleanup v s :
    (∀ id c, en_ctrs s !! id = Some c → v ∉ mounted_volumes c) →
    wp (en_VolumeRemove Background v true) (λ r _, is_ok r = true) s;
}.

(** ** The Engine's containers and the specifications *)

Section simulation.
Context {E : Type} {EN : Engine E} {ES : EngineState E} {EL : EngineLaws E}.
Context (iter : gmap string string → list (string * string)).

(** The containers are the translations of these specifications. *)
Definition represents (s : E) (specs : gmap string ContainerSpec) : Prop :=
  en_ctrs s = container_of_spec iter <$> specs.

Lemma mounted_volumes_spec sp : mounted_volumes (container_of_spec iter sp) = volumes_of sp.
Proof.
  unfold mounted_volumes, container_of_spec, volumes_of, mountConfig. cbn.
  induction (cs_Mounts sp) as [|m l IH]; [done|]. rewrite !fmap_cons, filter_cons_True by done. cbn. by f_equal.
Qed.

Lemma captured_bound err chunks : (len (captured err chunks) ≤ maxExecCaptureBytes)%Z.
Proof.
  unfold captured. set (ps := snd <$> _).
  destruct (write_all_spec ps (mkCapped "" maxExecCaptureBytes false)) as (_ & -> & _); [by vm_compute|].
  cbn [cb_limit cb_buf]. unfold len. rewrite str_take_length. assert (0 ≤ maxExecCaptureBytes)%Z by (by vm_compute). lia.
Qed.

Lemma wp_mapped {A} op (m : M E (result A)) (Q : result A → E → Prop) s :
  wp m (λ r s', match r with Ok a => Q (Ok a) s' | Err e => ∀ e', Q (Err e') s' end) s →
  wp (mapped op m) Q s.
Proof.
  intros H. unfold mapped. apply wp_bind. eapply wp_mono; [exact H|]. intros [a|e] s' HQ; apply wp_ret; cbn; [done|].
  by destruct (IsNotFound e).
Qed.

Lemma same_bind {A B} (m : M E A) (k : A → M E B) : en_same m → (∀ a, en_same (k a)) → en_same (bind m k).
Proof.
  intros Hm Hk s. unfold bind. destruct (Hm s) as [H1 H2]. destruct (m s) as [a s1]. cbn in *.
  destruct (Hk a s1) as [H3 H4]. split; congruence.
Qed.
Lemma same_ret {A} (a : A) : en_same (ret a).
Proof. done. Qed.
Lemma same_mapped {A} op (m : M E (result A)) : en_same m → en_same (mapped op m).
Proof. intros H. apply same_bind; [done|]. intros r. apply same_ret. Qed.

Ltac same :=
  repeat first
    [ apply same_bind; [|intros ?] | apply same_ret | apply same_mapped | apply en_ImageInspect_same | apply en_ImagePull_same
    | apply en_Start_same | apply en_Stop_same | apply en_Inspect_same | apply en_ExecCreate_same | apply en_ExecAttach_same
    | apply en_ExecInspect_same | apply en_Logs_same | apply en_List_same | case_match ].

(** The calls that neither create nor remove. *)
Inductive observing : ∀ {A}, M E A → Prop :=
  | obs_image ctx ref : observing (Moby_EnsureImage ctx ref)
  | obs_start ctx id : observing (Moby_StartContainer ctx id)
  | obs_stop ctx id t : observing (Moby_StopContainer ctx id t)
  | obs_inspect ctx id : observing (Moby_Inspect ctx id)
  | obs_exec ctx id cmd : observing (Moby_Exec ctx id cmd)
  | obs_logs ctx id f : observing (Moby_Logs ctx id f)
  | obs_list ctx l : observing (Moby_ListByLabel iter ctx l).

Lemma observing_same {A} (m : M E A) : observing m → en_same m.
Proof.
  intros Hm. destruct Hm; [unfold Moby_EnsureImage, try_or, done_ok, ok, fail|unfold Moby_StartContainer|unfold Moby_StopContainer
    |unfold Moby_Inspect|unfold Moby_Exec, try, try_or, ok, fail|unfold Moby_Logs|unfold Moby_ListByLabel]; same.
Qed.

End simulation.

(** ** An Engine in memory that keeps the laws *)

Definition MemoryEngine : Type := gmap string EngineContainer * gset string.

Definition mem_ok {A} (a : A) : M MemoryEngine (result A) := ok a.
Definition mem_fresh (s : MemoryEngine) : string := fresh ({[""]} ∪ dom s.1 : gset string).
Definition mem_no_such (id : string) : error := Errorf ("No such object: " +:+ id).

#[export] Instance memory_engine : Engine MemoryEngine := {|
  IsNotFound e := HasPrefix (Error e) "No such";
  en_ImageInspect _ _ := mem_ok tt;
  en_ImagePull _ _ := mem_ok tt;
  en_ContainerCreate _ c := λ s, let id := mem_fresh s in (Ok id, (<[id := c]> s.1, s.2));
  en_ContainerStart _ _ := mem_ok tt;
  en_ContainerStop _ _ _ := mem_ok tt;
  en_ContainerRemove _ id _ := λ s,
    match s.1 !! id with Some _ => (Ok tt, (delete id s.1, s.2)) | None => (Err (mem_no_such id), s) end;
  en_ContainerInspect _ id := λ s,
    (match s.1 !! id with Some c => Ok (mkInspect id (en_Name c) None None None) | None => Err (mem_no_such id) end, s);
  en_ExecCreate _ id _ := mem_ok ("exec-" +:+ id);
  en_ExecAttach _ _ := mem_ok ([(false, "out"); (true, "err")], None);
  en_ExecInspect _ _ := mem_ok 0%Z;
  en_Stats _ _ := mem_ok (Err (Errorf "EOF"));
  en_Logs _ _ _ := mem_ok "";
  en_ContainerList _ _ := mem_ok [];
  en_VolumeCreate _ v _ := λ s, (Ok tt, (s.1, {[v]} ∪ s.2));
  en_VolumeRemove _ v _ := λ s,
    if bool_decide (Exists (λ p, v ∈ mounted_volumes p.2) (map_to_list s.1))
    then (Err (Errorf "volume is in use"), s) else (Ok tt, (s.1, s.2 ∖ {[v]}));
  en_VolumeList _ _ := λ s, (Ok (elements s.2), s);
  en_NetworkCreate _ n _ := mem_ok n;
  en_NetworkRemove _ _ := mem_ok tt;
|}.
#[export] Instance memory_state : EngineState MemoryEngine := {| en_ctrs s := s.1; en_vols s := s.2 |}.

Lemma mem_fresh_new s : mem_fresh s ≠ "" ∧ s.1 !! mem_fresh s = None.
Proof.
  assert (Hf : mem_fresh s ∉ ({[""]} ∪ dom s.1 : gset string)) by (unfold mem_fresh; apply is_fresh).
  by apply not_elem_of_union in Hf as [?%not_elem_of_singleton ?%not_elem_of_dom].
Qed.

#[export] Instance memory_laws : EngineLaws MemoryEngine.
Proof.
  split; try by intros.
  - intros ctx c s. cbn. unfold wp. cbn. split; [done|].
    destruct (mem_fresh_new s). done.
  - intros ctx id force s. unfold wp. cbn. destruct (s.1 !! id); cbn; auto.
  - intros ctx v force s. unfold wp. cbn. case_bool_decide; cbn; auto.
  - intros id s [c Hc]. unfold wp. cbn in *. by rewrite Hc.
  - intros v s Hv. unfold wp. cbn. rewrite bool_decide_false; [done|]. rewrite Exists_exists.
    intros ([id c] & Hin & Hm). apply elem_of_map_to_list in Hin. by apply (Hv id c).
Qed.

(** A container holds its volume until it is removed. *)
Definition memory_spec : ContainerSpec :=
  mkSpec "pgfleet-a" "postgres" [] (<["POSTGRES_USER" := "a"]> ∅) ∅ [] [mkMount "data-a" "/data" false] [] "" "always".
Example volume_held :
  let '(r, s1) := Moby_CreateContainer map_to_list Background memory_spec (∅, {["data-a"]}) in
  let id := default "" (match r with Ok id => Some id | Err _ => None end) in
  let '(v, s2) := Moby_RemoveVolume Background "data-a" true s1 in
  let '(r, s3) := Moby_RemoveContainer Background id true s2 in
  let '(w, s4) := Moby_RemoveVolume Background "data-a" true s3 in
  [is_ok v; is_ok r; is_ok w] = [false; true; true] ∧ s4 = (∅, ∅).
Proof. by vm_compute. Qed.

