(* ===== verification/Loadgen.v ===== *)
(** * The load generator: [cmd/loadgen/main.go]

    A harness that seeds two tables, lets workers move money between accounts and
    churn an event ledger concurrently, and then checks that no money was made or
    lost.  The database's tables are maps; a transfer is a transaction that takes
    row locks statement by statement, so transfers of different workers interleave
    at every statement.  [LoadgenSafety] shows that the check passes at every
    moment and that the workers never deadlock. *)

From stdpp Require Import gmap sets strings list sorting.
From S2P Require Import Prelude GoStrings Apperr GoMonad Metrics.

(** ** Configuration *)

(** [config]. *)
Record LoadConfig := mkLoadConfig {
  lg_dsn : string;
  lg_mode : string;
  lg_accounts : Z;
  lg_startBal : Z;
  lg_events : Z;
  lg_workers : Z;
  lg_duration : Z;
  lg_batch : Z;
  lg_dropFirst : bool;
}.

Fixpoint firstNonEmpty (vals : list string) : string :=
  match vals with
  | [] => ""
  | v :: vals => if bool_decide (v ≠ "") then v else firstNonEmpty vals
  end.

(** [parseFlags] without flags on the command line. *)
Definition parseFlags (getenv : string → string) : LoadConfig := {|
  lg_dsn := firstNonEmpty [getenv "LOADGEN_DSN"; getenv "DATABASE_URL"];
  lg_mode := "all";
  lg_accounts := 100000;
  lg_startBal := 1000;
  lg_events := 5000000;
  lg_workers := 32;
  lg_duration := 2 * 60 * 1000000000;
  lg_batch := 10000;
  lg_dropFirst := false;
|}.

Definition errInconsistent : error := Errorf "invariant violated".
Definition ctxCanceled : error := Errorf "context canceled".

(** ** The tables *)

(** [payload] is a JSON object, its values as text. *)
Record EventRow := mkEventRow {
  ev_account : Z;
  ev_kind : string;
  ev_amount : Z;
  ev_payload : gmap string string;
}.
(** [loadgen_accounts] by its primary key, [loadgen_events] with its serial. *)
Record LoadDB := mkLoadDB {
  ld_accounts : gmap Z Z;
  ld_events : gmap Z EventRow;
  ld_next : Z;
}.
Definition empty_tables : LoadDB := mkLoadDB ∅ ∅ 1.

Definition is_bigint (n : Z) : bool := bool_decide (min_int64 ≤ n ≤ max_int64)%Z.
Definition add_event (db : LoadDB) (row : EventRow) : LoadDB :=
  mkLoadDB (ld_accounts db) (<[ld_next db := row]> (ld_events db)) (ld_next db + 1).
Definition set_accounts (m : gmap Z Z) (db : LoadDB) : LoadDB := mkLoadDB m (ld_events db) (ld_next db).
Definition set_events (m : gmap Z EventRow) (db : LoadDB) : LoadDB := mkLoadDB (ld_accounts db) m (ld_next db).

(** The identifiers of the events that satisfy [P], ascending. *)
Definition event_ids (P : EventRow → bool) (db : LoadDB) : list Z :=
  merge_sort Z.le ((map_to_list (filter (λ p, P p.2 = true) (ld_events db))).*1).

(** ** Seeding *)

(** What [seed] does not decide: the errors of the database in its set-up, random
    draws by row, and by batch an error of the database and whether the context is
    done. *)
Record SeedOracle := mkOracle {
  so_drop : option error;
  so_ddl : option error;
  so_accounts : option error;
  so_draw : Z → Z * Z * Z;
  so_copy : nat → option error;
  so_done : nat → bool;
}.

(** [SeedMore]: the batches given did not suffice. *)
Inductive Seeding := Seeded | SeedError (e : error) | SeedPanic (msg : string) | SeedMore.

Definition kinds : list string := ["deposit"; "withdrawal"; "transfer"; "fee"; "interest"].

(** The rows [copyAccounts] sends; the primary key refuses one that exists. *)
Definition account_rows (n bal : Z) : gmap Z Z :=
  list_to_map ((λ i, (Z.of_nat i + 1, bal)%Z) <$> seq 0 (Z.to_nat n)).

Section seed.
(** The errors of the database, by what is wrong. *)
Context (pgError : string → error) (cfg : LoadConfig).

Definition copyAccounts (db : LoadDB) : result LoadDB :=
  let rows := account_rows (lg_accounts cfg) (lg_startBal cfg) in
  if bool_decide (rows ##ₘ ld_accounts db) then Ok (set_accounts (rows ∪ ld_accounts db) db)
  else Err (pgError "duplicate key").

(** The row [i] of [copyEvents]; [rand.Int64N] panics unless its argument is
    positive. *)
Definition seed_row (o : SeedOracle) (i : Z) : option EventRow :=
  let '(a, k, v) := so_draw o i in
  if bool_decide (0 < lg_accounts cfg)%Z then
    Some (mkEventRow (a mod lg_accounts cfg + 1) (nth (Z.to_nat (k mod 5)) kinds "") (v mod 10000)
            (<["seq" := itoa i]> (<["src" := Quote "seed"]> (<["note" := Quote ("row-" +:+ itoa i)]> ∅))))
  else None.
Definition copyEvents (o : SeedOracle) (offset n : Z) (db : LoadDB) : option LoadDB :=
  rows ← mapM (λ i, seed_row o (offset + Z.of_nat i + 1)) (seq 0 (Z.to_nat n));
  Some (foldl add_event db rows).

(** The loop over the batches of events. *)
Fixpoint seed_events (o : SeedOracle) (fuel k : nat) (loaded : Z) (db : LoadDB) : Seeding * LoadDB :=
  if bool_decide (loaded < lg_events cfg)%Z then
    match fuel with
    | O => (SeedMore, db)
    | S fuel =>
        if so_done o k then (SeedError ctxCanceled, db) else
        let rem := (lg_events cfg - loaded)%Z in
        let n := if bool_decide (rem < lg_batch cfg)%Z then rem else lg_batch cfg in
        match so_copy o k with
        | Some e => (SeedError e, db)
        | None =>
            match copyEvents o loaded n db with
            | None => (SeedPanic "invalid argument to Int64N", db)
            | Some db =>
                let loaded := int64 (loaded + n) in
                if bool_decide (int64 (lg_batch cfg * 10) = 0)%Z then (SeedPanic "integer divide by zero", db)
                else seed_events o fuel (S k) loaded db
            end
        end
    end
  else (Seeded, db).

(** [seed], on the tables if they exist. *)
Definition seed (o : SeedOracle) (fuel : nat) (tables : option LoadDB) : Seeding * option LoadDB :=
  match (if lg_dropFirst cfg then so_drop o else None) with
  | Some e => (SeedError (Errorf_w ("drop: " +:+ Error e) e), tables)
  | None =>
      let tables := if lg_dropFirst cfg then None else tables in
      match so_ddl o with
      | Some e => (SeedError (Errorf_w ("ddl: " +:+ Error e) e), tables)
      | None =>
          let db := default empty_tables tables in
          match (match so_accounts o with Some e => Err e | None => copyAccounts db end) with
          | Err e => (SeedError e, Some db)
          | Ok db => prod_map id Some (seed_events o fuel 0 0 db)
          end
      end
  end.
End seed.

(** ** A transfer *)

(** Where a transfer is: about to run its first statement, and so on. *)
Inductive Phase := LockA | LockB (balA : Z) | Debit | Credit | RecordBoth | Commit.
(** A running transaction, with the writes nobody else sees yet. *)
Record Tx := mkTx {
  tx_from : Z;
  tx_to : Z;
  tx_amount : Z;
  tx_phase : Phase;
  tx_writes : gmap Z Z;
  tx_rows : list EventRow;
}.

Definition tx_low (tx : Tx) : Z := if bool_decide (tx_from tx > tx_to tx)%Z then tx_to tx else tx_from tx.
Definition tx_high (tx : Tx) : Z := if bool_decide (tx_from tx > tx_to tx)%Z then tx_from tx else tx_to tx.
(** The rows it has locked. *)
Definition holds (tx : Tx) : gset Z :=
  match tx_phase tx with LockA => ∅ | LockB _ => {[tx_low tx]} | _ => {[tx_low tx; tx_high tx]} end.
Definition at_phase (p : Phase) (tx : Tx) : Tx :=
  mkTx (tx_from tx) (tx_to tx) (tx_amount tx) p (tx_writes tx) (tx_rows tx).

(** [Finished]: the function given to [BeginFunc] has returned nil. *)
Inductive TxStep := Blocked | Next (tx : Tx) | Failed (e : error) | Finished.

Section transfer.
Context (pgError : string → error).
(** The committed balances, and the rows that others have locked. *)
Context (accounts : gmap Z Z) (locked : Z → bool).

(** [SELECT balance ... FOR UPDATE]. *)
Definition select_for_update (id : Z) (k : Z → TxStep) : TxStep :=
  if locked id then Blocked else
  match accounts !! id with
  | None => Failed (pgError "no rows in result set")
  | Some bal => k bal
  end.
(** [UPDATE ... SET balance = balance + delta WHERE id = id]. *)
Definition update_balance (id delta : Z) (p : Phase) (tx : Tx) : TxStep :=
  match (tx_writes tx ∪ accounts) !! id with
  | None => Next (at_phase p tx)
  | Some bal =>
      if is_bigint (bal + delta)
      then Next (mkTx (tx_from tx) (tx_to tx) (tx_amount tx) p (<[id := (bal + delta)%Z]> (tx_writes tx)) (tx_rows tx))
      else Failed (pgError "bigint out of range")
  end.

(** The statements of [opTransfer], one at a time. *)
Definition opTransfer (tx : Tx) : TxStep :=
  let '(from, to, amount) := (tx_from tx, tx_to tx, tx_amount tx) in
  match tx_phase tx with
  | LockA => select_for_update (tx_low tx) (λ balA, Next (at_phase (LockB balA) tx))
  | LockB balA => select_for_update (tx_high tx) (λ balB,
      if bool_decide (from = tx_low tx)
      then if bool_decide (balA < amount)%Z then Next (at_phase Commit tx) else Next (at_phase Debit tx)
      else if bool_decide (balB < amount)%Z then Next (at_phase Commit tx) else Next (at_phase Debit tx))
  | Debit => update_balance from (- amount) Credit tx
  | Credit => update_balance to amount RecordBoth tx
  | RecordBoth =>
      Next (mkTx from to amount Commit (tx_writes tx)
              [mkEventRow from "transfer" (- amount) (<["to" := itoa to]> ∅);
               mkEventRow to "transfer" amount (<["from" := itoa from]> ∅)])
  | Commit => Finished
  end.
End transfer.

(** ** Churn: the workers *)

Record Stats := mkLoadStats {
  st_transfer : Z; st_transferErr : Z;
  st_insert : Z; st_insertErr : Z;
  st_update : Z; st_updateErr : Z;
  st_del : Z; st_delErr : Z;
  st_read : Z; st_readErr : Z;
}.
Definition no_stats : Stats := mkLoadStats 0 0 0 0 0 0 0 0 0 0.

Inductive LoadOp := OpTransfer | OpInsertEvent | OpUpdateEvent | OpDeleteEvent | OpSelect.
#[export] Instance LoadOp_eq_dec : EqDecision LoadOp.
Proof. solve_decision. Defined.
(** The mix of [worker], by the number drawn below 100. *)
Definition op_of_draw (n : Z) : LoadOp :=
  if bool_decide (n < 35)%Z then OpTransfer
  else if bool_decide (n < 60)%Z then OpInsertEvent
  else if bool_decide (n < 75)%Z then OpUpdateEvent
  else if bool_decide (n < 85)%Z then OpDeleteEvent
  else OpSelect.

(** [record] on the counters of an operation, 64-bit. *)
Definition stats_record (o : LoadOp) (failed : bool) (s : Stats) : Stats :=
  let '(mkLoadStats t te i ie u ue d de r re) := s in
  let inc n := int64 (n + 1) in
  match o, failed with
  | OpTransfer, false => mkLoadStats (inc t) te i ie u ue d de r re
  | OpTransfer, true => mkLoadStats t (inc te) i ie u ue d de r re
  | OpInsertEvent, false => mkLoadStats t te (inc i) ie u ue d de r re
  | OpInsertEvent, true => mkLoadStats t te i (inc ie) u ue d de r re
  | OpUpdateEvent, false => mkLoadStats t te i ie (inc u) ue d de r re
  | OpUpdateEvent, true => mkLoadStats t te i ie u (inc ue) d de r re
  | OpDeleteEvent, false => mkLoadStats t te i ie u ue (inc d) de r re
  | OpDeleteEvent, true => mkLoadStats t te i ie u ue d (inc de) r re
  | OpSelect, false => mkLoadStats t te i ie u ue d de (inc r) re
  | OpSelect, true => mkLoadStats t te i ie u ue d de r (inc re)
  end.

(** The statements outside of transactions; [None] is an error. *)
Definition opInsertEvent (acct amount : Z) (db : LoadDB) : option LoadDB :=
  Some (add_event db (mkEventRow acct "deposit" amount (<["src" := Quote "churn"]> ∅))).
Definition touch (ev : EventRow) : EventRow :=
  mkEventRow (ev_account ev) (ev_kind ev) (ev_amount ev + 1) (<["touched" := "true"]> (ev_payload ev)).
Definition opUpdateEvent (acct : Z) (db : LoadDB) : option LoadDB :=
  let ids := take 5 (reverse (event_ids (λ ev, bool_decide (ev_account ev = acct)) db)) in
  let events := foldr (alter touch) (ld_events db) ids in
  if bool_decide (map_Forall (λ _ ev, is_bigint (ev_amount ev) = true) events) then Some (set_events events db) else None.
Definition opDeleteEvent (db : LoadDB) : option LoadDB :=
  let ids := take 3 (event_ids (λ ev, bool_decide (ev_kind ev = "fee")) db) in
  Some (set_events (foldr delete (ld_events db) ids) db).
(** The sum is read into 64 bits. *)
Definition opSelect (acct : Z) (db : LoadDB) : option LoadDB :=
  let rows := filter (λ p, ev_account p.2 = acct) (map_to_list (ld_events db)) in
  if is_bigint (foldr (λ p n, (ev_amount p.2 + n)%Z) 0%Z rows) then Some db else None.

Record World := mkLoadWorld {
  lw_db : LoadDB;
  lw_running : gmap nat Tx;
  lw_stats : Stats;
}.

(** What can happen next: a worker begins a transfer, runs its next statement or
    commits it (the client may miss the answer), a transaction fails and is rolled
    back at any moment, or a statement outside of a transaction runs or fails. *)
Inductive Move :=
  | Begin (wk : nat) (from to amount : Z)
  | Advance (wk : nat)
  | Finish (wk : nat) (acked : bool)
  | Rollback (wk : nat)
  | InsertEvent (wk : nat) (acct amount : Z)
  | UpdateEvents (wk : nat) (acct : Z)
  | DeleteEvents (wk : nat)
  | SelectEvents (wk : nat) (acct : Z)
  | StatementFails (wk : nat) (o : LoadOp).

Section churn.
Context (pgError : string → error) (cfg : LoadConfig).

Definition is_account (id : Z) : bool := bool_decide (1 ≤ id ≤ lg_accounts cfg)%Z.
Definition idle (wk : nat) (w : World) : bool :=
  bool_decide (Z.of_nat wk < lg_workers cfg)%Z && bool_decide (lw_running w !! wk = None).
Definition locked_for (wk : nat) (w : World) (id : Z) : bool :=
  bool_decide (map_Exists (λ wk' tx, wk' ≠ wk ∧ id ∈ holds tx) (lw_running w)).

Definition with_tx (wk : nat) (tx : Tx) (w : World) : World :=
  mkLoadWorld (lw_db w) (<[wk := tx]> (lw_running w)) (lw_stats w).
Definition end_tx (wk : nat) (db : LoadDB) (failed : bool) (w : World) : World :=
  mkLoadWorld db (delete wk (lw_running w)) (stats_record OpTransfer failed (lw_stats w)).
Definition committed (tx : Tx) (db : LoadDB) : LoadDB :=
  foldl add_event (set_accounts (tx_writes tx ∪ ld_accounts db) db) (tx_rows tx).
(** A statement outside of a transaction, counted. *)
Definition load_statement (wk : nat) (o : LoadOp) (r : option LoadDB) (w : World) : option World :=
  if idle wk w
  then Some (mkLoadWorld (default (lw_db w) r) (lw_running w) (stats_record o (negb (bool_decide (is_Some r))) (lw_stats w)))
  else None.

(** One move, if it is possible. *)
Definition move (l : Move) (w : World) : option World :=
  let db := lw_db w in
  match l with
  | Begin wk from to amount =>
      if idle wk w && is_account from && is_account to && bool_decide (from ≠ to) && bool_decide (1 ≤ amount ≤ 100)%Z
      then Some (with_tx wk (mkTx from to amount LockA ∅ []) w) else None
  | Advance wk =>
      tx ← lw_running w !! wk;
      match opTransfer pgError (ld_accounts db) (locked_for wk w) tx with
      | Next tx => Some (with_tx wk tx w)
      | Failed _ => Some (end_tx wk db true w)
      | Blocked | Finished => None
      end
  | Finish wk acked =>
      tx ← lw_running w !! wk;
      match opTransfer pgError (ld_accounts db) (locked_for wk w) tx with
      | Finished => Some (end_tx wk (committed tx db) (negb acked) w)
      | _ => None
      end
  | Rollback wk => if bool_decide (is_Some (lw_running w !! wk)) then Some (end_tx wk db true w) else None
  | InsertEvent wk acct amount =>
      if is_account acct && bool_decide (0 ≤ amount < 1000)%Z
      then load_statement wk OpInsertEvent (opInsertEvent acct amount db) w else None
  | UpdateEvents wk acct => if is_account acct then load_statement wk OpUpdateEvent (opUpdateEvent acct db) w else None
  | DeleteEvents wk => load_statement wk OpDeleteEvent (opDeleteEvent db) w
  | SelectEvents wk acct => if is_account acct then load_statement wk OpSelect (opSelect acct db) w else None
  | StatementFails wk o => if bool_decide (o ≠ OpTransfer) then load_statement wk o None w else None
  end.
Fixpoint load_moves (ls : list Move) (w : World) : option World :=
  match ls with [] => Some w | l :: ls => w' ← move l w; load_moves ls w' end.

(** [churn] with this schedule, up to the end of its last worker; an interrupt from
    outside is reported, the end of the duration is not.  Without tables every
    operation fails. *)
Definition churn (ls : list Move) (interrupted : bool) (tables : option LoadDB) : option (result unit * option LoadDB) :=
  if bool_decide (lg_accounts cfg < 2)%Z then Some (Err (Errorf "churn needs at least 2 accounts"), tables) else
  let finished := if interrupted then Err ctxCanceled else Ok tt in
  match tables with
  | None => Some (finished, None)
  | Some db =>
      w ← load_moves ls (mkLoadWorld db ∅ no_stats);
      if bool_decide (lw_running w = ∅) then Some (finished, Some (lw_db w)) else None
  end.
End churn.

(** ** Verification *)

Definition pot (accounts : gmap Z Z) : Z := map_fold (λ _ bal sum, (bal + sum)%Z) 0%Z accounts.
Definition min_balance (accounts : gmap Z Z) : Z :=
  match (map_to_list accounts).*2 with [] => 0%Z | b :: bs => foldr Z.min b bs end.
(** [LEFT JOIN ... WHERE a.id IS NULL]. *)
Definition orphans (db : LoadDB) : Z :=
  Z.of_nat (size (filter (λ p, ld_accounts db !! ev_account p.2 = None) (ld_events db))).

Section verify.
Context (pgError : string → error) (cfg : LoadConfig).

(** The problems [verify] finds. *)
Definition problems (count got minBal orphans : Z) : list string :=
  let want := int64 (count * lg_startBal cfg) in
  (if bool_decide (got ≠ want) then
     ["pot drifted by " +:+ itoa (int64 (got - want)) +:+ " (want " +:+ itoa want +:+ ", got " +:+ itoa got +:+ ")"]
   else []) ++
  (if bool_decide (minBal < 0)%Z then ["a balance went negative (min=" +:+ itoa minBal +:+ ")"] else []) ++
  (if bool_decide (orphans ≠ 0)%Z then [itoa orphans +:+ " orphan events"] else []).

(** [verify]. *)
Definition read_error (e : error) : result unit := Err (Errorf_w ("read accounts: " +:+ Error e) e).
Definition verify (tables : option LoadDB) : result unit :=
  match tables with
  | None => read_error (pgError "relation does not exist")
  | Some db =>
      let count := Z.of_nat (size (ld_accounts db)) in
      let got := pot (ld_accounts db) in
      if negb (is_bigint got) then read_error (pgError "cannot scan numeric into int64")
      else if bool_decide (count = 0)%Z then Err (Errorf "verify: no accounts found (seed first)") else
      match problems count got (min_balance (ld_accounts db)) (orphans db) with
      | [] => Ok tt
      | ps => Err (Errorf_w (Error errInconsistent +:+ ": [" +:+ Join ps " " +:+ "]") errInconsistent)
      end
  end.

(** ** The command *)

(** How a run ends: it returns or panics. *)
Inductive RunEnd := Returns (r : result unit) | Panics (msg : string).

Section run.
(** What the run does not decide: the oracle and the batches of the seeding, the
    schedule of the workers, an interrupt. *)
Context (o : SeedOracle) (fuel : nat) (ls : list Move) (interrupted : bool).

Definition run_seed (tables : option LoadDB) : option (RunEnd * option LoadDB) :=
  match seed pgError cfg o fuel tables with
  | (Seeded, tables) => Some (Returns (Ok tt), tables)
  | (SeedError e, tables) => Some (Returns (Err e), tables)
  | (SeedPanic msg, tables) => Some (Panics msg, tables)
  | (SeedMore, _) => None
  end.
Definition run_churn (tables : option LoadDB) : option (RunEnd * option LoadDB) :=
  prod_map Returns id <$> churn pgError cfg ls interrupted tables.
Definition run_verify (tables : option LoadDB) : option (RunEnd * option LoadDB) :=
  Some (Returns (verify tables), tables).
(** Only a phase that returns nil is followed by the next. *)
Definition and_then (r : option (RunEnd * option LoadDB)) (k : option LoadDB → option (RunEnd * option LoadDB)) :
    option (RunEnd * option LoadDB) :=
  x ← r; match x with (Returns (Ok _), tables) => k tables | _ => Some x end.

(** [run]; [None] is a schedule or a number of batches that does not fit. *)
Definition generator_run (tables : option LoadDB) : option (RunEnd * option LoadDB) :=
  let mode := lg_mode cfg in
  if bool_decide (mode = "seed") then run_seed tables
  else if bool_decide (mode = "churn") then run_churn tables
  else if bool_decide (mode = "verify") then run_verify tables
  else if bool_decide (mode = "all") then and_then (and_then (run_seed tables) run_churn) run_verify
  else Some (Returns (Err (Errorf ("unknown mode " +:+ Quote mode +:+ " (want seed|churn|verify|all)"))), tables).
End run.

(** [errors.Is] for an error made by [errors.New], and the exit status of [main]. *)
Fixpoint wraps (target : string) (e : error) : bool :=
  match e with
  | PlainError msg None => bool_decide (msg = target)
  | PlainError _ (Some e) | AppError _ _ (Some e) => wraps target e
  | AppError _ _ None => false
  end.
Definition exit_status (r : result unit) : Z :=
  match r with
  | Ok _ => 0
  | Err e =>
      if wraps (Error errInconsistent) e then 1
      else if wraps (Error ctxCanceled) e then 0
      else 1
  end.
(** [main], from the connection on. *)
Definition main_status (connect : result unit) (r : result unit) : Z :=
  if bool_decide (lg_dsn cfg = "") then 2
  else match connect with Err _ => 1 | Ok _ => exit_status r end.
End verify.
