(* ===== verification/LoadgenSafety.v ===== *)
(** * Why the load generator's check is an oracle

    Whatever the schedule and whatever fails, the money in the accounts is the money
    seeded and every event has its account, so [verify] passes at every moment
    ([verify_passes]); and transfers that lock the lower account first never
    deadlock ([churn_drains]). *)

From stdpp Require Import gmap sets strings list sorting.
From S2P Require Import Prelude GoStrings Apperr GoMonad Metrics Loadgen.

(** ** Sums over a map *)

Definition msum {K A} `{Countable K} (f : A → Z) (m : gmap K A) : Z := map_fold (λ _ x n, (f x + n)%Z) 0%Z m.

Section msum.
Context {K A : Type} `{Countable K} (f : A → Z).
Implicit Types m : gmap K A.

Lemma msum_empty : msum f (∅ : gmap K A) = 0%Z.
Proof. done. Qed.
Lemma msum_fresh m i x : m !! i = None → msum f (<[i:=x]> m) = (f x + msum f m)%Z.
Proof. intros Hi. unfold msum. rewrite map_fold_insert_L; [done|intros; lia|done]. Qed.
Lemma msum_delete m i x : m !! i = Some x → msum f (delete i m) = (msum f m - f x)%Z.
Proof.
  intros Hi. rewrite <- (insert_delete_id m i x) at 2 by done. rewrite msum_fresh by apply lookup_delete_eq. lia.
Qed.
Lemma msum_update m i x y : m !! i = Some x → msum f (<[i:=y]> m) = (msum f m - f x + f y)%Z.
Proof.
  intros Hi. rewrite <- insert_delete_eq, msum_fresh by apply lookup_delete_eq. rewrite (msum_delete m i x) by done. lia.
Qed.
Lemma msum_nonneg m : (∀ i x, m !! i = Some x → (0 ≤ f x)%Z) → (0 ≤ msum f m)%Z.
Proof.
  induction m as [|i x m Hi IH] using map_ind; intros Hm; [by rewrite msum_empty|]. rewrite msum_fresh by done.
  pose proof (Hm i x (lookup_insert_eq _ _ _)). assert (0 ≤ msum f m)%Z; [|lia].
  apply IH. intros j y Hj. apply (Hm j). rewrite lookup_insert_ne by congruence. done.
Qed.
Lemma msum_bound m c : (∀ i x, m !! i = Some x → (f x ≤ c)%Z) → (msum f m ≤ c * Z.of_nat (size m))%Z.
Proof.
  induction m as [|i x m Hi IH] using map_ind; intros Hm; [rewrite msum_empty, map_size_empty; lia|].
  rewrite msum_fresh, map_size_insert_None by done.
  pose proof (Hm i x (lookup_insert_eq _ _ _)). assert (msum f m ≤ c * Z.of_nat (size m))%Z; [|lia].
  apply IH. intros j y Hj. apply (Hm j). rewrite lookup_insert_ne by congruence. done.
Qed.
End msum.

Lemma int64_small n : (min_int64 ≤ n ≤ max_int64)%Z → int64 n = n.
Proof. unfold int64, min_int64, max_int64. intros H. rewrite Z.mod_small by lia. lia. Qed.

Lemma pot_msum m : pot m = msum id m.
Proof. done. Qed.

(** ** A transaction never blocks another that is ahead of it *)

Section locks.
Context (pgError : string → error) (cfg : LoadConfig).

Definition tx_range (tx : Tx) : Prop :=
  is_account cfg (tx_from tx) = true ∧ is_account cfg (tx_to tx) = true ∧ tx_from tx ≠ tx_to tx ∧ (1 ≤ tx_amount tx)%Z.
Definition same_transfer (tx tx' : Tx) : Prop :=
  tx_from tx' = tx_from tx ∧ tx_to tx' = tx_to tx ∧ tx_amount tx' = tx_amount tx.

(** The statements left. *)
Definition tx_left (tx : Tx) : Z :=
  match tx_phase tx with LockA => 6 | LockB _ => 5 | Debit => 4 | Credit => 3 | RecordBoth => 2 | Commit => 1 end.
Definition work (w : World) : Z := msum tx_left (lw_running w).

Lemma tx_low_high tx : tx_range tx →
  (tx_low tx < tx_high tx ∧ 1 ≤ tx_low tx ∧ tx_high tx ≤ lg_accounts cfg)%Z ∧
  ({[tx_low tx; tx_high tx]} : gset Z) = {[tx_from tx; tx_to tx]}.
Proof.
  unfold tx_range, is_account, tx_low, tx_high. intros (H1%bool_decide_eq_true & H2%bool_decide_eq_true & Hne & _).
  case_bool_decide; (split; [lia|set_solver]).
Qed.

Lemma opTransfer_next accounts locked tx tx' : opTransfer pgError accounts locked tx = Next tx' →
  same_transfer tx tx' ∧ (tx_left tx' < tx_left tx)%Z.
Proof.
  unfold opTransfer, select_for_update, update_balance, tx_left, same_transfer.
  destruct tx as [from to am ph ws rows]; destruct ph; cbn; intros; repeat case_match; simplify_eq; cbn; done.
Qed.
Lemma tx_left_range tx : (1 ≤ tx_left tx ≤ 6)%Z.
Proof. unfold tx_left. destruct (tx_phase tx); lia. Qed.

Lemma opTransfer_blocked accounts locked tx : opTransfer pgError accounts locked tx = Blocked →
  (tx_phase tx = LockA ∧ locked (tx_low tx) = true) ∨ (∃ b, tx_phase tx = LockB b ∧ locked (tx_high tx) = true).
Proof.
  unfold opTransfer, select_for_update, update_balance.
  destruct tx as [from to am ph ws rows]; destruct ph; cbn; intros; repeat case_match; simplify_eq; naive_solver.
Qed.

(** ** Moves and the running transactions *)

Lemma statement_some wk o r w w' : load_statement cfg wk o r w = Some w' →
  lw_running w' = lw_running w ∧ lw_db w' = default (lw_db w) r.
Proof. unfold load_statement. intros ?. case_match; by simplify_eq. Qed.

(** What a move does to the tables and to the running transactions. *)
Inductive effect (w w' : World) : Prop :=
  | effect_begin wk tx : tx_range tx → tx_phase tx = LockA → tx_writes tx = ∅ → tx_rows tx = [] →
      lw_db w' = lw_db w → lw_running w' = <[wk:=tx]> (lw_running w) → lw_running w !! wk = None → effect w w'
  | effect_next wk tx tx' : lw_running w !! wk = Some tx →
      opTransfer pgError (ld_accounts (lw_db w)) (locked_for wk w) tx = Next tx' →
      lw_db w' = lw_db w → lw_running w' = <[wk:=tx']> (lw_running w) → effect w w'
  | effect_end wk tx : lw_running w !! wk = Some tx →
      lw_db w' = lw_db w → lw_running w' = delete wk (lw_running w) → effect w w'
  | effect_commit wk tx : lw_running w !! wk = Some tx → tx_phase tx = Commit →
      lw_db w' = committed tx (lw_db w) → lw_running w' = delete wk (lw_running w) → effect w w'
  | effect_events : lw_running w' = lw_running w → ld_accounts (lw_db w') = ld_accounts (lw_db w) →
      (map_Forall (λ _ ev, is_account cfg (ev_account ev) = true) (ld_events (lw_db w)) →
       map_Forall (λ _ ev, is_account cfg (ev_account ev) = true) (ld_events (lw_db w'))) → effect w w'.

Lemma alter_touch (P : EventRow → Prop) ids (m : gmap Z EventRow) : (∀ ev, P ev → P (touch ev)) →
  map_Forall (λ _ ev, P ev) m → map_Forall (λ _ ev, P ev) (foldr (alter touch) m ids).
Proof.
  intros HP Hm. induction ids as [|i ids IH]; [done|]. intros j ev. cbn. intros Hj.
  destruct (decide (i = j)) as [<-|Hne].
  - rewrite lookup_alter_eq in Hj. apply fmap_Some in Hj as (ev' & Hev & ->). by apply HP, (IH i).
  - rewrite lookup_alter_ne in Hj by done. by apply (IH j).
Qed.
Lemma foldr_delete (P : EventRow → Prop) ids (m : gmap Z EventRow) :
  map_Forall (λ _ ev, P ev) m → map_Forall (λ _ ev, P ev) (foldr delete m ids).
Proof. intros Hm. induction ids as [|i ids IH]; [done|]. by apply map_Forall_delete. Qed.

Lemma opTransfer_finished accounts locked tx : opTransfer pgError accounts locked tx = Finished → tx_phase tx = Commit.
Proof.
  unfold opTransfer, select_for_update, update_balance.
  destruct tx as [from to am ph ws rows]; destruct ph; cbn; intros; repeat case_match; by simplify_eq.
Qed.

Lemma move_effect l w w' : move pgError cfg l w = Some w' → effect w w'.
Proof.
  unfold move. destruct l as [wk from to am|wk|wk acked|wk|wk acct am|wk acct|wk|wk acct|wk o]; intros Hm.
  - case_match eqn:Hc; simplify_eq. unfold idle in Hc. rewrite !andb_true_iff, !bool_decide_eq_true in Hc. destruct_and!.
    apply (effect_begin _ _ wk (mkTx from to am LockA ∅ [])); [split_and!; cbn; [done..|lia]|done..].
  - destruct (lw_running w !! wk) as [tx|] eqn:Hwk; [cbn in Hm|done].
    case_match eqn:Hs; simplify_eq; [by eapply effect_next|by eapply effect_end].
  - destruct (lw_running w !! wk) as [tx|] eqn:Hwk; [cbn in Hm|done].
    case_match eqn:Hs; simplify_eq. apply opTransfer_finished in Hs. by eapply effect_commit.
  - case_bool_decide as Hwk; simplify_eq. destruct Hwk as [tx Hwk]. by eapply effect_end.
  - case_match eqn:Hc; [|done]. apply andb_true_iff in Hc as [Hc _]. apply statement_some in Hm as [H1 H2]; cbn in H2.
    apply effect_events; [done|by rewrite H2|]. rewrite H2. intros He. by apply map_Forall_insert_2.
  - case_match eqn:Hc; [|done]. apply statement_some in Hm as [H1 H2]. unfold opUpdateEvent in H2.
    apply effect_events; [done|rewrite H2; by case_bool_decide|]. rewrite H2. intros He. case_bool_decide; [|done]. cbn.
    by apply (alter_touch (λ ev, is_account cfg (ev_account ev) = true)).
  - apply statement_some in Hm as [H1 H2]; cbn in H2. apply effect_events; [done|by rewrite H2|]. rewrite H2. intros He.
    by apply (foldr_delete (λ ev, is_account cfg (ev_account ev) = true)).
  - case_match eqn:Hc; [|done]. apply statement_some in Hm as [H1 H2]. unfold opSelect in H2.
    assert (lw_db w' = lw_db w) as Hdb by (rewrite H2; by case_match). by apply effect_events; [|rewrite Hdb..].
  - case_match; [|done]. apply statement_some in Hm as [H1 H2]. cbn in H2. by apply effect_events; [|rewrite H2..].
Qed.

Lemma move_range l w w' : move pgError cfg l w = Some w' →
  map_Forall (λ _ tx, tx_range tx) (lw_running w) → map_Forall (λ _ tx, tx_range tx) (lw_running w').
Proof.
  intros Hm Hw. apply move_effect in Hm as [wk tx Htx _ _ _ _ -> _|wk tx tx' Hwk Hs _ ->|wk tx _ _ ->|wk tx _ _ _ ->| -> _ _];
    [by apply map_Forall_insert_2| |by apply map_Forall_delete|by apply map_Forall_delete|done].
  apply map_Forall_insert_2; [|done]. apply opTransfer_next in Hs as [(H1 & H2 & H3) _].
  pose proof (Hw wk tx Hwk) as Htx. unfold tx_range in *. by rewrite H1, H2, H3.
Qed.

Lemma moves_range ls w w' : load_moves pgError cfg ls w = Some w' →
  map_Forall (λ _ tx, tx_range tx) (lw_running w) → map_Forall (λ _ tx, tx_range tx) (lw_running w').
Proof.
  revert w. induction ls as [|l ls IH]; intros w Hm Hw; cbn in *; simplify_option_eq; [done|]. eauto using move_range.
Qed.

(** A statement of a transfer, or its commit. *)
Definition own (l : Move) : bool := match l with Advance _ | Finish _ _ => true | _ => false end.

Lemma own_work l w w' : own l = true → move pgError cfg l w = Some w' → (work w' < work w)%Z.
Proof.
  intros Hl Hm. unfold move, work in *. destruct l as [|wk|wk acked| | | | | |]; try done;
    (destruct (lw_running w !! wk) as [tx|] eqn:Hwk; [cbn in Hm|done]); pose proof (tx_left_range tx);
    case_match eqn:Hs; simplify_eq; cbn; rewrite ?(msum_delete _ _ _ _ Hwk); try lia.
  pose proof (opTransfer_next _ _ _ _ Hs) as [_ Hlt]. rewrite (msum_update _ _ _ _ _ Hwk). lia.
Qed.

Lemma own_works ls w w' : forallb own ls = true → load_moves pgError cfg ls w = Some w' →
  (Z.of_nat (length ls) + work w' ≤ work w)%Z.
Proof.
  revert w. induction ls as [|l ls IH]; intros w Hls Hm; cbn in *; [simplify_eq; lia|].
  apply andb_true_iff in Hls as [Hl Hls]. destruct (move pgError cfg l w) as [w1|] eqn:Hw1; [cbn in Hm|done].
  pose proof (own_work _ _ _ Hl Hw1). pose proof (IH w1 Hls Hm). lia.
Qed.

(** ** Some transaction can always go on *)

Lemma can_move wk tx w : lw_running w !! wk = Some tx →
  opTransfer pgError (ld_accounts (lw_db w)) (locked_for wk w) tx ≠ Blocked →
  ∃ l, own l = true ∧ is_Some (move pgError cfg l w).
Proof.
  intros Hwk Hs. destruct (opTransfer _ _ _ tx) as [|tx'|e|] eqn:Ht; [done| | |].
  1, 2: exists (Advance wk); split; [done|]; unfold move; rewrite Hwk; cbn [mbind option_bind]; rewrite Ht; by eexists.
  exists (Finish wk true). split; [done|]. unfold move. rewrite Hwk. cbn [mbind option_bind]. rewrite Ht. by eexists.
Qed.

Lemma locked_for_holder wk w id : locked_for wk w id = true →
  ∃ wk' tx, lw_running w !! wk' = Some tx ∧ id ∈ holds tx.
Proof. unfold locked_for. rewrite bool_decide_eq_true. intros (wk' & tx & Hwk' & _ & Hid). eauto. Qed.

(** Each transaction waited for waits, if at all, for a higher row. *)
Lemma some_can_move w : map_Forall (λ _ tx, tx_range tx) (lw_running w) → lw_running w ≠ ∅ →
  ∃ l, own l = true ∧ is_Some (move pgError cfg l w).
Proof.
  intros Hw Hne. apply map_choose in Hne as (wk & tx & Hwk).
  pose (rank tx := Z.to_nat (lg_accounts cfg - match tx_phase tx with LockA => tx_low tx | _ => tx_high tx end)).
  remember (rank tx) as k eqn:Hk. revert wk tx Hwk Hk.
  induction (lt_wf k) as [k _ IH]; intros wk tx Hwk ->.
  destruct (opTransfer pgError (ld_accounts (lw_db w)) (locked_for wk w) tx) eqn:Hs;
    [|by apply (can_move wk tx); rewrite ?Hs..].
  destruct (tx_low_high tx (Hw wk tx Hwk)) as [Hlh _].
  assert (∃ id wk' tx', lw_running w !! wk' = Some tx' ∧ id ∈ holds tx' ∧
     match tx_phase tx with LockA => tx_low tx | _ => tx_high tx end = id ∧ (id ≤ lg_accounts cfg)%Z)
    as (id & wk' & tx' & Hwk' & Hid & Hawait & Hle).
  { destruct (opTransfer_blocked _ _ _ Hs) as [[Hp Hl]|(b & Hp & Hl)]; rewrite Hp;
      apply locked_for_holder in Hl as (wk' & tx' & Hwk' & Hid); eexists _, wk', tx'; split_and!; try done; lia. }
  destruct (opTransfer pgError (ld_accounts (lw_db w)) (locked_for wk' w) tx') eqn:Hs';
    [|by apply (can_move wk' tx'); rewrite ?Hs'..].
  destruct (tx_low_high tx' (Hw wk' tx' Hwk')) as [Hlh' _]. apply (IH (rank tx')) with wk' tx'; [|done..].
  unfold rank. rewrite Hawait.
  destruct (opTransfer_blocked _ _ _ Hs') as [[Hp _]|(b & Hp & _)]; unfold holds in Hid; rewrite Hp in *; [set_solver|].
  apply elem_of_singleton in Hid. lia.
Qed.

(** C13: the workers never deadlock and every transfer that has begun ends: after any
    schedule, in any state of the tables, the transactions that run need at most six
    more statements each, however these are interleaved, and as long as one of them
    runs some transaction is not blocked. *)
Theorem churn_drains (db : LoadDB) (ls : list Move) (w : World) :
  load_moves pgError cfg ls (mkLoadWorld db ∅ no_stats) = Some w →
  ∀ own_ls w', forallb own own_ls = true → load_moves pgError cfg own_ls w = Some w' →
    (length own_ls ≤ 6 * size (lw_running w)) ∧
    ((∀ l, own l = true → move pgError cfg l w' = None) → lw_running w' = ∅).
Proof.
  intros Hw own_ls w' Hown Hm. pose proof (moves_range _ _ _ Hw (map_Forall_empty _)) as Hr. split.
  - pose proof (own_works _ _ _ Hown Hm). unfold work in *.
    assert (0 ≤ msum tx_left (lw_running w'))%Z by (apply msum_nonneg; intros ? tx _; pose proof (tx_left_range tx); lia).
    pose proof (msum_bound tx_left (lw_running w) 6 (λ i tx _, proj2 (tx_left_range tx))). lia.
  - intros Hstuck. destruct (decide (lw_running w' = ∅)) as [|Hne]; [done|].
    destruct (some_can_move w' (moves_range _ _ _ Hm Hr) Hne) as (l & Hl & [w'' Hw'']). by rewrite Hstuck in Hw''.
Qed.
End locks.

(** ** The tables and the transactions over them *)

Section consistency.
Context (pgError : string → error) (cfg : LoadConfig).

Record tables_ok (db : LoadDB) : Prop := {
  ok_accounts : ∀ id, is_Some (ld_accounts db !! id) ↔ is_account cfg id = true;
  ok_pot : pot (ld_accounts db) = (lg_accounts cfg * lg_startBal cfg)%Z;
  ok_balances : map_Forall (λ _ bal, (0 ≤ bal)%Z) (ld_accounts db);
  ok_events : map_Forall (λ _ ev, is_account cfg (ev_account ev) = true) (ld_events db);
}.

(** The writes of a transaction that moves its amount. *)
Definition moved (accounts : gmap Z Z) (tx : Tx) : Prop :=
  ∃ b b', accounts !! tx_from tx = Some b ∧ accounts !! tx_to tx = Some b' ∧ (tx_amount tx ≤ b)%Z ∧
    tx_writes tx = <[tx_to tx := (b' + tx_amount tx)%Z]> {[tx_from tx := (b - tx_amount tx)%Z]}.
Definition tx_ok (accounts : gmap Z Z) (tx : Tx) : Prop :=
  match tx_phase tx with
  | LockA => tx_writes tx = ∅ ∧ tx_rows tx = []
  | LockB balA => tx_writes tx = ∅ ∧ tx_rows tx = [] ∧ accounts !! tx_low tx = Some balA
  | Debit => tx_writes tx = ∅ ∧ tx_rows tx = [] ∧ ∃ b, accounts !! tx_from tx = Some b ∧ (tx_amount tx ≤ b)%Z
  | Credit => tx_rows tx = [] ∧ ∃ b, accounts !! tx_from tx = Some b ∧ (tx_amount tx ≤ b)%Z ∧
      tx_writes tx = {[tx_from tx := (b - tx_amount tx)%Z]}
  | RecordBoth => tx_rows tx = [] ∧ moved accounts tx
  | Commit => (tx_writes tx = ∅ ∧ tx_rows tx = []) ∨
      (moved accounts tx ∧ ev_account <$> tx_rows tx = [tx_from tx; tx_to tx])
  end.

Record world_ok (w : World) : Prop := {
  ok_tables : tables_ok (lw_db w);
  ok_range : map_Forall (λ _ tx, tx_range cfg tx) (lw_running w);
  ok_running : map_Forall (λ _ tx, tx_ok (ld_accounts (lw_db w)) tx) (lw_running w);
  ok_locks : ∀ i j tx tx', i ≠ j → lw_running w !! i = Some tx → lw_running w !! j = Some tx' → holds tx ## holds tx';
}.

Lemma tx_ok_frame accounts accounts' tx : tx_range cfg tx →
  (∀ id, id ∈ holds tx → accounts' !! id = accounts !! id) → tx_ok accounts tx → tx_ok accounts' tx.
Proof.
  intros Hr Hsame. destruct (tx_low_high cfg tx Hr) as [_ Hboth]. unfold holds in Hsame. unfold tx_ok, moved.
  destruct (tx_phase tx); rewrite ?Hboth in Hsame;
    try rewrite (Hsame (tx_low tx)) by set_solver;
    try rewrite (Hsame (tx_from tx)) by set_solver; try rewrite (Hsame (tx_to tx)) by set_solver; done.
Qed.

(** What a statement keeps, and which row it locks. *)
Lemma opTransfer_ok accounts locked tx tx' : opTransfer pgError accounts locked tx = Next tx' →
  (∀ id, is_Some (accounts !! id) ↔ is_account cfg id = true) → tx_range cfg tx → tx_ok accounts tx →
  tx_ok accounts tx'.
Proof.
  intros Hs Hdom (Hf & Ht & Hne & Ham) Hok.
  destruct (proj2 (Hdom _) Hf) as [bf Hbf]. destruct (proj2 (Hdom _) Ht) as [bt Hbt].
  unfold opTransfer, select_for_update, update_balance in Hs. unfold tx_ok in Hok.
  destruct (tx_phase tx) as [|balA| | | |] eqn:Hp.
  - case_match; [done|]. case_match; simplify_eq. destruct Hok as [H1 H2]. unfold tx_ok. cbn. by split_and!.
  - destruct Hok as (H1 & H2 & Hlow).
    assert (Hmv : ∀ p, p = Commit ∨ (p = Debit ∧ (tx_amount tx ≤ bf)%Z) → tx_ok accounts (at_phase p tx)).
    { intros p [->|[-> ?]]; unfold tx_ok; cbn; [by left|]. split_and!; [done..|]. by exists bf. }
    case_match; [done|]. case_match eqn:Hhigh; [|done].
    unfold tx_low, tx_high in Hlow, Hhigh, Hs.
    repeat case_bool_decide; simplify_eq; apply Hmv; auto; right; (split; [done|lia]).
  - destruct Hok as (H1 & H2 & b & Hb & Hle). rewrite H1, map_empty_union, Hb in Hs.
    case_match; simplify_eq. unfold tx_ok. cbn. split; [done|]. exists b. by rewrite insert_empty.
  - destruct Hok as (H2 & b & Hb & Hle & H1).
    rewrite H1, lookup_union_r, Hbt in Hs by by rewrite lookup_singleton_ne.
    case_match; simplify_eq. unfold tx_ok, moved. cbn. split; [done|]. by exists b, bt.
  - simplify_eq. destruct Hok as [_ Hm]. unfold tx_ok. cbn. by right.
  - done.
Qed.

Lemma opTransfer_holds accounts locked tx tx' : opTransfer pgError accounts locked tx = Next tx' →
  ∀ id, id ∈ holds tx' → id ∈ holds tx ∨ locked id = false.
Proof.
  intros Hs id. assert (tx_low tx' = tx_low tx ∧ tx_high tx' = tx_high tx) as [Hl Hh].
  { apply opTransfer_next in Hs as [(H1 & H2 & _) _]. unfold tx_low, tx_high. by rewrite H1, H2. }
  unfold holds. rewrite Hl, Hh. clear Hl Hh.
  unfold opTransfer, select_for_update, update_balance in Hs.
  destruct (tx_phase tx); repeat case_match; simplify_eq; cbn in *; simplify_eq; set_solver.
Qed.

(** ** Commits and moves keep the tables consistent *)

Lemma add_events_tables rows db : ld_accounts (foldl add_event db rows) = ld_accounts db ∧
  (map_Forall (λ _ ev, is_account cfg (ev_account ev) = true) (ld_events db) →
   Forall (λ a, is_account cfg a = true) (ev_account <$> rows) →
   map_Forall (λ _ ev, is_account cfg (ev_account ev) = true) (ld_events (foldl add_event db rows))).
Proof.
  revert db. induction rows as [|row rows IH]; intros db; cbn; [done|].
  destruct (IH (add_event db row)) as [-> Hev]. split; [done|]. intros Hdb [Hrow Hrows]%Forall_cons.
  apply Hev; [|done]. by apply map_Forall_insert_2.
Qed.

Lemma committed_accounts tx db : ld_accounts (committed tx db) = tx_writes tx ∪ ld_accounts db.
Proof. unfold committed. by rewrite (proj1 (add_events_tables _ _)). Qed.

Lemma moved_accounts accounts tx : moved accounts tx → ∃ b b',
  accounts !! tx_from tx = Some b ∧ accounts !! tx_to tx = Some b' ∧ (tx_amount tx ≤ b)%Z ∧
  tx_writes tx ∪ accounts = <[tx_to tx := (b' + tx_amount tx)%Z]> (<[tx_from tx := (b - tx_amount tx)%Z]> accounts).
Proof.
  intros (b & b' & Hb & Hb' & Hle & ->). exists b, b'. split_and!; try done.
  by rewrite <- insert_union_l, <- insert_union_singleton_l.
Qed.

Lemma committed_ok tx db : tables_ok db → tx_range cfg tx → tx_phase tx = Commit → tx_ok (ld_accounts db) tx →
  tables_ok (committed tx db).
Proof.
  intros Hdb (Hf & Ht & Hne & Ham) Hp Hok. unfold tx_ok in Hok. rewrite Hp in Hok.
  destruct Hok as [[Hws Hrows]|[(b & b' & Hb & Hb' & Hle & Hacc)%moved_accounts Hrows]].
  - unfold committed. rewrite Hws, Hrows, map_empty_union. by destruct db, Hdb.
  - split; rewrite ?committed_accounts, ?Hacc.
    + intros id. rewrite <- (ok_accounts db Hdb id), !lookup_insert_is_Some.
      split; [intros [<-|[_ [<-|[_ ?]]]]; by eauto|]. destruct (decide (tx_to tx = id)), (decide (tx_from tx = id)); auto.
    + rewrite pot_msum, (msum_update _ _ _ b') by by rewrite lookup_insert_ne.
      rewrite (msum_update _ _ _ b) by done. rewrite <- pot_msum, (ok_pot db Hdb). cbn. lia.
    + pose proof (ok_balances db Hdb _ _ Hb'). apply map_Forall_insert_2; [cbn in *; lia|].
      apply map_Forall_insert_2; [lia|]. apply (ok_balances db Hdb).
    + unfold committed. apply add_events_tables; [apply (ok_events db Hdb)|]. rewrite Hrows. by repeat constructor.
Qed.

Lemma committed_frame tx db id : tx_range cfg tx → tx_phase tx = Commit → tx_ok (ld_accounts db) tx →
  id ∉ holds tx → ld_accounts (committed tx db) !! id = ld_accounts db !! id.
Proof.
  intros Hr Hp Hok Hid. destruct (tx_low_high cfg tx Hr) as [_ Hboth]. unfold holds in Hid. unfold tx_ok in Hok.
  rewrite Hp, ?Hboth in *. rewrite committed_accounts.
  destruct Hok as [[-> _]|[(b & b' & _ & _ & _ & ->)%moved_accounts _]]; [by rewrite map_empty_union|].
  rewrite !lookup_insert_ne by set_solver. done.
Qed.

Lemma locked_for_none wk w id wk' tx : locked_for wk w id = false → wk' ≠ wk → lw_running w !! wk' = Some tx → id ∉ holds tx.
Proof. unfold locked_for. rewrite bool_decide_eq_false. intros Hn Hne Hwk' Hid. apply Hn. by exists wk', tx. Qed.

(** Two maps whose values hold disjoint rows, after a change of one of them. *)
Lemma locks_insert (running : gmap nat Tx) wk tx :
  (∀ i j t t', i ≠ j → running !! i = Some t → running !! j = Some t' → holds t ## holds t') →
  (∀ j t, j ≠ wk → running !! j = Some t → holds tx ## holds t) →
  ∀ i j t t', i ≠ j → <[wk:=tx]> running !! i = Some t → <[wk:=tx]> running !! j = Some t' → holds t ## holds t'.
Proof.
  intros Hall Htx i j t t' Hij. rewrite !lookup_insert_Some.
  intros [[<- <-]|[Hi Ht]] [[<- <-]|[Hj Ht']]; [done|by eapply Htx, Ht'|symmetry; by eapply Htx, Ht|by eapply (Hall i j)].
Qed.

Lemma move_ok l w w' : world_ok w → move pgError cfg l w = Some w' → world_ok w'.
Proof.
  intros [Htab Hrange Hrun Hlocks] Hm. pose proof (move_range _ _ _ _ _ Hm Hrange) as Hrange'.
  destruct (move_effect _ _ _ _ _ Hm) as
    [wk tx Htx Hp Hws Hrows Hdb Hr _|wk tx tx' Hwk Hs Hdb Hr|wk tx Hwk Hdb Hr|wk tx Hwk Hp Hdb Hr|Hr Hacc Hev];
    split; rewrite ?Hdb, ?Hr, ?Hacc in *; try done.
  - apply map_Forall_insert_2; [|done]. unfold tx_ok. by rewrite Hp.
  - apply locks_insert; [done|]. unfold holds at 1. rewrite Hp. set_solver.
  - apply map_Forall_insert_2; [|done]. eapply opTransfer_ok; eauto. apply Htab.
  - apply locks_insert; [done|]. intros j t Hj Ht id Hid1 Hid2.
    destruct (opTransfer_holds _ _ _ _ Hs id Hid1) as [Hid|Hid]; [by eapply (Hlocks wk j)|by eapply locked_for_none].
  - by apply map_Forall_delete.
  - intros i j t t' Hij [_ Hi]%lookup_delete_Some [_ Hj]%lookup_delete_Some. by apply (Hlocks i j).
  - apply committed_ok; [done|by apply (Hrange wk)|done|by apply (Hrun wk)].
  - intros j t [Hne Ht]%lookup_delete_Some. apply (tx_ok_frame (ld_accounts (lw_db w))); [by apply (Hrange j)| |by apply (Hrun j)].
    intros id Hid. apply committed_frame; [by apply (Hrange wk)|done|by apply (Hrun wk)|].
    intros Hid'. by eapply (Hlocks j wk); [| | |exact Hid|exact Hid'].
  - intros i j t t' Hij [_ Hi]%lookup_delete_Some [_ Hj]%lookup_delete_Some. by apply (Hlocks i j).
  - destruct Htab. split; rewrite ?Hacc; auto.
Qed.

Lemma moves_ok ls w w' : world_ok w → load_moves pgError cfg ls w = Some w' → world_ok w'.
Proof.
  revert w. induction ls as [|l ls IH]; intros w Hw Hm; cbn in *; [by simplify_eq|].
  destruct (move pgError cfg l w) as [w1|] eqn:Hw1; [|done]. eauto using move_ok.
Qed.

(** ** Seeding *)

Definition seeded_rows (bal : Z) (k : nat) : gmap Z Z :=
  list_to_map ((λ i, (Z.of_nat i + 1, bal)%Z) <$> seq 0 k).

Lemma seeded_rows_S bal k : seeded_rows bal (S k) = <[(Z.of_nat k + 1)%Z := bal]> (seeded_rows bal k).
Proof.
  unfold seeded_rows. rewrite seq_S, fmap_app. cbn. rewrite list_to_map_snoc; [done|].
  rewrite <- list_fmap_compose. intros (i & Hi & Hin)%list_elem_of_fmap. apply elem_of_seq in Hin. cbn in Hi. lia.
Qed.
Lemma seeded_rows_lookup bal k id :
  seeded_rows bal k !! id = if bool_decide (1 ≤ id ≤ Z.of_nat k)%Z then Some bal else None.
Proof.
  induction k as [|k IH]; [rewrite bool_decide_false by lia; done|].
  rewrite seeded_rows_S. destruct (decide (id = Z.of_nat k + 1)%Z) as [->|Hne].
  - rewrite lookup_insert_eq, bool_decide_true by lia. done.
  - rewrite lookup_insert_ne, IH by done. destruct (decide (1 ≤ id ≤ Z.of_nat k)%Z).
    + rewrite !bool_decide_true by lia. done.
    + rewrite !bool_decide_false by lia. done.
Qed.
Lemma seeded_rows_size bal k : size (seeded_rows bal k) = k ∧ pot (seeded_rows bal k) = (Z.of_nat k * bal)%Z.
Proof.
  induction k as [|k [IH1 IH2]]; [done|].
  assert (seeded_rows bal k !! (Z.of_nat k + 1)%Z = None) as Hf by (rewrite seeded_rows_lookup, bool_decide_false by lia; done).
  rewrite seeded_rows_S, map_size_insert_None, IH1, pot_msum, msum_fresh, <- pot_msum, IH2 by done. cbn. lia.
Qed.

Lemma seed_row_account o i row : seed_row cfg o i = Some row → is_account cfg (ev_account row) = true.
Proof.
  unfold seed_row, is_account. destruct (so_draw o i) as [[a k] v]. case_bool_decide; [|done]. intros ?; simplify_eq. cbn.
  rewrite bool_decide_eq_true. pose proof (Z.mod_pos_bound a (lg_accounts cfg)). lia.
Qed.

Lemma copyEvents_ok o offset n db db' : copyEvents cfg o offset n db = Some db' → tables_ok db → tables_ok db'.
Proof.
  unfold copyEvents. intros (rows & Hrows & [= <-])%bind_Some [H1 H2 H3 H4].
  destruct (add_events_tables rows db) as [Hacc Hev]. split; rewrite ?Hacc; [done..|]. apply Hev; [done|].
  apply mapM_Some in Hrows. apply Forall_fmap. apply Forall_forall. intros row Hin.
  apply list_elem_of_lookup in Hin as [j Hj]. destruct (Forall2_lookup_r _ _ _ _ _ Hrows Hj) as (i & _ & Hi). cbn.
  by eapply seed_row_account.
Qed.

Lemma seed_events_ok o fuel k loaded db : tables_ok db → tables_ok (seed_events cfg o fuel k loaded db).2.
Proof.
  revert k loaded db. induction fuel as [|fuel IH]; intros k loaded db Hdb; cbn; repeat case_match; try done;
    simplify_eq; eauto using copyEvents_ok.
Qed.

Lemma copyAccounts_ok db : (0 ≤ lg_accounts cfg)%Z → (0 ≤ lg_startBal cfg)%Z →
  copyAccounts pgError cfg empty_tables = Ok db → tables_ok db.
Proof.
  intros Hn Hbal. unfold copyAccounts, account_rows. fold (seeded_rows (lg_startBal cfg) (Z.to_nat (lg_accounts cfg))).
  case_bool_decide; intros ?; simplify_eq. split; cbn; rewrite ?map_union_empty.
  - intros id. rewrite seeded_rows_lookup. unfold is_account. rewrite Z2Nat.id by done.
    case_bool_decide; (split; [by try intros [? ?]|by eauto]).
  - rewrite (proj2 (seeded_rows_size _ _)). lia.
  - intros id bal. rewrite seeded_rows_lookup. case_bool_decide; intros; by simplify_eq.
  - apply map_Forall_empty.
Qed.

Lemma copyEvents_some o offset n db : (0 < lg_accounts cfg)%Z → is_Some (copyEvents cfg o offset n db).
Proof.
  intros Hn. unfold copyEvents.
  assert (is_Some (mapM (λ i, seed_row cfg o (offset + Z.of_nat i + 1)) (seq 0 (Z.to_nat n)))) as [rows ->]; [|by eexists].
  apply mapM_is_Some. apply Forall_forall. intros i _. cbn. unfold seed_row.
  destruct (so_draw o (offset + Z.of_nat i + 1)%Z) as [[a k] v]. rewrite bool_decide_true by done. by eexists.
Qed.

(** With a positive batch the loop ends within as many batches as there are events,
    and never panics. *)
Lemma seed_events_ends o fuel k loaded db :
  (0 < lg_accounts cfg)%Z → (0 < lg_batch cfg)%Z → (lg_batch cfg * 10 ≤ max_int64)%Z → (lg_events cfg ≤ max_int64)%Z →
  (0 ≤ loaded)%Z → (lg_events cfg - loaded ≤ Z.of_nat fuel)%Z →
  (seed_events cfg o fuel k loaded db).1 = Seeded ∨ ∃ e, (seed_events cfg o fuel k loaded db).1 = SeedError e.
Proof.
  intros Hn Hb Hmul Hev. revert k loaded db. induction fuel as [|fuel IH]; intros k loaded db Hl Hf; cbn.
  - rewrite bool_decide_false by lia. by left.
  - case_bool_decide; [|by left]. case_match; [by eauto|]. case_match; [by eauto|].
    destruct (copyEvents_some o loaded (if bool_decide (lg_events cfg - loaded < lg_batch cfg)%Z then lg_events cfg - loaded else lg_batch cfg)%Z db Hn)
      as [db' ->].
    rewrite bool_decide_false by (rewrite int64_small by (unfold min_int64; lia); lia).
    case_bool_decide; (rewrite int64_small by (unfold min_int64, max_int64 in *; lia)); apply IH; lia.
Qed.

(** ** Verification *)

Lemma tables_size db : (0 ≤ lg_accounts cfg)%Z → tables_ok db → Z.of_nat (size (ld_accounts db)) = lg_accounts cfg.
Proof.
  intros Hn Hdb. rewrite <- (Z2Nat.id (lg_accounts cfg)) by done. f_equal.
  rewrite <- (proj1 (seeded_rows_size 0 (Z.to_nat (lg_accounts cfg)))), <- !(size_dom (D:=gset Z)). f_equal.
  apply set_eq. intros id. rewrite !elem_of_dom, (ok_accounts db Hdb), seeded_rows_lookup. unfold is_account.
  rewrite Z2Nat.id by done. case_bool_decide; (split; [by try intros [? ?]|by eauto]).
Qed.

Lemma min_balance_nonneg accounts : map_Forall (λ _ bal, (0 ≤ bal)%Z) accounts → (0 ≤ min_balance accounts)%Z.
Proof.
  intros Hm. assert (Forall (λ b, (0 ≤ b)%Z) (map_to_list accounts).*2) as Hall.
  { apply Forall_fmap, Forall_forall. intros [id b] Hin%elem_of_map_to_list. by apply (Hm id). }
  unfold min_balance. destruct Hall as [|b bs Hb Hbs]; [done|]. induction Hbs; cbn; lia.
Qed.

Lemma verify_ok db : (1 ≤ lg_accounts cfg)%Z → (lg_accounts cfg * lg_startBal cfg ≤ max_int64)%Z →
  (0 ≤ lg_startBal cfg)%Z → tables_ok db → verify pgError cfg (Some db) = Ok tt.
Proof.
  intros Hn Hmax Hbal Hdb. unfold verify, problems. rewrite (tables_size db) by (done || lia).
  rewrite (ok_pot db Hdb). unfold is_bigint.
  assert (0 ≤ lg_accounts cfg * lg_startBal cfg)%Z by lia.
  rewrite (bool_decide_true (min_int64 ≤ _ ≤ _)%Z) by (unfold min_int64; lia). cbn [negb].
  rewrite bool_decide_false by lia.
  rewrite int64_small by (unfold min_int64; lia). rewrite bool_decide_false by (by intros []).
  pose proof (min_balance_nonneg _ (ok_balances db Hdb)). rewrite bool_decide_false by lia.
  unfold orphans. rewrite map_empty_filter_2; [by rewrite map_size_empty|].
  intros id ev Hev Hnone. cbn in Hnone. pose proof (ok_events db Hdb id ev Hev) as Hacc. cbn in Hacc.
  apply (ok_accounts db Hdb) in Hacc as [? ?]. congruence.
Qed.

(** C12: the check is an oracle: once the tables are seeded from scratch, then after
    every schedule of the workers' statements, with any of them failing, being rolled
    back or committing without an answer at any moment, [verify] passes, even while
    transfers are still running; money is neither made nor lost, no balance is
    negative and no event is an orphan. *)
Theorem verify_passes (o : SeedOracle) (fuel : nat) (tables : option LoadDB) (db : LoadDB) (ls : list Move) (w : World) :
  (1 ≤ lg_accounts cfg)%Z → (0 ≤ lg_startBal cfg)%Z → (lg_accounts cfg * lg_startBal cfg ≤ max_int64)%Z →
  lg_dropFirst cfg = true ∨ tables = None →
  seed pgError cfg o fuel tables = (Seeded, Some db) →
  load_moves pgError cfg ls (mkLoadWorld db ∅ no_stats) = Some w →
  verify pgError cfg (Some (lw_db w)) = Ok tt ∧
  pot (ld_accounts (lw_db w)) = (lg_accounts cfg * lg_startBal cfg)%Z ∧
  (∀ id bal, ld_accounts (lw_db w) !! id = Some bal → (1 ≤ id ≤ lg_accounts cfg ∧ 0 ≤ bal)%Z).
Proof.
  intros Hn Hbal Hmax Hclean Hseed Hm.
  assert (Hdb : tables_ok db).
  { unfold seed in Hseed. case_match; [done|]. replace (if lg_dropFirst cfg then None else tables) with (@None LoadDB) in Hseed
      by (destruct (lg_dropFirst cfg), Hclean; done || congruence).
    case_match; [done|]. cbn in Hseed. case_match eqn:Hc; [|done].
    destruct (seed_events cfg o fuel 0 0 a) as [r db'] eqn:Hev. cbn in Hseed. simplify_eq.
    pose proof (seed_events_ok o fuel 0 0 a) as Hok. rewrite Hev in Hok. apply Hok.
    case_match; [done|]. by apply copyAccounts_ok; [lia|..]. }
  assert (Hw : world_ok w).
  { refine (moves_ok _ _ _ _ Hm). split; cbn; [done|by apply map_Forall_empty..|]. by intros ????? []%lookup_empty_Some. }
  split_and!; [by apply verify_ok, ok_tables|by apply ok_pot, ok_tables|]. intros id bal Hid. split.
  - apply mk_is_Some, (ok_accounts _ (ok_tables _ Hw)) in Hid. unfold is_account in Hid. by apply bool_decide_eq_true in Hid.
  - by apply (ok_balances _ (ok_tables _ Hw) id).
Qed.
End consistency.

(** ** A run *)

(** Three accounts with ten each; two workers whose transfers meet at the second
    account, the first of which has to wait and gives up once. *)
Definition sample_load : LoadConfig := mkLoadConfig "postgres://db" "all" 3 10 4 2 1000000000 3 true.
Definition sample_oracle : SeedOracle := mkOracle None None None (λ i, (i, i, i)) (λ _, None) (λ _, false).
Definition sample_schedule : list Move :=
  [Begin 0 1 2 4; Begin 1 3 2 7; Advance 0; Advance 1; Advance 1; Rollback 0; Begin 0 1 2 6;
   Advance 1; Advance 1; Advance 1; Advance 0; Finish 1 true; Advance 0; Advance 0; DeleteEvents 1; Advance 0; Advance 0].
Definition sample_error : string → error := Errorf.
Definition sample_seeded : LoadDB := default empty_tables (seed sample_error sample_load sample_oracle 2 None).2.

Example sample_run :
  (λ w : World, (map_to_list (ld_accounts (lw_db w)), size (ld_events (lw_db w)), st_transfer (lw_stats w), st_transferErr (lw_stats w)))
    <$> load_moves sample_error sample_load (sample_schedule ++ [Finish 0 false]) (mkLoadWorld sample_seeded ∅ no_stats) =
  Some ([(3, 3); (2, 23); (1, 4)]%Z, 7, 1%Z, 2%Z).
Proof. vm_compute. reflexivity. Qed.

(** Without a batch size the first batch divides by zero. *)
Example batch_zero :
  (seed sample_error (mkLoadConfig "postgres://db" "all" 3 10 4 2 1000000000 0 true) sample_oracle 2 None).1 =
  SeedPanic "integer divide by zero".
Proof. vm_compute. reflexivity. Qed.

(** A second worker cannot lock a row that the first holds. *)
Example sample_blocked :
  load_moves sample_error sample_load [Begin 0 1 2 4; Begin 1 3 2 7; Advance 1; Advance 0; Advance 0]
    (mkLoadWorld sample_seeded ∅ no_stats) = None.
Proof. vm_compute. reflexivity. Qed.

Lemma verify_passes_witness :
  ∃ w, load_moves sample_error sample_load sample_schedule (mkLoadWorld sample_seeded ∅ no_stats) = Some w ∧
    verify sample_error sample_load (Some (lw_db w)) = Ok tt ∧ pot (ld_accounts (lw_db w)) = 30%Z ∧
    (∀ id bal, ld_accounts (lw_db w) !! id = Some bal → (1 ≤ id ≤ 3 ∧ 0 ≤ bal)%Z).
Proof.
  destruct (load_moves sample_error sample_load sample_schedule (mkLoadWorld sample_seeded ∅ no_stats)) as [w|] eqn:Hw;
    [|vm_compute in Hw; discriminate Hw].
  exists w. split; [reflexivity|].
  apply (verify_passes sample_error sample_load sample_oracle 2 None sample_seeded sample_schedule w);
    [by vm_compute..|by left|vm_compute; reflexivity|exact Hw].
Defined.

Lemma churn_drains_witness :
  ∃ w, load_moves sample_error sample_load sample_schedule (mkLoadWorld sample_seeded ∅ no_stats) = Some w ∧
    ∀ own_ls w', forallb own own_ls = true → load_moves sample_error sample_load own_ls w = Some w' →
      (length own_ls ≤ 6 * size (lw_running w)) ∧
      ((∀ l, own l = true → move sample_error sample_load l w' = None) → lw_running w' = ∅).
Proof.
  destruct (load_moves sample_error sample_load sample_schedule (mkLoadWorld sample_seeded ∅ no_stats)) as [w|] eqn:Hw;
    [|vm_compute in Hw; discriminate Hw].
  exists w. split; [reflexivity|].
  exact (churn_drains sample_error sample_load sample_seeded sample_schedule w Hw).
Defined.
