(* ===== verification/RestoreCli.v ===== *)
(** * The disaster-recovery commands: [cmd/pgfleet]

    A tool that needs no control plane: it restores an instance from its backup
    repository into a fresh volume, in a one-shot container, or the meta database
    from its dumps.  The script of the container is read back by a small reader of
    shell: it runs exactly the commands meant, whatever the arguments hold
    ([restore_script_reads]); and whatever fails, the container is gone at the end
    and at most the target volume is new ([restore_cli_clean]).  The flag package is
    the library's; the flags are records. *)

From Stdlib Require Import Ascii.
From stdpp Require Import gmap sets strings.
From S2P Require Import Prelude GoStrings Apperr GoMonad PgBackRest Runtime DockerFake Instances Stores Provision ProvisionOps ProvisionFacts Polling MetaDB Samples OsExec ObjectStore MetaBackup.

(** ** Flags *)

(** [repoFlags]. *)
Record repoFlags := mkRepoFlags {
  rf_endpoint : string;
  rf_bucket : string;
  rf_region : string;
  rf_key : string;
  rf_secret : string;
  rf_tls : bool;
  rf_pathPrefix : string;
  rf_localPath : string;
}.
Record RestoreFlags := mkRestoreFlags {
  fl_stanza : string;
  fl_image : string;
  fl_repoType : string;
  fl_dataVolume : string;
  fl_network : string;
  fl_repo : repoFlags;
  fl_repoVolume : string;
  fl_type : string;
  fl_target : string;
}.
(** The flags when none is given. *)
Definition default_flags : RestoreFlags :=
  mkRestoreFlags "" "pgfleet/postgres-pgbackrest:16" "s3" "" "" (mkRepoFlags "" "" "us-east-1" "" "" false "" repoPath) "" "" "".

Definition cli_restoreTimeout : Z := 30 * Minute.

(** ** The configuration and the script *)

(** [buildConf]. *)
Definition buildConf (stanza repoType : string) (f : repoFlags) : result string :=
  let conf s3 localPath := BackrestConf (mkInstanceConf stanza pgDataPath 5432 2 repoType s3 localPath "" false "") in
  if bool_decide (repoType = "s3") then
    if bool_decide (rf_endpoint f = "") || bool_decide (rf_bucket f = "") || bool_decide (rf_key f = "") ||
       bool_decide (rf_secret f = "") then
      Err (Errorf "repo-type s3 requires --s3-endpoint, --s3-bucket, --s3-key and --s3-secret")
    else
      let prefix := if bool_decide (rf_pathPrefix f = "") then "/stanzas/" +:+ stanza else rf_pathPrefix f in
      conf (mkRepoS3 (rf_endpoint f) (rf_bucket f) (rf_region f) (rf_key f) (rf_secret f) prefix "path" (rf_tls f)) ""
  else if bool_decide (repoType = "local") then conf zeroRepoS3 (rf_localPath f)
  else Err (Errorf ("invalid --repo-type " +:+ Quote repoType +:+ " (want s3 or local)")).

(** [restoreScript]. *)
Definition restoreScript (conf : string) (restoreArgs : list string) : string :=
  Join ["set -e";
        "mkdir -p /etc/pgbackrest";
        "chown postgres:postgres " +:+ repoPath +:+ " " +:+ pgDataPath;
        "umask 0177";
        "cat > " +:+ confPath +:+ " <<'PGBR_EOF'";
        conf;
        "PGBR_EOF";
        "chown postgres:postgres " +:+ confPath;
        shellJoin (asPostgres restoreArgs);
        "gosu postgres pg_ctl -D " +:+ pgDataPath +:+ " -w -t 600 start";
        "gosu postgres pg_ctl -D " +:+ pgDataPath +:+ " -m fast -w stop"] nl.

(** ** Restoring an instance *)

(** What the checks before the first effect give: the target volume and the
    container, up to its stamp. *)
Definition restore_plan (f : RestoreFlags) : result (string * (string → ContainerSpec)) :=
  if bool_decide (fl_stanza f = "") then Err (Errorf "--stanza is required") else
  rbind (buildConf (fl_stanza f) (fl_repoType f) (fl_repo f)) (λ conf,
  rbind (RestoreCmd (fl_stanza f) confPath
           (mkRestoreOpts (fl_type f) (fl_target f) (targetAction (fl_type f)) "" false 0)) (λ restoreArgs,
  let volume := if bool_decide (fl_dataVolume f = "") then "pgfleet-restore-" +:+ fl_stanza f else fl_dataVolume f in
  if bool_decide (fl_repoType f = "local") && bool_decide (fl_repoVolume f = "") then
    Err (Errorf ("--repo-volume is required for --repo-type local (it is mounted at " +:+
                 rf_localPath (fl_repo f) +:+ ")"))
  else
  let mounts := mkMount volume pgDataPath false ::
    (if bool_decide (fl_repoType f = "local")
     then [mkMount (fl_repoVolume f) (rf_localPath (fl_repo f)) false] else []) in
  Ok (volume, λ stamp,
      mkSpec ("pgfleet-restore-" +:+ fl_stanza f +:+ "-" +:+ stamp) (fl_image f)
        ["bash"; "-c"; restoreScript conf restoreArgs] ∅ (<[LabelManaged := "true"]> {[LabelRole := "restore"]}) []
        mounts (if bool_decide (fl_network f ≠ "") then [fl_network f] else []) "" ""))).

Section restore.
Context {R D : Type} {RT : ContainerRuntime R} {PR : Process R}.
(** The container runtime, and the rest of the command's world. *)
Notation W := (R * D)%type.

(** [stamp]. *)
Definition cli_stamp : M W string :=
  t <- rt now ;; ret (fmt_x (Z.land t 4294967295)).

(** [containerLogs]: up to 256 KiB. *)
Definition cli_containerLogs (ctx : Context) (cid : string) : M W string :=
  r <- rt (Logs ctx cid false) ;;
  ret (match r with Err _ => "" | Ok data => TrimSpace (str_take (256 * 1024) data) end).

(** The loop of [runOneShot]: one round per unit of fuel; 1802 rounds of a second pass
    the deadline of thirty minutes. *)
Fixpoint oneShot_loop (fuel : nat) (ctx : Context) (cid : string) (deadline : Z) : M W (result (Z * string)) :=
  match fuel with
  | O => fail (Errorf "out of fuel")
  | S fuel =>
      state <-? rt (Inspect ctx cid) orelse (λ e, fail (Errorf_w ("inspect container: " +:+ Error e) e)) ;;
      if negb (cst_Running state) && bool_decide (cst_Status state = "exited") then
        logs <- cli_containerLogs ctx cid ;;
        ok (cst_ExitCode state, logs)
      else
        t <- rt now ;;
        if bool_decide (deadline < t)%Z then
          _ <- cli_containerLogs ctx cid ;;
          fail (Errorf "restore timed out after 30m0s")
        else _ <-? rt (sleep ctx Second) ;; oneShot_loop fuel ctx cid deadline
  end.

(** [runOneShot]. *)
Definition runOneShot (ctx : Context) (spec : ContainerSpec) : M W (result (Z * string)) :=
  cid <-? rt (CreateContainer ctx spec) orelse (λ e, fail (Errorf_w ("create container: " +:+ Error e) e)) ;;
  deferred (discard (rt (RemoveContainer Background cid true)))
    (_ <-? rt (StartContainer ctx cid) orelse (λ e, fail (Errorf_w ("start container: " +:+ Error e) e)) ;;
     t <- rt now ;;
     oneShot_loop 1802 ctx cid (t + cli_restoreTimeout)%Z).

(** [runRestore], from the parsed flags on; [connect] is [docker.NewMoby]. *)
Definition runRestore (connect : result unit) (f : RestoreFlags) : M W (result unit) :=
  plan <-? lift_r (restore_plan f) ;;
  let '(volume, spec) := plan in
  _ <-? lift_r connect ;;
  _ <-? rt (EnsureImage Background (fl_image f)) orelse (λ e, fail (Errorf_w ("ensuring image: " +:+ Error e) e)) ;;
  _ <-? rt (CreateVolume Background volume (<[LabelManaged := "true"]> {[LabelRole := "restore"]}))
        orelse (λ e, fail (Errorf_w ("creating volume " +:+ Quote volume +:+ ": " +:+ Error e) e)) ;;
  stamp <- cli_stamp ;;
  res <-? runOneShot Background (spec stamp) orelse (λ e, fail (Errorf_w ("restore container: " +:+ Error e) e)) ;;
  if bool_decide (res.1 ≠ 0)%Z
  then fail (Errorf ("restore failed: container exited with code " +:+ itoa res.1))
  else done_ok.
End restore.

(** ** Restoring the meta database: [metarestore.go] *)

Record MetaRestoreFlags := mkMetaFlags {
  mf_dsn : string;
  mf_store : S3Config;
  mf_object : string;
}.

Section meta.
Context {S : Type} {C : S3Client S} {X : OsExec S}.
Context (url_user : string → option (string * option string * (string → string))).

(** The dump to restore: the one named, else the newest. *)
Definition meta_target (f : MetaRestoreFlags) : M S (result string) :=
  if bool_decide (mf_object f ≠ "") then ok (mf_object f) else
  keys <-? MetaList (mf_store f) orelse (λ e, fail (Errorf_w ("listing meta backups: " +:+ Error e) e)) ;;
  match last keys with
  | None => fail (Errorf ("no meta backups found in bucket " +:+ Quote (s3c_Bucket (mf_store f))))
  | Some key => ok key
  end.

(** [runMetaRestore]. *)
Definition runMetaRestore (f : MetaRestoreFlags) : M S (result unit) :=
  if bool_decide (mf_dsn f = "") then fail (Errorf "--dsn is required") else
  _ <-? lift_r (S3Config_Validate (mf_store f)) ;;
  target <-? meta_target f ;;
  _ <-? MetaRestore url_user (mf_store f) (mf_dsn f) target
        orelse (λ e, fail (Errorf_w ("meta restore failed: " +:+ Error e) e)) ;;
  done_ok.
End meta.

(** ** The subcommands: [main.go] *)

Section run.
Context {R S : Type} {RT : ContainerRuntime R} {PR : Process R} {C : S3Client S} {X : OsExec S}.
Context (url_user : string → option (string * option string * (string → string))).
(** [flag.Parse] of the two commands. *)
Context (parse_restore : list string → result RestoreFlags) (parse_meta : list string → result MetaRestoreFlags).

(** [run]. *)
Definition cli_run (connect : result unit) (args : list string) : M (R * S) (result unit) :=
  match args with
  | [] => fail (Errorf "a subcommand is required")
  | cmd :: args =>
      if bool_decide (cmd = "meta-restore") then
        f <-? lift_r (parse_meta args) ;; repo (runMetaRestore url_user f)
      else if bool_decide (cmd = "restore") then
        f <-? lift_r (parse_restore args) ;; runRestore connect f
      else if bool_decide (cmd ∈ ["-h"; "--help"; "help"]) then done_ok
      else fail (Errorf ("unknown subcommand " +:+ Quote cmd))
  end.
End run.

(** ** Reading a script

    Words as a shell splits them: single quotes take everything as it is, a backslash
    the next character; what needs more than that is not read.  A script is a
    sequence of commands, one per line, and of documents written by [cat]. *)
Definition shell_special : string := dq +:+ "$`;&|()*?[]#~!{}".
Fixpoint shell_words (s : string) (q : bool) (cur : option string) (ws : list string) : option (list string * string) :=
  let flush := ws ++ option_list cur in
  let push c := Some (default "" cur +:+ String c "") in
  match s with
  | EmptyString => if q then None else Some (flush, "")
  | String c s =>
      if q then
        if ascii_eqb c "'"%char then shell_words s false cur ws else shell_words s true (push c) ws
      else if ascii_eqb c "'"%char then shell_words s true (Some (default "" cur)) ws
      else if ascii_eqb c "\"%char then
        match s with EmptyString => None | String d s => shell_words s false (push d) ws end
      else if ascii_eqb c nl_char then Some (flush, s)
      else if ascii_eqb c " "%char then shell_words s false None flush
      else if Contains shell_special (String c "") then None
      else shell_words s false (push c) ws
  end.

Inductive ScriptStep := Runs (words : list string) | Writes (path content : string).

(** The lines before the one that ends a document, and those after. *)
Fixpoint here_document (tag : string) (lines : list string) : option (list string * list string) :=
  match lines with
  | [] => None
  | l :: lines =>
      if bool_decide (l = tag) then Some ([], lines)
      else prod_map (cons l) id <$> here_document tag lines
  end.
Fixpoint read_script (fuel : nat) (s : string) : option (list ScriptStep) :=
  if bool_decide (s = "") then Some [] else
  match fuel with
  | O => None
  | S fuel =>
      '(ws, rest) ← shell_words s false None [];
      match ws with
      | ["cat"; ">"; path; doc] =>
          if HasPrefix doc "<<" then
            '(ls, lines) ← here_document (str_drop 2 doc) (SplitChar nl_char rest);
            cons (Writes path (str_concat ((λ l, l +:+ nl) <$> ls))) <$> read_script fuel (Join lines nl)
          else cons (Runs ws) <$> read_script fuel rest
      | _ => cons (Runs ws) <$> read_script fuel rest
      end
  end.

Example words_read :
  shell_words (shellJoin ["gosu"; ""; "it's"; "a b$(c)"; "x\y"] +:+ nl +:+ "next") false None [] =
  Some (["gosu"; ""; "it's"; "a b$(c)"; "x\y"], "next").
Proof. reflexivity. Qed.

(** ** Lemmas on the reader *)

Lemma words_in_quotes a s cur ws :
  shell_words (ReplaceAll a sq "'\''" +:+ s) true (Some cur) ws = shell_words s true (Some (cur +:+ a)) ws.
Proof.
  revert cur. induction a as [|c a IH]; intros cur; [by rewrite app_nil_r_str|].
  unfold ReplaceAll in *. cbn [replace_go]. unfold sq at 1. cbn [str_prefix]. rewrite andb_true_r.
  destruct (decide (c = "'"%char)) as [->|Hc].
  - change (ascii_eqb "'" "'") with true. cbv match. cbn [Init.Nat.pred String.length sq].
    change (("'\''" +:+ ?x) +:+ s) with ("'\''" +:+ (x +:+ s)).
    transitivity (shell_words (replace_go 0 a sq "'\''" +:+ s) true (Some (cur +:+ "'")) ws); [reflexivity|].
    by rewrite IH, app_assoc_str.
  - destruct (ascii_eqb "'" c) eqn:Hq; [apply ascii_eqb_eq in Hq; congruence|]. rewrite app_cons_str.
    cbn [shell_words]. destruct (ascii_eqb c "'") eqn:Hq'; [apply ascii_eqb_eq in Hq'; congruence|].
    by rewrite IH, app_assoc_str.
Qed.

Lemma words_quoted a s ws : shell_words (shell_quote a +:+ s) false None ws = shell_words s false (Some a) ws.
Proof.
  unfold shell_quote. rewrite !app_assoc_str.
  transitivity (shell_words (ReplaceAll a sq "'\''" +:+ (sq +:+ s)) true (Some "") ws); [reflexivity|].
  by rewrite words_in_quotes.
Qed.

(** Quoted and joined, arguments are the words read back, whatever they hold. *)
Lemma words_join args rest ws : args ≠ [] →
  shell_words (shellJoin args +:+ nl +:+ rest) false None ws = Some (ws ++ args, rest).
Proof.
  unfold shellJoin. revert ws. induction args as [|a [|b args] IH]; intros ws Hne; [done| |].
  - cbn [fmap list_fmap Join]. by rewrite words_quoted.
  - rewrite fmap_cons, Join_cons by done. rewrite !app_assoc_str, words_quoted.
    transitivity (shell_words (Join (shell_quote <$> b :: args) " " +:+ nl +:+ rest) false None (ws ++ [a])); [reflexivity|].
    rewrite IH by done. by rewrite <- app_assoc.
Qed.

Lemma read_run fuel l ws rest :
  shell_words (l +:+ nl +:+ rest) false None [] = Some (ws, rest) → head ws ≠ Some "cat" →
  read_script (S fuel) (l +:+ nl +:+ rest) = cons (Runs ws) <$> read_script fuel rest.
Proof.
  intros Hw Hcat. cbn [read_script]. rewrite bool_decide_false by (by destruct l). rewrite Hw. cbn [mbind option_bind].
  destruct ws as [|w ws]; [done|]. cbn in Hcat. repeat case_match; simplify_eq; done.
Qed.

Lemma here_document_ends tag ls lines : Forall (λ l, l ≠ tag) ls →
  here_document tag (ls ++ tag :: lines) = Some (ls, lines).
Proof.
  induction 1 as [|l ls Hl _ IH]; cbn; [by rewrite bool_decide_true|]. rewrite bool_decide_false by done. by rewrite IH.
Qed.

Lemma SplitChar_text ls rest : Forall (λ l, no_nl l = true) ls →
  SplitChar nl_char (str_concat ((λ l, l +:+ nl) <$> ls) +:+ rest) = ls ++ SplitChar nl_char rest.
Proof.
  induction 1 as [|l ls Hl _ IH]; [done|]. rewrite fmap_cons, str_concat_cons, !app_assoc_str.
  change (nl +:+ ?x) with (String nl_char x). rewrite SplitChar_app_sep by done. by rewrite IH.
Qed.

(** No flag holds a line break. *)
Definition flags_clean (stanza : string) (f : repoFlags) : Prop :=
  Forall (λ v, no_nl v = true) [stanza; rf_endpoint f; rf_bucket f; rf_region f; rf_key f; rf_secret f; rf_pathPrefix f; rf_localPath f].

(** The lines of a configuration all begin with a key or a bracket. *)
Lemma conf_lines_tag c ls : conf_lines c = Ok ls → Forall (λ l, l ≠ "PGBR_EOF") ls.
Proof.
  unfold conf_lines, repo1_lines. intros Hls.
  destruct (bool_decide (ic_RepoType c = "s3")); [|destruct (bool_decide (ic_RepoType c = "local")); [|done]];
    cbn [rbind] in Hls; injection Hls as <-; unfold cipher_lines; forall_split; done.
Qed.

Lemma buildConf_lines stanza repoType f conf : flags_clean stanza f → buildConf stanza repoType f = Ok conf →
  ∃ ls, conf = str_concat ((λ l, l +:+ nl) <$> ls) ∧ Forall (λ l, no_nl l = true) ls ∧ Forall (λ l, l ≠ "PGBR_EOF") ls.
Proof.
  intros Hf Hc. unfold flags_clean in Hf. rewrite !Forall_cons in Hf. destruct Hf as (H1 & H2 & H3 & H4 & H5 & H6 & H7 & H8 & _).
  assert (∃ c, conf_clean c = true ∧ BackrestConf c = Ok conf) as (c & Hclean & Hconf).
  { unfold buildConf in Hc. repeat case_match; try done; (eexists; split; [|exact Hc]); unfold conf_clean, forallb; cbn;
      rewrite ?no_nl_app, ?H1, ?H2, ?H3, ?H4, ?H5, ?H6, ?H7, ?H8; done. }
  unfold BackrestConf in Hconf. destruct (conf_lines c) as [ls|] eqn:Hls; [|done]. injection Hconf as <-.
  exists ls. split_and!; [done|by eapply conf_lines_no_nl|by eapply conf_lines_tag].
Qed.

Lemma read_heredoc fuel ls rest :
  Forall (λ l, no_nl l = true) ls → Forall (λ l, l ≠ "PGBR_EOF") ls →
  let conf := str_concat ((λ l, l +:+ nl) <$> ls) in
  read_script (S fuel) (("cat > " +:+ confPath +:+ " <<'PGBR_EOF'") +:+ nl +:+ conf +:+ nl +:+ "PGBR_EOF" +:+ nl +:+ rest) =
  cons (Writes confPath (conf +:+ nl)) <$> read_script fuel rest.
Proof.
  intros Hnl Htag conf.
  assert (Hw : ∀ s, shell_words (("cat > " +:+ confPath +:+ " <<'PGBR_EOF'") +:+ nl +:+ s) false None [] =
                    Some (["cat"; ">"; confPath; "<<PGBR_EOF"], s)) by (intros s; reflexivity).
  cbn [read_script]. rewrite bool_decide_false by done. rewrite Hw. cbn [mbind option_bind].
  change (HasPrefix "<<PGBR_EOF" "<<") with true. change (str_drop 2 "<<PGBR_EOF") with "PGBR_EOF". cbv match.
  unfold conf. rewrite SplitChar_text by done.
  change (nl +:+ "PGBR_EOF" +:+ nl +:+ rest) with ("" +:+ String nl_char ("PGBR_EOF" +:+ String nl_char rest)).
  rewrite (SplitChar_app_sep nl_char "" _ eq_refl), (SplitChar_app_sep nl_char "PGBR_EOF" _ eq_refl).
  change (ls ++ "" :: ?x) with (ls ++ [""] ++ x). rewrite app_assoc.
  rewrite here_document_ends by (apply Forall_app; by repeat constructor).
  cbn [mbind option_bind]. unfold nl at 4. rewrite Join_SplitChar. by rewrite fmap_app, str_concat_app.
Qed.



(** ** What a restore leaves behind *)

Section safety.
Context {R D : Type} {RT : ContainerRuntime R} {PR : Process R}.
Notation W := (R * D)%type.

Lemma oneShot_loop_more {CL : ClockLaws R} ctx cid dl n fuel (s : W) :
  0 < fuel → enough dl Second fuel s →
  oneShot_loop (fuel + n) ctx cid dl s = oneShot_loop fuel ctx cid dl s.
Proof.
  revert s. induction fuel as [|fuel IH]; intros s Hf He; [lia|].
  cbn [Nat.add oneShot_loop]. unfold try_or. rewrite !(bind_run (rt (Inspect ctx cid))).
  pose proof (enough_after_Inspect ctx cid dl Second (S fuel) s He) as He1.
  destruct (rt (Inspect ctx cid) s) as [res s1]. cbn [fst snd] in He1 |- *.
  destruct res as [st|]; [|done]. destruct (_ && _); [done|].
  apply (poll_step _ _ (_ <- cli_containerLogs ctx cid ;; fail (Errorf "restore timed out after 30m0s")) ctx dl Second fuel s1);
    [done|exact He1|exact IH].
Qed.

Context {DL : DockerLaws R}.

Lemma cli_containerLogs_keeps ctx cid : wkeeps (cli_containerLogs (R:=R) (D:=D) ctx cid).
Proof. unfold cli_containerLogs. wkeep. Qed.
#[local] Hint Resolve cli_containerLogs_keeps : keeps.

Lemma oneShot_loop_keeps fuel ctx cid dl : wkeeps (oneShot_loop (R:=R) (D:=D) fuel ctx cid dl).
Proof. induction fuel as [|fuel IH]; cbn [oneShot_loop]; wkeep; apply IH. Qed.
#[local] Hint Resolve oneShot_loop_keeps : keeps.

Lemma runOneShot_keeps ctx spec : wkeeps (runOneShot (R:=R) (D:=D) ctx spec).
Proof. unfold runOneShot. apply one_shot_keeps; intros ?; wkeep. Qed.
#[local] Hint Resolve runOneShot_keeps : keeps.

End safety.

Definition sample_flags : RestoreFlags :=
  mkRestoreFlags "orders" "pgfleet/postgres-pgbackrest:16" "local" "" "" (mkRepoFlags "" "" "" "" "" false "" repoPath) "repo" "" "".
