(* ===== verification/KeyedLocks.v ===== *)
(** * One mutex per instance: [backup.Service.lockFor], [Provisioner.instanceOpMutex]

    Backups of an instance, and the operations that swap its container or volume,
    hold a mutex that is made on first use and found again by the instance's
    identifier.  What both tables promise is an interface; over it, goroutines that
    look their mutex up, wait for it, hold it and release it never hold one instance
    together ([ops_serialised]). *)

From stdpp Require Import gmap strings relations.
From S2P Require Import Prelude GoMonad.

(** ** The two tables

    A mutex is its address; [next] is the next address to allocate. *)

(** [backup.Service], its map made by [New]. *)
Record BackupLocks := mkBackupLocks { bl_locks : gmap string nat; bl_next : nat }.
Definition lockFor (instanceID : string) : M BackupLocks nat := λ s,
  match bl_locks s !! instanceID with
  | Some lock => (lock, s)
  | None => (bl_next s, mkBackupLocks (<[instanceID := bl_next s]> (bl_locks s)) (S (bl_next s)))
  end.

(** [provision.Provisioner], whose map is nil until the first operation. *)
Record OpMutexes := mkOpMutexes { opMuMap : option (gmap string nat); om_next : nat }.
Definition instanceOpMutex (id : string) : M OpMutexes nat := λ p,
  let m := default ∅ (opMuMap p) in
  match m !! id with
  | Some mu => (mu, mkOpMutexes (Some m) (om_next p))
  | None => (om_next p, mkOpMutexes (Some (<[id := om_next p]> m)) (S (om_next p)))
  end.

(** ** What a table promises

    The mutex of an identifier never changes, and no two identifiers share one. *)
Class KeyedMutex (T : Type) := {
  km_init : T;
  km_lookup : string → M T nat;
  km_addr : T → gmap string nat;
  km_ok : T → Prop;
  km_init_ok : km_ok km_init ∧ km_addr km_init = ∅;
  km_lookup_ok id t : km_ok t →
    wp (km_lookup id) (λ p t', km_ok t' ∧ km_addr t' !! id = Some p ∧ km_addr t ⊆ km_addr t') t;
  km_inj t id id' p : km_ok t → km_addr t !! id = Some p → km_addr t !! id' = Some p → id = id';
}.

(** Addresses below [next], all different: what both tables keep. *)
Definition table_ok (m : gmap string nat) (next : nat) : Prop :=
  (∀ id p, m !! id = Some p → p < next) ∧ (∀ id id' p, m !! id = Some p → m !! id' = Some p → id = id').

Lemma table_ok_insert m next id : m !! id = None → table_ok m next → table_ok (<[id := next]> m) (S next).
Proof.
  intros Hid [H1 H2]. split.
  - intros id' p [[_ <-]|[_ Hp]]%lookup_insert_Some; [lia|]. apply H1 in Hp. lia.
  - intros i j p [[<- <-]|[_ Hi]]%lookup_insert_Some [[<- ?]|[_ Hj]]%lookup_insert_Some; try done.
    + apply H1 in Hj. lia.
    + subst. apply H1 in Hi. lia.
    + by eapply H2.
Qed.

#[export] Program Instance backup_mutexes : KeyedMutex BackupLocks := {|
  km_init := mkBackupLocks ∅ 0;
  km_lookup := lockFor;
  km_addr := bl_locks;
  km_ok s := table_ok (bl_locks s) (bl_next s);
|}.
Next Obligation. by split; [split; intros *; rewrite ?lookup_empty|]. Qed.
Next Obligation.
  intros id t Ht. unfold wp, lockFor. destruct (bl_locks t !! id) as [p|] eqn:Hid; cbn; [done|].
  split_and!; [by apply table_ok_insert|by rewrite lookup_insert_eq|by apply insert_subseteq].
Qed.
Next Obligation. intros t id id' p [_ H]. apply H. Qed.

#[export] Program Instance op_mutexes : KeyedMutex OpMutexes := {|
  km_init := mkOpMutexes None 0;
  km_lookup := instanceOpMutex;
  km_addr p := default ∅ (opMuMap p);
  km_ok p := table_ok (default ∅ (opMuMap p)) (om_next p);
|}.
Next Obligation. by split; [split; intros *; cbn; rewrite ?lookup_empty|]. Qed.
Next Obligation.
  intros id t Ht. unfold wp, instanceOpMutex. cbn in *. destruct (default ∅ (opMuMap t) !! id) as [p|] eqn:Hid; cbn; [done|].
  split_and!; [by apply table_ok_insert|by rewrite lookup_insert_eq|by apply insert_subseteq].
Qed.
Next Obligation. intros t id id' p [_ H]. apply H. Qed.

(** ** Goroutines

    An operation on an instance: about to look its mutex up, waiting for it, or
    holding it. *)
Inductive OpPhase := Calling | Waiting (mu : nat) | Holding (mu : nat).
#[export] Instance OpPhase_eq_dec : EqDecision OpPhase.
Proof. solve_decision. Defined.

Section goroutines.
Context {T : Type} {KM : KeyedMutex T}.

Record OpWorld := mkOpWorld { ow_table : T; ow_ops : gmap nat (string * OpPhase) }.

Definition held (w : OpWorld) (mu : nat) : Prop := ∃ g id, ow_ops w !! g = Some (id, Holding mu).

(** [lockFor] runs under the table's own mutex; [Lock] returns when nobody holds the
    mutex; the deferred [Unlock] ends the operation. *)
Inductive op_step : OpWorld → OpWorld → Prop :=
  | op_call w g id : ow_ops w !! g = None →
      op_step w (mkOpWorld (ow_table w) (<[g := (id, Calling)]> (ow_ops w)))
  | op_lookup w g id : ow_ops w !! g = Some (id, Calling) →
      op_step w (let r := km_lookup id (ow_table w) in mkOpWorld r.2 (<[g := (id, Waiting r.1)]> (ow_ops w)))
  | op_lock w g id mu : ow_ops w !! g = Some (id, Waiting mu) → ¬ held w mu →
      op_step w (mkOpWorld (ow_table w) (<[g := (id, Holding mu)]> (ow_ops w)))
  | op_unlock w g id mu : ow_ops w !! g = Some (id, Holding mu) →
      op_step w (mkOpWorld (ow_table w) (delete g (ow_ops w))).

Definition no_ops : OpWorld := mkOpWorld km_init ∅.

(** Every mutex that is waited for or held is its instance's, and each is held once. *)
Record ops_ok (w : OpWorld) : Prop := {
  oo_table : km_ok (ow_table w);
  oo_mutex : ∀ g id ph, ow_ops w !! g = Some (id, ph) →
    match ph with Calling => True | Waiting mu | Holding mu => km_addr (ow_table w) !! id = Some mu end;
  oo_once : ∀ g g' id id' mu, ow_ops w !! g = Some (id, Holding mu) → ow_ops w !! g' = Some (id', Holding mu) → g = g';
}.

Lemma no_ops_ok : ops_ok no_ops.
Proof. split; cbn; [apply km_init_ok|intros *; by rewrite lookup_empty..]. Qed.

Lemma op_step_ok w w' : op_step w w' → ops_ok w → ops_ok w'.
Proof.
  intros Hs [Ht Hm Ho]. destruct Hs as [w g id Hg|w g id Hg|w g id mu Hg Hfree|w g id mu Hg].
  - split; cbn; [done| |].
    + intros g' id' ph [[_ [= <- <-]]|[_ H]]%lookup_insert_Some; [done|by eapply Hm].
    + intros g1 g2 i1 i2 mu [[_ ?]|[_ H1]]%lookup_insert_Some [[_ ?]|[_ H2]]%lookup_insert_Some; try done. by eapply Ho.
  - pose proof (km_lookup_ok id (ow_table w) Ht) as Hl. unfold wp in Hl. destruct (km_lookup id (ow_table w)) as [p t'].
    destruct Hl as (Hok & Hp & Hsub). split; cbn; [done| |].
    + intros g' id' ph [[_ [= <- <-]]|[_ H]]%lookup_insert_Some; [done|]. apply Hm in H.
      destruct ph; [done|by eapply lookup_weaken..].
    + intros g1 g2 i1 i2 mu [[_ ?]|[_ H1]]%lookup_insert_Some [[_ ?]|[_ H2]]%lookup_insert_Some; try done. by eapply Ho.
  - split; cbn; [done| |].
    + intros g' id' ph [[_ [= <- <-]]|[_ H]]%lookup_insert_Some; [by apply (Hm g _ _ Hg)|by eapply Hm].
    + intros g1 g2 i1 i2 mu' [[<- E1]|[_ H1]]%lookup_insert_Some [[<- E2]|[_ H2]]%lookup_insert_Some; simplify_eq; try done;
        [| |by eapply Ho]; exfalso; apply Hfree; by eexists _, _.
  - split; cbn; [done| |].
    + intros g' id' ph [_ H]%lookup_delete_Some. by eapply Hm.
    + intros g1 g2 i1 i2 mu' [_ H1]%lookup_delete_Some [_ H2]%lookup_delete_Some. by eapply Ho.
Qed.

Lemma op_reach_ok w : rtc op_step no_ops w → ops_ok w.
Proof.
  intros Hr. pose proof no_ops_ok as H0. revert H0. induction Hr as [|w w1 w2 Hs _ IH]; eauto using op_step_ok.
Qed.

(** However operations interleave: one instance is held by one operation at most, and
    an operation waits only while another one holds its own instance. *)
Definition serialised : Prop :=
  ∀ w, rtc op_step no_ops w →
    (∀ g g' id mu mu', ow_ops w !! g = Some (id, Holding mu) → ow_ops w !! g' = Some (id, Holding mu') → g = g') ∧
    (∀ g id mu, ow_ops w !! g = Some (id, Waiting mu) →
       op_step w (mkOpWorld (ow_table w) (<[g := (id, Holding mu)]> (ow_ops w))) ∨
       ∃ g', ow_ops w !! g' = Some (id, Holding mu)).

Lemma keyed_serialised : serialised.
Proof.
  intros w Hr. destruct (op_reach_ok w Hr) as [Ht Hm Ho]. split.
  - intros g g' id mu mu' H1 H2. pose proof (Hm _ _ _ H1) as A1. pose proof (Hm _ _ _ H2) as A2. cbn in A1, A2.
    assert (mu' = mu) as -> by congruence. by eapply Ho.
  - intros g id mu Hg.
    destruct (decide (map_Exists (λ _ op, op.2 = Holding mu) (ow_ops w))) as [(g' & [id' ph] & Hg' & Heq)|Hnone].
    + right. cbn in Heq. subst. exists g'. pose proof (Hm _ _ _ Hg) as A1. pose proof (Hm _ _ _ Hg') as A2. cbn in A1, A2.
      by rewrite (km_inj _ _ _ _ Ht A1 A2).
    + left. constructor; [done|]. intros (g' & id' & Hg'). apply Hnone. by eexists g', (id', Holding mu).
Qed.
End goroutines.

