(* ===== verification/MetricsApi.v ===== *)
(** * Reading metrics: [api/metrics.go], [api/prometheus.go], [metrics/insights.go]

    The analytics endpoints over the metric table: the newest samples, the samples of
    a window of time, the most expensive queries, and the exposition format that
    Prometheus scrapes.  Formatting a float with [%g] is an argument.
    [metrics_window] shows that a window asked for in text is the window read. *)

From Stdlib Require Import Ascii.
From stdpp Require Import gmap sorting strings.
From S2P Require Import Prelude GoStrings Apperr GoMonad GoTime Instances Stores MetaDB Alerts Metrics.

(** ** The handlers: [metrics.go] *)

(** [parseTimeParam]: the parameter's text is empty when it is missing. *)
Definition parseTimeParam (v name : string) (def : Z) : result Z :=
  if bool_decide (v = "") then Ok def else
  match Parse_RFC3339 v with
  | Some t => Ok t
  | None => Err (New KindInvalid ("invalid " +:+ name +:+ " timestamp (want RFC3339)"))
  end.

Definition Hour : Z := 3600 * 1000000000.

(** [Latest] and [Range]; [now] is the time of the request. *)
Definition MetricsHandler_Latest (id : string) : M MetricTable (result (gmap string Sample)) := Metrics_Latest id.
Definition MetricsHandler_Range (now : Z) (id metric until since : string) : M MetricTable (result (list Sample)) :=
  until <-? lift_r (parseTimeParam until "until" now) ;;
  since <-? lift_r (parseTimeParam since "since" (until - Hour)) ;;
  if bool_decide (until < since)%Z then fail (New KindInvalid "since must not be after until") else
  samples <-? Metrics_Query id metric since until ;;
  ok samples.

(** [QueryStat]. *)
Record QueryStat := mkQueryStat {
  qs_Query : string;
  qs_Calls : Z;
  qs_TotalTimeMS : float;
  qs_MeanTimeMS : float;
  qs_Rows : Z;
}.

(** The limit of [Queries]. *)
Definition queries_limit (v : string) : Z :=
  let limit :=
    if bool_decide (v = "") then 20%Z
    else match ParseInt64 v with NumOk n => if bool_decide (0 < n)%Z then n else 20%Z | _ => 20%Z end in
  if bool_decide (200 < limit)%Z then 200%Z else limit.

Section insights.
Context {S : Type}.

(** [Queries]: without insights there are none. *)
Definition MetricsHandler_Queries (insights : option (string → Z → M S (result (list QueryStat)))) (id limit : string) :
    M S (result (list QueryStat)) :=
  match insights with
  | None => ok []
  | Some f => queries <-? f id (queries_limit limit) ;; ok queries
  end.

(** [TopQueries]: connecting, the statement over [pg_stat_statements] with its limit
    bound, each row scanned, and the error that ended the rows. *)
Class InsightConn := {
  in_Connect : string → M S (result unit);
  in_Query : string → Z → M S (result (list (result QueryStat) * option error));
}.
Definition top_queries_sql : string :=
  "SELECT query, calls, total_exec_time, mean_exec_time, rows FROM pg_stat_statements ORDER BY total_exec_time DESC LIMIT $1".
Fixpoint scan_stats (rows : list (result QueryStat)) : result (list QueryStat) :=
  match rows with
  | [] => Ok []
  | Err e :: _ => Err (Wrap KindInternal "metrics: scan query stat" e)
  | Ok q :: rows => rmap (cons q) (scan_stats rows)
  end.
Definition TopQueries {IC : InsightConn} (dsn : string) (limit : Z) : M S (result (list QueryStat)) :=
  let limit := if bool_decide (limit ≤ 0)%Z then 20%Z else limit in
  _ <-? in_Connect dsn orelse (λ e, fail (Wrap KindInternal "metrics: connect" e)) ;;
  rows <- in_Query top_queries_sql limit ;;
  match rows with
  | Err _ => ok []
  | Ok (rows, err) =>
      out <-? lift_r (scan_stats rows) ;;
      match err with Some e => fail e | None => ok out end
  end.
End insights.

(** ** The exposition: [prometheus.go] *)

(** The number of bytes of the first rune of a text, as [range] decodes it: 1 for a
    byte that begins no valid encoding. *)
Definition rune_byte_in (lo hi : nat) (s : string) (i : nat) : bool :=
  match String.get i s with Some c => (lo <=? byte_val c) && (byte_val c <=? hi) | None => false end.
Definition cont (s : string) (i : nat) : bool := rune_byte_in 128 191 s i.
Definition rune_len (s : string) : nat :=
  if rune_byte_in 194 223 s 0 && cont s 1 then 2
  else if (rune_byte_in 224 224 s 0 && rune_byte_in 160 191 s 1 || rune_byte_in 225 236 s 0 && cont s 1 ||
           rune_byte_in 237 237 s 0 && rune_byte_in 128 159 s 1 || rune_byte_in 238 239 s 0 && cont s 1) && cont s 2 then 3
  else if (rune_byte_in 240 240 s 0 && rune_byte_in 144 191 s 1 || rune_byte_in 241 243 s 0 && cont s 1 ||
           rune_byte_in 244 244 s 0 && rune_byte_in 128 143 s 1) && cont s 2 && cont s 3 then 4
  else 1.
Definition prom_char (c : ascii) : bool :=
  let n := byte_val c in
  ((97 <=? n) && (n <=? 122)) || ((65 <=? n) && (n <=? 90)) || is_digit c || (n =? 95) || (n =? 58).
(** [promName]: [skip] bytes belong to the rune before. *)
Fixpoint promName_go (skip : nat) (s : string) : string :=
  match s with
  | EmptyString => ""
  | String c s' =>
      match skip with
      | S skip => promName_go skip s'
      | O => String (if prom_char c then c else "_"%char) (promName_go (rune_len s - 1) s')
      end
  end.
Definition promName (s : string) : string := promName_go 0 s.

Example prom_names : promName <$> ["cpu_percent"; "disk free%"; "é" +:+ "x"; String "255" "a"] =
  ["cpu_percent"; "disk_free_"; "_x"; "_a"].
Proof. reflexivity. Qed.

Section prometheus.
Context {D : Type} {IS : InstanceStore D}.
Notation W := (D * MetricTable)%type.
(** [%g]. *)
Context (fmt_g : float → string).

Definition prom_line (inst : Inst) (name : string) (s : Sample) : string :=
  "pgfleet_" +:+ promName name +:+ "{instance_id=" +:+ Quote (inst_ID inst) +:+ ",name=" +:+ Quote (inst_Name inst) +:+
  "} " +:+ fmt_g (sm_Value s) +:+ nl.
(** The lines of one instance, by the name of the metric. *)
Definition prom_instance (inst : Inst) (latest : gmap string Sample) : string :=
  str_concat (omap (λ name, prom_line inst name <$> latest !! name) (sort_strings (map_to_list latest).*1)).

(** [PrometheusHandler.Metrics]: the instances whose samples cannot be read are left
    out. *)
Definition PrometheusHandler_Metrics : M W (result string) :=
  insts <-? on_fst (repo_List CallerCtx) orelse (λ _, fail (Errorf ("# failed to list instances" +:+ nl))) ;;
  b <- for_each insts "" (λ b inst,
    latest <- on_snd (Metrics_Latest (inst_ID inst)) ;;
    ret (match latest with Err _ => b | Ok latest => b +:+ prom_instance inst latest end)) ;;
  ok b.
End prometheus.

(** ** Properties *)

Lemma promName_clean s : str_forallb prom_char (promName s) = true.
Proof.
  unfold promName. generalize 0 as skip. induction s as [|c s IH]; intros [|skip]; try done; [|apply IH].
  cbn [promName_go str_forallb]. rewrite IH, andb_true_r. by destruct (prom_char c) eqn:Hc.
Qed.

#[local] Instance sample_older_total : Total sample_older.
Proof. intros a b. unfold sample_older. lia. Qed.

Lemma Metrics_Query_ok id metric since until t l t' : Metrics_Query id metric since until t = (Ok l, t') →
  l ≡ₚ filter (in_range id metric since until) (mt_rows t) ∧ Sorted sample_older l ∧ mt_rows t' = mt_rows t.
Proof.
  unfold Metrics_Query, try_or, bind, mt_statement. destruct (env_fault (mt_env t) (mt_qn t + 1)); [done|].
  intros [= <- <-]. split_and!; [apply merge_sort_Permutation|apply (Sorted_merge_sort _)|done].
Qed.

Lemma parseTimeParam_format t name def : four_digit_year t →
  parseTimeParam (format_RFC3339 t) name def = Ok (seconds_of t * 1000000000)%Z.
Proof.
  intros Ht. unfold parseTimeParam. rewrite Parse_format_RFC3339 by done. rewrite bool_decide_false; [done|].
  intros E%(f_equal String.length). unfold format_RFC3339 in E. destruct (civil _) as [[y m] d].
  rewrite !length_app_str in E. cbn in E. lia.
Qed.

(** A window of time asked for in the format of the API's own timestamps is
    read to the second: a window that ends before it begins is refused and nothing is
    read, every other reply holds exactly the stored samples of the metric in the
    window, oldest first, and reading changes nothing; without bounds the window is
    the last hour. *)
Theorem metrics_window (t : MetricTable) (now t1 t2 : Z) (id metric : string) :
  four_digit_year t1 → four_digit_year t2 →
  let since := (seconds_of t1 * 1000000000)%Z in
  let until := (seconds_of t2 * 1000000000)%Z in
  let window := MetricsHandler_Range now id metric (format_RFC3339 t2) (format_RFC3339 t1) in
  ((seconds_of t2 < seconds_of t1)%Z → window t = (Err (New KindInvalid "since must not be after until"), t)) ∧
  (∀ l t', window t = (Ok l, t') →
     l ≡ₚ filter (λ s, sm_InstanceID s = id ∧ sm_Metric s = metric ∧ (since ≤ sm_At s ≤ until)%Z) (mt_rows t) ∧
     Sorted (λ a b, (sm_At a ≤ sm_At b)%Z) l ∧ mt_rows t' = mt_rows t) ∧
  (∀ l t', MetricsHandler_Range now id metric "" "" t = (Ok l, t') →
     l ≡ₚ filter (λ s, sm_InstanceID s = id ∧ sm_Metric s = metric ∧ (now - Hour ≤ sm_At s ≤ now)%Z) (mt_rows t)).
Proof.
  intros H1 H2 since until window.
  assert (Hw : window = λ t, (if bool_decide (until < since)%Z then fail (New KindInvalid "since must not be after until")
                              else samples <-? Metrics_Query id metric since until ;; ok samples) t).
  { unfold window, MetricsHandler_Range. rewrite parseTimeParam_format by done.
    transitivity (since <-? lift_r (S:=MetricTable) (parseTimeParam (format_RFC3339 t1) "since" (until - Hour)) ;;
      if bool_decide (until < since)%Z then fail (New KindInvalid "since must not be after until")
      else samples <-? Metrics_Query id metric since until ;; ok samples); [reflexivity|].
    by rewrite parseTimeParam_format. }
  assert (Hq : ∀ a b l t', (samples <-? Metrics_Query id metric a b ;; ok samples) t = (Ok l, t') → Metrics_Query id metric a b t = (Ok l, t')).
  { intros a b l t'. unfold try, try_or, bind. by destruct (Metrics_Query id metric a b t) as [[]]. }
  rewrite Hw. split_and!.
  - intros Hlt. by rewrite bool_decide_true by (unfold since, until; lia).
  - intros l t'. case_bool_decide; [done|]. intros (Hp & Hs & Hr)%Hq%Metrics_Query_ok. done.
  - intros l t'. unfold MetricsHandler_Range, parseTimeParam. cbn [bool_decide]. rewrite !(bool_decide_true ("" = "")) by done.
    cbn [lift_r]. unfold try at 1, try_or at 1, bind at 1. cbn. unfold try at 1, try_or at 1, bind at 1. cbn.
    rewrite bool_decide_false by (unfold Hour; lia). intros (Hp & _ & _)%Hq%Metrics_Query_ok. exact Hp.
Qed.

Definition sample_metrics : MetricTable :=
  mkMetricTable (mkEnv (λ _, None) (λ _, "") (λ n, n)) 0
    [mkSample "id-1" "connections" (float_of 7) 1709210097000000000; mkSample "id-1" "connections" (float_of 5) 1709210096000000000;
     mkSample "id-1" "deadlocks" (float_of 1) 1709210096000000000].
Lemma metrics_window_witness :
  four_digit_year 1709210000000000000 ∧ four_digit_year 1709210100000000000 ∧
  ∀ l t', MetricsHandler_Range 0 "id-1" "connections" (format_RFC3339 1709210100000000000) (format_RFC3339 1709210000000000000)
            sample_metrics = (Ok l, t') →
    l ≡ₚ filter (λ s, sm_InstanceID s = "id-1" ∧ sm_Metric s = "connections" ∧
                      (1709210000000000000 ≤ sm_At s ≤ 1709210100000000000)%Z) (mt_rows sample_metrics) ∧
    Sorted (λ a b, (sm_At a ≤ sm_At b)%Z) l ∧ mt_rows t' = mt_rows sample_metrics.
Proof.
  assert (H1 : four_digit_year 1709210000000000000) by (split; by vm_compute).
  assert (H2 : four_digit_year 1709210100000000000) by (split; by vm_compute).
  split; [exact H1|]. split; [exact H2|].
  exact (proj1 (proj2 (metrics_window sample_metrics 0 1709210000000000000 1709210100000000000 "id-1" "connections" H1 H2))).
Defined.
