(* ===== verification/EventsStream.v ===== *)
(** * Streaming events to browsers: [internal/ws/handler.go]

    A request is checked, upgraded and subscribed to the hub; its writer sends what
    its channel yields until a write fails or the client goes, and the deferred
    cancellation runs.  Connections, publishers and the hub's critical sections
    interleave; [ws_streams] shows that no subscription outlives its connection and
    that a client gets, in order, only what was published while it listened. *)

From stdpp Require Import gmap strings relations.
From S2P Require Import Prelude GoStrings Apperr GoMonad GoParse Hub.

(** ** Requests *)

Section request.
Context (ip_literal : string → result string).
(** [strings.EqualFold], with Unicode's tables. *)
Context (EqualFold : string → string → bool).

(** [sameOrigin], of the header [Origin] and the host of the request. *)
Definition sameOrigin (origin host : string) : bool :=
  if bool_decide (origin = "") then true else
  match url_Parse ip_literal origin with
  | Err _ => false
  | Ok u => EqualFold (url_Host u) host
  end.

(** A request, and whether the rest of its handshake is in order, which
    [websocket.Upgrader] checks. *)
Record StreamRequest := mkStreamRequest {
  sr_token : string;
  sr_origin : string;
  sr_host : string;
  sr_handshake : bool;
}.
Inductive StreamReply := Unauthorized | NotUpgraded | Upgraded.

(** [Handler] up to the upgrade. *)
Definition stream_reply (verify : option (string → result unit)) (r : StreamRequest) : StreamReply :=
  let allowed := match verify with Some f => is_ok (f (sr_token r)) | None => true end in
  if negb allowed then Unauthorized
  else if sameOrigin (sr_origin r) (sr_host r) && sr_handshake r then Upgraded
  else NotUpgraded.

(** ** Connections

    Where the handler of a connection is: in its loop, returned from it, or in the
    two halves of the cancellation. *)
Inductive ConnStage := Streaming | Returned | Unsubscribed | Ended.
(** [cn_since] is what had been published when it subscribed. *)
Record Conn := mkConn { cn_stage : ConnStage; cn_written : list HubEvent; cn_since : nat }.
Record StreamWorld := mkStream { st_hub : Hub; st_conns : gmap nat Conn }.

Definition set_conn (c : nat) (stage : ConnStage) (written : list HubEvent) (w : StreamWorld) : StreamWorld :=
  mkStream (st_hub w) (alter (λ cn, mkConn stage written (cn_since cn)) c (st_conns w)).
Definition set_hub (h : Hub) (w : StreamWorld) : StreamWorld := mkStream h (st_conns w).

Context (verify : option (string → result unit)).

(** The connection is known by its channel. *)
Inductive stream_step : StreamWorld → StreamWorld → Prop :=
  | stream_open w c r : stream_reply verify r = Upgraded →
      hub_chans (st_hub w) !! c = None →
      stream_step w (mkStream (Subscribe c (st_hub w))
                       (<[c := mkConn Streaming [] (length (hub_log (st_hub w)))]> (st_conns w)))
  | stream_publish w ev h : Publish ev (st_hub w) = Some h → stream_step w (set_hub h w)
  | stream_event w c cn ch ev buf (wrote : bool) :
      st_conns w !! c = Some cn → cn_stage cn = Streaming →
      hub_chans (st_hub w) !! c = Some ch → ch_buf ch = ev :: buf →
      stream_step w (set_conn c (if wrote then Streaming else Returned)
                       (if wrote then cn_written cn ++ [ev] else cn_written cn) (set_hub (receive c (st_hub w)) w))
  | stream_closed w c cn : st_conns w !! c = Some cn → cn_stage cn = Streaming →
      stream_step w (set_conn c Returned (cn_written cn) w)
  | stream_remove w c cn : st_conns w !! c = Some cn → cn_stage cn = Returned →
      stream_step w (set_conn c Unsubscribed (cn_written cn) (set_hub (cancel_remove c (st_hub w)) w))
  | stream_close w c cn h : st_conns w !! c = Some cn → cn_stage cn = Unsubscribed →
      cancel_close c (st_hub w) = Some h → stream_step w (set_conn c Ended (cn_written cn) (set_hub h w)).

Definition no_streams : StreamWorld := mkStream NewHub ∅.

(** ** The invariant: a channel and its connection agree *)

Definition stage_ok (cn : Conn) (ch : Chan) : Prop :=
  match cn_stage cn with
  | Streaming | Returned => ch_subscribed ch = true ∧ ch_closed ch = false ∧ ch_once ch = NotRun
  | Unsubscribed => ch_subscribed ch = false ∧ ch_closed ch = false ∧ ch_once ch = Removed
  | Ended => ch_subscribed ch = false ∧ ch_closed ch = true ∧ ch_once ch = Done
  end.
Definition conn_ok (log : list HubEvent) (cn : Conn) (ch : Chan) : Prop :=
  stage_ok cn ch ∧ cn_since cn ≤ length log ∧ sublist (cn_written cn ++ ch_buf ch) (drop (cn_since cn) log).
Definition streams_ok (w : StreamWorld) : Prop :=
  ∀ c, match st_conns w !! c, hub_chans (st_hub w) !! c with
       | Some cn, Some ch => conn_ok (hub_log (st_hub w)) cn ch
       | None, None => True
       | _, _ => False
       end.

Lemma conn_ok_offer log ev cn ch : conn_ok log cn ch → conn_ok (log ++ [ev]) cn (offer ev ch).
Proof.
  intros (Hs & Hl & Hsub). split_and!.
  - unfold stage_ok, offer in *. by destruct (cn_stage cn), (ch_subscribed ch && _); cbn.
  - rewrite length_app. lia.
  - rewrite drop_app_le by done. unfold offer. destruct (ch_subscribed ch && _); cbn.
    + rewrite app_assoc. by apply sublist_app.
    + by apply sublist_inserts_r.
Qed.

Lemma streams_ok_change w w' c : hub_log (st_hub w') = hub_log (st_hub w) →
  (∀ c', c' ≠ c → st_conns w' !! c' = st_conns w !! c' ∧ hub_chans (st_hub w') !! c' = hub_chans (st_hub w) !! c') →
  (match st_conns w' !! c, hub_chans (st_hub w') !! c with
   | Some cn, Some ch => conn_ok (hub_log (st_hub w)) cn ch
   | _, _ => False
   end) → streams_ok w → streams_ok w'.
Proof.
  intros Hlog Hother Hc Hw c'. rewrite Hlog. destruct (decide (c' = c)) as [->|Hne].
  - by destruct (st_conns w' !! c), (hub_chans (st_hub w') !! c).
  - destruct (Hother c' Hne) as [-> ->]. apply Hw.
Qed.

Lemma stream_step_ok w w' : stream_step w w' → streams_ok w → streams_ok w'.
Proof.
  intros Hs Hw. destruct Hs as [w c r Hr Hc|w ev h Hp|w c cn ch ev buf wrote Hc Hst Hch Hbuf|w c cn Hc Hst|w c cn Hc Hst|w c cn h Hc Hst Hcl].
  - apply (streams_ok_change w _ c); cbn; [done| | |done].
    + intros c' Hne. by rewrite !lookup_insert_ne.
    + rewrite !lookup_insert_eq. split_and!; cbn; [done|lia|apply sublist_nil_l].
  - unfold Publish in Hp. case_bool_decide; simplify_eq. intros c. specialize (Hw c). cbn. rewrite lookup_fmap.
    destruct (st_conns w !! c), (hub_chans (st_hub w) !! c); cbn; try done. by apply conn_ok_offer.
  - pose proof (Hw c) as Hok. rewrite Hc, Hch in Hok. destruct Hok as (Hs & Hl & Hsub).
    apply (streams_ok_change w _ c); cbn; [done| | |done].
    + intros c' Hne. by rewrite !lookup_alter_ne.
    + rewrite !lookup_alter_eq, Hc, Hch. cbn. rewrite Hbuf in *. unfold stage_ok in Hs. rewrite Hst in Hs.
      split_and!; cbn; [by destruct wrote|done|]. destruct wrote; [by rewrite <- app_assoc|].
      etrans; [|exact Hsub]. by apply sublist_app, sublist_cons.
  - pose proof (Hw c) as Hok. rewrite Hc in Hok. destruct (hub_chans (st_hub w) !! c) as [ch|] eqn:Hch; [|done].
    destruct Hok as (Hs & Hl & Hsub). apply (streams_ok_change w _ c); cbn; [done| | |done].
    + intros c' Hne. by rewrite !lookup_alter_ne.
    + rewrite lookup_alter_eq, Hc, Hch. cbn. unfold stage_ok in Hs. rewrite Hst in Hs. by split_and!.
  - pose proof (Hw c) as Hok. rewrite Hc in Hok. destruct (hub_chans (st_hub w) !! c) as [ch|] eqn:Hch; [|done].
    destruct Hok as (Hs & Hl & Hsub). apply (streams_ok_change w _ c); cbn; [done| | |done].
    + intros c' Hne. by rewrite !lookup_alter_ne.
    + rewrite !lookup_alter_eq, Hc, Hch. cbn. unfold stage_ok in Hs. rewrite Hst in Hs.
      destruct Hs as (H1 & H2 & H3). split_and!; [by split_and!|done..].
  - pose proof (Hw c) as Hok. rewrite Hc in Hok. unfold cancel_close in Hcl.
    destruct (hub_chans (st_hub w) !! c) as [ch|] eqn:Hch; [|done]. destruct Hok as (Hs & Hl & Hsub).
    unfold stage_ok in Hs. rewrite Hst in Hs. destruct Hs as (H1 & H2 & H3). rewrite H2 in Hcl. simplify_eq.
    apply (streams_ok_change w _ c); cbn; [done| | |done].
    + intros c' Hne. by rewrite lookup_alter_ne, lookup_insert_ne.
    + rewrite lookup_alter_eq, Hc, lookup_insert_eq. cbn. by split_and!.
Qed.

Lemma streams_reach w : rtc stream_step no_streams w → streams_ok w.
Proof.
  intros Hr. assert (streams_ok no_streams) as H0 by (intros c; cbn; by rewrite !lookup_empty).
  revert H0. induction Hr as [|w w1 w2 Hs _ IH]; eauto using stream_step_ok.
Qed.

(** C28: however connections, publishers and cancellations interleave, the channels
    subscribed to the hub are exactly those of connections whose handler has not
    reached its cancellation, so when all have ended nothing is subscribed; what a
    client was sent is, in order, a part of what was published while it was
    subscribed; and a handler that has returned always completes its cancellation
    without a panic.  A connection is only ever opened with a token that verifies,
    from no origin or from the host's own. *)
Theorem ws_streams (w : StreamWorld) :
  rtc stream_step no_streams w →
  (∀ c ch, hub_chans (st_hub w) !! c = Some ch →
     ∃ cn, st_conns w !! c = Some cn ∧ (ch_subscribed ch = true ↔ cn_stage cn = Streaming ∨ cn_stage cn = Returned)) ∧
  (∀ c cn, st_conns w !! c = Some cn → sublist (cn_written cn) (drop (cn_since cn) (hub_log (st_hub w)))) ∧
  (∀ c cn, st_conns w !! c = Some cn → cn_stage cn = Returned →
     ∃ w1 w2 cn', stream_step w w1 ∧ stream_step w1 w2 ∧ st_conns w2 !! c = Some cn' ∧ cn_stage cn' = Ended) ∧
  (∀ r, stream_reply verify r = Upgraded →
     (∀ f, verify = Some f → is_ok (f (sr_token r)) = true) ∧
     (sr_origin r = "" ∨ ∃ u, url_Parse ip_literal (sr_origin r) = Ok u ∧ EqualFold (url_Host u) (sr_host r) = true)).
Proof.
  intros Hr%streams_reach. split_and!.
  - intros c ch Hch. specialize (Hr c). rewrite Hch in Hr. destruct (st_conns w !! c) as [cn|]; [|done].
    exists cn. split; [done|]. destruct Hr as [Hs _]. unfold stage_ok in Hs. destruct (cn_stage cn), Hs as (-> & _ & _);
      (split; [by auto|by intros [?|?]]).
  - intros c cn Hcn. specialize (Hr c). rewrite Hcn in Hr. destruct (hub_chans (st_hub w) !! c) as [ch|]; [|done].
    destruct Hr as (_ & _ & Hsub). etrans; [|exact Hsub]. by apply sublist_inserts_r.
  - intros c cn Hcn Hst. specialize (Hr c). rewrite Hcn in Hr. destruct (hub_chans (st_hub w) !! c) as [ch|] eqn:Hch; [|done].
    destruct Hr as [Hs _]. unfold stage_ok in Hs. rewrite Hst in Hs. destruct Hs as (_ & Hcl & _).
    eexists _, _, _. split; [by eapply stream_remove|]. split; [eapply stream_close|].
    + cbn. by rewrite lookup_alter_eq, Hcn.
    + done.
    + cbn. unfold cancel_close. cbn. by rewrite lookup_alter_eq, Hch; cbn; rewrite Hcl.
    + cbn. by rewrite lookup_alter_eq, lookup_alter_eq, Hcn.
  - intros r Hup. unfold stream_reply in Hup. destruct (negb _) eqn:Ha; [done|]. apply negb_false_iff in Ha.
    destruct (sameOrigin _ _) eqn:Ho; [|done]. split; [by intros f ->|]. unfold sameOrigin in Ho.
    case_bool_decide; [by left|]. right. destruct (url_Parse _ _) as [u|]; [|done]. by exists u.
Qed.
End request.

(** A client without an origin that gets one event and leaves. *)
Definition no_literal : string → result string := λ _, Err (Errorf "literal").
Definition same_text (s t : string) : bool := bool_decide (s = t).
Definition sample_stream : StreamWorld :=
  let w1 := mkStream (Subscribe 0 NewHub) {[0 := mkConn Streaming [] 0]} in
  let w2 := set_hub (default NewHub (Publish sample_event (st_hub w1))) w1 in
  let w3 := set_conn 0 Streaming [sample_event] (set_hub (receive 0 (st_hub w2)) w2) in
  set_conn 0 Returned [sample_event] w3.

Example origins :
  (λ o, sameOrigin no_literal same_text o "fleet.example") <$>
    [""; "https://fleet.example"; "https://evil.example"; "fleet.example"; "://"; "null"] =
  [true; true; false; false; false; false].
Proof. vm_compute. reflexivity. Qed.

Lemma ws_streams_witness :
  rtc (stream_step no_literal same_text None) no_streams sample_stream ∧
  (∀ c ch, hub_chans (st_hub sample_stream) !! c = Some ch →
     ∃ cn, st_conns sample_stream !! c = Some cn ∧ (ch_subscribed ch = true ↔ cn_stage cn = Streaming ∨ cn_stage cn = Returned)).
Proof.
  assert (H : rtc (stream_step no_literal same_text None) no_streams sample_stream).
  { eapply rtc_l; [apply (stream_open _ _ None no_streams 0 (mkStreamRequest "" "" "fleet.example" true)); reflexivity|].
    eapply rtc_l; [apply (stream_publish _ _ None _ sample_event); reflexivity|].
    eapply rtc_l; [eapply (stream_event _ _ None _ 0 (mkConn Streaming [] 0) _ sample_event [] true); reflexivity|].
    apply rtc_once. eapply (stream_closed _ _ None _ 0 (mkConn Streaming [sample_event] 0)); reflexivity. }
  split; [exact H|]. exact (proj1 (ws_streams no_literal same_text None sample_stream H)).
Defined.
