(* ===== verification/ImageBuild.v ===== *)
(** * Building images: [docker/build.go]

    The build context is a tree of files, walked in lexical order into an archive;
    the Engine is an interface; what the build printed is read line by line, as
    [bufio.Scanner] splits it, until one reports an error.  An archive is complete or
    ends in an error ([tar_complete]). *)

From Stdlib Require Import Ascii.
From stdpp Require Import list strings sorting.
From S2P Require Import Prelude GoStrings Apperr GoMonad.

(** [ManagedImage]. *)
Definition ManagedImage : string := "pgfleet/postgres-pgbackrest:16".

(** The largest line the scanner holds. *)
Definition maxBuildLine : Z := 1024 * 1024.

(** [bufio.ScanLines]: a carriage return before the end of a line is dropped, and an
    empty last line is none. *)
Definition dropCR (l : string) : string := if HasSuffix l (chr 13) then str_take (String.length l - 1) l else l.
Definition scan_lines (out : string) : list string :=
  let ls := SplitChar nl_char out in
  if bool_decide (last ls = Some "") then take (length ls - 1) ls else ls.

(** ** The build context

    What [filepath.Walk] finds at a path: a regular file with what opening and
    reading it gives, a symbolic link with what its target gives, something the
    archive has no header for, a directory with its entries (or the error of reading
    it), each with the error of its [Lstat]. *)
Inductive Node :=
  | FileNode (content : result string)
  | LinkNode (content : result string)
  | OddNode (header : error)
  | DirNode (entries : result (list (string * result Node))).

(** An entry of the archive, and a stream of entries with the error that ends it. *)
Record TarEntry := mkTarEntry { te_Name : string; te_Body : string }.
Notation TarStream := (list TarEntry * option error)%type.
Definition tar_append (a : TarStream) (b : TarStream) : TarStream :=
  match a.2 with Some _ => a | None => (a.1 ++ b.1, b.2) end.

(** [archive/tar: write too long]: what is written after the header of a link. *)
Definition errWriteTooLong : error := Errorf "archive/tar: write too long".

(** The callback on a file, after its header: open, copy. *)
Definition tar_file (rel : string) (content : result string) : TarStream :=
  match content with
  | Ok data => ([mkTarEntry rel data], None)
  | Err e => ([mkTarEntry rel ""], Some e)
  end.
Definition tar_link (rel : string) (content : result string) : TarStream :=
  ([mkTarEntry rel ""],
   match content with
   | Ok data => if bool_decide (data = "") then None else Some errWriteTooLong
   | Err e => Some e
   end).

(** The path of an entry below another, relative to the context; the context itself
    is the dot. *)
Definition rel_join (rel name : string) : string := if bool_decide (rel = ".") then name else rel +:+ "/" +:+ name.

(** The names of a directory in lexical order, up to the first error. *)
Definition name_le {A} (a b : string * A) : Prop := String.le a.1 b.1.
#[export] Instance name_le_dec {A} : RelDecision (@name_le A).
Proof. intros a b. unfold name_le. apply _. Defined.
Definition tar_in_order (l : list (string * TarStream)) : TarStream :=
  foldr (λ x acc, tar_append x.2 acc) ([], None) (merge_sort name_le l).

(** [filepath.Walk] with the callback of [tarDir]. *)
Fixpoint tar_walk (rel : string) (n : Node) : TarStream :=
  match n with
  | FileNode c => tar_file rel c
  | LinkNode c => tar_link rel c
  | OddNode e => ([], Some e)
  | DirNode (Err e) => ([], Some e)
  | DirNode (Ok es) =>
      tar_in_order ((fix each (es : list (string * result Node)) : list (string * TarStream) :=
        match es with
        | [] => []
        | (name, r) :: es =>
            (name, match r with Err e => ([], Some e) | Ok n => tar_walk (rel_join rel name) n end) :: each es
        end) es)
  end.

(** [tarDir]: the goroutine writes the archive into the pipe, whose reader gets its
    error; the call itself does not fail. *)
Definition tarDir (root : result Node) : result TarStream :=
  Ok (match root with Err e => ([], Some e) | Ok n => tar_walk "." n end).

(** The archive [p], [body] that the entry below [rel] should give. *)
Inductive holds : string → Node → string → string → Prop :=
  | holds_file rel c : holds rel (FileNode (Ok c)) rel c
  | holds_link rel : holds rel (LinkNode (Ok "")) rel ""
  | holds_dir rel es name n p c :
      (name, Ok n) ∈ es → holds (rel_join rel name) n p c → holds rel (DirNode (Ok es)) p c.

Lemma tar_in_order_complete l : (tar_in_order l).2 = None →
  (∀ x, x ∈ l → x.2.2 = None) ∧ ∀ e, e ∈ (tar_in_order l).1 ↔ ∃ x, x ∈ l ∧ e ∈ x.2.1.
Proof.
  unfold tar_in_order. pose proof (merge_sort_Permutation name_le l) as Hp.
  enough (H : ∀ l : list (string * TarStream), (foldr (λ x acc, tar_append x.2 acc) ([], None) l).2 = None →
    (∀ x, x ∈ l → x.2.2 = None) ∧
    ∀ e, e ∈ (foldr (λ x acc, tar_append x.2 acc) ([], None) l).1 ↔ ∃ x, x ∈ l ∧ e ∈ x.2.1).
  { intros Hn. destruct (H _ Hn) as [H1 H2]. split.
    - intros x. rewrite <- Hp. apply H1.
    - intros e. rewrite H2. split; intros (x & Hx & He); exists x; (split; [|done]);
        [by rewrite <- Hp|by rewrite Hp]. }
  clear. induction l as [|[name [es o]] l IH]; [set_solver|]. cbn. unfold tar_append at 1 3. cbn.
  destruct o as [e|]; [done|]. cbn. intros Hn. destruct (IH Hn) as [H1 H2]. split.
  - intros x [->|Hx]%elem_of_cons; [done|by apply H1].
  - intros e. rewrite elem_of_app, H2. split.
    + intros [He|(x & Hx & He)]; [exists (name, (es, None)); split; [by left|done]|exists x; split; [by right|done]].
    + intros (x & [->|Hx]%elem_of_cons & He); [by left|right; by exists x].
Qed.

(** Induction over a tree, entry by entry. *)
Section node_ind.
Context (P : Node → Prop).
Context (Hfile : ∀ c, P (FileNode c)) (Hlink : ∀ c, P (LinkNode c)) (Hodd : ∀ e, P (OddNode e))
  (Hbad : ∀ e, P (DirNode (Err e)))
  (Hdir : ∀ es, Forall (λ x : string * result Node, ∀ n, x.2 = Ok n → P n) es → P (DirNode (Ok es))).

Fixpoint Node_rect' (n : Node) : P n :=
  match n with
  | FileNode c => Hfile c
  | LinkNode c => Hlink c
  | OddNode e => Hodd e
  | DirNode (Err e) => Hbad e
  | DirNode (Ok es) => Hdir es ((fix each es : Forall (λ x : string * result Node, ∀ n, x.2 = Ok n → P n) es :=
      match es with
      | [] => Forall_nil_2 _
      | (name, r) :: es => Forall_cons_2 _ (name, r) es
          (match r as r0 return ∀ n, r0 = Ok n → P n with
           | Ok m => λ n H, match H in _ = r1 return match r1 with Ok k => P k | Err _ => True end with eq_refl => Node_rect' m end
           | Err e => λ n H, match H in _ = r1 return match r1 with Ok k => P k | Err _ => True end with eq_refl => I end
           end) (each es)
      end) es)
  end.
End node_ind.

(** An archive that does not end in an error holds exactly the files of the tree,
    each under its path with what it contains. *)
Lemma tar_complete n rel : (tar_walk rel n).2 = None →
  ∀ p c, mkTarEntry p c ∈ (tar_walk rel n).1 ↔ holds rel n p c.
Proof.
  revert rel. induction n as [[c|e]|[c|e]|e|e|es IH] using Node_rect'; intros rel Hn p c'; cbn in Hn; try done.
  - cbn. rewrite list_elem_of_singleton. split; [intros [= -> ->]; constructor|by inversion 1].
  - cbn. case_bool_decide as Hc; [subst|done]. rewrite list_elem_of_singleton.
    split; [intros [= -> ->]; constructor|by inversion 1].
  - cbn [tar_walk]. cbn [tar_walk] in Hn. set (each := fix each es := match es with [] => _ | _ => _ end) in *.
    destruct (tar_in_order_complete _ Hn) as [H1 H2]. rewrite H2.
    assert (Heach : ∀ x, x ∈ each es ↔ ∃ name r, (name, r) ∈ es ∧
      x = (name, match r with Err e => ([], Some e) | Ok n => tar_walk (rel_join rel name) n end)).
    { clear. intros x. induction es as [|[name r] es IH]; cbn; [set_solver|]. rewrite elem_of_cons, IH. split.
      - intros [->|(nm & r' & Hin & ->)]; [exists name, r|exists nm, r']; set_solver.
      - intros (nm & r' & [[= -> ->]|Hin]%elem_of_cons & ->); [by left|right; eauto]. }
    rewrite Forall_forall in IH. split.
    + intros (x & (name & r & Hin & ->)%Heach & Hx). destruct r as [m|e]; [|by apply elem_of_nil in Hx].
      eapply holds_dir; [exact Hin|]. apply (IH _ Hin m eq_refl); [|exact Hx].
      apply (H1 (name, _)), Heach. eauto.
    + inversion 1 as [| |? ? name m ? ? Hin Hh]; subst. exists (name, tar_walk (rel_join rel name) m).
      assert (Hx : (name, tar_walk (rel_join rel name) m) ∈ each es) by (apply Heach; exists name, (Ok m); done).
      split; [done|]. apply (IH _ Hin m eq_refl); [|exact Hh]. exact (H1 _ Hx).
Qed.

Example context_archived :
  tarDir (Ok (DirNode (Ok [("conf", Ok (DirNode (Ok [("b", Ok (FileNode (Ok "2"))); ("a", Ok (FileNode (Ok "1")))])));
                           ("Dockerfile", Ok (FileNode (Ok "FROM x")))]))) =
  Ok ([mkTarEntry "Dockerfile" "FROM x"; mkTarEntry "conf/a" "1"; mkTarEntry "conf/b" "2"], None).
Proof. vm_compute. reflexivity. Qed.

Section build.
(** [json.Unmarshal] of a line into a struct with the field [error]; [None] is an
    error. *)
Context (json_error : string → option string).

(** The loop of [drainBuildOutput], with the error of the stream after its lines. *)
Fixpoint drain_lines (ls : list string) (err : option error) : result unit :=
  match ls with
  | [] => match err with Some e => Err e | None => Ok tt end
  | l :: ls =>
      if bool_decide (maxBuildLine ≤ len l)%Z then Err (Errorf "bufio.Scanner: token too long")
      else match json_error (dropCR l) with
           | Some msg => if bool_decide (msg ≠ "") then Err (Errorf ("docker: build failed: " +:+ msg)) else drain_lines ls err
           | None => drain_lines ls err
           end
  end.
Definition drainBuildOutput (out : string) (err : option error) : result unit := drain_lines (scan_lines out) err.

(** [BuildImage]: the tree of the context directory, and the build, which reads the
    archive and answers with a stream and the error that ends it. *)
Class BuildEngine (E : Type) := {
  be_Tree : string → M E (result Node);
  be_ImageBuild : Context → TarStream → string → M E (result (string * option error));
}.
Definition Moby_BuildImage {E} {BE : BuildEngine E} (ctx : Context) (contextDir tag : string) : M E (result unit) :=
  root <- be_Tree contextDir ;;
  tarball <-? lift_r (tarDir root) orelse (λ e, fail (Errorf_w ("docker: tar build context: " +:+ Error e) e)) ;;
  resp <-? be_ImageBuild ctx tarball tag orelse (λ e, fail (Errorf_w ("docker: build " +:+ tag +:+ ": " +:+ Error e) e)) ;;
  lift_r (drainBuildOutput resp.1 resp.2).

(** A build counts as done exactly when its stream was read to its end and no line
    reported an error. *)
Lemma drain_ok out err : drainBuildOutput out err = Ok tt ↔
  err = None ∧ Forall (λ l, (len l < maxBuildLine)%Z ∧ default "" (json_error (dropCR l)) = "") (scan_lines out).
Proof.
  unfold drainBuildOutput. induction (scan_lines out) as [|l ls IH]; cbn [drain_lines].
  - destruct err; split; [done|by intros [? _]|done|done].
  - rewrite Forall_cons. case_bool_decide; [split; [done|lia]|].
    destruct (json_error (dropCR l)) as [msg|]; cbn [default]; [case_bool_decide|]; rewrite ?IH; split; try naive_solver lia.
Qed.
End build.

Example drained :
  let json l := if HasPrefix l "error " then Some (str_drop 6 l) else Some "" in
  drainBuildOutput json ("step 1" +:+ nl +:+ "error no space" +:+ nl +:+ "step 2" +:+ nl) None = Err (Errorf "docker: build failed: no space") ∧
  drainBuildOutput json ("step 1" +:+ chr 13 +:+ nl) None = Ok tt.
Proof. vm_compute. done. Qed.
