(* ===== verification/Store.v ===== *)
(** * Opening the database: [internal/store], [internal/logging], [internal/version]

    The connection pool and the migrations, over what the code uses of the PostgreSQL
    driver and of the migration library; a handle that was opened is closed again
    unless it is the result ([store_Open_handles], [withDB_handles]).  The level of
    the log is here too. *)

From stdpp Require Import gmap sets strings.
From S2P Require Import Prelude GoStrings Apperr GoMonad.

(** ** The driver and the migration library *)

(** Pools of [pgxpool] and databases of [database/sql], by their handle. *)
Class Driver (S : Type) := {
  px_New : Context → string → M S (result nat);
  px_Ping : Context → nat → M S (result unit);
  px_Close : nat → M S unit;
  sql_Open : string → M S (result nat);
  sql_Close : nat → M S unit;
}.
(** What is done with a database to migrate it. *)
Class Goose (S : Type) := {
  gs_Up : Context → nat → string → M S (result unit);
  gs_DownTo : Context → nat → string → Z → M S (result unit);
  gs_Version : Context → nat → M S (result Z);
}.

(** ** Operations *)

Definition migrationsDir : string := "migrations".

Section store.
Context {S : Type} {DR : Driver S} {GS : Goose S}.

(** [Open]. *)
Definition store_Open (ctx : Context) (dsn : string) : M S (result nat) :=
  pool <-? px_New ctx dsn orelse (λ e, fail (Errorf_w ("store: connect: " +:+ Error e) e)) ;;
  _ <-? px_Ping ctx pool orelse (λ e, _ <- px_Close pool ;; fail (Errorf_w ("store: ping: " +:+ Error e) e)) ;;
  ok pool.

(** [Ready]. *)
Definition store_Ready (pool : nat) (ctx : Context) : M S (result unit) := px_Ping ctx pool.

(** [withDB]: the deferred [Close] runs whatever [fn] returns. *)
Definition withDB {A} (dsn : string) (fn : nat → M S (result A)) : M S (result A) :=
  db <-? sql_Open dsn orelse (λ e, fail (Errorf_w ("store: open db: " +:+ Error e) e)) ;;
  r <- fn db ;; _ <- sql_Close db ;; ret r.

Definition MigrateUp (ctx : Context) (dsn : string) : M S (result unit) :=
  withDB dsn (λ db, gs_Up ctx db migrationsDir).
Definition MigrateDownTo (ctx : Context) (dsn : string) (version : Z) : M S (result unit) :=
  withDB dsn (λ db, gs_DownTo ctx db migrationsDir version).
Definition MigrationVersion (ctx : Context) (dsn : string) : M S (result Z) :=
  withDB dsn (λ db, gs_Version ctx db).
End store.

(** [logging.ParseLevel]: anything unknown is info. *)
Inductive Level := LevelDebug | LevelInfo | LevelWarn | LevelError.
Definition ParseLevel (level : string) : Level :=
  let l := ToLower (TrimSpace level) in
  if bool_decide (l = "debug") then LevelDebug
  else if bool_decide (l ∈ ["warn"; "warning"]) then LevelWarn
  else if bool_decide (l = "error") then LevelError
  else LevelInfo.

(** [version.String], of a build that sets no other. *)
Definition version_String : string := "0.1.1".

(** ** Nothing opened is forgotten

    The handles that are open; opening adds a new one or none, pinging and migrating
    change none. *)
Class HandleLaws (S : Type) `{DR : Driver S} `{GS : Goose S} := {
  handles : S → gset nat;
  px_New_law ctx dsn s : wp (px_New ctx dsn) (λ r s',
    match r with Ok h => h ∉ handles s ∧ handles s' = {[h]} ∪ handles s | Err _ => handles s' = handles s end) s;
  px_Ping_law ctx h s : wp (px_Ping ctx h) (λ _ s', handles s' = handles s) s;
  px_Close_law h s : wp (px_Close h) (λ _ s', handles s' = handles s ∖ {[h]}) s;
  sql_Open_law dsn s : wp (sql_Open dsn) (λ r s',
    match r with Ok h => h ∉ handles s ∧ handles s' = {[h]} ∪ handles s | Err _ => handles s' = handles s end) s;
  sql_Close_law h s : wp (sql_Close h) (λ _ s', handles s' = handles s ∖ {[h]}) s;
  gs_Up_law ctx h dir s : wp (gs_Up ctx h dir) (λ _ s', handles s' = handles s) s;
  gs_DownTo_law ctx h dir v s : wp (gs_DownTo ctx h dir v) (λ _ s', handles s' = handles s) s;
  gs_Version_law ctx h s : wp (gs_Version ctx h) (λ _ s', handles s' = handles s) s;
}.

Section handles.
Context {S : Type} `{HL : HandleLaws S}.

Lemma store_Open_handles ctx dsn s : wp (store_Open ctx dsn) (λ r s',
  match r with Ok h => h ∉ handles s ∧ handles s' = {[h]} ∪ handles s | Err _ => handles s' = handles s end) s.
Proof.
  unfold store_Open. apply wp_try_or. eapply wp_mono; [apply px_New_law|].
  intros [h|e] s1 H1; [|by apply wp_ret]. destruct H1 as [Hfresh H1].
  apply wp_try_or. eapply wp_mono; [apply px_Ping_law|]. intros [[]|e] s2 H2; cbn in H2.
  - apply wp_ret. by rewrite H2.
  - apply wp_bind. eapply wp_mono; [apply px_Close_law|]. intros [] s3 H3. apply wp_ret.
    rewrite H3, H2, H1. set_solver.
Qed.

Lemma withDB_handles {A} dsn (fn : nat → M S (result A)) s :
  (∀ h s, wp (fn h) (λ _ s', handles s' = handles s) s) →
  wp (withDB dsn fn) (λ _ s', handles s' = handles s) s.
Proof.
  intros Hfn. unfold withDB. apply wp_try_or. eapply wp_mono; [apply sql_Open_law|].
  intros [h|e] s1 H1; [|by apply wp_ret]. destruct H1 as [Hfresh H1].
  apply wp_bind. eapply wp_mono; [apply Hfn|]. intros r s2 H2.
  apply wp_bind. eapply wp_mono; [apply sql_Close_law|]. intros [] s3 H3. apply wp_ret.
  rewrite H3, H2, H1. set_solver.
Qed.

(** Migrating in either direction and asking for the version leave no database open. *)
Lemma migrations_close ctx dsn v s :
  wp (MigrateUp ctx dsn) (λ _ s', handles s' = handles s) s ∧
  wp (MigrateDownTo ctx dsn v) (λ _ s', handles s' = handles s) s ∧
  wp (MigrationVersion ctx dsn) (λ _ s', handles s' = handles s) s.
Proof.
  split_and!; apply withDB_handles; intros h s'; [apply gs_Up_law|apply gs_DownTo_law|apply gs_Version_law].
Qed.
End handles.

(** A driver whose world is the set of the open handles: the laws can hold. *)
#[export] Instance memory_driver : Driver (gset nat) := {|
  px_New ctx dsn s := (Ok (fresh s), {[fresh s]} ∪ s);
  px_Ping ctx h s := (if bool_decide (h ∈ s) then Ok tt else Err (Errorf "closed pool"), s);
  px_Close h s := (tt, s ∖ {[h]});
  sql_Open dsn s := if bool_decide (dsn = "") then (Err (Errorf "no dsn"), s) else (Ok (fresh s), {[fresh s]} ∪ s);
  sql_Close h s := (tt, s ∖ {[h]});
|}.
#[export] Instance memory_goose : Goose (gset nat) := {|
  gs_Up ctx h dir := done_ok;
  gs_DownTo ctx h dir v := if bool_decide (v < 0)%Z then fail (Errorf "no such version") else done_ok;
  gs_Version ctx h := ok 1%Z;
|}.
#[export] Program Instance memory_handle_laws : HandleLaws (gset nat) := {| handles := id |}.
Next Obligation. intros. split; [apply is_fresh|done]. Qed.
Next Obligation. done. Qed.
Next Obligation. done. Qed.
Next Obligation. intros dsn s. unfold wp. cbn. case_bool_decide; [done|]. split; [apply is_fresh|done]. Qed.
Next Obligation. done. Qed.
Next Obligation. done. Qed.
Next Obligation. intros. unfold wp. cbn. by case_bool_decide. Qed.
Next Obligation. done. Qed.

Example levels : ParseLevel <$> ["DEBUG"; " warning "; "Error"; "verbose"; ""] =
  [LevelDebug; LevelWarn; LevelError; LevelInfo; LevelInfo].
Proof. reflexivity. Qed.
