(* ===== verification/Startup.v ===== *)
(** * The process of the control plane: [cmd/pgfleet-api/main.go], [api/server.go]

    [run] is the sequence of the calls on the outside world it makes, each with the
    answer of the environment: what the configuration decides, what fails the start,
    which jobs the scheduler is given and what is closed, in which order, however the
    process ends.  The scheduler is the one of [Scheduler]; the settings are those of
    [Config]. *)

From stdpp Require Import gmap list strings.
From S2P Require Import Prelude GoStrings Apperr GoMonad Runtime Auth Secrets ObjectStore Provision Scheduler UsersApi GoParse Config.

(** ** Constants *)

Definition main_Hour : Z := 60 * Minute.
Definition tokenTTL : Z := 24 * main_Hour.
Definition reconcileInterval : Z := 30 * Second.
Definition metricsInterval : Z := 15 * Second.
Definition healthInterval : Z := 5 * Minute.
Definition drillInterval : Z := 24 * main_Hour.
Definition alertsInterval : Z := 1 * Minute.
Definition metaBackupInterval : Z := 6 * main_Hour.
Definition failoverInterval : Z := 30 * Second.
Definition asyncDrainTimeout : Z := 60 * Second.

(** ** Settings handed to the parts *)

Definition s3_of (cfg : EnvConfig) : S3Config :=
  mkS3Config (cfg_S3Endpoint cfg) (cfg_S3Region cfg) (cfg_S3AccessKey cfg) (cfg_S3SecretKey cfg) (cfg_S3Bucket cfg)
    (cfg_S3UseTLS cfg) (cfg_S3TLSSkipVerify cfg).
Definition options_of (cfg : EnvConfig) : Options :=
  mkOptions (cfg_DockerNetwork cfg) (cfg_InstanceHost cfg) (s3_of cfg) (cfg_S3BackrestEndpoint cfg)
    (cfg_InstanceRestartPolicy cfg) (cfg_InstanceBindAddress cfg) (cfg_MasterKey cfg) (cfg_BackupEncryption cfg)
    (cfg_BackupBlockIncr cfg) (cfg_Repo2Path cfg).
Definition sso_of (cfg : EnvConfig) : SSOConfig :=
  mkSSO (cfg_SSOEmailHeader cfg) (cfg_SSOGroupsHeader cfg) (cfg_SSOAutoProvision cfg) (cfg_SSOAdminGroup cfg)
    (cfg_SSOOperatorGroup cfg) (cfg_SSOSharedSecret cfg).

(** Is an object store configured? *)
Definition has_store (cfg : EnvConfig) : bool :=
  bool_decide (cfg_S3Endpoint cfg ≠ "") && bool_decide (cfg_S3Bucket cfg ≠ "").

(** ** Calls *)

(** What [run] asks of the outside world, in the order of the source; the last four
    are the deferred ones. *)
Inductive BootOp :=
  | NotifySignals
  | OpenStore (dsn : string)
  | MigrateUp (dsn : string)
  | Listen (addr : string)
  | EnsureAdmin (email password : string)
  | NewMoby
  | CreateNet (network : string)
  | EnsureBkt (s3 : S3Config)
  | ReconcileOnce
  | StartJobs
  | ServeHTTP (issuer : Issuer) (opts : Options) (sso : option SSOConfig)
  | WaitAsync (timeout : Z)
  | StopJobs
  | CloseRuntime
  | ClosePool
  | StopSignals
  | WriteStderr (line : string).

(** How [Serve] ends: the server stops by itself with an error, or its context is
    cancelled and the shutdown answers. *)
Inductive ServerEnd := ServerStopped (err : error) | ServerClosed | Cancelled (shutdown : result unit).
Definition Serve (e : ServerEnd) : result unit :=
  match e with ServerStopped err => Err err | ServerClosed => Ok tt | Cancelled r => r end.

(** What was asked so far, and the scheduler. *)
Record Boot := mkBoot { bt_log : list BootOp; bt_sched : Scheduler }.
Definition boot0 : Boot := mkBoot [] NewScheduler.

Section startup.
(** The answers of the environment, the end of the server, and [net.ParseIP] of a
    bracketed host. *)
Context (answer : BootOp → result unit) (server : ServerEnd) (getenv : string → string) (ip_literal : string → result string).

Definition note (op : BootOp) : M Boot unit := λ s, (tt, mkBoot (bt_log s ++ [op]) (bt_sched s)).
Definition ask (op : BootOp) : M Boot (result unit) := _ <- note op ;; ret (answer op).

(** [defer op], for the rest of the function. *)
Definition deferring {A} (op : BootOp) (rest : M Boot A) : M Boot A := a <- rest ;; _ <- note op ;; ret a.

(** [sched.Register], [sched.Start]. *)
Definition register (name : string) (interval : Z) : M Boot unit := λ s,
  (tt, mkBoot (bt_log s) (Register (mkJob name interval) (bt_sched s))).
Definition start_jobs : M Boot unit := λ s, (tt, mkBoot (bt_log s ++ [StartJobs]) (Sched_Start (bt_sched s))).

(** ** The jobs *)

Definition register_jobs (cfg : EnvConfig) : M Boot unit :=
  _ <- register "reconcile" reconcileInterval ;;
  _ <- register "scheduled-backups" (cfg_BackupInterval cfg) ;;
  _ <- register "collect-metrics" metricsInterval ;;
  _ <- register "prune-metrics" main_Hour ;;
  _ <- register "health-checks" healthInterval ;;
  _ <- register "evaluate-alerts" alertsInterval ;;
  _ <- register "restore-drills" drillInterval ;;
  _ <- when (has_store cfg) (register "meta-db-backup" metaBackupInterval) ;;
  when (cfg_AutoFailover cfg) (register "auto-failover" failoverInterval).

(** ** The process *)

(** From the started scheduler to the end of the server and of the work under way. *)
Definition serve_http (cfg : EnvConfig) (issuer : Issuer) : M Boot (result unit) :=
  let sso := if SSO_Enabled (sso_of cfg) then Some (sso_of cfg) else None in
  _ <- note (ServeHTTP issuer (options_of cfg) sso) ;;
  let serveErr := Serve server in
  _ <- note (WaitAsync asyncDrainTimeout) ;;
  ret serveErr.

(** [run]. *)
Definition api_run : M Boot (result unit) :=
  cfg <-? lift_r (Load ip_literal getenv) ;;
  _ <- note NotifySignals ;;
  deferring StopSignals (
  _ <-? ask (OpenStore (cfg_MetaDBDSN cfg)) ;;
  deferring ClosePool (
  _ <-? ask (MigrateUp (cfg_MetaDBDSN cfg)) ;;
  _ <-? ask (Listen (cfg_HTTPAddr cfg)) ;;
  issuer <-? lift_r (NewIssuer (cfg_JWTSecret cfg) tokenTTL) ;;
  _ <-? ask (EnsureAdmin (cfg_BootstrapAdminEmail cfg) (cfg_BootstrapAdminPassword cfg)) ;;
  _ <-? lift_r (NewCipher (cfg_MasterKey cfg)) ;;
  _ <-? ask NewMoby ;;
  deferring CloseRuntime (
  _ <- ask (CreateNet (cfg_DockerNetwork cfg)) ;;
  _ <-? (if has_store cfg then ask (EnsureBkt (s3_of cfg)) else done_ok) ;;
  _ <- ask ReconcileOnce ;;
  _ <- register_jobs cfg ;;
  _ <- start_jobs ;;
  deferring StopJobs (serve_http cfg issuer)))).

(** [main]: an error ends the process with status 1. *)
Definition main : M Boot Z :=
  r <- api_run ;;
  match r with
  | Err e => _ <- note (WriteStderr ("fatal: " +:+ Error e +:+ nl)) ;; ret 1%Z
  | Ok _ => ret 0%Z
  end.

(** ** What the process does *)

(** Every call of a start that succeeds, in order; the calls whose failure ends it;
    what closes what a call opened. *)
Definition script (cfg : EnvConfig) (issuer : Issuer) : list BootOp :=
  [NotifySignals; OpenStore (cfg_MetaDBDSN cfg); MigrateUp (cfg_MetaDBDSN cfg); Listen (cfg_HTTPAddr cfg);
   EnsureAdmin (cfg_BootstrapAdminEmail cfg) (cfg_BootstrapAdminPassword cfg); NewMoby; CreateNet (cfg_DockerNetwork cfg)] ++
  (if has_store cfg then [EnsureBkt (s3_of cfg)] else []) ++
  [ReconcileOnce; StartJobs;
   ServeHTTP issuer (options_of cfg) (if SSO_Enabled (sso_of cfg) then Some (sso_of cfg) else None);
   WaitAsync asyncDrainTimeout].
Definition fatal (op : BootOp) : bool :=
  match op with
  | OpenStore _ | MigrateUp _ | Listen _ | EnsureAdmin _ _ | NewMoby | EnsureBkt _ => true
  | _ => false
  end.
Definition closer (op : BootOp) : option BootOp :=
  match op with
  | NotifySignals => Some StopSignals | OpenStore _ => Some ClosePool | NewMoby => Some CloseRuntime
  | StartJobs => Some StopJobs | _ => None
  end.
Definition passed (op : BootOp) : bool := negb (fatal op) || is_ok (answer op).
Definition owed (done : list BootOp) : list BootOp := reverse (omap (λ op, if passed op then closer op else None) done).

(** The jobs a configuration asks for. *)
Definition jobs_of (cfg : EnvConfig) : list SchedJob :=
  [mkJob "reconcile" reconcileInterval; mkJob "scheduled-backups" (cfg_BackupInterval cfg);
   mkJob "collect-metrics" metricsInterval; mkJob "prune-metrics" main_Hour; mkJob "health-checks" healthInterval;
   mkJob "evaluate-alerts" alertsInterval; mkJob "restore-drills" drillInterval] ++
  (if has_store cfg then [mkJob "meta-db-backup" metaBackupInterval] else []) ++
  (if cfg_AutoFailover cfg then [mkJob "auto-failover" failoverInterval] else []).

(** A scheduler started with these jobs: each has a name of its own and a period a
    ticker accepts, and the state is one the scheduler's own theorems are about. *)
Record jobs_started (jobs : list SchedJob) (s : Scheduler) : Prop := {
  started_jobs : sc_jobs s = jobs;
  started_cancel : sc_cancel s = Some 0%nat ∧ sc_calls s = [Starting 0 jobs];
  started_reachable : sched_reachable true s;
  started_names : NoDup (sj_name <$> jobs);
  started_intervals : Forall (λ j, (0 < sj_interval j)%Z) jobs;
}.

Lemma registered jobs s :
  sched_reachable true s → sched_reachable true (foldl (λ s j, Register j s) s jobs).
Proof.
  revert s. induction jobs as [|j jobs IH]; intros s Hs; [done|]. cbn. apply IH.
  eapply rtc_r; [exact Hs|]. right. constructor.
Qed.

Lemma start_jobs_started cfg : cfg_wf cfg →
  jobs_started (jobs_of cfg) (Sched_Start (foldl (λ s j, Register j s) NewScheduler (jobs_of cfg))).
Proof.
  intros (_ & _ & Hi & _). split.
  - unfold jobs_of. by destruct (has_store cfg), (cfg_AutoFailover cfg).
  - unfold jobs_of. by destruct (has_store cfg), (cfg_AutoFailover cfg).
  - eapply rtc_r; [apply registered, rtc_refl|]. right. constructor. intros _. unfold jobs_of.
    by destruct (has_store cfg), (cfg_AutoFailover cfg).
  - unfold jobs_of. destruct (has_store cfg), (cfg_AutoFailover cfg); apply (bool_decide_unpack _); vm_compute; reflexivity.
  - unfold jobs_of. destruct (has_store cfg), (cfg_AutoFailover cfg); repeat (constructor; try done).
Qed.

Lemma register_jobs_eq cfg log s :
  register_jobs cfg (mkBoot log s) = (tt, mkBoot log (foldl (λ s j, Register j s) s (jobs_of cfg))).
Proof. unfold register_jobs, jobs_of. by destruct (has_store cfg), (cfg_AutoFailover cfg). Qed.

(** The end of a process that could load its configuration: everything was asked and
    the server ended, or the last call asked failed; then what was opened is closed. *)
Definition ended (cfg : EnvConfig) (issuer : Issuer) (r : result unit) (s : Boot) : Prop :=
  ∃ asked left, script cfg issuer = asked ++ left ∧ bt_log s = asked ++ owed asked ∧
    match left with
    | [] => Forall passed asked ∧ r = Serve server ∧ jobs_started (jobs_of cfg) (bt_sched s)
    | _ :: _ => ∃ before op e, asked = before ++ [op] ∧ Forall passed before ∧ fatal op = true ∧
        answer op = Err e ∧ r = Err e ∧ bt_sched s = NewScheduler
    end.

(** A start that stops at its [n]th call. *)
Lemma ended_at cfg issuer n op e log :
  script cfg issuer !! n = Some op → S n < length (script cfg issuer) →
  Forall passed (take n (script cfg issuer)) → fatal op = true → answer op = Err e →
  log = take (S n) (script cfg issuer) ++ owed (take (S n) (script cfg issuer)) →
  ended cfg issuer (Err e) (mkBoot log NewScheduler).
Proof.
  intros Hn Hlen Hp Hf He ->. exists (take (S n) (script cfg issuer)), (drop (S n) (script cfg issuer)).
  split; [by rewrite take_drop|]. split; [done|].
  assert (length (drop (S n) (script cfg issuer)) ≠ 0) by (rewrite length_drop; lia).
  destruct (drop (S n) _) eqn:E; [done|].
  exists (take n (script cfg issuer)), op, e. split; [by rewrite (take_S_r _ _ op)|done].
Qed.

(** What has passed, by the answers assumed; a start that stops at its [n]th call; one
    that does not stop. *)
Local Ltac answers := repeat match goal with H : answer _ = _ |- _ => rewrite H; cbn end.
Local Ltac all_passed := repeat constructor; unfold passed; cbn; answers; done.
Local Ltac stored := try match goal with H : has_store _ = _ |- _ => rewrite H end.
Local Ltac stops n :=
  eapply (ended_at _ _ n);
  [ unfold script; stored; reflexivity | unfold script; destruct (has_store _); cbn; lia
  | unfold script; stored; cbn; all_passed | reflexivity | eassumption
  | unfold owed, script, passed; stored; cbn; answers; done ].
Local Ltac completes cfg issuer Hst :=
  exists (script cfg issuer), []; rewrite app_nil_r; split; [done|];
  split; [unfold script, owed, passed; stored; cbn; answers; done|];
  split; [unfold script; stored; cbn; all_passed|split; [done|exact Hst]].

End startup.

(** The smallest deployment, started and stopped; one whose Engine is out of reach; one
    without a secret. *)
Example startup_runs :
  let literal := λ _, Err (Errorf "literal") in
  let no_engine := λ op, match op with NewMoby => Err (Errorf "docker: connect: refused") | _ => Ok tt end in
  let go answer getenv := main answer (Cancelled (Ok tt)) getenv literal boot0 in
  let healthy := go (λ _, Ok tt) sample_environ in
  let broken := go no_engine sample_environ in
  let unset := go (λ _, Ok tt) (with_env "PGFLEET_JWT_SECRET" "") in
  (healthy.1, drop 8 (bt_log healthy.2) !! 2%nat, last (bt_log healthy.2), length (sc_jobs (bt_sched healthy.2))) =
    (0%Z, Some (WaitAsync asyncDrainTimeout), Some StopSignals, 8%nat) ∧
  (broken.1, drop 5 (bt_log broken.2)) =
    (1%Z, [NewMoby; ClosePool; StopSignals; WriteStderr ("fatal: docker: connect: refused" +:+ nl)]) ∧
  (unset.1, bt_log unset.2) = (1%Z, [WriteStderr ("fatal: PGFLEET_JWT_SECRET is required" +:+ nl)]).
Proof. split_and!; vm_compute; reflexivity. Qed.
