(* ===== verification/Care.v ===== *)
(** * What PgFleet may touch: the discipline and its interfaces

    The Docker daemon and the database are shared: containers and volumes that
    PgFleet does not own live beside those it does.  This file states the
    discipline every operation keeps, call by call.  [safe good m P] says that [m]
    keeps the invariant [good] of its world and returns a value that satisfies [P].
    [RuntimeCare], [StoreCare] and [ClusterCare] are the interfaces: what each call
    demands of its arguments (a container that is removed, stopped or run a command
    in is not foreign; a container or volume that is created or removed is an own
    one) and what it gives back.  The demands do not depend on the state, so they
    hold under any interleaving with other code that keeps the invariant.  The
    second half proves that every operation of the provisioner and of the
    reconciliation keeps it. *)

From stdpp Require Import gmap sets.
From S2P Require Import Prelude GoStrings Apperr GoMonad PgConfig Instances PgBackRest PgCat Runtime Stores Provision ProvisionOps Reconcile.

(** ** Computations that keep an invariant *)

(** The value of a result, if it is one, satisfies [P]. *)
Definition okay {A} (P : A → Prop) (r : result A) : Prop :=
  match r with Ok a => P a | Err _ => True end.

(** No claim on the value. *)
Definition anything {A} : A → Prop := λ _, True.

Section safe.
Context {S : Type} (good : S → Prop).

Definition safe {A} (m : M S A) (P : A → Prop) : Prop := ∀ s, good s → good (m s).2 ∧ P (m s).1.

Lemma safe_mono {A} (m : M S A) (P Q : A → Prop) : safe m P → (∀ a, P a → Q a) → safe m Q.
Proof. intros Hm HPQ s Hs. destruct (Hm s Hs). auto. Qed.

Lemma safe_anything {A} (m : M S A) P : safe m P → safe m anything.
Proof. intros Hm. by eapply safe_mono. Qed.

Lemma safe_okay {A} (m : M S (result A)) : safe m anything → safe m (okay anything).
Proof. intros Hm. eapply safe_mono; [exact Hm|]. by intros [a|e] _. Qed.

Lemma safe_fail {A} e (P : A → Prop) : safe (fail e) (okay P).
Proof. by intros s Hs. Qed.

Lemma safe_ret {A} (a : A) (P : A → Prop) : P a → safe (ret a) P.
Proof. by intros HP s Hs. Qed.

Lemma safe_bind {A B} (m : M S A) (k : A → M S B) P Q :
  safe m P → (∀ a, P a → safe (k a) Q) → safe (bind m k) Q.
Proof.
  intros Hm Hk s Hs. destruct (Hm s Hs) as [H1 H2]. unfold bind. destruct (m s) as [a s'].
  by apply Hk.
Qed.

Lemma safe_try_or {A B} (m : M S (result A)) h (k : A → M S (result B)) P Q :
  safe m (okay P) → (∀ e, safe (h e) Q) → (∀ a, P a → safe (k a) Q) → safe (try_or m h k) Q.
Proof. intros Hm Hh Hk. eapply safe_bind; [exact Hm|]. intros [a|e] Ha; [by apply Hk|apply Hh]. Qed.

Lemma safe_try {A B} (m : M S (result A)) (k : A → M S (result B)) P Q :
  safe m (okay P) → (∀ a, P a → safe (k a) (okay Q)) → safe (try m k) (okay Q).
Proof. intros Hm Hk. eapply safe_try_or; [exact Hm| |exact Hk]. intros e. by apply safe_ret. Qed.

Lemma safe_lift {A} (r : result A) : safe (lift_r r) (okay (λ a, r = Ok a)).
Proof. apply safe_ret. by destruct r. Qed.

Lemma safe_discard {A} (m : M S A) : safe m anything → safe (discard m) anything.
Proof. intros Hm. eapply safe_bind; [exact Hm|]. intros a _. by apply safe_ret. Qed.

Lemma safe_when b (m : M S unit) : (b = true → safe m anything) → safe (when b m) anything.
Proof. intros Hm. destruct b; [by apply Hm|by apply safe_ret]. Qed.

(** Loops, with a claim on their accumulator. *)
Lemma safe_for_each {A B} (I : B → Prop) (f : B → A → M S B) xs acc :
  I acc → (∀ acc x, x ∈ xs → I acc → safe (f acc x) I) → safe (for_each xs acc f) I.
Proof.
  revert acc. induction xs as [|x xs IH]; intros acc Hacc Hf; [by apply safe_ret|].
  eapply safe_bind; [apply Hf; [by left|done]|]. intros acc' Hacc'. apply IH; [done|].
  intros acc'' y Hy. apply Hf. by right.
Qed.

Lemma safe_for_each_e {A B} (I : B → Prop) (f : B → A → M S (result B)) xs acc :
  I acc → (∀ acc x, x ∈ xs → I acc → safe (f acc x) (okay I)) → safe (for_each_e xs acc f) (okay I).
Proof.
  revert acc. induction xs as [|x xs IH]; intros acc Hacc Hf; [by apply safe_ret|].
  eapply safe_try; [apply Hf; [by left|done]|]. intros acc' Hacc'. apply IH; [done|].
  intros acc'' y Hy. apply Hf. by right.
Qed.
End safe.

(** The worlds of two components, side by side. *)
Section pairs.
Context {S T : Type} (goodS : S → Prop) (goodT : T → Prop).

Definition good_pair (s : S * T) : Prop := goodS s.1 ∧ goodT s.2.

Lemma safe_on_fst {A} (m : M S A) P : safe goodS m P → safe good_pair (on_fst m) P.
Proof. intros Hm [s t] [Hs Ht]. unfold on_fst. destruct (Hm s Hs). cbn in *. by destruct (m s). Qed.

Lemma safe_on_snd {A} (m : M T A) P : safe goodT m P → safe good_pair (on_snd m) P.
Proof. intros Hm [s t] [Hs Ht]. unfold on_snd. destruct (Hm t Ht). cbn in *. by destruct (m t). Qed.

(** A component nothing is demanded of. *)
Lemma safe_on_snd_any {A} (m : M T A) : (∀ t, goodT t) → safe good_pair (on_snd m) anything.
Proof. intros H. apply safe_on_snd. intros t _. by split. Qed.
End pairs.

(** ** Own and foreign

    [mine] are the ids of the instances and clusters that are worked on; [foreign]
    are the ids of the containers that are not to be touched. *)
Section ownership.
Context (mine : string → Prop) (foreign : gset string).

(** A container of one of them, by its labels. *)
Definition own_labels (labels : gmap string string) : Prop :=
  labels !! LabelManaged = Some "true" ∧ ∃ id, mine id ∧ labels !! LabelInstance = Some id.

(** A volume of one of them, by its name: the data and the repository volume, the
    data volume a restore swapped in, the volume of a drill. *)
Definition own_volume (v : string) : Prop :=
  ∃ id, mine id ∧
    (v = volumeName "data" id ∨ v = volumeName "repo" id ∨ v = volumeName "drill-data" id ∨
     ∃ stamp, v = volumeName "data" id +:+ "-r" +:+ stamp).

(** A container that may be created: it is labelled, and mounts own volumes only. *)
Definition own_spec (sp : ContainerSpec) : Prop :=
  own_labels (cs_Labels sp) ∧ Forall own_volume (volumes_of sp).

(** A row that points at nothing foreign. *)
Definition own_row (i : Inst) : Prop :=
  inst_ContainerID i ∉ foreign ∧ (inst_DataVolume i = "" ∨ own_volume (inst_DataVolume i)).

(** An instance value an operation may be given. *)
Definition own (i : Inst) : Prop := mine (inst_ID i) ∧ own_row i.
End ownership.

(** ** Interfaces *)

(** The runtime and the process, call by call. *)
Class RuntimeCare (mine : string → Prop) (foreign : gset string) {R : Type}
    {RT : ContainerRuntime R} {PR : Process R} (good : R → Prop) : Prop := {
  foreign_named : "" ∉ foreign;
  care_EnsureImage ctx i : safe good (EnsureImage ctx i) anything;
  care_CreateContainer ctx sp : own_spec mine sp →
    safe good (CreateContainer ctx sp) (okay (λ cid, cid ∉ foreign));
  care_StartContainer ctx cid : cid ∉ foreign → safe good (StartContainer ctx cid) anything;
  care_StopContainer ctx cid t : cid ∉ foreign → safe good (StopContainer ctx cid t) anything;
  care_RemoveContainer ctx cid force : cid ∉ foreign → safe good (RemoveContainer ctx cid force) anything;
  care_Inspect ctx cid : safe good (Inspect ctx cid) anything;
  care_Exec ctx cid cmd : cid ∉ foreign → safe good (Exec ctx cid cmd) anything;
  care_Logs ctx cid f : safe good (Logs ctx cid f) anything;
  care_ListByLabel ctx : safe good (ListByLabel ctx {[LabelManaged := "true"]})
    (okay (λ l, ∀ c id, c ∈ l → label (ci_Labels c) LabelInstance = id → id ≠ "" → mine id → ci_ID c ∉ foreign));
  care_CreateVolume ctx v l : own_volume mine v → safe good (CreateVolume ctx v l) anything;
  care_RemoveVolume ctx v force : own_volume mine v → safe good (RemoveVolume ctx v force) anything;
  care_now : safe good now anything;
  care_sleep ctx d : safe good (sleep ctx d) anything;
  care_stamp : safe good stampCounter_Add anything;
  care_progress a b : safe good (progress_call a b) anything;
}.

(** The instance repository: it only writes rows that are [mine], only with what
    is own, and gives own rows back. *)
Class StoreCare (mine : string → Prop) (foreign : gset string) {D : Type} {IS : InstanceStore D}
    (good : D → Prop) : Prop := {
  care_Create ctx n : safe good (repo_Create ctx n) (okay (λ i, mine (inst_ID i) → own mine foreign i));
  care_Get ctx id : mine id → safe good (repo_Get ctx id) (okay (λ i, inst_ID i = id ∧ own mine foreign i));
  care_List ctx : safe good (repo_List ctx) (okay (λ l, ∀ i, i ∈ l → mine (inst_ID i) → own mine foreign i));
  care_ListByCluster ctx c : safe good (repo_ListByCluster ctx c)
    (okay (λ l, ∀ i, i ∈ l → mine (inst_ID i) → own mine foreign i));
  care_Password ctx id : safe good (repo_Password ctx id) anything;
  care_SetRuntime ctx id cid port : mine id → cid ∉ foreign → safe good (repo_SetRuntime ctx id cid port) anything;
  care_SetDataVolume ctx id v : mine id → own_volume mine v → safe good (repo_SetDataVolume ctx id v) anything;
  care_SetStatus ctx id st e : mine id → safe good (repo_SetStatus ctx id st e) anything;
  care_SetPublic ctx id b : mine id → safe good (repo_SetPublic ctx id b) anything;
  care_SetEncrypted ctx id b : mine id → safe good (repo_SetEncrypted ctx id b) anything;
  care_SetRole ctx id r : mine id → safe good (repo_SetRole ctx id r) anything;
  care_Delete ctx id : mine id → safe good (repo_Delete ctx id) anything;
}.

(** The cluster repository; removing a cluster removes its members with it. *)
Class ClusterCare (mine : string → Prop) (foreign : gset string) {D : Type} {CS : ClusterStore D}
    (good : D → Prop) : Prop := {
  care_clusters_Create ctx n : safe good (clusters_Create ctx n) anything;
  care_clusters_Get ctx id : safe good (clusters_Get ctx id) (okay (λ c, cl_RouterContainerID c ∉ foreign));
  care_clusters_List ctx : safe good (clusters_List ctx)
    (okay (λ l, ∀ c, c ∈ l → cl_RouterContainerID c ∉ foreign));
  care_clusters_SetPrimary ctx id p : safe good (clusters_SetPrimary ctx id p) anything;
  care_clusters_SetRouter ctx id cid port : cid ∉ foreign → safe good (clusters_SetRouter ctx id cid port) anything;
  care_clusters_SetStatus ctx id st e : safe good (clusters_SetStatus ctx id st e) anything;
  care_clusters_Delete ctx id : (∀ i, mine i) → safe good (clusters_Delete ctx id) anything;
}.

(** ** Facts of ownership *)

Section facts.
Context (mine : string → Prop) (foreign : gset string).
Notation own := (own mine foreign).
Notation own_volume := (own_volume mine).

Lemma own_mine i : own i → mine (inst_ID i).
Proof. by intros []. Qed.
Lemma own_container i : own i → inst_ContainerID i ∉ foreign.
Proof. by intros (_ & ? & _). Qed.
Lemma own_set_Public b i : own i → own (inst_set_Public b i).
Proof. done. Qed.
Lemma own_set_Encrypted b i : own i → own (inst_set_Encrypted b i).
Proof. done. Qed.

Lemma own_value_or d id r : okay (λ i, inst_ID i = id ∧ own i) r → own d → own (value_or d r).
Proof. destruct r; cbn; tauto. Qed.

Lemma own_data_volume id : mine id → own_volume (volumeName "data" id).
Proof. intros H. exists id. auto. Qed.
Lemma own_repo id : mine id → own_volume (volumeName "repo" id).
Proof. intros H. exists id. auto. Qed.
Lemma own_drill id : mine id → own_volume (volumeName "drill-data" id).
Proof. intros H. exists id. auto. Qed.
Lemma own_staging id st : mine id → own_volume ("pgfleet-data-" +:+ id +:+ "-r" +:+ st).
Proof. intros H. exists id. split; [done|]. right; right; right. exists st. unfold volumeName. by rewrite !app_assoc_str. Qed.
Lemma own_dataVolumeOf i id : own i → mine id → own_volume (dataVolumeOf i id).
Proof.
  intros (_ & _ & Hv) Hid. unfold dataVolumeOf. case_bool_decide; [by apply own_data_volume|]. by destruct Hv.
Qed.

(** What the labels of the program say. *)
Lemma own_instanceLabels id : mine id → own_labels mine (instanceLabels id).
Proof. intros H. split; [done|]. exists id. by split. Qed.
Lemma own_helperLabels id role : mine id → own_labels mine (helperLabels id role).
Proof. intros H. split; [done|]. exists id. by split. Qed.
Lemma own_recoveryLabels i : mine (inst_ID i) → own_labels mine (recoveryLabels i).
Proof.
  intros H. unfold recoveryLabels. split; [by case_bool_decide|].
  exists (inst_ID i). split; [done|]. by case_bool_decide.
Qed.
End facts.

#[export] Hint Extern 2 =>
  lazymatch goal with |- ?m (inst_ID _) => solve [eapply own_mine; eassumption] end : care.
#[export] Hint Resolve safe_lift own_container own_value_or own_set_Public own_set_Encrypted own_data_volume own_repo own_drill
  own_staging own_dataVolumeOf own_instanceLabels own_helperLabels own_recoveryLabels : care.

#[export] Hint Extern 3 (safe _ (rt _) _) => apply safe_on_fst : care.
#[export] Hint Extern 3 (safe _ (repo _) _) => apply safe_on_snd : care.
#[export] Hint Resolve care_EnsureImage care_CreateContainer care_StartContainer care_StopContainer
  care_RemoveContainer care_Inspect care_Exec care_Logs care_ListByLabel care_CreateVolume care_RemoveVolume
  care_now care_sleep care_stamp care_progress foreign_named care_Create care_Get care_List care_ListByCluster
  care_Password care_SetRuntime care_SetDataVolume care_SetStatus care_SetPublic care_SetEncrypted care_SetRole
  care_Delete care_clusters_Create care_clusters_Get care_clusters_List care_clusters_SetPrimary
  care_clusters_SetRouter care_clusters_SetStatus care_clusters_Delete : care.

(** ** Proving it along the structure of a program *)

(** A call, whose demands follow from what is known. *)
Ltac care_call :=
  lazymatch goal with
  | |- safe _ (rt _) _ => apply safe_on_fst
  | |- safe _ (repo _) _ => apply safe_on_snd
  | |- safe _ (on_fst _) _ => apply safe_on_fst
  | |- safe _ (on_snd _) _ => apply safe_on_snd
  | |- _ => idtac
  end;
  first [ solve [eauto 6 with care]
        | solve [apply safe_okay; eauto 6 with care]
        | solve [eapply safe_anything; eauto 6 with care]
        | solve [apply safe_okay; eapply safe_anything; eauto 6 with care] ].

(** What a step gave is kept. *)
Ltac care_learn H :=
  cbn beta iota in H;
  lazymatch type of H with
  | anything _ => clear H
  | okay anything _ => clear H
  | _ ∧ _ => let H1 := fresh "Hc" in let H2 := fresh "Hc" in destruct H as [H1 H2]; try (subst; [])
  | _ => idtac
  end.
Ltac care_intro := let a := fresh "a" in let H := fresh "Hc" in intros a H; care_learn H.

Ltac care_step :=
  lazymatch goal with
  | |- safe _ (ret _) anything => by apply safe_ret
  | |- safe _ (ok _) anything => by apply safe_ret
  | |- safe _ (fail _) anything => by apply safe_ret
  | |- safe _ done_ok anything => by apply safe_ret
  | |- safe _ (lift_r _) anything => by apply safe_ret
  | |- safe _ (ret _) (okay anything) => by apply safe_okay, safe_ret
  | |- safe _ (fail _) (okay _) => apply safe_fail
  | |- safe _ done_ok (okay anything) => by apply safe_ret
  | |- safe _ (ok _) (okay anything) => by apply safe_ret
  | |- safe _ (ok _) (okay _) => apply safe_ret; cbn [okay]
  | |- safe _ (lift_r _) (okay _) => first [apply safe_lift|apply safe_okay; by apply safe_ret]
  | |- safe _ (bind _ _) _ =>
      first [eapply safe_bind; [solve [care_call]|care_intro]
            |apply (safe_bind _ _ _ anything); [|intros ? _]]
  | |- safe _ (try _ _) anything => apply (safe_anything _ _ (okay anything))
  | |- safe _ (try _ _) (okay _) =>
      first [eapply safe_try; [solve [care_call]|care_intro]
            |apply (safe_try _ _ _ anything); [|intros ? _]]
  | |- safe _ (try_or _ _ _) _ =>
      first [eapply safe_try_or; [solve [care_call]|intros ?|care_intro]
            |apply (safe_try_or _ _ _ _ anything); [|intros ?|intros ? _]]
  | |- safe _ (for_each _ _ _) anything => apply (safe_for_each _ anything); [done|intros ? ? ? _]
  | |- safe _ (for_each_e _ _ _) (okay anything) => apply (safe_for_each_e _ anything); [done|intros ? ? ? _]
  | |- safe _ (discard _) anything => apply safe_discard
  | |- safe _ (when _ _) anything => apply safe_when; intros ?
  | |- safe _ (if ?b then _ else _) _ => destruct b eqn:?
  | |- safe _ (match ?x with _ => _ end) _ => destruct x; cbn [okay] in *
  | |- safe _ (let _ := _ in _) _ => cbv zeta
  | |- _ => solve [care_call]
  end.
Ltac care := repeat care_step.

(** ** The provisioner keeps the discipline

    Every operation of [Provision] and [ProvisionOps], called for an instance that
    is [mine], only makes calls that [RuntimeCare] and [StoreCare] allow. *)

Section operations.
Context {R D : Type} {RT : ContainerRuntime R} {PR : Process R} {ST : InstanceStore D}.
Context (hmac_hex : string → string → string).
Context (json_Unmarshal : string → result (list rawStanza)).
Context (opts : Options).
Context (mine : string → Prop) (foreign : gset string) (goodR : R → Prop) (goodD : D → Prop).
Context {RC : RuntimeCare mine foreign goodR} {SC : StoreCare mine foreign goodD}.
Notation good := (good_pair goodR goodD).
Notation own := (own mine foreign).
Notation own_volume := (own_volume mine).
Notation own_spec := (own_spec mine).

(** ** The parts *)

Lemma emit_care p a b : safe good (emit p a b) anything.
Proof. unfold emit. care. Qed.

Lemma execOK_care ctx cid cmd : cid ∉ foreign → safe good (execOK ctx cid cmd) (okay anything).
Proof. intros H. unfold execOK. care. Qed.
#[local] Hint Resolve emit_care execOK_care : care.

Lemma writeConfig_care ctx cid i : cid ∉ foreign → safe good (writeConfig hmac_hex opts ctx cid i) (okay anything).
Proof. intros H. unfold writeConfig. care. Qed.

Lemma waitReady_care ctx cid su : cid ∉ foreign → safe good (waitReady ctx cid su) (okay anything).
Proof.
  intros H. unfold waitReady. care. generalize (a + readyTimeout)%Z waitReady_fuel. intros dl fuel.
  induction fuel as [|fuel IH]; [apply safe_fail|]. cbn [waitReady_loop]. care.
Qed.

Lemma stampEncrypted_care ctx id i b :
  mine id → own i → safe good (stampEncrypted ctx id i b) (okay own).
Proof. intros Hid Hi. unfold stampEncrypted. care. Qed.
#[local] Hint Resolve writeConfig_care waitReady_care stampEncrypted_care : care.

Lemma cleanup_care cid vs : cid ∉ foreign → Forall own_volume vs → safe good (cleanup cid vs) anything.
Proof.
  intros Hc Hv. rewrite Forall_forall in Hv. unfold cleanup. care.
Qed.
#[local] Hint Resolve cleanup_care : care.

Lemma abort_care {A} cid vs e (P : A → Prop) :
  cid ∉ foreign → Forall own_volume vs → safe good (abort cid vs e) (okay P).
Proof. intros Hc Hv. unfold abort. care. Qed.
#[local] Hint Resolve abort_care Forall_cons_2 Forall_nil_2 : care.

(** The volumes and the mounts of an instance. *)
Lemma createRepoVolume_care ctx id i :
  mine id →
  safe good (createRepoVolume ctx id i (volumeName "data" id))
    (okay (λ vm, Forall own_volume vm.1 ∧ Forall own_volume (mt_Volume <$> vm.2))).
Proof. intros Hid. unfold createRepoVolume. care; cbn; auto 10 with care. Qed.

Lemma own_containerSpec i pw ms :
  mine (inst_ID i) → Forall own_volume (mt_Volume <$> ms) → own_spec (containerSpec opts i pw ms).
Proof. intros Hi Hm. split; [by apply own_recoveryLabels|done]. Qed.
(** A container without volumes. *)
Lemma own_bare_spec labels :
  own_labels mine labels → ∀ n i c e p nets u rp, own_spec (mkSpec n i c e labels p [] nets u rp).
Proof. intros Hl n i c e p nets u rp. split; [done|constructor]. Qed.
#[local] Hint Resolve createRepoVolume_care own_containerSpec : care.

(** ** Bringing an instance up *)

Lemma recording_care ctx id m : mine id → safe good m anything → safe good (recording ctx id m) anything.
Proof. intros Hid Hm. unfold recording. care. Qed.

Lemma provision_care ctx id p : mine id → safe good (provision hmac_hex opts ctx id p) (okay anything).
Proof. intros Hid. unfold provision. care. Qed.
#[local] Hint Resolve provision_care recording_care : care.

Lemma Provision_care ctx id p : mine id → safe good (Provision hmac_hex opts ctx id p) anything.
Proof. intros Hid. apply recording_care; [done|]. care. Qed.

Lemma StartRouter_care ctx spec p :
  mine (rsp_ClusterID spec) → safe good (StartRouter opts ctx spec p) (okay (λ rp, rp.1 ∉ foreign)).
Proof.
  intros Hid. pose proof (own_bare_spec _ (own_helperLabels mine (rsp_ClusterID spec) "router" Hid)) as Hsp.
  unfold StartRouter. care.
Qed.

(** ** What failover needs *)

Lemma PrimaryReachable_care ctx i : inst_ContainerID i ∉ foreign → safe good (PrimaryReachable ctx i) anything.
Proof. intros Hi. unfold PrimaryReachable. care. Qed.
Lemma ReplayLSN_care ctx i : inst_ContainerID i ∉ foreign → safe good (ReplayLSN ctx i) anything.
Proof. intros Hi. unfold ReplayLSN. care. Qed.
Lemma Promote_care ctx i : inst_ContainerID i ∉ foreign → safe good (Promote ctx i) anything.
Proof. intros Hi. unfold Promote. care. Qed.
Lemma Fence_care ctx i : own i → safe good (Fence ctx i) anything.
Proof. intros Hi. unfold Fence. care. Qed.
Lemma PrepareReclone_care ctx i : own i → safe good (PrepareReclone ctx i) anything.
Proof. intros Hi. unfold PrepareReclone. care. Qed.

(** ** Lifecycle *)

Lemma shortStamp_care : safe good shortStamp anything.
Proof. unfold shortStamp. care. Qed.
Lemma containerLogs_care ctx cid : safe good (containerLogs ctx cid) anything.
Proof. unfold containerLogs. care. Qed.
#[local] Hint Resolve shortStamp_care containerLogs_care : care.

Lemma refreshPort_care ctx id cid : mine id → cid ∉ foreign → safe good (refreshPort ctx id cid) anything.
Proof. intros Hid Hc. unfold refreshPort. care. Qed.
#[local] Hint Resolve refreshPort_care : care.

Lemma Start_care ctx id : mine id → safe good (Start ctx id) anything.
Proof. intros Hid. unfold Start. care. Qed.
Lemma Stop_care ctx id : mine id → safe good (Stop ctx id) anything.
Proof. intros Hid. unfold Stop. care. Qed.
#[local] Hint Resolve Start_care Stop_care : care.
Lemma Restart_care ctx id : mine id → safe good (Restart ctx id) anything.
Proof. intros Hid. unfold Restart. care. Qed.

Lemma tolerate_care (m : M (R * D) (result unit)) :
  safe good m anything → safe good (tolerate_not_found m) (okay anything).
Proof. intros Hm. unfold tolerate_not_found. care. Qed.
Lemma destroyFail_care ctx id e : mine id → safe good (destroyFail ctx id e) (okay anything).
Proof. intros Hid. unfold destroyFail. care. Qed.
#[local] Hint Resolve tolerate_care destroyFail_care : care.

Lemma Destroy_care ctx id b : mine id → safe good (Destroy ctx id b) anything.
Proof. intros Hid. unfold Destroy. care. Qed.

Lemma MarkError_care ctx id e : mine id → safe good (MarkError ctx id e) anything.
Proof. intros Hid. unfold MarkError. care. Qed.
Lemma DSN_care ctx id : mine id → safe good (DSN opts ctx id) anything.
Proof. intros Hid. unfold DSN. care. Qed.
Lemma Adopt_care ctx id info : mine id → ci_ID info ∉ foreign → safe good (Adopt ctx id info) anything.
Proof. intros Hid Hc. unfold Adopt. care. Qed.

(** ** One-shot containers *)

Lemma deferred_care {A} (c : M (R * D) unit) (m : M (R * D) A) P :
  safe good c anything → safe good m P → safe good (deferred c m) P.
Proof.
  intros Hc Hm. unfold deferred. eapply safe_bind; [exact Hm|]. intros a Ha.
  eapply safe_bind; [exact Hc|]. intros b _. by apply safe_ret.
Qed.

Lemma oneShot_care {A} ctx sp (m : string → M (R * D) (result A)) :
  own_spec sp → (∀ cid, cid ∉ foreign → safe good (m cid) (okay anything)) →
  safe good (oneShot ctx sp m) (okay anything).
Proof. intros Hs Hm. unfold oneShot. care. apply deferred_care; [care|]. by apply Hm. Qed.

Lemma waitRestoreExit_care ctx cid : safe good (waitRestoreExit ctx cid) (okay anything).
Proof.
  unfold waitRestoreExit. care. generalize (a + restoreTimeout)%Z 302. intros dl fuel.
  induction fuel as [|fuel IH]; [apply safe_fail|]. cbn [waitRestoreExit_loop]. care.
Qed.
#[local] Hint Resolve waitRestoreExit_care : care.

Lemma runRestoreContainer_care ctx i args v ro :
  mine (inst_ID i) → own_volume v → safe good (runRestoreContainer hmac_hex opts ctx i args v ro) (okay anything).
Proof.
  intros Hi Hv. unfold runRestoreContainer. care. apply oneShot_care; [|intros cid Hcid; care].
  split; [by apply own_helperLabels|]. cbn. apply Forall_cons_2; [done|].
  case_bool_decide; cbn; auto with care.
Qed.

Lemma runBaseBackup_care ctx i primary pw host slot v :
  mine (inst_ID i) → own_volume v → safe good (runBaseBackup opts ctx i primary pw host slot v) (okay anything).
Proof.
  intros Hi Hv. unfold runBaseBackup. care. apply oneShot_care; [|intros cid Hcid; care].
  split; [by apply own_helperLabels|]. by repeat constructor.
Qed.
#[local] Hint Resolve runRestoreContainer_care runBaseBackup_care : care.

(** ** Restore *)

Lemma rollbackRestore_care ctx i c v :
  own i → c ∉ foreign → v = "" ∨ own_volume v → safe good (rollbackRestore ctx i c v) anything.
Proof.
  intros Hi Hc Hv. unfold rollbackRestore. care.
  destruct Hv as [->|Hv]; [done|]. care.
Qed.
#[local] Hint Resolve rollbackRestore_care : care.
Lemma rollback_care {A} ctx i c v e (P : A → Prop) :
  own i → c ∉ foreign → v = "" ∨ own_volume v → safe good (rollback ctx i c v e) (okay P).
Proof. intros Hi Hc Hv. unfold rollback. care. Qed.
#[local] Hint Resolve rollback_care : care.
Lemma rollbackStaging_care {A} ctx i v e (P : A → Prop) :
  own i → own_volume v → safe good (rollbackStaging ctx i v e) (okay P).
Proof. intros Hi Hv. unfold rollbackStaging. care. Qed.
#[local] Hint Resolve rollbackStaging_care : care.

Lemma own_instanceMounts i id v :
  mine id → own_volume v → Forall own_volume (mt_Volume <$> instanceMounts i id v).
Proof. intros Hid Hv. unfold instanceMounts. cbn. apply Forall_cons_2; [done|]. case_bool_decide; cbn; auto with care. Qed.
#[local] Hint Resolve own_instanceMounts : care.

Lemma own_renamed n sp : own_spec sp → own_spec (set_spec_Name n sp).
Proof. done. Qed.
#[local] Hint Resolve own_renamed : care.

Lemma restore_care ctx id o p : mine id → safe good (restore hmac_hex opts ctx id o p) (okay anything).
Proof. intros Hid. unfold restore. care. Qed.
#[local] Hint Resolve restore_care : care.
Lemma Restore_care ctx id o p : mine id → safe good (Restore hmac_hex opts ctx id o p) anything.
Proof. intros Hid. apply recording_care; [done|]. care. Qed.

(** ** The published address *)

Lemma recoverFailedFlip_care {A} ctx id i pw b ms e (P : A → Prop) :
  mine id → own i → Forall own_volume (mt_Volume <$> ms) →
  safe good (recoverFailedFlip hmac_hex opts ctx id i pw b ms e) (okay P).
Proof. intros Hid Hi Hm. unfold recoverFailedFlip. care. Qed.
#[local] Hint Resolve recoverFailedFlip_care : care.

Lemma SetVisibility_care ctx id b : mine id → safe good (SetVisibility hmac_hex opts ctx id b) anything.
Proof. intros Hid. unfold SetVisibility. care. Qed.

(** ** Clones *)

Lemma ensureSourceHasBackup_care ctx source :
  own source → safe good (ensureSourceHasBackup json_Unmarshal ctx source) (okay anything).
Proof. intros Hs. unfold ensureSourceHasBackup. care. Qed.
#[local] Hint Resolve ensureSourceHasBackup_care : care.

Lemma clone_care ctx id source p :
  mine id → own source → safe good (clone hmac_hex json_Unmarshal opts ctx id source p) (okay anything).
Proof. intros Hid Hs. unfold clone. care. Qed.
#[local] Hint Resolve clone_care : care.

Lemma Clone_care ctx id source p :
  mine id → own source → safe good (Clone hmac_hex json_Unmarshal opts ctx id source p) anything.
Proof. intros Hid Hs. apply recording_care; [done|]. care. Qed.

(** ** Standbys *)

Lemma preparePrimary_care ctx primary slot :
  inst_ContainerID primary ∉ foreign → safe good (preparePrimary ctx primary slot) (okay anything).
Proof. intros Hp. unfold preparePrimary. care. Qed.

Lemma DropReplicationSlot_care ctx primary slot :
  inst_ContainerID primary ∉ foreign → safe good (DropReplicationSlot ctx primary slot) anything.
Proof. intros Hp. unfold DropReplicationSlot. care. Qed.

Lemma verifyStreaming_care ctx cid n : cid ∉ foreign → safe good (verifyStreaming ctx cid n) (okay anything).
Proof.
  intros H. unfold verifyStreaming. care. generalize (a + 60 * Second)%Z 32. intros dl fuel.
  induction fuel as [|fuel IH]; [apply safe_fail|]. cbn [verifyStreaming_loop]. care.
Qed.
#[local] Hint Resolve preparePrimary_care DropReplicationSlot_care verifyStreaming_care : care.

Lemma abortReplica_care {A} primary slot c vs e (P : A → Prop) :
  inst_ContainerID primary ∉ foreign → c ∉ foreign → Forall own_volume vs →
  safe good (abortReplica primary slot c vs e) (okay P).
Proof. intros Hp Hc Hv. unfold abortReplica. care. Qed.

Lemma own_replicaSpec i v : mine (inst_ID i) → own_volume v → own_spec (replicaSpec opts i v).
Proof. intros Hi Hv. split; [by apply own_recoveryLabels|by repeat constructor]. Qed.
#[local] Hint Resolve abortReplica_care own_replicaSpec : care.

Lemma provisionReplica_care ctx id primary p :
  mine id → inst_ContainerID primary ∉ foreign → safe good (provisionReplica opts ctx id primary p) (okay anything).
Proof. intros Hid Hp. unfold provisionReplica. care. Qed.
#[local] Hint Resolve provisionReplica_care : care.

Lemma ProvisionReplica_care ctx id primary p :
  mine id → inst_ContainerID primary ∉ foreign → safe good (ProvisionReplica opts ctx id primary p) anything.
Proof.
  intros Hid Hp. unfold ProvisionReplica. care. apply recording_care; [done|]. care.
Qed.

(** ** Drills *)

Lemma own_drillSpec i st sc v : mine (inst_ID i) → own_volume v → own_spec (drillSpec opts i st sc v).
Proof.
  intros Hi Hv. split; [by apply own_helperLabels|]. cbn. apply Forall_cons_2; [done|].
  case_bool_decide; cbn; auto with care.
Qed.
#[local] Hint Resolve own_drillSpec : care.

Lemma RestoreDrill_care ctx id : mine id → safe good (RestoreDrill hmac_hex opts ctx id) anything.
Proof.
  intros Hid. unfold RestoreDrill. care. apply deferred_care; [care|]. care.
  apply oneShot_care; [auto with care|]. intros cid Hcid. care.
Qed.

(** ** Reconciliation *)

Lemma reconcileOne_care ctx i containers :
  mine (inst_ID i) → (∀ id c, containers !! id = Some c → mine id → ci_ID c ∉ foreign) →
  safe good (reconcileOne ctx i containers) anything.
Proof.
  intros Hi Hc. unfold reconcileOne. destruct (ownedStatus _); [by apply safe_ret|].
  destruct (containers !! inst_ID i) as [c|] eqn:E; [|care]. pose proof (Hc _ _ E Hi). care.
Qed.

Lemma Reconcile_care ctx : (∀ id, mine id) → safe good (Reconcile ctx) anything.
Proof.
  intros Hall. unfold Reconcile. care. apply reconcileOne_care; [done|].
  intros id c [Hin (Hid & Hne & _)]%indexContainers_main Hm. by eapply Hc0.
Qed.
End operations.
