(* ===== verification/CareServices.v ===== *)
(** * The services keep the discipline of [Care], and the worlds it is about

    The failover controller, the cluster service and the backup service, over
    interfaces that keep the discipline; the first two work on the whole fleet, where
    [mine] is every id.  Then the runtime, the meta database, interference by other
    goroutines and a log of the calls, which discharge those interfaces. *)

From stdpp Require Import gmap sets sorting.
From S2P Require Import Prelude GoStrings Apperr GoMonad PgConfig Instances PgBackRest PgCat Runtime DockerFake Stores MetaDB Tables Provision ProvisionOps Failover Backup BackupSafety ClusterCtl Reconcile Care.

(** ** Interfaces *)

Section interfaces.
Context (mine : string → Prop) (foreign : gset string).

(** [Promoter]. *)
Class PromoterCare {S : Type} {PM : Promoter S} (good : S → Prop) : Prop := {
  care_Reachable ctx i : inst_ContainerID i ∉ foreign → safe good (pr_PrimaryReachable ctx i) anything;
  care_ReplayLSN ctx i : inst_ContainerID i ∉ foreign → safe good (pr_ReplayLSN ctx i) anything;
  care_Promote ctx i : inst_ContainerID i ∉ foreign → safe good (pr_Promote ctx i) anything;
  care_Fence ctx i : own mine foreign i → safe good (pr_Fence ctx i) anything;
  care_PrepareReclone ctx i : own mine foreign i → safe good (pr_PrepareReclone ctx i) anything;
  care_pr_Replica ctx id primary p : mine id → inst_ContainerID primary ∉ foreign →
    safe good (pr_ProvisionReplica ctx id primary p) anything;
  care_pr_Router ctx spec p : mine (rsp_ClusterID spec) →
    safe good (pr_StartRouter ctx spec p) (okay (λ rp, rp.1 ∉ foreign));
}.

(** [ClusterProvisioner]. *)
Class ClusterProvisionerCare {S : Type} {CP : ClusterProvisioner S} (good : S → Prop) : Prop := {
  care_cp_Provision ctx id p : mine id → safe good (cp_Provision ctx id p) anything;
  care_cp_Replica ctx id primary p : mine id → inst_ContainerID primary ∉ foreign →
    safe good (cp_ProvisionReplica ctx id primary p) anything;
  care_cp_Router ctx spec p : mine (rsp_ClusterID spec) →
    safe good (cp_StartRouter ctx spec p) (okay (λ rp, rp.1 ∉ foreign));
  care_cp_Destroy ctx id b : mine id → safe good (cp_Destroy ctx id b) anything;
  care_cp_Drop ctx primary slot : inst_ContainerID primary ∉ foreign →
    safe good (cp_DropReplicationSlot ctx primary slot) anything;
  care_cp_emit p a b : safe good (cp_emit p a b) anything;
}.

(** [RouterRemover], [EventRecorder], the catalog of the backups. *)
Class RouterCare {S : Type} {RR : RouterRemover S} (good : S → Prop) : Prop :=
  care_router ctx cid force : cid ∉ foreign → safe good (router_RemoveContainer ctx cid force) anything.
End interfaces.
Class RecorderCare {S : Type} {ER : EventRecorder S} (good : S → Prop) : Prop :=
  care_Record ctx e : safe good (event_Record ctx e) anything.
Class CatalogCare {D : Type} {CT : catalog D} (good : D → Prop) : Prop := {
  care_Upsert ctx id b : safe good (cat_Upsert ctx id b) anything;
  care_Prune ctx id l : safe good (cat_Prune ctx id l) anything;
  care_cat_List ctx id : safe good (cat_List ctx id) anything;
}.

#[export] Hint Resolve care_Reachable care_ReplayLSN care_Promote care_Fence care_PrepareReclone care_pr_Replica
  care_pr_Router care_cp_Provision care_cp_Replica care_cp_Router care_cp_Destroy care_cp_Drop care_cp_emit
  care_router care_Record care_Upsert care_Prune care_cat_List : care.

(** ** Failover *)

Section failover.
Context {S : Type} {PM : Promoter S} {IS : InstanceStore S} {CS : ClusterStore S} {RR : RouterRemover S}
  {ER : EventRecorder S}.
Context (hmac_hex : string → string → string) (c : Controller).
Context (mine : string → Prop) (foreign : gset string) (good : S → Prop).
Context {PC : PromoterCare mine foreign good} {SC : StoreCare mine foreign good} {CC : ClusterCare mine foreign good}
  {RC : RouterCare foreign good} {EC : RecorderCare good}.
(** The controller works on every cluster. *)
Context (Hall : ∀ id, mine id).
Notation own := (own mine foreign).
#[local] Hint Extern 1 => lazymatch goal with |- mine _ => exact (Hall _) end : care.

Lemma record_care ctx clu msg id : safe good (record c ctx clu msg id) anything.
Proof. unfold record. care. Qed.
#[local] Hint Resolve record_care : care.

(** Who is elected is one of the replicas. *)
Lemma elect_care ctx replicas :
  Forall own replicas → safe good (elect ctx replicas) (λ o, ∀ i, o = Some i → own i).
Proof.
  intros Hr. unfold elect. eapply (safe_bind _ _ _ (λ acc : Inst * Z * bool, acc.2 = true → own acc.1.1)).
  - apply safe_for_each; [done|]. intros [[best lsn] found] r Hin Hacc.
    rewrite Forall_forall in Hr. specialize (Hr r Hin). care; apply safe_ret; repeat case_match; auto.
  - intros [[best lsn] found] Hacc. apply safe_ret. destruct found; naive_solver.
Qed.

Lemma countReachable_care ctx replicas : Forall own replicas → safe good (countReachable ctx replicas) anything.
Proof. intros Hr. rewrite Forall_forall in Hr. unfold countReachable. care. Qed.
#[local] Hint Resolve elect_care countReachable_care : care.

Lemma repointRouter_care ctx clu i names :
  cl_RouterContainerID clu ∉ foreign → safe good (repointRouter hmac_hex c ctx clu i names) anything.
Proof. intros Hc. unfold repointRouter. care. Qed.
#[local] Hint Resolve repointRouter_care : care.

Lemma reattach_care ctx newPrimary acc r :
  own newPrimary → own r → safe good (reattach ctx newPrimary acc r) anything.
Proof. intros Hn Hr. unfold reattach. care. Qed.
#[local] Hint Resolve reattach_care : care.

Lemma recordPrimary_care ctx clu old newP : safe good (recordPrimary ctx clu old newP) anything.
Proof. unfold recordPrimary. care. Qed.
#[local] Hint Resolve recordPrimary_care : care.

Lemma settle_care ctx clu old newP replicas :
  cl_RouterContainerID clu ∉ foreign → own newP → Forall own replicas →
  safe good (settle hmac_hex c ctx clu old newP replicas) anything.
Proof.
  intros Hc Hn Hr. rewrite Forall_forall in Hr. unfold settle. care.
Qed.
#[local] Hint Resolve settle_care : care.

Lemma failover_care ctx clu old replicas :
  cl_RouterContainerID clu ∉ foreign → (∀ i, old = Some i → own i) → Forall own replicas →
  safe good (failover hmac_hex c ctx clu old replicas) anything.
Proof. intros Hc Ho Hr. unfold failover. care. Qed.
#[local] Hint Resolve failover_care : care.

(** ** A pass over the clusters *)

Lemma splitMembers_own members :
  Forall own members →
  (∀ i, (splitMembers members).1 = Some i → own i) ∧ Forall own (splitMembers members).2.
Proof.
  intros Hm. rewrite Forall_forall in Hm. unfold splitMembers. cbn [fst snd]. split.
  - assert (H : ∀ l o, (∀ i, o = Some i → own i) → (∀ i, i ∈ l → own i) → ∀ i,
      foldl (λ p m, if bool_decide (inst_Role m = RolePrimary) then Some m else p) o l = Some i → own i).
    { induction l as [|m l IH]; intros o Ho Hl; [exact Ho|]. cbn. apply IH; [|intros i Hi; apply Hl; by right].
      case_bool_decide; [|done]. intros i [= <-]. apply Hl. by left. }
    by apply H.
  - apply Forall_forall. intros i [_ Hi]%list_elem_of_filter. by apply Hm.
Qed.

Notation goodC := (good_pair good (λ _ : gmap string Z, True)).

Lemma get_strikes_care id : safe goodC (get_strikes id) anything.
Proof. by intros s Hs. Qed.
Lemma set_strikes_care id n : safe goodC (set_strikes id n) anything.
Proof. by intros [s f] Hs. Qed.
Lemma prune_care l : safe goodC (prune l) anything.
Proof. by intros [s f] Hs. Qed.
#[local] Hint Resolve get_strikes_care set_strikes_care prune_care : care.

Lemma runOne_care ctx clu :
  cl_RouterContainerID clu ∉ foreign → safe goodC (runOne hmac_hex c ctx clu) anything.
Proof.
  intros Hc. unfold runOne. destruct (negb _); [by apply safe_ret|].
  eapply safe_bind; [apply safe_on_fst, care_ListByCluster|]. intros [members|e] Hm; [|by apply safe_ret].
  cbn in Hm. destruct (splitMembers members) as [primary replicas] eqn:E.
  destruct (splitMembers_own members) as [Hp Hr]; [apply Forall_forall; auto|].
  rewrite E in Hp, Hr. cbn in Hp, Hr. care. all: apply safe_on_fst; care.
Qed.

Lemma Run_care ctx : safe goodC (Failover.Run hmac_hex c ctx) anything.
Proof. unfold Run. care. apply runOne_care. auto. Qed.
End failover.

(** ** The cluster service *)

Section service.
Context {S : Type} {CP : ClusterProvisioner S} {IS : InstanceStore S} {CS : ClusterStore S} {RR : RouterRemover S}.
Context (hmac_hex : string → string → string) (defaultRepo masterKey : string).
Context (mine : string → Prop) (foreign : gset string) (good : S → Prop).
Context {PC : ClusterProvisionerCare mine foreign good} {SC : StoreCare mine foreign good}
  {CC : ClusterCare mine foreign good} {RC : RouterCare foreign good}.
Context (Hall : ∀ id, mine id) (Hnamed : "" ∉ foreign).
Notation own := (own mine foreign).
#[local] Hint Extern 1 => lazymatch goal with |- mine _ => exact (Hall _) end : care.

Lemma createMember_care ctx cid spec : safe good (createMember ctx cid spec) (okay anything).
Proof. unfold createMember. care. Qed.
#[local] Hint Resolve createMember_care : care.

Lemma Create_care ctx i : safe good (Create defaultRepo ctx i) anything.
Proof. unfold Create. care. Qed.

Lemma provisionCluster_care ctx id p : safe good (provisionCluster hmac_hex masterKey ctx id p) (okay anything).
Proof.
  assert (Hz : own zeroInst) by (split; [apply Hall|split; [exact Hnamed|by left]]).
  unfold provisionCluster. care.
Qed.
#[local] Hint Resolve provisionCluster_care : care.

Lemma ProvisionCluster_care ctx id p : safe good (ProvisionCluster hmac_hex masterKey ctx id p) anything.
Proof. unfold ProvisionCluster. care. Qed.

Lemma ConnectionDSN_care ctx id host : safe good (ConnectionDSN ctx id host) anything.
Proof. unfold ConnectionDSN. care. Qed.

Lemma destroyMember_care ctx id primary b m :
  own primary → safe good (destroyMember ctx id primary b m) (okay anything).
Proof. intros Hp. unfold destroyMember. care. Qed.
#[local] Hint Resolve destroyMember_care : care.

Lemma DestroyCluster_care ctx id b : safe good (DestroyCluster ctx id b) anything.
Proof.
  assert (Hz : own zeroInst) by (split; [apply Hall|split; [exact Hnamed|by left]]).
  unfold DestroyCluster. care. apply destroyMember_care. destruct a2 as [|p l]; [done|].
  case_bool_decide; [|done]. apply Hc0; [by left|apply Hall].
Qed.
End service.

(** ** The backup service *)

Section backup.
Context {R D : Type} {RT : ContainerRuntime R} {PR : Process R} {IS : InstanceStore D} {CT : catalog D}
  {ER : EventRecorder (R * D)}.
Context (json_Unmarshal : string → result (list rawStanza)) (events : bool).
Context (mine : string → Prop) (foreign : gset string) (goodR : R → Prop) (goodD : D → Prop).
Context {RC : RuntimeCare mine foreign goodR} {SC : StoreCare mine foreign goodD} {KC : CatalogCare goodD}
  {EC : RecorderCare (good_pair goodR goodD)}.
Notation good := (good_pair goodR goodD).
Notation own := (own mine foreign).

Lemma backup_execOK_care ctx cid cmd : cid ∉ foreign → safe good (backup_execOK ctx cid cmd) (okay anything).
Proof. intros H. unfold backup_execOK. care. Qed.
Lemma backup_record_care ctx i a b l : safe good (backup_record events ctx i a b l) anything.
Proof. unfold backup_record. care. Qed.
#[local] Hint Resolve backup_execOK_care backup_record_care : care.

Lemma sync_care ctx i : own i → safe good (sync json_Unmarshal ctx i) (okay anything).
Proof. intros Hi. unfold sync. care. Qed.
#[local] Hint Resolve sync_care : care.

Lemma RunWith_care ctx id t o : mine id → safe good (RunWith json_Unmarshal events ctx id t o) anything.
Proof. intros Hid. unfold RunWith. care. Qed.
#[local] Hint Resolve RunWith_care : care.
Lemma RunBackup_care ctx id t : mine id → safe good (RunBackup json_Unmarshal events ctx id t) anything.
Proof. intros Hid. apply (RunWith_care _ _ _ _ Hid). Qed.
Lemma DeleteBackup_care ctx id l : mine id → safe good (DeleteBackup json_Unmarshal events ctx id l) anything.
Proof. intros Hid. unfold DeleteBackup. care. Qed.
Lemma ExpireBackups_care ctx id : mine id → safe good (ExpireBackups json_Unmarshal ctx id) anything.
Proof. intros Hid. unfold ExpireBackups. care. Qed.
Lemma VerifyBackups_care ctx id : mine id → safe good (VerifyBackups events ctx id) anything.
Proof. intros Hid. unfold VerifyBackups. care. Qed.
Lemma ListBackups_care ctx id : safe good (ListBackups ctx id) anything.
Proof. unfold ListBackups. care. Qed.
#[local] Hint Resolve RunBackup_care ExpireBackups_care : care.

(** The sweep of the schedule. *)
Lemma RunScheduled_care ctx t : (∀ id, mine id) → safe good (RunScheduled json_Unmarshal events ctx t) anything.
Proof. intros Hall. unfold RunScheduled, scheduleOne. care. Qed.
End backup.

(** ** Worlds that give the discipline its meaning

    The interfaces of [Care] over the contract of the container runtime and over
    the meta database.  [docker_held F V] fixes the foreign containers [F] and the
    foreign volumes of [V]: they are there, unchanged, and nothing else is foreign.
    [db_held] says that the rows and the routers point at nothing foreign, and that
    the rows of other instances are as they were.  Both interfaces survive
    interference by other code that keeps the invariant, before every call, and a
    log of the calls. *)

(** ** The runtime *)

(** What a listing by labels gives: containers that carry them. *)
Class LabelLaws (R : Type) `{DockerLaws R} : Prop :=
  listed ctx want s l c : (ListByLabel ctx want s).1 = Ok l → c ∈ l →
    ∃ sp, ctrs s !! ci_ID c = Some sp ∧ cs_Labels sp = ci_Labels c ∧ labelsMatch (ci_Labels c) want = true.

Section docker.
Context {R : Type} {RT : ContainerRuntime R} {PR : Process R} {DL : DockerLaws R} {LL : LabelLaws R}.
Context (mine : string → Prop) (F : gmap string ContainerSpec) (V : gset string).

Record docker_held (r : R) : Prop := {
  held_named : F !! "" = None;
  held_foreign cid sp : F !! cid = Some sp → ¬ own_labels mine (cs_Labels sp);
  held_containers cid sp : ¬ own_labels mine (cs_Labels sp) → ctrs r !! cid = Some sp ↔ F !! cid = Some sp;
  held_volumes v : ¬ own_volume mine v → v ∈ vols r ↔ v ∈ V;
}.

Lemma held_there r cid : docker_held r → cid ∈ dom F → ∃ sp, F !! cid = Some sp ∧ ctrs r !! cid = Some sp.
Proof.
  intros H [sp Hsp]%elem_of_dom. exists sp. split; [done|]. apply (held_containers r H cid sp); [|done].
  by apply (held_foreign r H cid).
Qed.

Lemma held_same r r' : docker_held r → ctrs r' = ctrs r → vols r' = vols r → docker_held r'.
Proof. intros [] Hc Hv. split; rewrite ?Hc, ?Hv; auto. Qed.

Lemma held_create r r' cid sp :
  docker_held r → own_spec mine sp → ctrs r !! cid = None → ctrs r' = <[cid := sp]> (ctrs r) → vols r' = vols r →
  docker_held r' ∧ cid ∉ dom F.
Proof.
  intros H [Hl _] Hn Hc Hv. assert (Hd : cid ∉ dom F).
  { intros (sp' & _ & Hs)%(held_there r); congruence. }
  split; [|done]. destruct H as [H1 H2 H3 H4]. split; [done|done| |by rewrite Hv].
  intros cid' sp' Hno. rewrite Hc, lookup_insert_Some, <- H3 by done. split; [|naive_solver].
  intros [[-> ->]|[_ ?]]; done.
Qed.

Lemma held_remove r r' cid :
  docker_held r → cid ∉ dom F → ctrs r' = delete cid (ctrs r) → vols r' = vols r → docker_held r'.
Proof.
  intros H Hd Hc Hv. destruct H as [H1 H2 H3 H4]. split; [done|done| |by rewrite Hv].
  intros cid' sp' Hno. rewrite Hc, lookup_delete_Some, <- H3 by done. split; [naive_solver|].
  intros Hs. split; [|done]. intros ->. apply Hd. apply elem_of_dom. exists sp'. by apply H3.
Qed.

Lemma held_volume_change r r' v :
  docker_held r → own_volume mine v → ctrs r' = ctrs r →
  vols r' = {[v]} ∪ vols r ∨ vols r' = vols r ∖ {[v]} → docker_held r'.
Proof.
  intros [H1 H2 H3 H4] Ho Hc Hv. split; [done|done|by rewrite Hc|].
  intros v' Hno. rewrite <- H4 by done. destruct Hv as [-> | ->]; set_solver.
Qed.

Lemma safe_keeps {A} (m : M R A) : keeps ctrs vols m → safe docker_held m anything.
Proof. intros Hk s Hs. destruct (Hk s). split; [by eapply held_same|done]. Qed.

(** A call of the contract that can be reasoned about by [wp]. *)
Lemma safe_wp {A} (m : M R A) (P : A → Prop) :
  (∀ s, docker_held s → wp m (λ a s', docker_held s' ∧ P a) s) → safe docker_held m P.
Proof. intros H s Hs. exact (H s Hs). Qed.

#[export] Instance docker_care : (F !! "" = None) → RuntimeCare mine (dom F) docker_held.
Proof.
  intros Hn. split; intros; try (by apply safe_keeps; auto with wp); try apply safe_wp.
  - by apply not_elem_of_dom.
  - intros s Hs. apply wp_CreateContainer.
    + intros cid s' _ Hnone Hc Hv. by eapply held_create.
    + intros e s' Hc Hv. split; [by eapply held_same|done].
  - intros s Hs. eapply wp_mono; [apply RemoveContainer_law|]. intros r s' [Hv Hc]. split; [|done].
    destruct r as [|e]; [|destruct Hc as [Hc|Hc]];
      first [by eapply held_remove|by eapply held_same].
  - intros s Hs. assert (Hk := ListByLabel_keeps ctx {[LabelManaged := "true"]} s).
    pose proof (listed ctx {[LabelManaged := "true"]} s) as HL. unfold wp.
    destruct (ListByLabel _ _ s) as [[l|e] s']; cbn in *; (split; [by eapply held_same; [done|..]; apply Hk|]); [|done].
    intros c id Hin Hid Hne Hm Hf. destruct (HL l c eq_refl Hin) as (sp & Hsp & Hl & Hmatch).
    destruct (held_there s (ci_ID c) Hs Hf) as (sp' & HF & Hsp'). assert (sp' = sp) as -> by congruence.
    apply (held_foreign s Hs (ci_ID c) sp HF). rewrite Hl. rewrite labelsMatch_spec in Hmatch.
    specialize (Hmatch LabelManaged "true" eq_refl). unfold label in *. split.
    + by destruct (ci_Labels c !! LabelManaged); cbn in *; [congruence|].
    + exists id. split; [done|]. by destruct (ci_Labels c !! LabelInstance); cbn in *; [congruence|].
  - intros s Hs. apply wp_CreateVolume; intros; (split; [|done]); [eapply held_volume_change; eauto|by eapply held_same].
  - intros s Hs. eapply wp_mono; [apply RemoveVolume_law|]. intros r s' [Hc Hv]. split; [|done].
    destruct r as [|e]; [|destruct Hv as [Hv|Hv]];
      first [by eapply held_same|eapply held_volume_change; eauto].
Qed.
End docker.

#[export] Instance fake_labels h : @LabelLaws FakeWorld (fake_runtime h) fake_process (fake_laws h).
Proof.
  intros ctx want [[f Hf] t] l c. cbn -[Fake_ListByLabel]. unfold Fake_ListByLabel. cbn. intros [= <-].
  rewrite list_elem_of_omap. intros ([id k] & Hin%elem_of_map_to_list & Hc).
  destruct (labelsMatch _ want) eqn:Hm; [|done]. injection Hc as <-. cbn. exists (fc_spec k).
  unfold fake_ctrs, fk_specs. cbn. by rewrite lookup_fmap, Hin.
Qed.

(** ** Interference

    The goroutines of the process share the runtime and the database.  Whatever the
    others do between two calls is a change of the world before the next one. *)

Definition interfered {S A} (env : S → S) (m : M S A) : M S A := λ s, m (env s).

Definition interfered_runtime {R} {RT : ContainerRuntime R} (env : R → R) : ContainerRuntime R := {|
  EnsureImage ctx i := interfered env (EnsureImage ctx i);
  CreateContainer ctx sp := interfered env (CreateContainer ctx sp);
  StartContainer ctx i := interfered env (StartContainer ctx i);
  StopContainer ctx i t := interfered env (StopContainer ctx i t);
  RemoveContainer ctx i f := interfered env (RemoveContainer ctx i f);
  Inspect ctx i := interfered env (Inspect ctx i);
  Exec ctx i cmd := interfered env (Exec ctx i cmd);
  Logs ctx i f := interfered env (Logs ctx i f);
  ListByLabel ctx l := interfered env (ListByLabel ctx l);
  CreateVolume ctx v l := interfered env (CreateVolume ctx v l);
  RemoveVolume ctx v f := interfered env (RemoveVolume ctx v f);
  ListVolumesByLabel ctx l := interfered env (ListVolumesByLabel ctx l);
  CreateNetwork ctx n l := interfered env (CreateNetwork ctx n l);
  RemoveNetwork ctx i := interfered env (RemoveNetwork ctx i);
|}.
Definition interfered_instances {D} {IS : InstanceStore D} (env : D → D) : InstanceStore D := {|
  repo_Create ctx n := interfered env (repo_Create ctx n);
  repo_Get ctx id := interfered env (repo_Get ctx id);
  repo_GetByName ctx n := interfered env (repo_GetByName ctx n);
  repo_List ctx := interfered env (repo_List ctx);
  repo_ListByCluster ctx c := interfered env (repo_ListByCluster ctx c);
  repo_Password ctx id := interfered env (repo_Password ctx id);
  repo_SetRuntime ctx id c p := interfered env (repo_SetRuntime ctx id c p);
  repo_SetDataVolume ctx id v := interfered env (repo_SetDataVolume ctx id v);
  repo_SetStatus ctx id st e := interfered env (repo_SetStatus ctx id st e);
  repo_SetPublic ctx id b := interfered env (repo_SetPublic ctx id b);
  repo_SetEncrypted ctx id b := interfered env (repo_SetEncrypted ctx id b);
  repo_SetRole ctx id r := interfered env (repo_SetRole ctx id r);
  repo_Delete ctx id := interfered env (repo_Delete ctx id);
|}.
Definition interfered_clusters {D} {CS : ClusterStore D} (env : D → D) : ClusterStore D := {|
  clusters_Create ctx n := interfered env (clusters_Create ctx n);
  clusters_Get ctx id := interfered env (clusters_Get ctx id);
  clusters_List ctx := interfered env (clusters_List ctx);
  clusters_SetPrimary ctx id p := interfered env (clusters_SetPrimary ctx id p);
  clusters_SetRouter ctx id c p := interfered env (clusters_SetRouter ctx id c p);
  clusters_SetStatus ctx id st e := interfered env (clusters_SetStatus ctx id st e);
  clusters_Delete ctx id := interfered env (clusters_Delete ctx id);
|}.

Section interference.
Context {S : Type} (good : S → Prop) (env : S → S) (Henv : ∀ s, good s → good (env s)).

Lemma safe_interfered {A} (m : M S A) P : safe good m P → safe good (interfered env m) P.
Proof. intros Hm s Hs. by apply Hm, Henv. Qed.

Context (mine : string → Prop) (foreign : gset string).

Lemma runtime_interfered {RT : ContainerRuntime S} {PR : Process S} :
  RuntimeCare mine foreign good → @RuntimeCare mine foreign S (interfered_runtime env) PR good.
Proof. intros []. split; intros; try apply safe_interfered; eauto. Qed.
Lemma instances_interfered {IS : InstanceStore S} :
  StoreCare mine foreign good → @StoreCare mine foreign S (interfered_instances env) good.
Proof. intros []. split; intros; apply safe_interfered; eauto. Qed.
Lemma clusters_interfered {CS : ClusterStore S} :
  ClusterCare mine foreign good → @ClusterCare mine foreign S (interfered_clusters env) good.
Proof. intros []. split; intros; apply safe_interfered; eauto. Qed.
End interference.

(** ** The log of the calls *)

Section log.
Context (mine : string → Prop) (foreign : gset string).

(** What a call may name. *)
Definition call_allowed (c : Call) : Prop :=
  match c with
  | CallCreate sp _ => own_spec mine sp
  | CallStart cid _ | CallStop cid _ | CallRemove cid _ | CallExec cid _ _ => cid ∉ foreign
  | CallCreateVolume v _ | CallRemoveVolume v _ => own_volume mine v
  | CallOther => True
  end.

Context {R : Type} {RT : ContainerRuntime R} {PR : Process R} (good : R → Prop).
Notation good_log := (good_pair good (Forall call_allowed)).

Lemma safe_traced {A} (ev : A → Call) (m : M R A) P :
  (∀ a, call_allowed (ev a)) → safe good m P → safe good_log (traced ev m) P.
Proof.
  intros He Hm [r l] [Hr Hl]. unfold traced. cbn in *. destruct (Hm r Hr) as [H1 H2].
  destruct (m r) as [a r']. split; [split; [done|]|done]. cbn. apply Forall_app. auto.
Qed.

Lemma runtime_traced :
  RuntimeCare mine foreign good → @RuntimeCare mine foreign _ traced_runtime process_fst good_log.
Proof.
  intros []. split; intros; first [done|apply safe_traced; [by intros|by eauto]|apply safe_on_fst; by eauto].
Qed.
End log.

(** ** The meta database *)

Section metadb.
Context (seal : Z → string → result string) (opn : string → result string).
Context (mine : string → Prop) (foreign : gset string) (rows0 : gmap string Inst).
Notation own_row := (own_row mine foreign).

(** Own rows point at nothing foreign, the others are as in [rows0], and no cluster
    has a foreign router. *)
Record db_held (db : DB) : Prop := {
  held_rows id i : db_rows db !! id = Some i → mine id → own_row i;
  held_others id i : rows0 !! id = Some i → ¬ mine id → db_rows db !! id = Some i;
  held_routers id c : db_clusters db !! id = Some c → cl_RouterContainerID c ∉ foreign;
}.

Definition db_good (db : DB) : Prop := db_wf db ∧ db_held db.
Definition state_held (ds : DBState) : Prop := db_held (`ds).

Lemma safe_lift_db {A} (m : M DB A) (Hm : keeps_db_wf m) P : safe db_good m P → safe state_held (lift_db m Hm) P.
Proof. intros H [db Hwf] Hs. destruct (H db (conj Hwf Hs)) as [[_ H1] H2]. by split. Qed.

Lemma safe_statement {A} (body : DB → result (A * DB)) P :
  body_wf body → (∀ db a db', db_good db → body db = Ok (a, db') → db_held db' ∧ P a) →
  safe db_good (statement body) (okay P).
Proof.
  intros Hb H db [Hwf Hh]. unfold statement. assert (Hg : db_good (db_next db)) by (by split; destruct Hwf, Hh).
  destruct (env_fault _ _) as [e|]; [by split|].
  destruct (body (db_next db)) as [[a db']|e] eqn:E; [|by split]. destruct (H _ _ _ Hg E).
  split; [split; [|done]|done]. by eapply Hb; [apply Hg|].
Qed.

Lemma safe_select {A} (sel : DB → A) P :
  (∀ db, db_good db → P (sel db)) → safe db_good (statement (λ db, Ok (sel db, db))) (okay P).
Proof. intros H. apply safe_statement; [apply select_wf|]. intros db a db' Hg [= <- <-]. split; [apply Hg|auto]. Qed.

Lemma safe_exec pkg upd :
  body_wf upd → (∀ db n db', db_good db → upd db = Ok (n, db') → db_held db') →
  safe db_good (db_exec pkg upd) anything.
Proof.
  intros Hb H. unfold db_exec. eapply (safe_try_or _ _ _ _ anything); [|intros; by apply safe_ret|].
  - apply safe_statement; [done|]. intros db a db' Hg E. by split; [eapply H|].
  - intros n _. by destruct (bool_decide _); apply safe_ret.
Qed.

Lemma safe_queryOne {A} pkg (sel : DB → option A) P :
  (∀ db a, db_good db → sel db = Some a → P a) → safe db_good (db_queryOne pkg sel) (okay P).
Proof.
  intros H. unfold db_queryOne. eapply (safe_try_or _ _ _ _ (λ o, ∀ a, o = Some a → P a)).
  - apply safe_select. intros db Hg a Ha. by eapply H.
  - intros e. by apply safe_ret.
  - intros [a|] Ha; apply safe_ret; cbn; auto.
Qed.

Lemma safe_queryMany {A} msg (sel : DB → list A) P :
  (∀ db, db_good db → P (sel db)) → safe db_good (db_queryMany msg sel) (okay P).
Proof.
  intros H. unfold db_queryMany. eapply (safe_try_or _ _ _ _ P).
  - by apply safe_select.
  - intros e. by apply safe_ret.
  - intros l Hl. by apply safe_ret.
Qed.

(** ** What the statements do to the tables *)

Lemma db_rows_put r db id : db_rows (put_row r db) !! id =
  if decide (id = inst_ID r.1) then Some r.1 else db_rows db !! id.
Proof.
  unfold db_rows. cbn. rewrite fmap_insert. case_decide as H; [subst; by rewrite lookup_insert_eq|].
  by rewrite lookup_insert_ne.
Qed.

Lemma db_rows_id db id i : db_wf db → db_rows db !! id = Some i → inst_ID i = id.
Proof. intros Hwf. unfold db_rows. rewrite lookup_fmap, fmap_Some. intros (r & Hr & ->). by apply (wf_id db Hwf). Qed.

(** A new version of an own row, or a row that was not there. *)
Lemma put_row_held r db :
  db_held db → (mine (inst_ID r.1) → own_row r.1) → (mine (inst_ID r.1) ∨ db_rows db !! inst_ID r.1 = None) →
  db_held (put_row r db).
Proof.
  intros [H1 H2 H3] Hr Hm. split; [| |exact H3].
  - intros id i. rewrite db_rows_put. case_decide as E; [|by apply H1]. intros [= <-] Hid. apply Hr. by rewrite <- E.
  - intros id i Hi Hid. rewrite db_rows_put. case_decide as E; [|by apply H2]. subst id.
    destruct Hm as [Hm|Hm]; [done|]. specialize (H2 _ _ Hi Hid). congruence.
Qed.

Lemma update_held id f db n db' :
  db_good db → mine id → (∀ i, inst_ID (f i) = inst_ID i) → (∀ i, own_row i → own_row (f i)) →
  update_instance id f db = Ok (n, db') → db_held db'.
Proof.
  intros [Hwf Hh] Hid Hf Ho. unfold update_instance.
  destruct (db_instances db !! id) as [[i sec]|] eqn:Hi; [|by intros [= _ <-]].
  destruct (row_error _ _); [done|]. intros [= _ <-].
  assert (Hrow : db_rows db !! id = Some i) by (unfold db_rows; by rewrite lookup_fmap, Hi).
  pose proof (db_rows_id _ _ _ Hwf Hrow) as Hiid. apply put_row_held; cbn.
  - done.
  - intros _. apply Ho. by eapply (held_rows db Hh id).
  - left. by rewrite Hf, Hiid.
Qed.

Lemma insert_held mk db i db' :
  db_good db → (∀ db, inst_ContainerID (mk db).1 = "" ∧ inst_DataVolume (mk db).1 = "") → "" ∉ foreign →
  insert_row mk db = Ok (i, db') → db_held db' ∧ (mine (inst_ID i) → own mine foreign i).
Proof.
  intros [Hwf Hh] Hmk Hn. unfold insert_row.
  destruct (db_instances db !! _) as [|] eqn:Hi; [done|]. destruct (row_error _ _); [done|]. intros [= <- <-].
  assert (Ho : own_row (mk db).1) by (destruct (Hmk db) as [Hc Hv]; split; [by rewrite Hc|by left]).
  split; [|by split]. apply put_row_held; [done|done|]. right. unfold db_rows. by rewrite lookup_fmap, Hi.
Qed.

Lemma delete_instance_held id db n db' :
  db_good db → mine id → delete_instance id db = Ok (n, db') → db_held db'.
Proof.
  intros [Hwf [H1 H2 H3]] Hid. unfold delete_instance.
  destruct (db_instances db !! id); [|by intros [= _ <-]]. intros [= _ <-]. split.
  - intros id' i. unfold db_rows. cbn. rewrite fmap_delete. intros [_ Hi]%lookup_delete_Some. by apply H1.
  - intros id' i Hi Hno. unfold db_rows. cbn. rewrite fmap_delete, lookup_delete_ne; [by apply H2|].
    by intros ->.
  - intros id' c. cbn. rewrite lookup_fmap, fmap_Some. intros (c0 & Hc & ->). unfold null_primary.
    case_bool_decide; by apply (H3 id' c0).
Qed.

Lemma delete_cluster_held id db n db' :
  db_good db → (∀ id, mine id) → delete_cluster id db = Ok (n, db') → db_held db'.
Proof.
  intros [Hwf [H1 H2 H3]] Hall. unfold delete_cluster.
  destruct (db_clusters db !! id); [|by intros [= _ <-]]. intros [= _ <-]. split.
  - intros id' i. unfold db_rows. cbn. rewrite lookup_fmap, fmap_Some. intros (r & Hr & ->).
    apply map_lookup_filter_Some in Hr as [Hr _]. apply (H1 id'). unfold db_rows. by rewrite lookup_fmap, Hr.
  - intros id' i Hi Hno. by destruct Hno.
  - intros id' c1. cbn. rewrite lookup_fmap, fmap_Some. intros (c0 & [_ Hc]%lookup_delete_Some & ->). unfold null_primary.
    case_bool_decide; by apply (H3 id' c0).
Qed.

Lemma put_cluster_held c db : db_held db → cl_RouterContainerID c ∉ foreign → db_held (put_cluster c db).
Proof.
  intros [H1 H2 H3] Hc. split; [exact H1|exact H2|]. intros id c'. cbn.
  intros [[_ <-]|[_ Hc']]%lookup_insert_Some; [done|by eapply H3].
Qed.

Lemma update_cluster_held id f db n db' :
  db_good db → (∀ c, cl_RouterContainerID c ∉ foreign → cl_RouterContainerID (f c) ∉ foreign) →
  update_cluster id f db = Ok (n, db') → db_held db'.
Proof.
  intros [Hwf Hh] Hf. unfold update_cluster. destruct (db_clusters db !! id) as [c|] eqn:Hc; [|by intros [= _ <-]].
  destruct (cluster_error _ _); [done|]. intros [= _ <-]. apply put_cluster_held; [done|]. apply Hf.
  by eapply (held_routers db Hh).
Qed.

Lemma insert_cluster_held mk db c db' :
  db_good db → (∀ db, cl_RouterContainerID (mk db) = "") → "" ∉ foreign →
  insert_cluster mk db = Ok (c, db') → db_held db'.
Proof.
  intros [Hwf Hh] Hmk Hn. unfold insert_cluster. destruct (db_clusters db !! _); [done|].
  destruct (cluster_error _ _); [done|]. intros [= _ <-]. apply put_cluster_held; [done|]. by rewrite Hmk.
Qed.

(** ** The repositories *)

Lemma all_rows_own db i : db_good db → i ∈ all_rows db → mine (inst_ID i) → own mine foreign i.
Proof. intros [Hwf Hh] Hi%elem_of_all_rows Hm; [|done]. split; [done|]. by eapply (held_rows db Hh). Qed.

Lemma sorted_own (rel : relation Inst) `{!RelDecision rel} (P : Inst → Prop) `{!∀ i, Decision (P i)} db :
  db_good db → ∀ i, i ∈ merge_sort rel (filter P (all_rows db)) → mine (inst_ID i) → own mine foreign i.
Proof.
  intros Hg i. rewrite merge_sort_Permutation, list_elem_of_filter. intros [_ Hi]. by apply (all_rows_own db).
Qed.

Context (Hnamed : "" ∉ foreign).

Lemma update_care id f (Hf : ∀ i, inst_ID (f i) = inst_ID i) :
  mine id → (∀ i, own_row i → own_row (f i)) →
  safe state_held (lift_db (db_exec "instance" (update_instance id f)) (update_keeps id f Hf)) anything.
Proof.
  intros Hid Ho. apply safe_lift_db, safe_exec; [by apply update_instance_wf|].
  intros db n db' Hg. by apply update_held.
Qed.

Lemma update_cluster_care id f (Hf : ∀ c, cl_ID (f c) = cl_ID c) :
  (∀ c, cl_RouterContainerID c ∉ foreign → cl_RouterContainerID (f c) ∉ foreign) →
  safe state_held (lift_db (db_exec "cluster" (update_cluster id f)) (update_cluster_keeps id f Hf)) anything.
Proof.
  intros Ho. apply safe_lift_db, safe_exec; [by apply update_cluster_wf|].
  intros db n db' Hg. by apply update_cluster_held.
Qed.

Lemma Create_row_care n :
  safe db_good (Repository_Create seal n) (okay (λ i, mine (inst_ID i) → own mine foreign i)).
Proof.
  unfold Repository_Create. eapply (safe_try _ _ _ anything); [apply safe_okay; by apply safe_ret|]. intros _ _ db Hg.
  destruct (seal _ _) as [blob|e]; [|by split].
  match goal with |- context [statement (insert_row ?mk)] => set (body := insert_row mk) end.
  assert (Hs : safe db_good (statement body) (okay (λ i, mine (inst_ID i) → own mine foreign i))).
  { apply safe_statement; [apply insert_row_wf|]. intros db1 i db2 Hg1. by apply insert_held. }
  revert db Hg. apply (safe_try_or _ _ _ _ _ _ Hs); [|intros i Hi; by apply safe_ret].
  intros e. by destruct (is_unique e); apply safe_ret.
Qed.

Lemma Create_cluster_care n : safe db_good (Clusters_Create n) anything.
Proof.
  unfold Clusters_Create. apply (safe_anything _ _ (okay anything)).
  apply (safe_try _ _ _ anything); [apply safe_okay; by apply safe_ret|]. intros _ _. cbv zeta.
  apply (safe_try_or _ _ _ _ anything).
  - apply safe_statement; [apply insert_cluster_wf|]. intros db c db' Hg E. split; [|done].
    by eapply insert_cluster_held; [| |exact Hnamed|exact E].
  - intros e. by destruct (is_unique e); apply safe_fail.
  - intros c _. by apply safe_ret.
Qed.

Lemma Password_care id : safe db_good (Repository_Password opn id) anything.
Proof.
  unfold Repository_Password. apply (safe_try_or _ _ _ _ anything).
  - apply safe_select. done.
  - intros e. by apply safe_ret.
  - intros [blob|] _; [destruct (opn blob)|]; by apply safe_ret.
Qed.

Lemma metadb_instances_care : @StoreCare mine foreign DBState (metadb_instances seal opn) state_held.
Proof.
  split; intros; first [apply update_care; [done|]|apply safe_lift_db].
  - apply Create_row_care.
  - apply safe_queryOne. intros db a [Hwf Hh] Ha. rewrite <- lookup_fmap in Ha.
    assert (inst_ID a = id) by by apply (db_rows_id db). split; [done|]. split; [by subst|].
    by eapply (held_rows db Hh id).
  - apply safe_queryMany. intros db Hg i. rewrite merge_sort_Permutation. by apply all_rows_own.
  - apply safe_queryMany. intros db Hg. by apply sorted_own.
  - apply Password_care.
  - by intros i [].
  - intros i []. by split; [|right].
  - by intros i [].
  - by intros i [].
  - by intros i [].
  - by intros i [].
  - apply safe_exec; [apply delete_instance_wf|]. intros db n db' Hg. by apply delete_instance_held.
Qed.

Lemma metadb_clusters_care : @ClusterCare mine foreign DBState metadb_clusters state_held.
Proof.
  split; intros; first [by apply update_cluster_care|apply safe_lift_db].
  - apply Create_cluster_care.
  - apply safe_queryOne. intros db c [Hwf Hh] Hc. by eapply (held_routers db Hh).
  - apply safe_queryMany. intros db [Hwf Hh] c. rewrite merge_sort_Permutation.
    intros ([id c'] & -> & Hc%elem_of_map_to_list)%list_elem_of_fmap. by eapply (held_routers db Hh).
  - apply safe_exec; [apply delete_cluster_wf|]. intros db n db' Hg. by apply delete_cluster_held.
Qed.
End metadb.
