(* ===== verification/Stewardship.v ===== *)
(** * Stewardship: PgFleet touches only what is its own

    The handlers, the background tasks and the periodic passes of the program, wired
    as in [Wiring], over any runtime that keeps its contract and the meta database,
    with other goroutines interfering before every call to either.  [fleet_step] is
    one request, one task or one pass. *)

From stdpp Require Import gmap sets.
From S2P Require Import Prelude GoStrings Apperr GoMonad PgConfig Instances PgBackRest PgCat Runtime DockerFake Stores MetaDB Tables Provision ProvisionOps Samples Failover Backup BackupSafety Auth ClusterCtl Reconcile RemoteBackup AuditLog AsyncTracker ApiFleet Wiring ApiSafety Care CareServices.

(** ** The services of the handlers *)

Section interfaces.
Context (mine : string → Prop) (foreign : gset string) {S : Type} (good : S → Prop).

(** [InstanceProvisioner]. *)
Class InstanceProvisionerCare {IP : InstanceProvisioner S} : Prop := {
  care_ip_Provision ctx id p : mine id → safe good (ip_Provision ctx id p) anything;
  care_ip_Clone ctx id source p : mine id → own mine foreign source → safe good (ip_Clone ctx id source p) anything;
  care_ip_Start ctx id : mine id → safe good (ip_Start ctx id) anything;
  care_ip_Stop ctx id : mine id → safe good (ip_Stop ctx id) anything;
  care_ip_Restart ctx id : mine id → safe good (ip_Restart ctx id) anything;
  care_ip_Destroy ctx id b : mine id → safe good (ip_Destroy ctx id b) anything;
  care_ip_SetVisibility ctx id b : mine id → safe good (ip_SetVisibility ctx id b) anything;
  care_ip_DSN ctx id : mine id → safe good (ip_DSN ctx id) anything;
  care_ip_MarkError ctx id e : mine id → safe good (ip_MarkError ctx id e) anything;
  care_ip_emit p a b : safe good (ip_emit p a b) anything;
}.

(** [ClusterService]. *)
Class ClusterServiceCare {CV : ClusterService S} : Prop := {
  care_cs_Create ctx i : safe good (cs_Create ctx i) anything;
  care_cs_Provision ctx id p : safe good (cs_Provision ctx id p) anything;
  care_cs_Destroy ctx id b : safe good (cs_Destroy ctx id b) anything;
  care_cs_DSN ctx id host : safe good (cs_ConnectionDSN ctx id host) anything;
}.

(** [BackupRunner], [RemoteService], [RemoteTargetProvisioner]. *)
Class BackupRunnerCare {BR : BackupRunner S} : Prop := {
  care_br_Run ctx id t : mine id → safe good (br_Run ctx id t) anything;
  care_br_RunWith ctx id t o : mine id → safe good (br_RunWith ctx id t o) anything;
  care_br_Delete ctx id l : mine id → safe good (br_Delete ctx id l) anything;
  care_br_Verify ctx id : mine id → safe good (br_Verify ctx id) anything;
  care_br_List ctx id : safe good (br_List ctx id) anything;
  care_rs_Restore ctx id o p : mine id → safe good (rs_Restore ctx id o p) anything;
}.
Class RemoteServiceCare {RM : RemoteService S} : Prop := {
  care_rm_Capture ctx c : safe good (rm_Capture ctx c) anything;
  care_rm_List ctx : safe good (rm_List ctx) anything;
  care_rm_GetEntry ctx id : safe good (rm_GetEntry ctx id) anything;
  care_rm_RestoreInto ctx id dsn : safe good (rm_RestoreInto ctx id dsn) anything;
}.
Class RemoteTargetCare {RP : RemoteTargetProvisioner S} : Prop := {
  care_rp_Instance ctx sp : safe good (rp_ProvisionInstance ctx sp) anything;
  care_rp_Cluster ctx sp : safe good (rp_ProvisionCluster ctx sp) anything;
  care_rp_WaitReady ctx k id : safe good (rp_WaitReady ctx k id) anything;
  care_rp_MarkError ctx k id e : safe good (rp_MarkError ctx k id e) anything;
}.
End interfaces.

#[export] Hint Resolve care_ip_Provision care_ip_Clone care_ip_Start care_ip_Stop care_ip_Restart care_ip_Destroy
  care_ip_SetVisibility care_ip_DSN care_ip_MarkError care_ip_emit care_cs_Create care_cs_Provision care_cs_Destroy
  care_cs_DSN care_br_Run care_br_RunWith care_br_Delete care_br_Verify care_br_List care_rs_Restore care_rm_Capture
  care_rm_List care_rm_GetEntry care_rm_RestoreInto care_rp_Instance care_rp_Cluster care_rp_WaitReady
  care_rp_MarkError : care.

(** ** The handlers and the tasks *)

Section handlers.
Context {S : Type} {IS : InstanceStore S} {CS : ClusterStore S} {IP : InstanceProvisioner S}
  {CV : ClusterService S} {BR : BackupRunner S} {RM : RemoteService S} {RP : RemoteTargetProvisioner S}.
Context (mine : string → Prop) (foreign : gset string) (good : S → Prop) (Hall : ∀ id, mine id).
Context {SC : StoreCare mine foreign good} {CC : ClusterCare mine foreign good}
  {PC : InstanceProvisionerCare mine foreign good} {VC : ClusterServiceCare good} {BC : BackupRunnerCare mine good}
  {MC : RemoteServiceCare good} {TC : RemoteTargetCare good}.
#[local] Hint Extern 1 => lazymatch goal with |- mine _ => exact (Hall _) end : care.

(** A task that waits holds nothing foreign. *)
Definition task_held (t : Task) : Prop :=
  match t with TaskClone _ source => own mine foreign source | _ => True end.

Definition api_good : (S * AuditTable) * Async Task → Prop :=
  good_pair (good_pair good (λ _, True)) (λ a, Forall task_held (as_running a)).

Lemma svc_care {A} (m : M S A) P : safe good m P → safe api_good (svc m) P.
Proof. intros H. by apply safe_on_fst, safe_on_fst. Qed.
Lemma audit_care rec claims action target : safe api_good (audit rec claims action target) anything.
Proof. by apply safe_on_fst, safe_on_snd_any. Qed.
Lemma spawn_care t : task_held t → safe api_good (spawn t) anything.
Proof.
  intros Ht. apply safe_on_snd. intros [c l] Hl. split; [|done]. unfold Async_Go. cbn in *.
  destruct c; [done|]. cbn. apply Forall_app. auto.
Qed.
#[local] Hint Resolve audit_care spawn_care : care.
#[local] Hint Extern 1 (task_held _) => exact I : care.
#[local] Hint Extern 3 (safe _ (svc _) _) => apply svc_care : care.

Lemma run_task_care progress cloneBackup t :
  task_held t → safe good (run_task progress cloneBackup t) anything.
Proof. destruct t; intros Ht; cbn [run_task task_held] in *; unfold run_clone, run_remote; care. Qed.

Lemma lifecycle_care rec claims id fn action :
  (∀ ctx id, safe good (fn ctx id) anything) → safe api_good (lifecycle rec claims id fn action) anything.
Proof. intros Hf. unfold lifecycle. care. Qed.
#[local] Hint Resolve lifecycle_care : care.

Create HintDb fleet.
#[local] Hint Unfold InstancesHandler_Create InstancesHandler_Visibility InstancesHandler_Clone InstancesHandler_List
  InstancesHandler_Get InstancesHandler_Start InstancesHandler_Stop InstancesHandler_Restart InstancesHandler_Destroy
  InstancesHandler_Connection ClustersHandler_Create ClustersHandler_List ClustersHandler_Get ClustersHandler_Destroy
  ClustersHandler_Connection BackupsHandler_Create BackupsHandler_List BackupsHandler_Delete BackupsHandler_Verify
  BackupsHandler_Restore RemoteHandler_Capture RemoteHandler_List RemoteHandler_Restore : fleet.

Lemma handler_care rec host h : fleet_handler rec host h → safe api_good h anything.
Proof.
  intros []; autounfold with fleet; care; apply svc_care; care.
Qed.
End handlers.

(** Tasks of single instances, which need nothing of the whole fleet. *)
Section tasks.
Context {S : Type} {IP : InstanceProvisioner S} {CV : ClusterService S} {BR : BackupRunner S} {RM : RemoteService S}
  {RP : RemoteTargetProvisioner S}.
Context (mine : string → Prop) (foreign : gset string) (good : S → Prop).
Context {PC : InstanceProvisionerCare mine foreign good} {BC : BackupRunnerCare mine good}.

Lemma run_task_on_care progress cloneBackup t :
  match t with
  | TaskProvision id | TaskVisibility id _ | TaskBackup id _ _ | TaskVerify id | TaskRestore id _ => mine id
  | TaskClone id source => mine id ∧ own mine foreign source
  | TaskCluster _ | TaskRemote _ _ _ => False
  end → safe good (run_task progress cloneBackup t) anything.
Proof. destruct t; intros Ht; try done; [..|destruct Ht| | |]; cbn [run_task]; unfold run_clone; care. Qed.
End tasks.

(** ** The wired program *)

Section beside.
Context (mine : string → Prop) (foreign : gset string) {D T : Type} (good : D → Prop).
Notation goodT := (good_pair good (λ _ : T, True)).

Lemma store_beside_care {IS : InstanceStore D} :
  StoreCare mine foreign good → @StoreCare mine foreign (D * T) store_beside goodT.
Proof. intros []. split; intros; apply safe_on_fst; eauto. Qed.
Lemma clusters_beside_care {CS : ClusterStore D} :
  ClusterCare mine foreign good → @ClusterCare mine foreign (D * T) clusters_beside goodT.
Proof. intros []. split; intros; apply safe_on_fst; eauto. Qed.
Lemma catalog_beside_care {CT : catalog T} : @CatalogCare (D * T) catalog_beside goodT.
Proof. split; intros; by apply safe_on_snd_any. Qed.
End beside.

(** The target of a remote restore, over the other services. *)
Section target.
Context {S : Type} {IS : InstanceStore S} {CS : ClusterStore S} {IP : InstanceProvisioner S} {CV : ClusterService S}.
Context (mine : string → Prop) (foreign : gset string) (good : S → Prop) (Hall : ∀ id, mine id).
Context {SC : StoreCare mine foreign good} {CC : ClusterCare mine foreign good}
  {PC : InstanceProvisionerCare mine foreign good} {VC : ClusterServiceCare good}.
#[local] Hint Extern 1 => lazymatch goal with |- mine _ => exact (Hall _) end : care.

Lemma remote_target_care : @RemoteTargetCare S good remote_target.
Proof.
  split; intros; cbn; unfold target_ProvisionInstance, target_ProvisionCluster, target_WaitReady, target_MarkError; care.
Qed.
End target.

Section wired.
Context {R D : Type} {RT : ContainerRuntime R} {PR : Process R} {ST : InstanceStore D} {CS : ClusterStore D}
  {CT : catalog D} {ER : EventRecorder (R * D)}.
Context (hmac_hex : string → string → string) (json_Unmarshal : string → result (list rawStanza)).
Context (opts : Options) (defaultRepo : string).
Context (mine : string → Prop) (foreign : gset string) (goodR : R → Prop) (goodD : D → Prop).
Context {RC : RuntimeCare mine foreign goodR} {SC : StoreCare mine foreign goodD} {CC : ClusterCare mine foreign goodD}
  {KC : CatalogCare goodD} {EC : RecorderCare (good_pair goodR goodD)}.
Notation good := (good_pair goodR goodD).

Lemma wired_instances_care : @StoreCare mine foreign (R * D) wired_instances good.
Proof. destruct SC. split; intros; apply safe_on_snd; eauto. Qed.
Lemma wired_clusters_care : @ClusterCare mine foreign (R * D) wired_clusters good.
Proof. destruct CC. split; intros; apply safe_on_snd; eauto. Qed.
Lemma wired_router_care : @RouterCare foreign (R * D) wired_router good.
Proof. intros ctx cid force H. by apply safe_on_fst, care_RemoveContainer. Qed.
Lemma wired_promoter_care : @PromoterCare mine foreign (R * D) (wired_promoter opts) good.
Proof.
  split; intros;
    [eapply PrimaryReachable_care|eapply ReplayLSN_care|eapply Promote_care|eapply Fence_care
     |eapply PrepareReclone_care|eapply ProvisionReplica_care|eapply StartRouter_care]; eassumption.
Qed.
Lemma wired_cluster_provisioner_care :
  @ClusterProvisionerCare mine foreign (R * D) (wired_cluster_provisioner hmac_hex opts) good.
Proof.
  split; intros;
    [eapply Provision_care|eapply ProvisionReplica_care|eapply StartRouter_care|eapply Destroy_care
     |eapply DropReplicationSlot_care|eapply emit_care]; eassumption.
Qed.
Lemma wired_provisioner_care :
  @InstanceProvisionerCare mine foreign (R * D) good (wired_provisioner hmac_hex json_Unmarshal opts).
Proof.
  split; intros;
    [eapply Provision_care|eapply Clone_care|eapply Start_care|eapply Stop_care|eapply Restart_care
     |eapply Destroy_care|eapply SetVisibility_care|eapply DSN_care|eapply MarkError_care|eapply emit_care]; eassumption.
Qed.
Lemma wired_backups_care :
  @BackupRunnerCare mine (R * D) good (wired_backups hmac_hex json_Unmarshal opts).
Proof.
  split; intros;
    [eapply RunBackup_care|eapply RunWith_care|eapply DeleteBackup_care|eapply VerifyBackups_care
     |eapply ListBackups_care|eapply Restore_care]; eassumption.
Qed.

Context (Hall : ∀ id, mine id).

Lemma wired_cluster_service_care :
  @ClusterServiceCare (R * D) good (wired_cluster_service hmac_hex opts defaultRepo).
Proof.
  pose proof wired_instances_care. pose proof wired_clusters_care. pose proof wired_router_care.
  pose proof wired_cluster_provisioner_care. pose proof (foreign_named (mine:=mine) (foreign:=foreign) (good:=goodR)).
  split; intros;
    [eapply Create_care|eapply ProvisionCluster_care|eapply DestroyCluster_care|eapply ConnectionDSN_care]; eassumption.
Qed.
End wired.

(** ** One step of the program *)

Section fleet.
Context {R T : Type} {RT : ContainerRuntime R} {PR : Process R} {DL : DockerLaws R} {LL : LabelLaws R}.
(** The other tables, with the catalog and the timeline, and the service of the
    remote dumps, which works beside them. *)
Context {CT : catalog T} {ET : EventRecorder T} {MT : RemoteService T}.
Context (hmac_hex : string → string → string) (json_Unmarshal : string → result (list rawStanza)).
Context (seal : Z → string → result string) (opn : string → result string).
Context (opts : Options) (defaultRepo host : string) (rec cloneBackup : bool) (progress : ProgressFunc) (threshold : Z).
(** What the other goroutines do between two calls. *)
Context (envR : R → R) (envD : DBState → DBState).

Notation RL := (R * list Call)%type.
Notation W := (RL * (DBState * T))%type.
Definition Sys : Type := ((W * AuditTable) * Async Task) * gmap string Z.

#[local] Instance sys_runtime : ContainerRuntime RL := @traced_runtime R (interfered_runtime envR).
#[local] Instance sys_process : Process RL := process_fst.
#[local] Instance sys_rows : InstanceStore (DBState * T) := @store_beside _ T (@interfered_instances _ (metadb_instances seal opn) envD).
#[local] Instance sys_cluster_rows : ClusterStore (DBState * T) := @clusters_beside _ T (@interfered_clusters _ metadb_clusters envD).
#[local] Instance sys_catalog : catalog (DBState * T) := catalog_beside.
#[local] Instance sys_events : EventRecorder W := {| event_Record ctx e := on_snd (on_snd (event_Record ctx e)) |}.
#[local] Instance sys_dumps : RemoteService W := {|
  rm_Capture ctx c := on_snd (on_snd (rm_Capture ctx c));
  rm_List ctx := on_snd (on_snd (rm_List ctx));
  rm_GetEntry ctx id := on_snd (on_snd (rm_GetEntry ctx id));
  rm_RestoreInto ctx id dsn := on_snd (on_snd (rm_RestoreInto ctx id dsn));
|}.
#[local] Instance sys_instances : InstanceStore W := wired_instances.
#[local] Instance sys_clusters : ClusterStore W := wired_clusters.
#[local] Instance sys_provisioner : InstanceProvisioner W := wired_provisioner hmac_hex json_Unmarshal opts.
#[local] Instance sys_cluster_service : ClusterService W := wired_cluster_service hmac_hex opts defaultRepo.
#[local] Instance sys_backups : BackupRunner W := wired_backups hmac_hex json_Unmarshal opts.
#[local] Instance sys_target : RemoteTargetProvisioner W := wired_target hmac_hex json_Unmarshal opts defaultRepo.

(** A request is answered, a background task is carried out and forgotten, the
    failover controller makes a pass, the rows are reconciled with the containers,
    the scheduled backups are taken, a restore is rehearsed. *)
Inductive fleet_step : Sys → Sys → Prop :=
  | by_request h s : fleet_handler rec host h → fleet_step s ((h s.1).2, s.2)
  | by_task w aud c l1 t l2 st :
      fleet_step (w, aud, mkAsync c (l1 ++ t :: l2), st)
                 ((run_task progress cloneBackup t w).2, aud, mkAsync c (l1 ++ l2), st)
  | by_failover w aud a st :
      fleet_step (w, aud, a, st)
        (let '(w', st') := (wired_failover hmac_hex opts threshold (w, st)).2 in (w', aud, a, st'))
  | by_reconcile w aud a st : fleet_step (w, aud, a, st) ((Reconcile CallerCtx w).2, aud, a, st)
  | by_schedule type w aud a st :
      fleet_step (w, aud, a, st) ((RunScheduled json_Unmarshal true CallerCtx type w).2, aud, a, st)
  | by_drill id w aud a st :
      fleet_step (w, aud, a, st) ((RestoreDrill hmac_hex opts CallerCtx id w).2, aud, a, st).

Lemma by_task_at s c l1 t l2 :
  s.1.2 = mkAsync c (l1 ++ t :: l2) →
  fleet_step s ((run_task progress cloneBackup t s.1.1.1).2, s.1.1.2, mkAsync c (l1 ++ l2), s.2).
Proof. destruct s as [[[w aud] a] st]. cbn. intros ->. constructor. Qed.

(** The operations on single instances; [F] are the containers of the others. *)
Definition task_on (mine : string → Prop) (F : gmap string ContainerSpec) (t : Task) : Prop :=
  match t with
  | TaskProvision id | TaskVisibility id _ | TaskBackup id _ _ | TaskVerify id | TaskRestore id _ => mine id
  | TaskClone id source => mine id ∧ own mine (dom F) source
  | TaskCluster _ | TaskRemote _ _ _ => False
  end.
Inductive instance_step (mine : string → Prop) (F : gmap string ContainerSpec) : W → W → Prop :=
  | on_task t w : task_on mine F t → instance_step mine F w (run_task progress cloneBackup t w).2
  | on_start ctx id w : mine id → instance_step mine F w (ip_Start ctx id w).2
  | on_stop ctx id w : mine id → instance_step mine F w (ip_Stop ctx id w).2
  | on_restart ctx id w : mine id → instance_step mine F w (ip_Restart ctx id w).2
  | on_destroy ctx id retain w : mine id → instance_step mine F w (ip_Destroy ctx id retain w).2
  | on_delete_backup ctx id label w : mine id → instance_step mine F w (br_Delete ctx id label w).2
  | on_drill ctx id w : mine id → instance_step mine F w (RestoreDrill hmac_hex opts ctx id w).2.

(** ** The invariant of the whole program *)

(** Everything that is labelled as PgFleet labels it is its own. *)
Definition any : string → Prop := λ _, True.

Record sys_held (F : gmap string ContainerSpec) (V : gset string) (s : Sys) : Prop := {
  sys_docker : docker_held any F V s.1.1.1.1.1;
  sys_calls : Forall (call_allowed any (dom F)) s.1.1.1.1.2;
  sys_db : db_held any (dom F) ∅ (`s.1.1.1.2.1);
  sys_tasks : Forall (task_held any (dom F)) (as_running s.1.2);
}.

Section invariant.
Context (mine : string → Prop) (F : gmap string ContainerSpec) (V : gset string) (rows0 : gmap string Inst).
Context (Hnamed : F !! "" = None).
Context (HenvR : ∀ r, docker_held mine F V r → docker_held mine F V (envR r)).
Context (HenvD : ∀ d, state_held mine (dom F) rows0 d → state_held mine (dom F) rows0 (envD d)).

Definition goodRL : RL → Prop := good_pair (docker_held mine F V) (Forall (call_allowed mine (dom F))).
Definition goodDT : DBState * T → Prop := good_pair (state_held mine (dom F) rows0) (λ _, True).
Definition goodW : W → Prop := good_pair goodRL goodDT.

#[local] Instance sys_runtime_care : RuntimeCare mine (dom F) goodRL.
Proof. by apply runtime_traced, runtime_interfered, docker_care. Qed.
Lemma named_foreign : "" ∉ dom F.
Proof. by apply not_elem_of_dom. Qed.
#[local] Instance sys_rows_care : StoreCare mine (dom F) goodDT.
Proof. apply store_beside_care, instances_interfered; [done|]. apply metadb_instances_care, named_foreign. Qed.
#[local] Instance sys_cluster_rows_care : ClusterCare mine (dom F) goodDT.
Proof. apply clusters_beside_care, clusters_interfered; [done|]. apply metadb_clusters_care, named_foreign. Qed.
#[local] Instance sys_catalog_care : CatalogCare goodDT.
Proof. apply catalog_beside_care. Qed.
#[local] Instance sys_events_care : RecorderCare goodW.
Proof. intros ctx e. by apply safe_on_snd, safe_on_snd_any. Qed.
#[local] Instance sys_dumps_care : RemoteServiceCare goodW.
Proof. split; intros; by apply safe_on_snd, safe_on_snd_any. Qed.
#[local] Instance sys_instances_care : StoreCare mine (dom F) goodW.
Proof. apply wired_instances_care; apply _. Qed.
#[local] Instance sys_clusters_care : ClusterCare mine (dom F) goodW.
Proof. apply wired_clusters_care; apply _. Qed.
#[local] Instance sys_provisioner_care : InstanceProvisionerCare mine (dom F) goodW.
Proof. apply (wired_provisioner_care hmac_hex json_Unmarshal opts mine (dom F) goodRL goodDT). Qed.
#[local] Instance sys_backups_care : BackupRunnerCare mine goodW.
Proof. apply (wired_backups_care hmac_hex json_Unmarshal opts mine (dom F) goodRL goodDT). Qed.

Section everything.
Context (Hall : ∀ id, mine id).
#[local] Instance sys_cluster_service_care : ClusterServiceCare goodW.
Proof. by apply (wired_cluster_service_care hmac_hex opts defaultRepo mine (dom F) goodRL goodDT). Qed.
#[local] Instance sys_target_care : RemoteTargetCare goodW.
Proof. apply (remote_target_care mine (dom F) goodW Hall). Qed.

Notation api_held := (api_good mine (dom F) goodW).

Lemma wired_failover_care : safe (good_pair goodW (λ _ : gmap string Z, True)) (wired_failover hmac_hex opts threshold) anything.
Proof.
  pose proof (wired_promoter_care opts mine (dom F) goodRL goodDT).
  pose proof (wired_router_care (RT:=sys_runtime) (PR:=sys_process) mine (dom F) goodRL goodDT).
  eapply Run_care; eassumption || apply _.
Qed.

Lemma fleet_step_held s s' : fleet_step s s' → api_held s.1 → api_held s'.1.
Proof.
  intros Hs Hg. destruct Hs as [h [s st] Hh|w aud c l1 t l2 st|w aud a st|w aud a st|type w aud a st|id w aud a st].
  - by apply (handler_care mine (dom F) goodW Hall rec host h Hh).
  - destruct Hg as [[Hw _] Ht]. cbn in *. apply Forall_app in Ht as [Ht1 [Ht Ht2]%Forall_cons].
    split; [split; [|done]|by apply Forall_app]. cbn.
    by apply (run_task_care mine (dom F) goodW Hall progress cloneBackup t Ht).
  - destruct Hg as [[Hw _] Ht]. destruct (wired_failover_care (w, st)) as [H _]; [by split|].
    destruct (wired_failover hmac_hex opts threshold (w, st)) as [r [w' st']]. by destruct H.
  - destruct Hg as [[Hw _] Ht]. split; [split; [|done]|done]. cbn.
    by destruct (Reconcile_care mine (dom F) goodRL goodDT CallerCtx Hall w Hw).
  - destruct Hg as [[Hw _] Ht]. split; [split; [|done]|done]. cbn.
    by destruct (RunScheduled_care json_Unmarshal true mine (dom F) goodRL goodDT CallerCtx type Hall w Hw).
  - destruct Hg as [[Hw _] Ht]. split; [split; [|done]|done]. cbn.
    by destruct (RestoreDrill_care hmac_hex opts mine (dom F) goodRL goodDT CallerCtx id (Hall id) w Hw).
Qed.
End everything.

Lemma instance_step_held w w' : instance_step mine F w w' → goodW w → goodW w'.
Proof.
  intros Hs Hw. destruct Hs as [t w Ht|ctx id w Hid|ctx id w Hid|ctx id w Hid|ctx id b w Hid|ctx id l w Hid|ctx id w Hid].
  - by destruct (run_task_on_care mine (dom F) goodW progress cloneBackup t Ht w Hw).
  - by destruct (care_ip_Start mine (dom F) goodW ctx id Hid w Hw).
  - by destruct (care_ip_Stop mine (dom F) goodW ctx id Hid w Hw).
  - by destruct (care_ip_Restart mine (dom F) goodW ctx id Hid w Hw).
  - by destruct (care_ip_Destroy mine (dom F) goodW ctx id b Hid w Hw).
  - by destruct (care_br_Delete mine goodW ctx id l Hid w Hw).
  - by destruct (RestoreDrill_care hmac_hex opts mine (dom F) goodRL goodDT ctx id Hid w Hw).
Qed.
End invariant.


(** C9: Operations on some instances never reach the others: whatever is done with
    them, the containers and volumes of the other instances, and of anyone else,
    are exactly what they were, their rows too, and no call named one of them. *)
Theorem instances_isolated mine F V w w' :
  (∀ r, docker_held mine F V r → docker_held mine F V (envR r)) →
  (∀ d, state_held mine (dom F) (db_rows (`w.2.1)) d → state_held mine (dom F) (db_rows (`w.2.1)) (envD d)) →
  docker_held mine F V w.1.1 → db_held mine (dom F) ∅ (`w.2.1) → w.1.2 = [] →
  rtc (instance_step mine F) w w' →
  (∀ cid sp, ¬ own_labels mine (cs_Labels sp) → ctrs w'.1.1 !! cid = Some sp ↔ ctrs w.1.1 !! cid = Some sp) ∧
  (∀ v, ¬ own_volume mine v → v ∈ vols w'.1.1 ↔ v ∈ vols w.1.1) ∧
  (∀ id i, ¬ mine id → db_rows (`w.2.1) !! id = Some i → db_rows (`w'.2.1) !! id = Some i) ∧
  Forall (call_allowed mine (dom F)) w'.1.2.
Proof.
  intros HR HD Hd Hb Hl Hs. assert (Hn := held_named _ _ _ _ Hd).
  cut (goodW mine F V (db_rows (`w.2.1)) w').
  { intros [[H1 H2] [H3 _]]. split_and!; [| | |done].
    - intros cid sp Hno. by rewrite (held_containers _ _ _ _ H1), (held_containers _ _ _ _ Hd).
    - intros v Hno. by rewrite (held_volumes _ _ _ _ H1), (held_volumes _ _ _ _ Hd).
    - intros id i Hid Hi. by apply (held_others _ _ _ _ H3). }
  assert (H0 : goodW mine F V (db_rows (`w.2.1)) w).
  { destruct Hb as [Hb1 _ Hb3]. assert (Hw : Forall (call_allowed mine (dom F)) w.1.2) by by rewrite Hl.
    by split; [split|split; [split|]]. }
  clear Hd Hb Hl. revert HD H0. generalize (db_rows (`w.2.1)). intros rows0 HD H0.
  induction Hs as [w|w1 w2 w3 H12 _ IH]; [done|]. apply IH.
  by apply (instance_step_held mine F V rows0 Hn HR HD _ _ H12).
Qed.
End fleet.

(** ** Concrete runs *)

(** A container of somebody else and a volume of theirs; meanwhile another goroutine
    creates a volume of instance [id-9] and writes its status, again and again. *)
Definition theirs : ContainerSpec :=
  mkSpec "registry" "registry:2" [] ∅ {["team" := "infra"]} [] [mkMount "registry-data" "/data" false] [] "" "".
Definition beside_start : FakeWorld :=
  let RT := fake_runtime sample_hooks_ok in
  (CreateVolume Background "registry-data" ∅ (CreateContainer Background theirs sample_world).2).2.
Definition other_docker (r : FakeWorld) : FakeWorld :=
  (@CreateVolume _ (fake_runtime sample_hooks_ok) Background (volumeName "data" "id-9") ∅ r).2.
Definition other_rows (d : DBState) : DBState :=
  (@repo_SetStatus _ sample_instances Background "id-9" StatusRunning "" d).2.

Notation sample_sys := (Sys (R := FakeWorld) (T := CatTable)).
Definition beside_sys : sample_sys :=
  (((beside_start, []), (sample_empty, mkTable sample_env 0 ∅)), mkTable sample_env 0 ∅, NewAsync, ∅).
Definition beside_step : sample_sys → sample_sys → Prop :=
  @fleet_step _ _ (fake_runtime sample_hooks_ok) fake_process _ no_recorder no_dumps sample_hmac sample_json sample_seal sample_open
    sample_opts RepoLocal "localhost" true true Progress 3 other_docker other_rows.

Definition beside_held : gmap string ContainerSpec → gset string → sample_sys → Prop :=
  @sys_held _ _ (fake_runtime sample_hooks_ok) fake_process (fake_laws _).

Lemma theirs_foreign : ¬ own_labels any (cs_Labels theirs).
Proof. by intros [? _]. Qed.

Lemma registry_foreign : ¬ own_volume any "registry-data".
Proof. intros (id & _ & [H|[H|[H|[st H]]]]); unfold volumeName in H; cbn in H; discriminate. Qed.

Lemma other_docker_held F V (r : FakeWorld) :
  @docker_held _ (fake_runtime sample_hooks_ok) fake_process (fake_laws _) any F V r →
  @docker_held _ (fake_runtime sample_hooks_ok) fake_process (fake_laws _) any F V (other_docker r).
Proof.
  intros Hr. pose proof (docker_care (LL := fake_labels sample_hooks_ok) any F V (held_named _ _ _ _ Hr)) as HC.
  by destruct (care_CreateVolume (RuntimeCare := HC) Background (volumeName "data" "id-9") ∅
    (own_data_volume any "id-9" I) r Hr).
Qed.

Lemma other_rows_held F d : "" ∉ F → state_held any F ∅ d → state_held any F ∅ (other_rows d).
Proof.
  intros Hn Hd. pose proof (metadb_instances_care sample_seal sample_open any F ∅ Hn) as HC.
  by destruct (care_SetStatus (StoreCare := HC) Background "id-9" StatusRunning "" I d Hd).
Qed.


(** A second instance is provisioned, stopped and destroyed beside the first. *)
Notation alone_step := (@instance_step FakeWorld CatTable (fake_runtime sample_hooks_ok) fake_process _ no_recorder no_dumps
  sample_hmac sample_json sample_seal sample_open sample_opts RepoLocal true Progress (λ r, r) (λ d, d)).

Lemma sample_running_rows :
  db_held (λ id, id = "id-2") (dom (fake_ctrs sample_running.1)) ∅ (`sample_running.2).
Proof.
  split; [|done|].
  - intros id i Hi ->. assert (Hr : (λ j, (inst_ContainerID j, inst_DataVolume j)) <$> db_rows (`sample_running.2) !! "id-2" = Some ("", ""))
      by (vm_compute; reflexivity).
    rewrite Hi in Hr. cbn in Hr. injection Hr as Hc Hv. split; [|by left]. rewrite Hc.
    apply not_elem_of_dom. vm_compute. reflexivity.
  - intros id c. assert (Hc : db_clusters (`sample_running.2) = ∅) by (vm_compute; reflexivity). rewrite Hc, lookup_empty. intros [=].
Qed.

Lemma sample_running_docker :
  @docker_held _ (fake_runtime sample_hooks_ok) fake_process (fake_laws _) (λ id, id = "id-2")
    (fake_ctrs sample_running.1) (fake_vols sample_running.1) sample_running.1.
Proof.
  split; [vm_compute; reflexivity| |done|done].
  assert (Hl : bool_decide (map_Forall (λ _ sp, cs_Labels sp !! LabelInstance = Some "id-1") (fake_ctrs sample_running.1)) = true)
    by (vm_compute; reflexivity).
  apply bool_decide_eq_true in Hl. intros cid sp Hsp (_ & id & -> & Hid). by rewrite (Hl _ _ Hsp) in Hid.
Qed.

Lemma instances_isolated_witness :
  let mine := λ id, id = "id-2" in let F := fake_ctrs sample_running.1 in
  let w := ((sample_running.1, []), (sample_running.2, mkTable sample_env 0 ∅)) in
  ∃ w1 w2, rtc (alone_step mine F) w w1 ∧ dom (fake_ctrs w1.1.1) = {["fake-1"; "fake-2"]} ∧
    rtc (alone_step mine F) w1 w2 ∧ fake_ctrs w2.1.1 !! "fake-1" = F !! "fake-1" ∧ is_Some (F !! "fake-1") ∧
    Forall (call_allowed mine (dom F)) w2.1.2.
Proof.
  intros mine F w.
  assert (∃ w1 w2, rtc (alone_step mine F) w w1 ∧ dom (fake_ctrs w1.1.1) = {["fake-1"; "fake-2"]} ∧
    rtc (alone_step mine F) w1 w2) as (w1 & w2 & H1 & D1 & H2).
  { do 2 eexists. split; [|split].
    - eapply rtc_l; [by eapply on_task with (t := TaskProvision "id-2")|]. apply rtc_refl.
    - vm_compute. reflexivity.
    - eapply rtc_l; [by eapply on_stop with (ctx := CallerCtx) (id := "id-2")|].
      eapply rtc_l; [by eapply on_destroy with (ctx := CallerCtx) (id := "id-2") (retain := false)|]. apply rtc_refl. }
  destruct (instances_isolated (RT := fake_runtime sample_hooks_ok) (LL := fake_labels _) (ET := no_recorder) (MT := no_dumps)
    sample_hmac sample_json sample_seal sample_open sample_opts RepoLocal true Progress (λ r, r) (λ d, d) mine F (fake_vols sample_running.1) w w2) as (Hc & _ & _ & Hl).
  - done.
  - done.
  - exact sample_running_docker.
  - exact sample_running_rows.
  - done.
  - by eapply rtc_trans.
  - exists w1, w2. split_and!; [done..| | |done].
    + destruct (F !! "fake-1") as [sp|] eqn:E; [|by vm_compute in E].
      apply Hc; [|exact E]. by apply (held_foreign _ _ _ _ sample_running_docker "fake-1").
    + vm_compute. eexists. reflexivity.
Defined.
